(** * S.H.A.M. reliable datagram transport: a shallow embedding of [sham.c]

    The development follows [src/sham.h] and [src/sham.c].  Fixed-width C
    integers are carried as [Z] with their wrap-around written out, the
    arrays [send_window] and [ooo_buffer] are lists of ten slots updated by
    index, and everything the code asks of its environment (the UDP socket,
    the wall clock, [rand]) is read from an explicit [world] of oracles, so
    that every function below evaluates on concrete inputs.

    Logging ([sham_log], [sham_verbose_log], the [log_file] fields and the
    function-static [last_advertised_window], which only decides whether a
    trace line is printed) has no influence on the protocol state and is
    left out. *)

From Stdlib Require Import QArith Qround.
From stdpp Require Import base numbers list.

Local Open Scope Z_scope.

(** ** Machine integers *)

Definition u8 (x : Z) : Z := x mod 2 ^ 8.
Definition u16 (x : Z) : Z := x mod 2 ^ 16.
Definition u32 (x : Z) : Z := x mod 2 ^ 32.
(** [size_t] is 64 bits wide (an LP64 host such as x86-64 Linux). *)
Definition usize (x : Z) : Z := x mod 2 ^ 64.
(** Conversion to a 32-bit two's-complement [int]. *)
Definition to_int (x : Z) : Z := (x + 2 ^ 31) mod 2 ^ 32 - 2 ^ 31.

Definition INT_MAX : Z := 2 ^ 31 - 1.
Definition UINT32_MAX : Z := 2 ^ 32 - 1.
Definition RAND_MAX : Z := 2147483647.

(** Index of a C array access; all indices computed by the code are
    non-negative. *)
Definition ix (i : Z) : nat := Z.to_nat i.

(** ** Byte order

    The host is little-endian (x86-64), so
    [htonl]/[ntohl] reverse the four bytes of a 32-bit value and
    [htons]/[ntohs] swap the two bytes of a 16-bit value. *)

Definition bswap32 (x : Z) : Z :=
  (x mod 256) * 2 ^ 24 + (x / 2 ^ 8 mod 256) * 2 ^ 16
  + (x / 2 ^ 16 mod 256) * 2 ^ 8 + x / 2 ^ 24 mod 256.

Definition bswap16 (x : Z) : Z := (x mod 256) * 2 ^ 8 + x / 2 ^ 8 mod 256.

Definition htonl : Z -> Z := bswap32.
Definition ntohl : Z -> Z := bswap32.
Definition htons : Z -> Z := bswap16.
Definition ntohs : Z -> Z := bswap16.

Definition of_bytes4 (b0 b1 b2 b3 : Z) : Z :=
  b0 + 256 * (b1 + 256 * (b2 + 256 * b3)).

Definition is_byte (b : Z) : Prop := 0 <= b < 256.

(** ** Protocol constants ([sham.h]) *)

Definition SHAM_SYN : Z := 1.
Definition SHAM_ACK : Z := 2.
Definition SHAM_FIN : Z := 4.

Definition SHAM_MAX_DATA_SIZE : Z := 1024.
Definition SHAM_WINDOW_SIZE : Z := 10.
Definition SHAM_RTO_MS : Z := 500.
Definition SHAM_MAX_RETRIES : Z := 5.
(** [sizeof(struct sham_header)]: two [uint32_t] and two [uint16_t], no
    padding. *)
Definition SHAM_HEADER_SIZE : Z := 12.
Definition SHAM_MAX_PACKET_SIZE : Z := SHAM_HEADER_SIZE + SHAM_MAX_DATA_SIZE.

Definition SHAM_DEFAULT_RECV_BUFFER_SIZE : Z := 32 * 1024.
Definition SHAM_DEFAULT_ADVERTISED_WINDOW : Z := 16 * 1024.

Definition EBADF : Z := 9.
Definition ENOTSOCK : Z := 88.

(** ** Data model ([sham.h]) *)

Inductive sham_state_t :=
  | SHAM_CLOSED
  | SHAM_LISTEN
  | SHAM_SYN_SENT
  | SHAM_SYN_RECEIVED
  | SHAM_ESTABLISHED
  | SHAM_FIN_WAIT_1
  | SHAM_FIN_WAIT_2
  | SHAM_CLOSE_WAIT
  | SHAM_CLOSING
  | SHAM_LAST_ACK
  | SHAM_TIME_WAIT.

Definition state_eqb (a b : sham_state_t) : bool :=
  match a, b with
  | SHAM_CLOSED, SHAM_CLOSED | SHAM_LISTEN, SHAM_LISTEN
  | SHAM_SYN_SENT, SHAM_SYN_SENT | SHAM_SYN_RECEIVED, SHAM_SYN_RECEIVED
  | SHAM_ESTABLISHED, SHAM_ESTABLISHED | SHAM_FIN_WAIT_1, SHAM_FIN_WAIT_1
  | SHAM_FIN_WAIT_2, SHAM_FIN_WAIT_2 | SHAM_CLOSE_WAIT, SHAM_CLOSE_WAIT
  | SHAM_CLOSING, SHAM_CLOSING | SHAM_LAST_ACK, SHAM_LAST_ACK
  | SHAM_TIME_WAIT, SHAM_TIME_WAIT => true
  | _, _ => false
  end.

Record sham_header := mk_header {
  seq_num : Z;      (* uint32_t *)
  ack_num : Z;      (* uint32_t *)
  flags : Z;        (* uint16_t *)
  window_size : Z   (* uint16_t *)
}.

(** [data] is the whole [uint8_t data[SHAM_MAX_DATA_SIZE]] array; only its
    first [data_len] bytes are payload. *)
Record sham_packet := mk_packet {
  header : sham_header;
  data : list Z;
  data_len : Z      (* size_t *)
}.

Record timeval := mk_timeval { tv_sec : Z; tv_usec : Z }.

Record sham_window_entry := mk_window_entry {
  we_packet : sham_packet;
  send_time : timeval;
  retries : Z;      (* int *)
  acked : bool
}.

Record sham_ooo_entry := mk_ooo_entry {
  oe_packet : sham_packet;
  valid : bool
}.

Record sockaddr_in := mk_sockaddr { sin_addr : Z; sin_port : Z }.

Record sham_connection := mk_connection {
  sockfd : Z;
  peer_addr : sockaddr_in;
  peer_len : Z;
  send_seq : Z;
  recv_seq : Z;
  send_base : Z;
  state : sham_state_t;
  send_window : list sham_window_entry;
  window_start : Z;
  window_count : Z;
  last_byte_sent : Z;
  last_byte_acked : Z;
  peer_window_size : Z;
  recv_buffer_size : Z;
  recv_buffer_used : Z;
  ooo_buffer : list sham_ooo_entry;
  loss_rate : Q
}.

(** Field updates ([conn->f = v]). *)

Definition set_sockfd (v : Z) (c : sham_connection) : sham_connection :=
  {| sockfd := v;
     peer_addr := peer_addr c;
     peer_len := peer_len c;
     send_seq := send_seq c;
     recv_seq := recv_seq c;
     send_base := send_base c;
     state := state c;
     send_window := send_window c;
     window_start := window_start c;
     window_count := window_count c;
     last_byte_sent := last_byte_sent c;
     last_byte_acked := last_byte_acked c;
     peer_window_size := peer_window_size c;
     recv_buffer_size := recv_buffer_size c;
     recv_buffer_used := recv_buffer_used c;
     ooo_buffer := ooo_buffer c;
     loss_rate := loss_rate c |}.

Definition set_peer_addr (v : sockaddr_in) (c : sham_connection) : sham_connection :=
  {| sockfd := sockfd c;
     peer_addr := v;
     peer_len := peer_len c;
     send_seq := send_seq c;
     recv_seq := recv_seq c;
     send_base := send_base c;
     state := state c;
     send_window := send_window c;
     window_start := window_start c;
     window_count := window_count c;
     last_byte_sent := last_byte_sent c;
     last_byte_acked := last_byte_acked c;
     peer_window_size := peer_window_size c;
     recv_buffer_size := recv_buffer_size c;
     recv_buffer_used := recv_buffer_used c;
     ooo_buffer := ooo_buffer c;
     loss_rate := loss_rate c |}.

Definition set_peer_len (v : Z) (c : sham_connection) : sham_connection :=
  {| sockfd := sockfd c;
     peer_addr := peer_addr c;
     peer_len := v;
     send_seq := send_seq c;
     recv_seq := recv_seq c;
     send_base := send_base c;
     state := state c;
     send_window := send_window c;
     window_start := window_start c;
     window_count := window_count c;
     last_byte_sent := last_byte_sent c;
     last_byte_acked := last_byte_acked c;
     peer_window_size := peer_window_size c;
     recv_buffer_size := recv_buffer_size c;
     recv_buffer_used := recv_buffer_used c;
     ooo_buffer := ooo_buffer c;
     loss_rate := loss_rate c |}.

Definition set_send_seq (v : Z) (c : sham_connection) : sham_connection :=
  {| sockfd := sockfd c;
     peer_addr := peer_addr c;
     peer_len := peer_len c;
     send_seq := v;
     recv_seq := recv_seq c;
     send_base := send_base c;
     state := state c;
     send_window := send_window c;
     window_start := window_start c;
     window_count := window_count c;
     last_byte_sent := last_byte_sent c;
     last_byte_acked := last_byte_acked c;
     peer_window_size := peer_window_size c;
     recv_buffer_size := recv_buffer_size c;
     recv_buffer_used := recv_buffer_used c;
     ooo_buffer := ooo_buffer c;
     loss_rate := loss_rate c |}.

Definition set_recv_seq (v : Z) (c : sham_connection) : sham_connection :=
  {| sockfd := sockfd c;
     peer_addr := peer_addr c;
     peer_len := peer_len c;
     send_seq := send_seq c;
     recv_seq := v;
     send_base := send_base c;
     state := state c;
     send_window := send_window c;
     window_start := window_start c;
     window_count := window_count c;
     last_byte_sent := last_byte_sent c;
     last_byte_acked := last_byte_acked c;
     peer_window_size := peer_window_size c;
     recv_buffer_size := recv_buffer_size c;
     recv_buffer_used := recv_buffer_used c;
     ooo_buffer := ooo_buffer c;
     loss_rate := loss_rate c |}.

Definition set_send_base (v : Z) (c : sham_connection) : sham_connection :=
  {| sockfd := sockfd c;
     peer_addr := peer_addr c;
     peer_len := peer_len c;
     send_seq := send_seq c;
     recv_seq := recv_seq c;
     send_base := v;
     state := state c;
     send_window := send_window c;
     window_start := window_start c;
     window_count := window_count c;
     last_byte_sent := last_byte_sent c;
     last_byte_acked := last_byte_acked c;
     peer_window_size := peer_window_size c;
     recv_buffer_size := recv_buffer_size c;
     recv_buffer_used := recv_buffer_used c;
     ooo_buffer := ooo_buffer c;
     loss_rate := loss_rate c |}.

Definition set_state (v : sham_state_t) (c : sham_connection) : sham_connection :=
  {| sockfd := sockfd c;
     peer_addr := peer_addr c;
     peer_len := peer_len c;
     send_seq := send_seq c;
     recv_seq := recv_seq c;
     send_base := send_base c;
     state := v;
     send_window := send_window c;
     window_start := window_start c;
     window_count := window_count c;
     last_byte_sent := last_byte_sent c;
     last_byte_acked := last_byte_acked c;
     peer_window_size := peer_window_size c;
     recv_buffer_size := recv_buffer_size c;
     recv_buffer_used := recv_buffer_used c;
     ooo_buffer := ooo_buffer c;
     loss_rate := loss_rate c |}.

Definition set_send_window (v : list sham_window_entry) (c : sham_connection) : sham_connection :=
  {| sockfd := sockfd c;
     peer_addr := peer_addr c;
     peer_len := peer_len c;
     send_seq := send_seq c;
     recv_seq := recv_seq c;
     send_base := send_base c;
     state := state c;
     send_window := v;
     window_start := window_start c;
     window_count := window_count c;
     last_byte_sent := last_byte_sent c;
     last_byte_acked := last_byte_acked c;
     peer_window_size := peer_window_size c;
     recv_buffer_size := recv_buffer_size c;
     recv_buffer_used := recv_buffer_used c;
     ooo_buffer := ooo_buffer c;
     loss_rate := loss_rate c |}.

Definition set_window_start (v : Z) (c : sham_connection) : sham_connection :=
  {| sockfd := sockfd c;
     peer_addr := peer_addr c;
     peer_len := peer_len c;
     send_seq := send_seq c;
     recv_seq := recv_seq c;
     send_base := send_base c;
     state := state c;
     send_window := send_window c;
     window_start := v;
     window_count := window_count c;
     last_byte_sent := last_byte_sent c;
     last_byte_acked := last_byte_acked c;
     peer_window_size := peer_window_size c;
     recv_buffer_size := recv_buffer_size c;
     recv_buffer_used := recv_buffer_used c;
     ooo_buffer := ooo_buffer c;
     loss_rate := loss_rate c |}.

Definition set_window_count (v : Z) (c : sham_connection) : sham_connection :=
  {| sockfd := sockfd c;
     peer_addr := peer_addr c;
     peer_len := peer_len c;
     send_seq := send_seq c;
     recv_seq := recv_seq c;
     send_base := send_base c;
     state := state c;
     send_window := send_window c;
     window_start := window_start c;
     window_count := v;
     last_byte_sent := last_byte_sent c;
     last_byte_acked := last_byte_acked c;
     peer_window_size := peer_window_size c;
     recv_buffer_size := recv_buffer_size c;
     recv_buffer_used := recv_buffer_used c;
     ooo_buffer := ooo_buffer c;
     loss_rate := loss_rate c |}.

Definition set_last_byte_sent (v : Z) (c : sham_connection) : sham_connection :=
  {| sockfd := sockfd c;
     peer_addr := peer_addr c;
     peer_len := peer_len c;
     send_seq := send_seq c;
     recv_seq := recv_seq c;
     send_base := send_base c;
     state := state c;
     send_window := send_window c;
     window_start := window_start c;
     window_count := window_count c;
     last_byte_sent := v;
     last_byte_acked := last_byte_acked c;
     peer_window_size := peer_window_size c;
     recv_buffer_size := recv_buffer_size c;
     recv_buffer_used := recv_buffer_used c;
     ooo_buffer := ooo_buffer c;
     loss_rate := loss_rate c |}.

Definition set_last_byte_acked (v : Z) (c : sham_connection) : sham_connection :=
  {| sockfd := sockfd c;
     peer_addr := peer_addr c;
     peer_len := peer_len c;
     send_seq := send_seq c;
     recv_seq := recv_seq c;
     send_base := send_base c;
     state := state c;
     send_window := send_window c;
     window_start := window_start c;
     window_count := window_count c;
     last_byte_sent := last_byte_sent c;
     last_byte_acked := v;
     peer_window_size := peer_window_size c;
     recv_buffer_size := recv_buffer_size c;
     recv_buffer_used := recv_buffer_used c;
     ooo_buffer := ooo_buffer c;
     loss_rate := loss_rate c |}.

Definition set_peer_window_size (v : Z) (c : sham_connection) : sham_connection :=
  {| sockfd := sockfd c;
     peer_addr := peer_addr c;
     peer_len := peer_len c;
     send_seq := send_seq c;
     recv_seq := recv_seq c;
     send_base := send_base c;
     state := state c;
     send_window := send_window c;
     window_start := window_start c;
     window_count := window_count c;
     last_byte_sent := last_byte_sent c;
     last_byte_acked := last_byte_acked c;
     peer_window_size := v;
     recv_buffer_size := recv_buffer_size c;
     recv_buffer_used := recv_buffer_used c;
     ooo_buffer := ooo_buffer c;
     loss_rate := loss_rate c |}.

Definition set_recv_buffer_size (v : Z) (c : sham_connection) : sham_connection :=
  {| sockfd := sockfd c;
     peer_addr := peer_addr c;
     peer_len := peer_len c;
     send_seq := send_seq c;
     recv_seq := recv_seq c;
     send_base := send_base c;
     state := state c;
     send_window := send_window c;
     window_start := window_start c;
     window_count := window_count c;
     last_byte_sent := last_byte_sent c;
     last_byte_acked := last_byte_acked c;
     peer_window_size := peer_window_size c;
     recv_buffer_size := v;
     recv_buffer_used := recv_buffer_used c;
     ooo_buffer := ooo_buffer c;
     loss_rate := loss_rate c |}.

Definition set_recv_buffer_used (v : Z) (c : sham_connection) : sham_connection :=
  {| sockfd := sockfd c;
     peer_addr := peer_addr c;
     peer_len := peer_len c;
     send_seq := send_seq c;
     recv_seq := recv_seq c;
     send_base := send_base c;
     state := state c;
     send_window := send_window c;
     window_start := window_start c;
     window_count := window_count c;
     last_byte_sent := last_byte_sent c;
     last_byte_acked := last_byte_acked c;
     peer_window_size := peer_window_size c;
     recv_buffer_size := recv_buffer_size c;
     recv_buffer_used := v;
     ooo_buffer := ooo_buffer c;
     loss_rate := loss_rate c |}.

Definition set_ooo_buffer (v : list sham_ooo_entry) (c : sham_connection) : sham_connection :=
  {| sockfd := sockfd c;
     peer_addr := peer_addr c;
     peer_len := peer_len c;
     send_seq := send_seq c;
     recv_seq := recv_seq c;
     send_base := send_base c;
     state := state c;
     send_window := send_window c;
     window_start := window_start c;
     window_count := window_count c;
     last_byte_sent := last_byte_sent c;
     last_byte_acked := last_byte_acked c;
     peer_window_size := peer_window_size c;
     recv_buffer_size := recv_buffer_size c;
     recv_buffer_used := recv_buffer_used c;
     ooo_buffer := v;
     loss_rate := loss_rate c |}.

Definition set_loss_rate (v : Q) (c : sham_connection) : sham_connection :=
  {| sockfd := sockfd c;
     peer_addr := peer_addr c;
     peer_len := peer_len c;
     send_seq := send_seq c;
     recv_seq := recv_seq c;
     send_base := send_base c;
     state := state c;
     send_window := send_window c;
     window_start := window_start c;
     window_count := window_count c;
     last_byte_sent := last_byte_sent c;
     last_byte_acked := last_byte_acked c;
     peer_window_size := peer_window_size c;
     recv_buffer_size := recv_buffer_size c;
     recv_buffer_used := recv_buffer_used c;
     ooo_buffer := ooo_buffer c;
     loss_rate := v |}.

(** ** Memory blocks

    Byte buffers are lists of bytes.  [memcpy dst src n] overwrites the
    first [n] bytes of [dst] with the first [n] bytes of [src] (which C
    requires to exist); [mem_write buf pos src n] is
    [memcpy (buf + pos, src, n)]. *)

Definition memcpy (dst src : list Z) (n : Z) : list Z :=
  take (ix n) src ++ drop (ix n) dst.

Definition mem_write (buf : list Z) (pos : Z) (src : list Z) (n : Z) : list Z :=
  take (ix pos) buf ++ memcpy (drop (ix pos) buf) src n.

Definition zero_data : list Z := replicate (ix SHAM_MAX_DATA_SIZE) 0.

(** Little-endian stores and loads of the header fields, as [memcpy] between
    a [struct sham_header] and a byte buffer performs them on this host. *)
Definition le16 (v : Z) : list Z := [v mod 256; v / 2 ^ 8 mod 256].
Definition le32 (v : Z) : list Z :=
  [v mod 256; v / 2 ^ 8 mod 256; v / 2 ^ 16 mod 256; v / 2 ^ 24 mod 256].

Definition ld16 (buf : list Z) (off : nat) : Z :=
  buf !!! off + 256 * buf !!! (off + 1)%nat.
Definition ld32 (buf : list Z) (off : nat) : Z :=
  of_bytes4 (buf !!! off) (buf !!! (off + 1)%nat)
            (buf !!! (off + 2)%nat) (buf !!! (off + 3)%nat).

Definition header_bytes (h : sham_header) : list Z :=
  le32 (seq_num h) ++ le32 (ack_num h) ++ le16 (flags h) ++ le16 (window_size h).

Definition header_of_bytes (buf : list Z) : sham_header :=
  {| seq_num := ld32 buf 0; ack_num := ld32 buf 4;
     flags := ld16 buf 8; window_size := ld16 buf 10 |}.

(** ** Flow control ([sham.c], lines 1033-1115) *)

Definition sham_calculate_advertised_window (conn : sham_connection) : Z :=
  let available_space := u16 (recv_buffer_size conn - recv_buffer_used conn) in
  if available_space <? SHAM_MAX_DATA_SIZE then SHAM_MAX_DATA_SIZE
  else available_space.

Definition bytes_in_flight (conn : sham_connection) : Z :=
  if last_byte_sent conn >=? last_byte_acked conn
  then u32 (last_byte_sent conn - last_byte_acked conn)
  else 0.

Definition available_window (conn : sham_connection) : Z :=
  if peer_window_size conn >? bytes_in_flight conn
  then u32 (peer_window_size conn - bytes_in_flight conn)
  else 0.

(** The C function returns the [int] value of the comparison. *)
Definition sham_can_send_data (conn : sham_connection) (data_len : Z) : bool :=
  data_len <=? available_window conn.

Definition sham_update_flow_control (conn : sham_connection) (bytes_sent : Z)
  : sham_connection :=
  set_last_byte_sent (u32 (last_byte_sent conn + bytes_sent)) conn.

Definition sham_update_recv_buffer (conn : sham_connection) (bytes_consumed : Z)
  : sham_connection :=
  if bytes_consumed >? 0 then
    set_recv_buffer_used (u16 (recv_buffer_used conn + bytes_consumed)) conn
  else if bytes_consumed <? 0 then
    let freed := to_int (- bytes_consumed) in
    if recv_buffer_used conn >=? freed
    then set_recv_buffer_used (u16 (recv_buffer_used conn - freed)) conn
    else set_recv_buffer_used 0 conn
  else conn.

(** ** Packet construction ([sham.c], lines 87-123)

    A null [data] pointer is [None]. *)

Definition sham_create_packet (seq ack flgs : Z) (src : option (list Z))
    (len : Z) : sham_packet :=
  let hdr := {| seq_num := htonl seq; ack_num := htonl ack;
                flags := htons flgs;
                window_size := htons SHAM_DEFAULT_ADVERTISED_WINDOW |} in
  match src with
  | Some bytes =>
      if (len >? 0) && (len <=? SHAM_MAX_DATA_SIZE)
      then {| header := hdr; data := memcpy zero_data bytes len; data_len := len |}
      else {| header := hdr; data := zero_data; data_len := 0 |}
  | None => {| header := hdr; data := zero_data; data_len := 0 |}
  end.

Definition set_packet_window (w : Z) (p : sham_packet) : sham_packet :=
  {| header := {| seq_num := seq_num (header p); ack_num := ack_num (header p);
                  flags := flags (header p); window_size := w |};
     data := data p; data_len := data_len p |}.

Definition sham_create_packet_with_conn (conn : sham_connection)
    (seq ack flgs : Z) (src : option (list Z)) (len : Z) : sham_packet :=
  let packet := sham_create_packet seq ack flgs src len in
  let advertised_window := sham_calculate_advertised_window conn in
  set_packet_window (htons advertised_window) packet.

(** The datagram [sham_send_packet] hands to [sendto]: the twelve header
    bytes followed by [data_len] payload bytes. *)
Definition sham_wire (p : sham_packet) : list Z :=
  header_bytes (header p) ++ take (ix (data_len p)) (data p).

(** ** The environment

    [net] answers the i-th call of [sham_recv_packet_timeout] (what [select]
    reports and, when the socket is readable, what [recvfrom] returns and the
    value [rand] yields for the loss simulation); [sendto_ok] tells whether
    the i-th [sendto] succeeds; [clock] is the i-th reading of
    [gettimeofday]. *)

Inductive recv_result :=
  | RecvFail (errno : Z)
  | RecvDgram (dgram : list Z) (from : sockaddr_in) (from_len : Z).

Inductive net_event :=
  | SelectTimeout
  | SelectError
  | SelectReady (r : recv_result) (rnd : Z).

Record world := mk_world {
  net : nat -> net_event;
  sendto_ok : nat -> bool;
  clock : nat -> timeval
}.

(** What an observer of [sham_send] sees of the connection: its state after
    each round of ACK and timeout processing, and each first transmission of
    a data segment with the state at the flow-control gate, the segment size
    and the state after the book-keeping. *)
Inductive observation :=
  | Polled (conn : sham_connection)
  | Emitted (gate : sham_connection) (chunk_size : Z) (after : sham_connection).

(** Progress through the oracles, the packets handed to a successful
    [sendto] (oldest first), and the observations made so far.  [sent] and
    [trace] are records for the proofs; the code never reads them. *)
Record io_state := mk_io {
  n_net : nat;
  n_send : nat;
  n_clock : nat;
  sent : list sham_packet;
  trace : list observation
}.

Definition io_init : io_state :=
  {| n_net := 0; n_send := 0; n_clock := 0; sent := []; trace := [] |}.

Definition observe (o : observation) (io : io_state) : io_state :=
  {| n_net := n_net io; n_send := n_send io; n_clock := n_clock io;
     sent := sent io; trace := trace io ++ [o] |}.

Definition gettimeofday (w : world) (io : io_state) : timeval * io_state :=
  (clock w (n_clock io),
   {| n_net := n_net io; n_send := n_send io; n_clock := S (n_clock io);
      sent := sent io; trace := trace io |}).

(** ** Datagram I/O ([sham.c], lines 125-231) *)

Definition sham_send_packet (w : world) (io : io_state) (packet : sham_packet)
  : Z * io_state :=
  let packet_size := usize (SHAM_HEADER_SIZE + data_len packet) in
  if sendto_ok w (n_send io) then
    (to_int packet_size,
     {| n_net := n_net io; n_send := S (n_send io); n_clock := n_clock io;
        sent := sent io ++ [packet]; trace := trace io |})
  else
    (-1, {| n_net := n_net io; n_send := S (n_send io); n_clock := n_clock io;
            sent := sent io; trace := trace io |}).

(** A [float] is the rational it denotes, and the arithmetic of
    [sham_should_drop_packet] is IEEE 754 single precision: the conversions
    [(float)rand()] and [(float)RAND_MAX] and the division each give the
    nearest value with a significand of 24 bits, ties to the even one.  The
    values that occur here are 0 or lie between 2^-31 and 2^31, far from
    the subnormal range and from overflow. *)
Definition round_half_even (q : Q) : Z :=
  let f := Qfloor q in
  match Qcompare (q - inject_Z f) (1 # 2) with
  | Lt => f
  | Gt => f + 1
  | Eq => if Z.even f then f else f + 1
  end.

(** For [q > 0], the exponent [e] with [2^23 <= q / 2^e < 2^24]. *)
Definition float_exponent (q : Q) : Z :=
  let l := Z.log2 (Qnum q) - Z.log2 (Zpos (Qden q)) in
  (if Qle_bool (Qpower 2 l) q then l else l - 1) - 23.

Definition to_float (q : Q) : Q :=
  if Qle_bool q 0 then 0%Q
  else
    let e := float_exponent q in
    (inject_Z (round_half_even (q / Qpower 2 e)) * Qpower 2 e)%Q.

Definition sham_should_drop_packet (rate : Q) (rnd : Z) : bool :=
  if Qle_bool rate 0 then false
  else
    let random_val :=
      to_float (to_float (inject_Z rnd) / to_float (inject_Z RAND_MAX)) in
    negb (Qle_bool rate random_val).

(** [recvfrom] into the [SHAM_MAX_PACKET_SIZE]-byte buffer keeps at most that
    many bytes of the datagram and returns how many it stored. *)
Definition recvfrom_buffer (dgram : list Z) : list Z :=
  take (ix SHAM_MAX_PACKET_SIZE) dgram.

Definition sham_recv_packet (conn : sham_connection) (packet : sham_packet)
    (r : recv_result) (rnd : Z) : Z * sham_connection * sham_packet :=
  match r with
  | RecvFail errno =>
      if (errno =? EBADF) || (errno =? ENOTSOCK)
      then (-1, set_sockfd (-1) conn, packet)
      else (-1, conn, packet)
  | RecvDgram dgram from from_len =>
      let buffer := recvfrom_buffer dgram in
      let received := Z.of_nat (length buffer) in
      if received <? SHAM_HEADER_SIZE then (-1, conn, packet)
      else if sham_should_drop_packet (loss_rate conn) rnd then (-1, conn, packet)
      else
        let conn1 :=
          if peer_len conn =? 0
          then set_peer_len from_len (set_peer_addr from conn)
          else conn in
        let raw := header_of_bytes buffer in
        let hdr := {| seq_num := ntohl (seq_num raw); ack_num := ntohl (ack_num raw);
                      flags := ntohs (flags raw);
                      window_size := ntohs (window_size raw) |} in
        let len := received - SHAM_HEADER_SIZE in
        let bytes :=
          if len >? 0
          then memcpy (data packet) (drop (ix SHAM_HEADER_SIZE) buffer) len
          else data packet in
        (to_int received, conn1, {| header := hdr; data := bytes; data_len := len |})
  end.

Definition net_tick (io : io_state) : io_state :=
  {| n_net := S (n_net io); n_send := n_send io; n_clock := n_clock io;
     sent := sent io; trace := trace io |}.

(** The timeout only tells [select] how long to wait; the outcome is the
    environment's. *)
Definition sham_recv_packet_timeout (w : world) (io : io_state)
    (conn : sham_connection) (packet : sham_packet) (timeout_ms : Z)
  : Z * sham_connection * sham_packet * io_state :=
  match net w (n_net io) with
  | SelectTimeout => (0, conn, packet, net_tick io)
  | SelectError => (-1, conn, packet, net_tick io)
  | SelectReady r rnd =>
      let '(res, conn', packet') := sham_recv_packet conn packet r rnd in
      (res, conn', packet', net_tick io)
  end.

(** ** Connection set-up ([sham.c], lines 9-39 and 1006-1010) *)

Definition zero_header : sham_header :=
  {| seq_num := 0; ack_num := 0; flags := 0; window_size := 0 |}.
Definition zero_packet : sham_packet :=
  {| header := zero_header; data := zero_data; data_len := 0 |}.
Definition zero_timeval : timeval := {| tv_sec := 0; tv_usec := 0 |}.
Definition zero_window_entry : sham_window_entry :=
  {| we_packet := zero_packet; send_time := zero_timeval; retries := 0;
     acked := false |}.
Definition zero_ooo_entry : sham_ooo_entry :=
  {| oe_packet := zero_packet; valid := false |}.

Global Instance sham_window_entry_inhabited : Inhabited sham_window_entry :=
  populate zero_window_entry.
Global Instance sham_ooo_entry_inhabited : Inhabited sham_ooo_entry :=
  populate zero_ooo_entry.

(** [rnd] is the value of [rand()]. *)
Definition sham_generate_isn (rnd : Z) : Z := Z.rem rnd UINT32_MAX.

Definition sham_create_connection (rnd : Z) : sham_connection :=
  let isn := sham_generate_isn rnd in
  {| sockfd := -1;
     peer_addr := {| sin_addr := 0; sin_port := 0 |};
     peer_len := 0;
     send_seq := isn;
     recv_seq := 0;
     send_base := isn;
     state := SHAM_CLOSED;
     send_window := replicate (ix SHAM_WINDOW_SIZE) zero_window_entry;
     window_start := 0;
     window_count := 0;
     last_byte_sent := isn;
     last_byte_acked := isn;
     peer_window_size := SHAM_DEFAULT_ADVERTISED_WINDOW;
     recv_buffer_size := u16 SHAM_DEFAULT_RECV_BUFFER_SIZE;
     recv_buffer_used := 0;
     ooo_buffer := replicate (ix SHAM_WINDOW_SIZE) zero_ooo_entry;
     loss_rate := 0 |}.

(** ** Sender: cumulative ACKs and retransmission ([sham.c], lines 613-699) *)

Definition set_acked (b : bool) (e : sham_window_entry) : sham_window_entry :=
  {| we_packet := we_packet e; send_time := send_time e; retries := retries e;
     acked := b |}.

Definition packet_end (entry : sham_window_entry) : Z :=
  u32 (ntohl (seq_num (header (we_packet entry))) + data_len (we_packet entry)).

(** The oldest entry is covered by the ACK: mark it, move [send_base] to its
    end and drop it from the window. *)
Definition acknowledge_head (conn : sham_connection) : sham_connection :=
  let idx := ix (window_start conn) in
  let entry := send_window conn !!! idx in
  set_window_count (window_count conn - 1)
    (set_window_start (Z.rem (window_start conn + 1) SHAM_WINDOW_SIZE)
       (set_send_base (packet_end entry)
          (set_send_window (<[idx := set_acked true entry]> (send_window conn))
             conn))).

(** The [while (conn->window_count > 0)] loop of [sham_process_ack]; every
    iteration that does not leave the loop decrements [window_count], so
    [n] = [window_count] iterations exhaust it. *)
Fixpoint ack_walk (n : nat) (ack : Z) (conn : sham_connection) : sham_connection :=
  match n with
  | O => conn
  | S n' =>
      if window_count conn >? 0 then
        if packet_end (send_window conn !!! ix (window_start conn)) <=? ack
        then ack_walk n' ack (acknowledge_head conn)
        else conn
      else conn
  end.

(** The C function always returns 0; the embedding returns the connection. *)
Definition sham_process_ack (conn : sham_connection) (ack_packet : sham_packet)
  : sham_connection :=
  let ack := ack_num (header ack_packet) in
  let peer_window := window_size (header ack_packet) in
  let conn1 := set_peer_window_size peer_window conn in
  let conn2 :=
    if ack >? last_byte_acked conn1 then set_last_byte_acked ack conn1
    else conn1 in
  ack_walk (ix (window_count conn2)) ack conn2.

Definition sham_is_timeout (start now : timeval) (timeout_ms : Z) : bool :=
  let elapsed := (tv_sec now - tv_sec start) * 1000
                 + Z.quot (tv_usec now - tv_usec start) 1000 in
  elapsed >=? timeout_ms.

Definition retransmitted (now : timeval) (e : sham_window_entry)
  : sham_window_entry :=
  {| we_packet := we_packet e; send_time := now;
     retries := to_int (retries e + 1); acked := acked e |}.

(** The [for] loop of [sham_handle_timeout], with [n] iterations left and
    loop variable [i]; [sham_is_timeout] reads the clock itself. *)
Fixpoint handle_timeout_loop (w : world) (now : timeval) (n : nat) (i : Z)
    (conn : sham_connection) (io : io_state)
  : Z * sham_connection * io_state :=
  match n with
  | O => (0, conn, io)
  | S n' =>
      let idx := ix (Z.rem (window_start conn + i) SHAM_WINDOW_SIZE) in
      let entry := send_window conn !!! idx in
      if acked entry then handle_timeout_loop w now n' (i + 1) conn io
      else
        let '(t, io1) := gettimeofday w io in
        if sham_is_timeout (send_time entry) t SHAM_RTO_MS then
          if retries entry >=? SHAM_MAX_RETRIES then (-1, conn, io1)
          else
            let '(res, io2) := sham_send_packet w io1 (we_packet entry) in
            if res <? 0 then (-1, conn, io2)
            else
              handle_timeout_loop w now n' (i + 1)
                (set_send_window
                   (<[idx := retransmitted now entry]> (send_window conn)) conn)
                io2
        else handle_timeout_loop w now n' (i + 1) conn io1
  end.

Definition sham_handle_timeout (w : world) (io : io_state)
    (conn : sham_connection) : Z * sham_connection * io_state :=
  let '(now, io0) := gettimeofday w io in
  handle_timeout_loop w now (ix (window_count conn)) 0 conn io0.

(** ** Receiver: out-of-order staging ([sham.c], lines 701-751) *)

Fixpoint buffer_ooo_loop (n : nat) (i : Z) (conn : sham_connection)
    (packet : sham_packet) : Z * sham_connection :=
  match n with
  | O => (-1, conn)
  | S n' =>
      if valid (ooo_buffer conn !!! ix i)
      then buffer_ooo_loop n' (i + 1) conn packet
      else (0, set_ooo_buffer
                 (<[ix i := {| oe_packet := packet; valid := true |}]>
                    (ooo_buffer conn)) conn)
  end.

Definition sham_buffer_ooo_packet (conn : sham_connection) (packet : sham_packet)
  : Z * sham_connection :=
  buffer_ooo_loop (ix SHAM_WINDOW_SIZE) 0 conn packet.

(** The inner [for] loop of [sham_deliver_ooo_packets]: the first slot that
    is valid and starts at [recv_seq]. *)
Fixpoint ooo_scan (n : nat) (i : Z) (conn : sham_connection) : option Z :=
  match n with
  | O => None
  | S n' =>
      let e := ooo_buffer conn !!! ix i in
      if valid e && (seq_num (header (oe_packet e)) =? recv_seq conn)
      then Some i
      else ooo_scan n' (i + 1) conn
  end.

Definition min_copy (len room : Z) : Z := if len >? room then room else len.

Definition deliver_slot (i : Z) (conn : sham_connection) (buffer : list Z)
    (buffer_pos buffer_size : Z) : sham_connection * list Z * Z :=
  let p := oe_packet (ooo_buffer conn !!! ix i) in
  let copy_len := min_copy (data_len p) (usize (buffer_size - buffer_pos)) in
  (set_ooo_buffer (<[ix i := {| oe_packet := p; valid := false |}]> (ooo_buffer conn))
     (set_recv_seq (u32 (recv_seq conn + data_len p)) conn),
   mem_write buffer buffer_pos (data p) copy_len,
   usize (buffer_pos + copy_len)).

(** The outer [while (delivered)] loop.  Each delivery clears one valid slot,
    so it runs at most [SHAM_WINDOW_SIZE] deliveries and one empty scan. *)
Fixpoint deliver_loop (fuel : nat) (conn : sham_connection) (buffer : list Z)
    (buffer_pos buffer_size : Z) : sham_connection * list Z * Z :=
  match fuel with
  | O => (conn, buffer, buffer_pos)
  | S fuel' =>
      match ooo_scan (ix SHAM_WINDOW_SIZE) 0 conn with
      | None => (conn, buffer, buffer_pos)
      | Some i =>
          let '(conn', buffer', pos') :=
            deliver_slot i conn buffer buffer_pos buffer_size in
          deliver_loop fuel' conn' buffer' pos' buffer_size
      end
  end.

Definition sham_deliver_ooo_packets (conn : sham_connection) (buffer : list Z)
    (buffer_pos buffer_size : Z) : sham_connection * list Z * Z :=
  deliver_loop (S (ix SHAM_WINDOW_SIZE)) conn buffer buffer_pos buffer_size.

(** ** Reliable send ([sham.c], lines 447-547)

    The unbounded [while] loops take fuel.  Every function returns the
    connection and the environment it has reached; a result [None] means
    that the fuel ran out before the C function returned.  [packet] is the
    stack variable the received packets are decoded into. *)

Definition has_flag (f bit : Z) : bool := negb (Z.land f bit =? 0).

(** Pointer arithmetic on the caller's buffer ([send_data + bytes_sent]). *)
Definition ptr_add (src : option (list Z)) (off : Z) : option (list Z) :=
  match src with
  | Some bytes => Some (drop (ix off) bytes)
  | None => None
  end.

Definition on_ack (conn : sham_connection) (packet : sham_packet)
  : sham_connection :=
  if has_flag (flags (header packet)) SHAM_ACK
  then sham_process_ack conn packet
  else conn.

(** [while (sham_recv_packet_timeout(conn, &ack_packet, 0) > 0)]; the flag
    tells whether the loop was left. *)
Fixpoint drain_acks (w : world) (fuel : nat) (io : io_state)
    (conn : sham_connection) (packet : sham_packet)
  : bool * sham_connection * sham_packet * io_state :=
  match fuel with
  | O => (false, conn, packet, io)
  | S fuel' =>
      let '(res, conn1, packet1, io1) :=
        sham_recv_packet_timeout w io conn packet 0 in
      if res >? 0
      then drain_acks w fuel' io1 (on_ack conn1 packet1) packet1
      else (true, conn1, packet1, io1)
  end.

(** One round of [while (conn->window_count > 0)]: wait up to one RTO for an
    ACK, then look for timeouts.  The result of [sham_handle_timeout] is not
    looked at. *)
Definition wait_round (w : world) (io : io_state) (conn : sham_connection)
    (packet : sham_packet) : sham_connection * sham_packet * io_state :=
  let '(res, conn1, packet1, io1) :=
    sham_recv_packet_timeout w io conn packet SHAM_RTO_MS in
  let conn2 := if res >? 0 then on_ack conn1 packet1 else conn1 in
  let '(_, conn3, io3) := sham_handle_timeout w io1 conn2 in
  (conn3, packet1, observe (Polled conn3) io3).

Fixpoint wait_acked (w : world) (fuel : nat) (io : io_state)
    (conn : sham_connection) (packet : sham_packet) (bytes_sent : Z)
  : option Z * sham_connection * io_state :=
  match fuel with
  | O => (None, conn, io)
  | S fuel' =>
      if window_count conn >? 0 then
        let '(conn', packet', io') := wait_round w io conn packet in
        wait_acked w fuel' io' conn' packet' bytes_sent
      else (Some (to_int bytes_sent), conn, io)
  end.

Definition chunk_of (len bytes_sent : Z) : Z :=
  if usize (len - bytes_sent) >? SHAM_MAX_DATA_SIZE then SHAM_MAX_DATA_SIZE
  else usize (len - bytes_sent).

Definition new_entry (p : sham_packet) (now : timeval) : sham_window_entry :=
  {| we_packet := p; send_time := now; retries := 0; acked := false |}.

(** Book-keeping after a data packet went out: flow-control counter, window
    slot, [window_count], [send_seq]. *)
Definition record_sent (conn : sham_connection) (data_packet : sham_packet)
    (chunk_size : Z) (now : timeval) : sham_connection :=
  let conn1 := sham_update_flow_control conn chunk_size in
  let window_idx :=
    Z.rem (window_start conn1 + window_count conn1) SHAM_WINDOW_SIZE in
  set_send_seq (u32 (send_seq conn1 + chunk_size))
    (set_window_count (window_count conn1 + 1)
       (set_send_window
          (<[ix window_idx := new_entry data_packet now]> (send_window conn1))
          conn1)).

(** [while (bytes_sent < len)], followed by the wait for the last ACKs. *)
Fixpoint send_loop (w : world) (fuel : nat) (io : io_state)
    (conn : sham_connection) (packet : sham_packet)
    (src : option (list Z)) (len bytes_sent : Z)
  : option Z * sham_connection * io_state :=
  match fuel with
  | O => (None, conn, io)
  | S fuel' =>
      if bytes_sent <? len then
        let '(drained, conn1, packet1, io1) :=
          drain_acks w fuel' io conn packet in
        if negb drained then (None, conn1, io1)
        else
          let '(_, conn2, io2') := sham_handle_timeout w io1 conn1 in
          let io2 := observe (Polled conn2) io2' in
          if window_count conn2 >=? SHAM_WINDOW_SIZE then
            send_loop w fuel' io2 conn2 packet1 src len bytes_sent
          else
            let chunk_size := chunk_of len bytes_sent in
            if negb (sham_can_send_data conn2 chunk_size) then
              send_loop w fuel' io2 conn2 packet1 src len bytes_sent
            else
              let data_packet :=
                sham_create_packet_with_conn conn2 (send_seq conn2)
                  (recv_seq conn2) 0 (ptr_add src bytes_sent) chunk_size in
              let '(res, io3) := sham_send_packet w io2 data_packet in
              if res <? 0 then (Some (-1), conn2, io3)
              else
                let '(now, io4) := gettimeofday w io3 in
                let conn3 := record_sent conn2 data_packet chunk_size now in
                send_loop w fuel' (observe (Emitted conn2 chunk_size conn3) io4)
                  conn3 packet1 src len (usize (bytes_sent + chunk_size))
      else wait_acked w fuel' io conn packet bytes_sent
  end.

Definition sham_send (w : world) (fuel : nat) (io : io_state)
    (conn : sham_connection) (packet : sham_packet)
    (src : option (list Z)) (len : Z)
  : option Z * sham_connection * io_state :=
  if state_eqb (state conn) SHAM_ESTABLISHED
  then send_loop w fuel io conn packet src len 0
  else (Some (-1), conn, io).

(** ** Reliable receive ([sham.c], lines 549-611)

    As for [sham_send], a result [None] means that the fuel ran out. *)

(** The body of [if (packet.data_len > 0)]: first the segment is placed
    (in order, ahead, or behind) ... *)
Definition place_segment (conn : sham_connection) (packet : sham_packet)
    (buffer : list Z) (bytes_received len : Z)
  : sham_connection * list Z * Z :=
  if seq_num (header packet) =? recv_seq conn then
    let copy_len := min_copy (data_len packet) (usize (len - bytes_received)) in
    let buffer1 := mem_write buffer bytes_received (data packet) copy_len in
    let received1 := usize (bytes_received + copy_len) in
    let conn1 := set_recv_seq (u32 (recv_seq conn + data_len packet)) conn in
    let conn2 := sham_update_recv_buffer conn1 (to_int (data_len packet)) in
    let '(conn3, buffer3, received3) :=
      sham_deliver_ooo_packets conn2 buffer1 received1 len in
    (sham_update_recv_buffer conn3 (to_int (- to_int copy_len)),
     buffer3, received3)
  else if seq_num (header packet) >? recv_seq conn then
    (snd (sham_buffer_ooo_packet conn packet), buffer, bytes_received)
  else (conn, buffer, bytes_received).

(** ... then a cumulative ACK goes out, whatever the placement was. *)
Definition recv_segment (w : world) (io : io_state) (conn : sham_connection)
    (packet : sham_packet) (buffer : list Z) (bytes_received len : Z)
  : sham_connection * list Z * Z * io_state :=
  let '(conn', buffer', received') :=
    place_segment conn packet buffer bytes_received len in
  let ack :=
    sham_create_packet_with_conn conn' (send_seq conn') (recv_seq conn')
      SHAM_ACK None 0 in
  let '(_, io') := sham_send_packet w io ack in
  (conn', buffer', received', io').

Fixpoint recv_loop (w : world) (fuel : nat) (io : io_state)
    (conn : sham_connection) (packet : sham_packet) (buffer : list Z)
    (bytes_received len : Z)
  : option Z * sham_connection * list Z * io_state :=
  match fuel with
  | O => (None, conn, buffer, io)
  | S fuel' =>
      if bytes_received <? len then
        let '(result, conn1, packet1, io1) :=
          sham_recv_packet_timeout w io conn packet SHAM_RTO_MS in
        if result <=? 0 then (Some (to_int bytes_received), conn1, buffer, io1)
        else if data_len packet1 >? 0 then
          let '(conn2, buffer2, received2, io2) :=
            recv_segment w io1 conn1 packet1 buffer bytes_received len in
          recv_loop w fuel' io2 conn2 packet1 buffer2 received2 len
        else recv_loop w fuel' io1 conn1 packet1 buffer bytes_received len
      else (Some (to_int bytes_received), conn, buffer, io)
  end.

Definition sham_recv (w : world) (fuel : nat) (io : io_state)
    (conn : sham_connection) (packet : sham_packet) (buffer : list Z) (len : Z)
  : option Z * sham_connection * list Z * io_state :=
  if state_eqb (state conn) SHAM_ESTABLISHED
  then recv_loop w fuel io conn packet buffer 0 len
  else (Some (-1), conn, buffer, io).

(** ** Close handshake ([sham.c], lines 910-970) *)

Fixpoint close_loop (w : world) (fuel : nat) (io : io_state)
    (conn : sham_connection) (packet : sham_packet)
    (ack_received fin_received : bool)
  : option Z * sham_connection * io_state :=
  match fuel with
  | O => (None, conn, io)
  | S fuel' =>
      if (negb ack_received || negb fin_received)
         && negb (state_eqb (state conn) SHAM_CLOSED) then
        let '(res, conn1, packet1, io1) :=
          sham_recv_packet_timeout w io conn packet SHAM_RTO_MS in
        if res <=? 0 then
          close_loop w fuel' io1 conn1 packet1 ack_received fin_received
        else
          let got_ack :=
            has_flag (flags (header packet1)) SHAM_ACK && negb ack_received in
          let conn2 :=
            if got_ack then set_state SHAM_FIN_WAIT_2 conn1 else conn1 in
          let ack_received' := if got_ack then true else ack_received in
          if has_flag (flags (header packet1)) SHAM_FIN && negb fin_received then
            let conn3 :=
              set_recv_seq (u32 (seq_num (header packet1) + 1)) conn2 in
            let final_ack :=
              sham_create_packet (send_seq conn3) (recv_seq conn3) SHAM_ACK
                None 0 in
            let '(_, io2) := sham_send_packet w io1 final_ack in
            close_loop w fuel' io2 (set_state SHAM_CLOSED conn3) packet1
              ack_received' true
          else close_loop w fuel' io1 conn2 packet1 ack_received' fin_received
      else (Some 0, conn, io)
  end.

Definition sham_close (w : world) (fuel : nat) (io : io_state)
    (conn : sham_connection) (packet : sham_packet)
  : option Z * sham_connection * io_state :=
  if state_eqb (state conn) SHAM_ESTABLISHED then
    let fin :=
      sham_create_packet (send_seq conn) (recv_seq conn) SHAM_FIN None 0 in
    let '(res, io1) := sham_send_packet w io fin in
    if res <? 0 then (Some (-1), conn, io1)
    else
      close_loop w fuel io1
        (set_state SHAM_FIN_WAIT_1 (set_send_seq (u32 (send_seq conn + 1)) conn))
        packet false false
  else (Some (-1), conn, io).


(** ** Three-way handshake, client side ([sham.c], lines 233-312)

    [sock] is what [sham_socket] returns when it is called, [host] the
    address [gethostbyname] resolves to ([None] when it fails). *)

Definition sham_connect (w : world) (io : io_state) (conn : sham_connection)
    (packet : sham_packet) (sock : Z) (host : option Z) (port : Z)
  : Z * sham_connection * sham_packet * io_state :=
  if negb (state_eqb (state conn) SHAM_CLOSED) then (-1, conn, packet, io)
  else
    let conn0 := if sockfd conn <? 0 then set_sockfd sock conn else conn in
    if sockfd conn0 <? 0 then (-1, conn0, packet, io)
    else
      match host with
      | None => (-1, conn0, packet, io)
      | Some addr =>
          let conn1 :=
            set_peer_len 16
              (set_peer_addr {| sin_addr := addr; sin_port := htons (u16 port) |}
                 conn0) in
          let syn :=
            sham_create_packet_with_conn conn1 (send_seq conn1) 0 SHAM_SYN
              None 0 in
          let '(res, io1) := sham_send_packet w io syn in
          if res <? 0 then (-1, conn1, packet, io1)
          else
            let conn2 := set_state SHAM_SYN_SENT conn1 in
            let '(recv_result, conn3, syn_ack, io2) :=
              sham_recv_packet_timeout w io1 conn2 packet SHAM_RTO_MS in
            if recv_result <=? 0
            then (-1, set_state SHAM_CLOSED conn3, syn_ack, io2)
            else if negb (Z.land (flags (header syn_ack))
                                 (Z.lor SHAM_SYN SHAM_ACK)
                          =? Z.lor SHAM_SYN SHAM_ACK)
                    || negb (ack_num (header syn_ack) =? u32 (send_seq conn3 + 1))
            then (-1, set_state SHAM_CLOSED conn3, syn_ack, io2)
            else
              let conn4 :=
                set_send_seq (u32 (send_seq conn3 + 1))
                  (set_recv_seq (u32 (seq_num (header syn_ack) + 1)) conn3) in
              let ack :=
                sham_create_packet_with_conn conn4 (send_seq conn4)
                  (recv_seq conn4) SHAM_ACK None 0 in
              let '(res2, io3) := sham_send_packet w io2 ack in
              if res2 <? 0
              then (-1, set_state SHAM_CLOSED conn4, syn_ack, io3)
              else
                (0, set_send_base (send_seq conn4)
                      (set_state SHAM_ESTABLISHED conn4),
                 syn_ack, io3)
      end.

(** ** Concrete environments

    Worlds for running the functions above: the network delivers a given
    list of events and then stays silent, every [sendto] succeeds, and the
    clock reads a given list of times and then stays at its last reading. *)

Definition net_of_list (evs : list net_event) : nat -> net_event :=
  fun i => default SelectTimeout (evs !! i).

Definition loopback : sockaddr_in := {| sin_addr := 2130706433; sin_port := 8080 |}.

(** The event "a datagram carrying [p] arrived from the peer". *)
Definition arrival (p : sham_packet) : net_event :=
  SelectReady (RecvDgram (sham_wire p) loopback 16) 0.

Definition at_time (ms : Z) : timeval :=
  {| tv_sec := ms / 1000; tv_usec := (ms mod 1000) * 1000 |}.

(** The clock advances by [step_ms] milliseconds at every reading. *)
Definition ticking_clock (step_ms : Z) : nat -> timeval :=
  fun i => at_time (step_ms * Z.of_nat i).

Definition quiet_world (evs : list net_event) (step_ms : Z) : world :=
  {| net := net_of_list evs; sendto_ok := fun _ => true;
     clock := ticking_clock step_ms |}.

(** A client that completed the handshake with a peer whose initial
    sequence number is [peer_isn]; [rnd] seeds the client's own. *)
Definition syn_ack_for (rnd peer_isn : Z) : sham_packet :=
  sham_create_packet peer_isn (u32 (sham_generate_isn rnd + 1))
    (Z.lor SHAM_SYN SHAM_ACK) None 0.

Definition connected (rnd peer_isn : Z) : sham_connection :=
  let w := quiet_world [arrival (syn_ack_for rnd peer_isn)] 0 in
  let '(_, conn, _, _) :=
    sham_connect w io_init (sham_create_connection rnd) zero_packet 3
      (Some 2130706433) 8080 in
  conn.

(** ** Scenarios

    Drivers and peers used to run the protocol on concrete inputs. *)

(** A data segment as the peer's [sham_send] builds it. *)
Definition data_segment (seq ack : Z) (bytes : list Z) : sham_packet :=
  sham_create_packet seq ack 0 (Some bytes) (Z.of_nat (length bytes)).

(** An application that calls [sham_recv] [k] times in a row, each time with
    a fresh buffer of [len] bytes. *)
Fixpoint recv_calls (w : world) (fuel k : nat) (io : io_state)
    (conn : sham_connection) (len : Z) : option (sham_connection * io_state) :=
  match k with
  | O => Some (conn, io)
  | S k' =>
      match sham_recv w fuel io conn zero_packet (replicate (ix len) 0) len with
      | (Some _, conn', _, io') => recv_calls w fuel k' io' conn' len
      | (None, _, _, _) => None
      end
  end.

(** A peer that streams full segments of 1024 bytes, in order and without
    loss, starting at sequence number [start]. *)
Definition streaming_peer (start ack : Z) : world :=
  {| net := fun i =>
       arrival (data_segment (start + 1024 * Z.of_nat i) ack (replicate 1024 7));
     sendto_ok := fun _ => true;
     clock := ticking_clock 0 |}.

(** The receiver-side invariants under study, as executable checks. *)
Definition ooo_entry_ahead (conn : sham_connection) (e : sham_ooo_entry) : bool :=
  negb (valid e) || (seq_num (header (oe_packet e)) >? recv_seq conn).

Definition ooo_all_ahead (conn : sham_connection) : bool :=
  forallb (ooo_entry_ahead conn) (ooo_buffer conn).

Definition recv_buffer_within_size (conn : sham_connection) : bool :=
  recv_buffer_used conn <=? recv_buffer_size conn.

(** What the header of a sent packet says once read back in host order. *)
Definition sent_flags (p : sham_packet) : Z := ntohs (flags (header p)).
Definition sent_window (p : sham_packet) : Z := ntohs (window_size (header p)).
Definition sent_seq (p : sham_packet) : Z := ntohl (seq_num (header p)).
Definition sent_ack (p : sham_packet) : Z := ntohl (ack_num (header p)).

Definition is_ack_packet (p : sham_packet) : bool :=
  has_flag (sent_flags p) SHAM_ACK.

(** The window the data model asks every ACK to advertise. *)
Definition specified_window (conn : sham_connection) : Z :=
  Z.max (recv_buffer_size conn - recv_buffer_used conn) SHAM_MAX_DATA_SIZE.

(** A cumulative ACK as the peer's [sham_recv] builds it, advertising the
    window [win]. *)
Definition peer_ack (seq ack win : Z) : sham_packet :=
  set_packet_window (htons win) (sham_create_packet seq ack SHAM_ACK None 0).

(** A peer that never answers, while the clock moves on by one RTO between
    any two readings. *)
Definition silent_world : world :=
  {| net := fun _ => SelectTimeout; sendto_ok := fun _ => true;
     clock := ticking_clock SHAM_RTO_MS |}.

(** A received ACK as [sham_recv_packet] leaves it in the packet variable
    (header in host byte order). *)
Definition received_ack (seq ack win : Z) : sham_packet :=
  {| header := {| seq_num := seq; ack_num := ack; flags := SHAM_ACK;
                  window_size := win |};
     data := zero_data; data_len := 0 |}.

(** The client sends one byte to the silent peer: the segment, the
    connection and the environment right after the segment went out, and the
    outcome of six more rounds of waiting. *)
Definition first_segment : sham_packet :=
  sham_create_packet_with_conn (connected 5 100) (send_seq (connected 5 100))
    (recv_seq (connected 5 100)) 0 (ptr_add (Some [1]) 0) (chunk_of 1 0).

Definition after_first_segment : sham_connection :=
  record_sent (connected 5 100) first_segment (chunk_of 1 0)
    (ticking_clock SHAM_RTO_MS 1).

Definition io_after_first_segment : io_state :=
  observe (Emitted (connected 5 100) (chunk_of 1 0) after_first_segment)
    {| n_net := 1; n_send := 1; n_clock := 2; sent := [first_segment];
       trace := [Polled (connected 5 100)] |}.

Definition exhausted_conn : sham_connection :=
  Eval vm_compute in
    snd (fst (wait_acked silent_world 6 io_after_first_segment
                after_first_segment zero_packet (usize (0 + chunk_of 1 0)))).

Definition exhausted_io : io_state :=
  Eval vm_compute in
    snd (wait_acked silent_world 6 io_after_first_segment
           after_first_segment zero_packet (usize (0 + chunk_of 1 0))).

(** ** Well-formedness and invariants *)

(** The header fields hold values of their C types. *)
Definition header_in_range (h : sham_header) : Prop :=
  0 <= seq_num h < 2 ^ 32 /\ 0 <= ack_num h < 2 ^ 32
  /\ 0 <= flags h < 2 ^ 16 /\ 0 <= window_size h < 2 ^ 16.

(** Two states of the send window whose entries carry the same packets. *)
Definition same_packets (sw sw' : list sham_window_entry) : Prop :=
  map we_packet sw' = map we_packet sw.

(** The ring indices of the send window are in range. *)
Definition ring_ok (conn : sham_connection) : Prop :=
  0 <= window_start conn < SHAM_WINDOW_SIZE
  /\ 0 <= window_count conn <= SHAM_WINDOW_SIZE
  /\ length (send_window conn) = ix SHAM_WINDOW_SIZE.


(** The i-th entry of the send window, counted from the oldest. *)
Definition slot (conn : sham_connection) (i : Z) : sham_window_entry :=
  send_window conn !!! ix (Z.rem (window_start conn + i) SHAM_WINDOW_SIZE).

(** The ring indices are in range and the newest entry of the window ends at
    [send_seq] (with an empty window, [send_base] is [send_seq]).  This is
    what the handshake establishes and what every step of [sham_send]
    keeps, 32-bit wrap-around of the sequence numbers included. *)
Definition window_tail_ok (conn : sham_connection) : Prop :=
  0 <= window_start conn < SHAM_WINDOW_SIZE
  /\ 0 <= window_count conn <= SHAM_WINDOW_SIZE
  /\ length (send_window conn) = ix SHAM_WINDOW_SIZE
  /\ 0 <= send_seq conn < 2 ^ 32
  /\ (if window_count conn =? 0 then send_base conn = send_seq conn
      else packet_end (slot conn (window_count conn - 1)) = send_seq conn).

(** The flow-control counters hold values of their C types. *)
Definition flow_in_range (conn : sham_connection) : Prop :=
  0 <= peer_window_size conn < 2 ^ 16
  /\ 0 <= last_byte_sent conn < 2 ^ 32
  /\ 0 <= last_byte_acked conn < 2 ^ 32.




(** The in-window entries, oldest first, and the sequence numbers at which
    they end. *)
Fixpoint in_flight_from (n : nat) (i : Z) (conn : sham_connection)
  : list sham_window_entry :=
  match n with
  | O => []
  | S n' => slot conn i :: in_flight_from n' (i + 1) conn
  end.

Definition in_flight (conn : sham_connection) : list sham_window_entry :=
  in_flight_from (ix (window_count conn)) 0 conn.

Definition window_ends (conn : sham_connection) : list Z :=
  map packet_end (in_flight conn).

Fixpoint ascending_from (lo : Z) (ends : list Z) : Prop :=
  match ends with
  | [] => True
  | e :: rest => lo < e /\ ascending_from e rest
  end.

(** The cumulative-ACK order: the in-window entries end at increasing
    sequence numbers beyond [send_base] and beyond every byte acknowledged
    so far.  It holds as long as sequence numbers do not wrap and the peer
    acknowledges nothing that was not sent. *)
Definition acks_ordered (conn : sham_connection) : Prop :=
  ring_ok conn
  /\ ascending_from (Z.max (send_base conn) (last_byte_acked conn))
       (window_ends conn).

(** How many of the slots that [sham_deliver_ooo_packets] scans hold a
    segment. *)
Fixpoint count_valid (l : list sham_ooo_entry) : nat :=
  match l with
  | [] => 0
  | e :: rest => (if valid e then 1 else 0) + count_valid rest
  end.

Definition staged (conn : sham_connection) : nat :=
  count_valid (take (ix SHAM_WINDOW_SIZE) (ooo_buffer conn)).

(** ** Server side: listening and accepting ([sham.c], lines 41-85 and
    314-445)

    [fd] is what [socket] returns and [bound] tells whether [bind]
    succeeds. *)

Definition sham_socket (fd : Z) : Z := if fd <? 0 then -1 else fd.

Definition sham_bind (sockfd port : Z) (bound : bool) : Z :=
  if bound then 0 else -1.

Definition sham_listen (conn : sham_connection) (fd : Z) (bound : bool)
    (port : Z) : Z * sham_connection :=
  if negb (state_eqb (state conn) SHAM_CLOSED) then (-1, conn)
  else
    let conn1 := set_sockfd (sham_socket fd) conn in
    if sockfd conn1 <? 0 then (-1, conn1)
    else if sham_bind (sockfd conn1) port bound <? 0 then (-1, conn1)
    else (0, set_state SHAM_LISTEN conn1).

(** The descriptors that [sham_free_connection] hands to [close]; [None] is
    the null pointer. *)
Definition sham_free_connection (conn : option sham_connection) : list Z :=
  match conn with
  | Some c => if sockfd c >=? 0 then [sockfd c] else []
  | None => []
  end.

(** [sham_accept] waits for the SYN with a plain [sham_recv_packet]: [r] is
    what that blocking [recvfrom] returns and [rnd] the value [rand] yields
    for its loss simulation.  [fresh] is the outcome of
    [sham_create_connection]: [None] when [malloc] fails, otherwise the value
    of [rand] that seeds the initial sequence number.  [packet] is the
    initial content of the stack variables [syn] and [final_ack].  The result
    is the new connection ([None] for a null pointer), the listening
    connection, the descriptors closed on the way, and the environment. *)
Definition sham_accept (w : world) (io : io_state)
    (listen_conn : sham_connection) (packet : sham_packet) (r : recv_result)
    (rnd : Z) (fresh : option Z)
  : option sham_connection * sham_connection * list Z * io_state :=
  if negb (state_eqb (state listen_conn) SHAM_LISTEN)
  then (None, listen_conn, [], io)
  else if sockfd listen_conn <? 0 then (None, listen_conn, [], io)
  else
    let '(recv_result, listen1, syn) :=
      sham_recv_packet listen_conn packet r rnd in
    if recv_result <=? 0 then (None, listen1, [], io)
    else if negb (has_flag (flags (header syn)) SHAM_SYN)
    then (None, listen1, [], io)
    else
      match fresh with
      | None => (None, listen1, [], io)
      | Some isn_rnd =>
          let new1 :=
            set_loss_rate (loss_rate listen1)
              (set_state SHAM_SYN_RECEIVED
                 (set_recv_seq (u32 (seq_num (header syn) + 1))
                    (set_peer_len (peer_len listen1)
                       (set_peer_addr (peer_addr listen1)
                          (set_sockfd (sockfd listen1)
                             (sham_create_connection isn_rnd)))))) in
          let syn_ack :=
            sham_create_packet_with_conn new1 (send_seq new1) (recv_seq new1)
              (Z.lor SHAM_SYN SHAM_ACK) None 0 in
          let '(res, io1) := sham_send_packet w io syn_ack in
          if res <? 0
          then (None, listen1, sham_free_connection (Some new1), io1)
          else
            let new2 := set_send_seq (u32 (send_seq new1 + 1)) new1 in
            let '(res2, new3, final_ack, io2) :=
              sham_recv_packet_timeout w io1 new2 packet SHAM_RTO_MS in
            if res2 <=? 0
            then (None, listen1, sham_free_connection (Some new3), io2)
            else if negb (has_flag (flags (header final_ack)) SHAM_ACK)
                    || negb (ack_num (header final_ack) =? send_seq new3)
            then (None, listen1, sham_free_connection (Some new3), io2)
            else
              (Some (set_send_base (send_seq new3)
                       (set_state SHAM_ESTABLISHED new3)),
               listen1, [], io2)
      end.

(** ** File transfer ([sham.c], lines 753-909 and 1012-1017)

    A file that [fopen] opens for reading is the list of its bytes ([None]
    when [fopen] fails); [ftell] at its end gives their number, and [fread]
    delivers the bytes from the read position on, as many as were asked for
    or as are left.  A file opened for writing collects the bytes that
    [fwrite] appends.  The loops take fuel as in [sham_send]; the same fuel
    bounds every call of [sham_send] and [sham_recv] inside. *)

Definition sham_get_time_ms (w : world) (io : io_state) : Z * io_state :=
  let '(tv, io') := gettimeofday w io in
  (tv_sec tv * 1000 + Z.quot (tv_usec tv) 1000, io').

Definition fread (content : list Z) (pos to_read : Z) : list Z :=
  take (ix to_read) (drop (ix pos) content).

(** The four bytes of [size_net] as [sham_send] reads them from memory, and
    the value [sham_recv_file] makes of four such bytes. *)
Definition file_size_header (file_size : Z) : list Z :=
  le32 (htonl (u32 file_size)).

Definition announced_size (size_net : list Z) : Z := ntohl (ld32 size_net 0).

(** [while (total_sent < (size_t)file_size)]; [buffer] is the stack array
    the chunks are read into and [pos] the read position of the file. *)
Fixpoint send_file_loop (w : world) (fuel rounds : nat) (io : io_state)
    (conn : sham_connection) (packet : sham_packet) (buffer content : list Z)
    (file_size pos total_sent : Z) : option Z * sham_connection * io_state :=
  match rounds with
  | O => (None, conn, io)
  | S rounds' =>
      if total_sent <? usize file_size then
        let to_read :=
          if usize (usize file_size - total_sent) >? SHAM_MAX_DATA_SIZE
          then SHAM_MAX_DATA_SIZE
          else usize (usize file_size - total_sent) in
        let chunk := fread content pos to_read in
        let read_bytes := Z.of_nat (length chunk) in
        if read_bytes =? 0 then (Some (to_int total_sent), conn, io)
        else
          let buffer1 := memcpy buffer chunk read_bytes in
          let '(res, conn1, io1) :=
            sham_send w fuel io conn packet (Some buffer1) read_bytes in
          match res with
          | None => (None, conn1, io1)
          | Some r =>
              if r <? 0 then (Some (-1), conn1, io1)
              else
                send_file_loop w fuel rounds' io1 conn1 packet buffer1 content
                  file_size (pos + read_bytes) (usize (total_sent + read_bytes))
          end
      else (Some (to_int total_sent), conn, io)
  end.

Definition sham_send_file (w : world) (fuel : nat) (io : io_state)
    (conn : sham_connection) (packet : sham_packet) (buffer : list Z)
    (file : option (list Z)) : option Z * sham_connection * io_state :=
  match file with
  | None => (Some (-1), conn, io)
  | Some content =>
      let file_size := Z.of_nat (length content) in
      let '(res, conn1, io1) :=
        sham_send w fuel io conn packet (Some (file_size_header file_size)) 4 in
      match res with
      | None => (None, conn1, io1)
      | Some r =>
          if r <? 0 then (Some (-1), conn1, io1)
          else
            send_file_loop w fuel fuel io1 conn1 packet buffer content
              file_size 0 0
      end
  end.

(** [while (got < len)] of [sham_recv_exact]; [out + got] is the rest of
    [out] from offset [got] on. *)
Fixpoint recv_exact_loop (w : world) (fuel rounds : nat) (io : io_state)
    (conn : sham_connection) (packet : sham_packet) (out : list Z)
    (len overall_timeout_ms start_ms got : Z)
  : option Z * sham_connection * list Z * io_state :=
  match rounds with
  | O => (None, conn, out, io)
  | S rounds' =>
      if got <? len then
        let remaining := to_int (usize (len - got)) in
        let '(res, conn1, rest, io1) :=
          sham_recv w fuel io conn packet (drop (ix got) out) (usize remaining) in
        let out1 := take (ix got) out ++ rest in
        match res with
        | None => (None, conn1, out1, io1)
        | Some n =>
            if n >? 0 then
              recv_exact_loop w fuel rounds' io1 conn1 packet out1 len
                overall_timeout_ms start_ms (usize (got + usize n))
            else if overall_timeout_ms >=? 0 then
              let '(now_ms, io2) := sham_get_time_ms w io1 in
              if now_ms - start_ms >? overall_timeout_ms
              then (Some (to_int got), conn1, out1, io2)
              else
                recv_exact_loop w fuel rounds' io2 conn1 packet out1 len
                  overall_timeout_ms start_ms got
            else
              recv_exact_loop w fuel rounds' io1 conn1 packet out1 len
                overall_timeout_ms start_ms got
        end
      else (Some (to_int got), conn, out, io)
  end.

Definition sham_recv_exact (w : world) (fuel : nat) (io : io_state)
    (conn : sham_connection) (packet : sham_packet) (out : list Z)
    (len overall_timeout_ms : Z)
  : option Z * sham_connection * list Z * io_state :=
  let '(start_ms, io0) := sham_get_time_ms w io in
  recv_exact_loop w fuel fuel io0 conn packet out len overall_timeout_ms
    start_ms 0.

(** [while (total_received < file_size)] of [sham_recv_file]; the result is
    [total_received] when the loop is left, with the bytes written so far. *)
Fixpoint recv_file_loop (w : world) (fuel rounds : nat) (io : io_state)
    (conn : sham_connection) (packet : sham_packet) (buffer : list Z)
    (file_size total_received last_progress_ms : Z) (written : list Z)
  : option Z * sham_connection * list Z * io_state :=
  match rounds with
  | O => (None, conn, written, io)
  | S rounds' =>
      if total_received <? file_size then
        let to_receive :=
          if usize (file_size - total_received) >? SHAM_MAX_DATA_SIZE
          then SHAM_MAX_DATA_SIZE
          else usize (file_size - total_received) in
        let '(res, conn1, buffer1, io1) :=
          sham_recv w fuel io conn packet buffer to_receive in
        match res with
        | None => (None, conn1, written, io1)
        | Some n =>
            if n >? 0 then
              let written1 := written ++ take (ix (usize n)) buffer1 in
              let total1 := usize (total_received + usize n) in
              let '(now_ms, io2) := sham_get_time_ms w io1 in
              recv_file_loop w fuel rounds' io2 conn1 packet buffer1 file_size
                total1 now_ms written1
            else
              let '(now_ms, io2) := sham_get_time_ms w io1 in
              if now_ms - last_progress_ms >? 10000
              then (Some total_received, conn1, written, io2)
              else
                recv_file_loop w fuel rounds' io2 conn1 packet buffer1
                  file_size total_received last_progress_ms written
        end
      else (Some total_received, conn, written, io)
  end.

(** [size_net] is the initial content of the four bytes the size is received
    into, [buffer] that of the stack array, and [creatable] tells whether
    [fopen] for writing succeeds.  The third component of the result is the
    file that was written ([None] when none was created). *)
Definition sham_recv_file (w : world) (fuel : nat) (io : io_state)
    (conn : sham_connection) (packet : sham_packet)
    (size_net buffer : list Z) (creatable : bool)
  : option Z * sham_connection * option (list Z) * io_state :=
  let '(nread, conn1, size_net1, io1) :=
    sham_recv_exact w fuel io conn packet size_net 4 10000 in
  match nread with
  | None => (None, conn1, None, io1)
  | Some n =>
      if negb (n =? 4) then (Some (-1), conn1, None, io1)
      else
        let file_size := announced_size size_net1 in
        if negb creatable then (Some (-1), conn1, None, io1)
        else
          let '(start_ms, io2) := sham_get_time_ms w io1 in
          let '(total, conn2, written, io3) :=
            recv_file_loop w fuel fuel io2 conn1 packet buffer file_size 0
              start_ms [] in
          match total with
          | None => (None, conn2, Some written, io3)
          | Some total_received =>
              if negb (total_received =? file_size)
              then (Some (-1), conn2, Some written, io3)
              else (Some (to_int total_received), conn2, Some written, io3)
          end
  end.

(** ** Views used by the statements below *)

(** A header read in host byte order, as [sham_recv_packet] converts it. *)
Definition host_order (h : sham_header) : sham_header :=
  {| seq_num := ntohl (seq_num h); ack_num := ntohl (ack_num h);
     flags := ntohs (flags h); window_size := ntohs (window_size h) |}.

(** The connection after [sham_recv_packet] has noted the sender of an
    accepted datagram. *)
Definition learn_peer (conn : sham_connection) (from : sockaddr_in)
    (from_len : Z) : sham_connection :=
  if peer_len conn =? 0 then set_peer_len from_len (set_peer_addr from conn)
  else conn.

(** The loss simulation is switched off. *)
Definition lossless (conn : sham_connection) : Prop :=
  Qle_bool (loss_rate conn) 0 = true.

(** ** The three-way handshake, both sides

    A network on which every wait is answered by [ev] and every [sendto]
    succeeds. *)
Definition answering (ev : net_event) : world :=
  {| net := fun _ => ev; sendto_ok := fun _ => true;
     clock := fun _ => zero_timeval |}.

Definition nth_sent (i : nat) (io : io_state) : sham_packet :=
  nth i (sent io) zero_packet.

Definition client_side (c0 : sham_connection) (sock addr port : Z)
    (ev : net_event) : Z * sham_connection * sham_packet * io_state :=
  sham_connect (answering ev) io_init c0 zero_packet sock (Some addr) port.

Definition server_side (l : sham_connection) (syn : sham_packet) (isn_rnd : Z)
    (ev : net_event)
  : option sham_connection * sham_connection * list Z * io_state :=
  sham_accept (answering ev) io_init l zero_packet
    (RecvDgram (sham_wire syn) loopback 16) 0 (Some isn_rnd).

(** [sham_connect] on one host and [sham_accept] on the other, each fed the
    packets the other one sends.  The SYN does not depend on what the
    network answers afterwards, nor does the SYN-ACK, so both are read off
    runs in which nothing arrives. *)
Definition handshake (c0 : sham_connection) (sock addr port : Z)
    (l : sham_connection) (isn_rnd : Z)
  : Z * sham_connection * option sham_connection :=
  let syn := nth_sent 0 (snd (client_side c0 sock addr port SelectTimeout)) in
  let syn_ack := nth_sent 0 (snd (server_side l syn isn_rnd SelectTimeout)) in
  let '(res, c, _, io_c) := client_side c0 sock addr port (arrival syn_ack) in
  let ack := nth_sent 1 io_c in
  let '(s, _, _, _) := server_side l syn isn_rnd (arrival ack) in
  (res, c, s).

(** ** Well-formed packet variables

    A [struct sham_packet] whose [data] array has its 1024 bytes and whose
    [data_len] does not exceed them. *)
Definition packet_well_formed (p : sham_packet) : Prop :=
  0 <= data_len p <= SHAM_MAX_DATA_SIZE
  /\ length (data p) = ix SHAM_MAX_DATA_SIZE.

Definition staging_well_formed (conn : sham_connection) : Prop :=
  Forall (fun e => packet_well_formed (oe_packet e)) (ooo_buffer conn).

(** No segment is staged. *)
Definition staging_empty (conn : sham_connection) : Prop :=
  length (ooo_buffer conn) = ix SHAM_WINDOW_SIZE
  /\ Forall (fun e => valid e = false) (ooo_buffer conn).

(** A data segment as [sham_send] builds it on the connection [peer]. *)
Definition peer_segment (peer : sham_connection) (seq ack : Z)
    (bytes : list Z) : sham_packet :=
  sham_create_packet_with_conn peer seq ack 0 (Some bytes)
    (Z.of_nat (length bytes)).

(** ** What [sham_send] puts on the wire

    Sequence number and payload of a packet, as its wire form carries
    them. *)
Definition wire_segment (p : sham_packet) : Z * list Z :=
  (sent_seq p, take (ix (data_len p)) (data p)).

(** The newest entry of the send window. *)
Definition newest_entry (conn : sham_connection) : sham_window_entry :=
  slot conn (window_count conn - 1).

(** The sequence number that follows a stream of segments starting at
    [seq]. *)
Fixpoint stream_end (seq : Z) (stream : list (Z * list Z)) : Z :=
  match stream with
  | [] => seq
  | (_, d) :: rest => stream_end (u32 (seq + Z.of_nat (length d))) rest
  end.

(** Every segment starts where the one before it ends, and carries between
    1 and [SHAM_MAX_DATA_SIZE] bytes. *)
Fixpoint contiguous_from (seq : Z) (stream : list (Z * list Z)) : Prop :=
  match stream with
  | [] => True
  | (s, d) :: rest =>
      s = seq /\ 0 < Z.of_nat (length d) <= SHAM_MAX_DATA_SIZE
      /\ contiguous_from (u32 (seq + Z.of_nat (length d))) rest
  end.

(** No window entry has been retransmitted more often than
    [SHAM_MAX_RETRIES] times. *)
Definition retries_bounded (conn : sham_connection) : Prop :=
  Forall (fun e => 0 <= retries e <= SHAM_MAX_RETRIES) (send_window conn).

(** The packets sent since the call began are [out]; those of them that
    were sent for the first time are [firsts], in this order, and every
    other one repeats one of [firsts] or one of [old], the packets in
    flight when the call began.  The first transmissions carry the first
    [n] bytes of [bytes] in contiguous segments from [seq0] on, and
    [send_seq] has moved on by as much. *)
Definition wire_sent (bytes : list Z) (snt0 old : list sham_packet) (seq0 : Z)
    (conn : sham_connection) (snt : list sham_packet) (n : Z) : Prop :=
  window_tail_ok conn
  /\ send_seq conn = u32 (seq0 + n)
  /\ exists firsts out,
       snt = snt0 ++ out
       /\ sublist firsts out
       /\ Forall (fun p => In p firsts \/ In p old) out
       /\ Forall (fun p => In p firsts \/ In p old)
            (map we_packet (in_flight conn))
       /\ concat (map snd (map wire_segment firsts)) = take (ix n) bytes
       /\ contiguous_from seq0 (map wire_segment firsts)
       /\ stream_end seq0 (map wire_segment firsts) = send_seq conn.

(** ** One segment, end to end

    [sham_send] on one host and [sham_recv] on the other, each fed the
    packet the other one sends.  The data segment does not depend on what
    the network answers afterwards, so it is read off a run of the sender in
    which nothing arrives. *)
Definition first_transmission (sender : sham_connection) (bytes : list Z)
  : sham_packet :=
  nth_sent 0
    (snd (sham_send (quiet_world [] 0) 2 io_init sender zero_packet
            (Some bytes) (Z.of_nat (length bytes)))).

Definition exchange (fuel : nat) (sender receiver : sham_connection)
    (bytes buffer : list Z)
  : option Z * sham_connection * option Z * sham_connection * list Z :=
  let len := Z.of_nat (length bytes) in
  let segment := first_transmission sender bytes in
  let '(got, receiver', buffer', io_r) :=
    sham_recv (answering (arrival segment)) fuel io_init receiver zero_packet
      buffer len in
  let ack := nth_sent 0 io_r in
  let '(res, sender', _) :=
    sham_send (quiet_world [SelectTimeout; arrival ack] 0) fuel io_init sender
      zero_packet (Some bytes) len in
  (res, sender', got, receiver', buffer').

(** ** Staged segments that a delivery consumes

    The payload lengths of the staged segments that are valid in [before]
    and no longer valid in [after], slot by slot, summed up. *)
Fixpoint consumed_len (before after : list sham_ooo_entry) : Z :=
  match before, after with
  | e :: before', e' :: after' =>
      (if valid e && negb (valid e') then data_len (oe_packet e) else 0)
      + consumed_len before' after'
  | _, _ => 0
  end.

(** The slots hold the same segments, and no slot has become valid. *)
Definition cleared_only (before after : list sham_ooo_entry) : Prop :=
  Forall2 (fun e e' => oe_packet e' = oe_packet e
                       /\ (valid e' = true -> valid e = true))
    before after.

(** ** A server and its client

    A listening connection, the SYN of a client whose initial sequence
    number is 5, and the ACK with which that client answers the SYN-ACK of
    a server whose initial sequence number is seeded by [isn_rnd]. *)
Definition listener : sham_connection :=
  snd (sham_listen (sham_create_connection 9) 4 true 8080).

Definition client_syn : sham_packet := sham_create_packet 5 0 SHAM_SYN None 0.

Definition client_ack (isn_rnd : Z) : sham_packet :=
  sham_create_packet 6 (u32 (sham_generate_isn isn_rnd + 1)) SHAM_ACK None 0.

(** The listening connection after it accepted that client. *)
Definition listener_after_accept : sham_connection :=
  snd (fst (fst (server_side listener client_syn 7 (arrival (client_ack 7))))).

(** A second client, at another address. *)
Definition other_host : sockaddr_in := {| sin_addr := 167772161; sin_port := 9090 |}.

(** A data segment as [sham_recv_packet] leaves it in the packet variable
    (header in host byte order). *)
Definition received_segment (seq ack : Z) (bytes : list Z) : sham_packet :=
  {| header := {| seq_num := seq; ack_num := ack; flags := 0;
                  window_size := SHAM_DEFAULT_ADVERTISED_WINDOW |};
     data := memcpy zero_data bytes (Z.of_nat (length bytes));
     data_len := Z.of_nat (length bytes) |}.

(** * Properties *)

(** Closed goals about concrete runs are settled by evaluation. *)
Ltac by_evaluation :=
  vm_compute; repeat split; first [reflexivity | discriminate | intro; discriminate].


(** ** Machine integers and byte order *)

Lemma u16_range x : 0 <= u16 x < 2 ^ 16.
Proof. unfold u16. apply Z.mod_pos_bound. lia. Qed.

Lemma u32_range x : 0 <= u32 x < 2 ^ 32.
Proof. unfold u32. apply Z.mod_pos_bound. lia. Qed.

Lemma u16_small x : 0 <= x < 2 ^ 16 -> u16 x = x.
Proof. intros H. unfold u16. apply Z.mod_small. lia. Qed.

Lemma u32_small x : 0 <= x < 2 ^ 32 -> u32 x = x.
Proof. intros H. unfold u32. apply Z.mod_small. lia. Qed.

Lemma usize_small x : 0 <= x < 2 ^ 64 -> usize x = x.
Proof. intros H. unfold usize. apply Z.mod_small. lia. Qed.

Lemma to_int_small x : - 2 ^ 31 <= x <= INT_MAX -> to_int x = x.
Proof.
  unfold to_int, INT_MAX. intros H.
  rewrite Z.mod_small by lia. lia.
Qed.

Lemma byte_mod b t : is_byte b -> (b + 256 * t) mod 256 = b.
Proof.
  intros H. replace (b + 256 * t) with (b + t * 256) by lia.
  rewrite Z_mod_plus_full. apply Z.mod_small. exact H.
Qed.

Lemma byte_div b t : is_byte b -> (b + 256 * t) / 256 = t.
Proof.
  intros H. replace (b + 256 * t) with (b + t * 256) by lia.
  rewrite Z.div_add by lia. rewrite Z.div_small; [lia | exact H].
Qed.

Lemma bswap32_of_bytes4 b0 b1 b2 b3 :
  is_byte b0 -> is_byte b1 -> is_byte b2 -> is_byte b3 ->
  bswap32 (of_bytes4 b0 b1 b2 b3) = of_bytes4 b3 b2 b1 b0.
Proof.
  unfold bswap32, of_bytes4. intros H0 H1 H2 H3.
  change (2 ^ 8) with 256. change (2 ^ 16) with (256 * 256).
  change (2 ^ 24) with (256 * 256 * 256).
  rewrite <- !Z.div_div by lia.
  repeat first [rewrite byte_mod by assumption | rewrite byte_div by assumption].
  rewrite (Z.mod_small b3) by exact H3. lia.
Qed.

Lemma bytes4_exist x : 0 <= x < 2 ^ 32 ->
  exists b0 b1 b2 b3, is_byte b0 /\ is_byte b1 /\ is_byte b2 /\ is_byte b3 /\
    x = of_bytes4 b0 b1 b2 b3.
Proof.
  intros H. unfold is_byte, of_bytes4.
  exists (x mod 256), (x / 256 mod 256), (x / 256 / 256 mod 256), (x / 256 / 256 / 256).
  pose proof (Z.mod_pos_bound x 256 ltac:(lia)).
  pose proof (Z.mod_pos_bound (x / 256) 256 ltac:(lia)).
  pose proof (Z.mod_pos_bound (x / 256 / 256) 256 ltac:(lia)).
  pose proof (Z.div_mod x 256 ltac:(lia)).
  pose proof (Z.div_mod (x / 256) 256 ltac:(lia)).
  pose proof (Z.div_mod (x / 256 / 256) 256 ltac:(lia)).
  assert (0 <= x / 256 / 256 / 256 < 256).
  { rewrite !Z.div_div by lia. split; [apply Z.div_pos; lia|apply Z.div_lt_upper_bound; lia]. }
  repeat split; lia.
Qed.

Lemma bswap32_range x : 0 <= bswap32 x < 2 ^ 32.
Proof.
  unfold bswap32.
  pose proof (Z.mod_pos_bound x 256 ltac:(lia)).
  pose proof (Z.mod_pos_bound (x / 2 ^ 8) 256 ltac:(lia)).
  pose proof (Z.mod_pos_bound (x / 2 ^ 16) 256 ltac:(lia)).
  pose proof (Z.mod_pos_bound (x / 2 ^ 24) 256 ltac:(lia)).
  lia.
Qed.

Lemma bswap32_involutive x : 0 <= x < 2 ^ 32 -> bswap32 (bswap32 x) = x.
Proof.
  intros H. destruct (bytes4_exist x H) as (b0 & b1 & b2 & b3 & ? & ? & ? & ? & ->).
  rewrite !bswap32_of_bytes4; auto.
Qed.

Lemma bswap16_range x : 0 <= bswap16 x < 2 ^ 16.
Proof.
  unfold bswap16.
  pose proof (Z.mod_pos_bound x 256 ltac:(lia)).
  pose proof (Z.mod_pos_bound (x / 2 ^ 8) 256 ltac:(lia)).
  lia.
Qed.

Lemma bswap16_involutive x : 0 <= x < 2 ^ 16 -> bswap16 (bswap16 x) = x.
Proof.
  intros H. unfold bswap16. change (2 ^ 8) with 256.
  pose proof (Z.mod_pos_bound x 256 ltac:(lia)).
  pose proof (Z.div_mod x 256 ltac:(lia)).
  assert (0 <= x / 256 < 256).
  { split; [apply Z.div_pos; lia|apply Z.div_lt_upper_bound; lia]. }
  rewrite (Z.mod_small (x / 256)) by lia.
  replace (x mod 256 * 256 + x / 256) with (x / 256 + 256 * (x mod 256)) by lia.
  rewrite byte_mod, byte_div by (unfold is_byte; lia).
  rewrite Z.mod_mod by lia. lia.
Qed.

Lemma ntohl_htonl x : 0 <= x < 2 ^ 32 -> ntohl (htonl x) = x.
Proof. apply bswap32_involutive. Qed.

Lemma ntohs_htons x : 0 <= x < 2 ^ 16 -> ntohs (htons x) = x.
Proof. apply bswap16_involutive. Qed.

Lemma state_eqb_eq a b : state_eqb a b = true <-> a = b.
Proof. destruct a, b; simpl; split; (reflexivity || discriminate). Qed.


(** ** The loss simulation in single precision

    [(float)1073741823] is 2^30, so at a loss rate of one half this value of
    [rand] gives exactly 0.5 and the packet is kept; 1073741700 becomes
    1073741696, which gives less, and the packet is dropped.  A rate of 1
    keeps the packet for which [rand] yields [RAND_MAX]. *)
Lemma drop_decision_rounds :
  sham_should_drop_packet (1 # 2) 1073741823 = false
  /\ sham_should_drop_packet (1 # 2) 1073741700 = true
  /\ sham_should_drop_packet 1 RAND_MAX = false.
Proof. by_evaluation. Qed.
(** ** Packet construction *)

Lemma length_zero_data : length zero_data = 1024%nat.
Proof. unfold zero_data. rewrite length_replicate. reflexivity. Qed.

Lemma create_packet_with_conn_payload conn seq ack flgs src len :
  data (sham_create_packet_with_conn conn seq ack flgs src len)
    = data (sham_create_packet seq ack flgs src len)
  /\ data_len (sham_create_packet_with_conn conn seq ack flgs src len)
    = data_len (sham_create_packet seq ack flgs src len).
Proof. split; reflexivity. Qed.

(** C10: a call of [sham_create_packet] (and so of
    [sham_create_packet_with_conn]) with a null data pointer or with
    [data_len > 1024] returns a packet with [data_len = 0] and an all-zero,
    empty payload: the oversize payload is dropped as a whole, neither
    rejected nor cut to 1024 bytes. *)
Theorem create_packet_null_or_oversize conn seq ack flgs src len :
  src = None \/ len > SHAM_MAX_DATA_SIZE ->
  let p := sham_create_packet seq ack flgs src len in
  let q := sham_create_packet_with_conn conn seq ack flgs src len in
  data_len p = 0 /\ data p = zero_data /\ sham_wire p = header_bytes (header p)
  /\ data_len q = 0 /\ data q = zero_data /\ sham_wire q = header_bytes (header q).
Proof.
  intros Hcase p q.
  assert (Hp : data_len p = 0 /\ data p = zero_data).
  { subst p. unfold sham_create_packet. destruct src as [bytes|].
    - destruct Hcase as [Hnull|Hbig]; [discriminate|].
      replace (len <=? SHAM_MAX_DATA_SIZE) with false
        by (symmetry; apply Z.leb_gt; lia).
      rewrite andb_false_r. split; reflexivity.
    - split; reflexivity. }
  destruct Hp as [Hlen Hdata].
  destruct (create_packet_with_conn_payload conn seq ack flgs src len)
    as [Hqd Hql]. fold p q in Hqd, Hql.
  assert (Hwire : forall r, data_len r = 0 -> sham_wire r = header_bytes (header r)).
  { intros r Hr. unfold sham_wire. rewrite Hr.
    change (ix 0) with 0%nat. rewrite take_0. apply app_nil_r. }
  repeat split; try assumption; try congruence.
  - apply Hwire. assumption.
  - apply Hwire. congruence.
Qed.

Lemma create_packet_null_or_oversize_witness :
  let p := sham_create_packet 7 0 0 (Some (replicate 1025 255)) 1025 in
  data_len p = 0 /\ data p = zero_data.
Proof.
  pose proof (create_packet_null_or_oversize (sham_create_connection 0) 7 0 0
                (Some (replicate 1025 255)) 1025) as H.
  simpl in H. intros p.
  destruct H as (H1 & H2 & _); [right; unfold SHAM_MAX_DATA_SIZE; lia|].
  split; assumption.
Defined.

(** ** Packet decode *)

Lemma length_recvfrom_buffer dgram :
  Z.of_nat (length (recvfrom_buffer dgram))
    = Z.min (Z.of_nat (length dgram)) SHAM_MAX_PACKET_SIZE.
Proof.
  unfold recvfrom_buffer. rewrite length_take.
  unfold ix, SHAM_MAX_PACKET_SIZE, SHAM_HEADER_SIZE, SHAM_MAX_DATA_SIZE. lia.
Qed.

(** C6 as stated fails: a datagram of 1037 bytes (1025 payload bytes) is not
    rejected.  [recvfrom] stores its first 1036 bytes and the packet is
    accepted with a 1024-byte payload, which is not [datagram_length - 12]. *)
Lemma recv_packet_accepts_oversize :
  let dgram := replicate 1037 0 in
  let '(res, _, p) :=
    sham_recv_packet (sham_create_connection 0) zero_packet
      (RecvDgram dgram {| sin_addr := 0; sin_port := 0 |} 16) 0 in
  Z.of_nat (length dgram) = 1037 /\ res = 1036 /\ data_len p = 1024
  /\ data_len p <> Z.of_nat (length dgram) - 12.
Proof. vm_compute. repeat split; discriminate. Qed.

(** C6, amended: [sham_recv_packet] rejects every datagram shorter than 12
    bytes and has no oversize check.  A datagram of [n >= 12] bytes that the
    loss simulation does not drop is accepted; the return value is
    [min n 1036] and the payload length is [min n 1036 - 12], between 0 and
    1024, the payload being the datagram's bytes from offset 12 on.  Hence
    the payload length is [n - 12] exactly when [n] lies in [12, 1036], and a
    longer datagram is accepted with its payload cut to 1024 bytes. *)
Theorem recv_packet_sizes conn packet dgram from from_len rnd :
  let n := Z.of_nat (length dgram) in
  let '(res, _, p) :=
    sham_recv_packet conn packet (RecvDgram dgram from from_len) rnd in
  (n < 12 -> res = -1)
  /\ (res <> -1 ->
      12 <= n /\ sham_should_drop_packet (loss_rate conn) rnd = false)
  /\ (12 <= n -> sham_should_drop_packet (loss_rate conn) rnd = false ->
      res = Z.min n 1036
      /\ data_len p = Z.min n 1036 - 12
      /\ 0 <= data_len p <= 1024
      /\ take (ix (data_len p)) (data p)
         = take (ix (data_len p)) (drop 12 dgram)
      /\ (n <= 1036 -> data_len p = n - 12)
      /\ (n > 1036 -> data_len p = 1024)).
Proof.
  intros n. unfold sham_recv_packet.
  pose proof (length_recvfrom_buffer dgram) as Hlen. fold n in Hlen.
  unfold SHAM_MAX_PACKET_SIZE, SHAM_HEADER_SIZE, SHAM_MAX_DATA_SIZE in *.
  simpl in Hlen.
  set (buffer := recvfrom_buffer dgram) in *.
  destruct (Z.ltb_spec (Z.of_nat (length buffer)) 12) as [Hshort|Hok].
  { repeat split; intros; try lia; try congruence. }
  destruct (sham_should_drop_packet (loss_rate conn) rnd) eqn:Hdrop.
  { repeat split; intros; try lia; try congruence. }
  split; [intros; lia|]. split; [intros; split; [lia|reflexivity]|].
  intros Hn _. cbn [data_len data].
  rewrite to_int_small by (unfold INT_MAX; lia).
  repeat split; try lia.
  destruct (Z.gtb_spec (Z.of_nat (length buffer) - 12) 0) as [Hpos|Hzero].
  - unfold memcpy. rewrite take_app_le.
    2:{ rewrite length_take, length_drop. unfold ix. lia. }
    rewrite take_take. rewrite Nat.min_id.
    subst buffer. unfold recvfrom_buffer, ix in *.
    change (Z.to_nat SHAM_MAX_PACKET_SIZE) with (12 + 1024)%nat in *.
    change (Z.to_nat 12) with 12%nat.
    rewrite <- take_drop_commute. rewrite take_take.
    f_equal. rewrite length_take in *. lia.
  - replace (Z.of_nat (length buffer) - 12) with 0 by lia. reflexivity.
Qed.

Lemma recv_packet_sizes_witness :
  let dgram := sham_wire (data_segment 101 6 [1; 2; 3; 4; 5; 6; 7; 8]) in
  let '(res, _, p) :=
    sham_recv_packet (connected 5 100) zero_packet
      (RecvDgram dgram loopback 16) 0 in
  res = 20 /\ data_len p = 8 /\ take 8 (data p) = [1; 2; 3; 4; 5; 6; 7; 8].
Proof.
  intros dgram.
  pose proof (recv_packet_sizes (connected 5 100) zero_packet dgram loopback 16 0)
    as H.
  destruct (sham_recv_packet (connected 5 100) zero_packet
              (RecvDgram dgram loopback 16) 0) as [[res conn'] p].
  destruct H as (_ & _ & H).
  destruct H as (Hres & Hlen & _ & Hdata & _).
  - vm_compute. discriminate.
  - vm_compute. reflexivity.
  - split; [rewrite Hres; vm_compute; reflexivity|].
    assert (Hl : data_len p = 8) by (rewrite Hlen; vm_compute; reflexivity).
    split; [exact Hl|]. rewrite Hl in Hdata. exact Hdata.
Defined.

(** ** Wire format round trip *)

Lemma of_bytes4_split v :
  0 <= v < 2 ^ 32 ->
  of_bytes4 (v mod 256) (v / 2 ^ 8 mod 256) (v / 2 ^ 16 mod 256)
            (v / 2 ^ 24 mod 256) = v.
Proof.
  intros Hv. unfold of_bytes4.
  change (2 ^ 8) with 256. change (2 ^ 16) with (256 * 256).
  change (2 ^ 24) with (256 * 256 * 256).
  rewrite <- !Z.div_div by lia.
  pose proof (Z.div_mod v 256 ltac:(lia)).
  pose proof (Z.div_mod (v / 256) 256 ltac:(lia)).
  pose proof (Z.div_mod (v / 256 / 256) 256 ltac:(lia)).
  assert (0 <= v / 256 / 256 / 256 < 256).
  { rewrite !Z.div_div by lia.
    split; [apply Z.div_pos; lia|apply Z.div_lt_upper_bound; lia]. }
  rewrite (Z.mod_small (v / 256 / 256 / 256)) by lia. lia.
Qed.

Lemma of_bytes2_split v :
  0 <= v < 2 ^ 16 -> v mod 256 + 256 * (v / 2 ^ 8 mod 256) = v.
Proof.
  intros Hv. change (2 ^ 8) with 256.
  pose proof (Z.div_mod v 256 ltac:(lia)).
  assert (0 <= v / 256 < 256)
    by (split; [apply Z.div_pos; lia|apply Z.div_lt_upper_bound; lia]).
  rewrite (Z.mod_small (v / 256)) by lia. lia.
Qed.

(** The twelve bytes [sham_send_packet] writes are read back by
    [sham_recv_packet] as the same header. *)
Lemma wire_header_roundtrip p :
  header_in_range (header p) ->
  header_of_bytes (recvfrom_buffer (sham_wire p)) = header p.
Proof.
  intros (Hs & Ha & Hf & Hw).
  unfold recvfrom_buffer, sham_wire.
  change (ix SHAM_MAX_PACKET_SIZE) with (length (header_bytes (header p)) + 1024)%nat.
  rewrite take_app_add.
  unfold header_bytes, le32, le16. cbn [app].
  unfold header_of_bytes, ld32, ld16. cbn [lookup_total list_lookup_total Nat.add].
  rewrite !of_bytes4_split, !of_bytes2_split by assumption.
  destruct p as [[s a f w] d n]. reflexivity.
Qed.

(** A packet built by [sham_create_packet] is decoded to the sequence
    number, acknowledgment number and flags it was built from. *)
Lemma create_packet_decoded seq ack flgs src len :
  0 <= seq < 2 ^ 32 -> 0 <= ack < 2 ^ 32 -> 0 <= flgs < 2 ^ 16 ->
  let raw :=
    header_of_bytes (recvfrom_buffer (sham_wire (sham_create_packet seq ack flgs src len))) in
  ntohl (seq_num raw) = seq /\ ntohl (ack_num raw) = ack
  /\ ntohs (flags raw) = flgs
  /\ ntohs (window_size raw) = SHAM_DEFAULT_ADVERTISED_WINDOW.
Proof.
  intros Hs Ha Hf raw. subst raw. rewrite wire_header_roundtrip.
  - assert (Hh : header (sham_create_packet seq ack flgs src len)
                 = {| seq_num := htonl seq; ack_num := htonl ack;
                      flags := htons flgs;
                      window_size := htons SHAM_DEFAULT_ADVERTISED_WINDOW |}).
    { unfold sham_create_packet. destruct src; [destruct (_ && _)|]; reflexivity. }
    rewrite Hh. cbn [seq_num ack_num flags window_size].
    rewrite !ntohl_htonl, !ntohs_htons by (unfold SHAM_DEFAULT_ADVERTISED_WINDOW; lia).
    auto.
  - assert (Hh : header (sham_create_packet seq ack flgs src len)
                 = {| seq_num := htonl seq; ack_num := htonl ack;
                      flags := htons flgs;
                      window_size := htons SHAM_DEFAULT_ADVERTISED_WINDOW |}).
    { unfold sham_create_packet. destruct src; [destruct (_ && _)|]; reflexivity. }
    rewrite Hh. unfold header_in_range, htonl, htons.
    cbn [seq_num ack_num flags window_size].
    repeat split; try apply bswap32_range; apply bswap16_range.
Qed.

(** ** Receiver *)

Lemma mem_write_nothing buffer pos src : mem_write buffer pos src 0 = buffer.
Proof.
  unfold mem_write, memcpy. change (ix 0) with 0%nat.
  rewrite take_0, drop_0. simpl. apply take_drop.
Qed.

Lemma ooo_lookup_total_nonneg (l : list sham_ooo_entry) i :
  Forall (fun e => 0 <= data_len (oe_packet e)) l ->
  0 <= data_len (oe_packet (l !!! i)).
Proof.
  intros Hall. rewrite list_lookup_total_alt.
  destruct (l !! i) as [e|] eqn:He; simpl.
  - exact (Forall_lookup_1 _ _ _ _ Hall He).
  - reflexivity.
Qed.

Lemma ooo_scan_ext n i conn conn' :
  ooo_buffer conn = ooo_buffer conn' -> recv_seq conn = recv_seq conn' ->
  ooo_scan n i conn = ooo_scan n i conn'.
Proof.
  intros Hb Hr. revert i. induction n as [|n IH]; intros i; simpl.
  - reflexivity.
  - rewrite Hb, Hr, IH. reflexivity.
Qed.

(** Once the application buffer is full, delivering staged segments copies
    nothing more. *)
Lemma deliver_loop_full fuel conn buffer size :
  0 <= size < 2 ^ 64 ->
  Forall (fun e => 0 <= data_len (oe_packet e)) (ooo_buffer conn) ->
  exists conn', deliver_loop fuel conn buffer size size = (conn', buffer, size).
Proof.
  intros Hsize. revert conn.
  induction fuel as [|fuel IH]; intros conn Hall; cbn [deliver_loop].
  - eauto.
  - destruct (ooo_scan (ix SHAM_WINDOW_SIZE) 0 conn) as [i|]; [|eauto].
    unfold deliver_slot.
    set (p := oe_packet (ooo_buffer conn !!! ix i)).
    assert (Hp : 0 <= data_len p) by (apply ooo_lookup_total_nonneg; exact Hall).
    assert (Hcopy : min_copy (data_len p) (usize (size - size)) = 0).
    { rewrite Z.sub_diag. unfold min_copy, usize. rewrite Z.mod_0_l by lia.
      destruct (Z.gtb_spec (data_len p) 0); lia. }
    rewrite Hcopy, mem_write_nothing, Z.add_0_r, usize_small by exact Hsize.
    apply IH. simpl. apply Forall_insert; [exact Hall|exact Hp].
Qed.

Lemma update_recv_buffer_recv_seq conn n :
  recv_seq (sham_update_recv_buffer conn n) = recv_seq conn.
Proof. unfold sham_update_recv_buffer. repeat case_match; reflexivity. Qed.

Lemma update_recv_buffer_ooo conn n :
  ooo_buffer (sham_update_recv_buffer conn n) = ooo_buffer conn.
Proof. unfold sham_update_recv_buffer. repeat case_match; reflexivity. Qed.

(** An in-order segment that carries more payload than the application
    buffer has room for is copied only up to the end of the buffer, which is
    then full (nothing staged is copied after it), while [recv_seq] moves on
    by the segment's whole [data_len]. *)
Lemma recv_segment_truncated w io conn packet buffer bytes_received len :
  seq_num (header packet) = recv_seq conn ->
  0 <= bytes_received < len -> len < 2 ^ 64 ->
  len - bytes_received < data_len packet ->
  Forall (fun e => 0 <= data_len (oe_packet e)) (ooo_buffer conn) ->
  exists conn' io',
    recv_segment w io conn packet buffer bytes_received len
      = (conn',
         mem_write buffer bytes_received (data packet) (len - bytes_received),
         len, io')
    /\ (ooo_scan (ix SHAM_WINDOW_SIZE) 0
          (set_recv_seq (u32 (recv_seq conn + data_len packet)) conn) = None ->
        recv_seq conn' = u32 (recv_seq conn + data_len packet)).
Proof.
  intros Hseq Hpos Hlen Hbig Hall. unfold recv_segment, place_segment.
  rewrite Hseq, Z.eqb_refl.
  assert (Hroom : usize (len - bytes_received) = len - bytes_received)
    by (apply usize_small; lia).
  assert (Hcopy : min_copy (data_len packet) (usize (len - bytes_received))
                  = len - bytes_received).
  { unfold min_copy. rewrite Hroom.
    destruct (Z.gtb_spec (data_len packet) (len - bytes_received)); lia. }
  rewrite Hcopy.
  replace (bytes_received + (len - bytes_received)) with len by lia.
  rewrite (usize_small len) by lia.
  set (conn2 := sham_update_recv_buffer _ (to_int (data_len packet))).
  unfold sham_deliver_ooo_packets.
  destruct (deliver_loop_full (S (ix SHAM_WINDOW_SIZE)) conn2
              (mem_write buffer bytes_received (data packet) (len - bytes_received))
              len ltac:(lia)) as [conn3 Hdeliver].
  { subst conn2. rewrite update_recv_buffer_ooo. exact Hall. }
  rewrite Hdeliver.
  destruct (sham_send_packet w io _) as [res io'].
  eexists. eexists. split; [reflexivity|].
  intros Hnone. rewrite update_recv_buffer_recv_seq.
  assert (Hscan : ooo_scan (ix SHAM_WINDOW_SIZE) 0 conn2 = None).
  { rewrite <- Hnone. apply ooo_scan_ext.
    - subst conn2. rewrite update_recv_buffer_ooo. reflexivity.
    - subst conn2. rewrite update_recv_buffer_recv_seq. reflexivity. }
  cbn [deliver_loop] in Hdeliver. rewrite Hscan in Hdeliver.
  injection Hdeliver as <-. subst conn2.
  rewrite update_recv_buffer_recv_seq. reflexivity.
Qed.

(** *** What a delivery into a full buffer consumes *)

Lemma ooo_scan_hit n i conn k :
  ooo_scan n i conn = Some k -> valid (ooo_buffer conn !!! ix k) = true.
Proof.
  revert i. induction n as [|n IH]; intros i H; cbn [ooo_scan] in H;
    [discriminate|].
  destruct (valid (ooo_buffer conn !!! ix i)) eqn:Hv; cbn [andb] in H.
  - destruct (_ =? _); [injection H as <-; exact Hv|exact (IH _ H)].
  - exact (IH _ H).
Qed.

Lemma valid_lookup (l : list sham_ooo_entry) i :
  valid (l !!! i) = true -> l !! i = Some (l !!! i).
Proof.
  rewrite list_lookup_total_alt.
  destruct (l !! i) as [e|]; simpl; [reflexivity|discriminate].
Qed.

Lemma cleared_only_refl l : cleared_only l l.
Proof. unfold cleared_only. induction l; constructor; auto. Qed.

Lemma cleared_only_trans l1 l2 l3 :
  cleared_only l1 l2 -> cleared_only l2 l3 -> cleared_only l1 l3.
Proof.
  unfold cleared_only. intros H12. revert l3.
  induction H12 as [|e1 e2 l1 l2 [Hp Hv] _ IH]; intros l3 H23;
    inversion H23 as [|? e3 ? l3' [Hp' Hv'] Hrest]; subst; constructor.
  - split; [congruence|auto].
  - apply IH. assumption.
Qed.

Lemma cleared_only_insert l i e :
  l !! i = Some e ->
  cleared_only l (<[i := {| oe_packet := oe_packet e; valid := false |}]> l).
Proof.
  unfold cleared_only. revert i.
  induction l as [|e0 l IH]; intros i H; [discriminate|].
  destruct i as [|i]; cbn in *.
  - injection H as ->. constructor; [split; [reflexivity|discriminate]|].
    apply cleared_only_refl.
  - constructor; [auto|]. apply IH, H.
Qed.

Lemma cleared_only_packets l l' :
  cleared_only l l' -> map oe_packet l' = map oe_packet l.
Proof.
  unfold cleared_only. induction 1 as [|e e' l l' [Hp _] _ IH]; [reflexivity|].
  cbn [map]. rewrite Hp, IH. reflexivity.
Qed.

Lemma consumed_len_refl l : consumed_len l l = 0.
Proof.
  induction l as [|e l IH]; [reflexivity|]. cbn [consumed_len].
  rewrite IH. destruct (valid e); reflexivity.
Qed.

(** A slot that was cleared first counts with its whole length. *)
Lemma consumed_len_cleared l l' i e :
  l !! i = Some e -> valid e = true ->
  cleared_only (<[i := {| oe_packet := oe_packet e; valid := false |}]> l) l' ->
  consumed_len l l'
  = data_len (oe_packet e)
    + consumed_len (<[i := {| oe_packet := oe_packet e; valid := false |}]> l) l'.
Proof.
  unfold cleared_only. revert i l'.
  induction l as [|e0 l IH]; intros i l' H Hv Hc; [discriminate|].
  destruct i as [|i]; cbn in *.
  - injection H as ->.
    inversion Hc as [|? e' ? l'' [_ Hv'] _]; subst. cbn [consumed_len valid].
    rewrite Hv. destruct (valid e'); [specialize (Hv' eq_refl); discriminate|].
    cbn. lia.
  - inversion Hc as [|? e' ? l'' _ Hrest]; subst. cbn [consumed_len].
    rewrite (IH _ _ H Hv Hrest). apply Z.add_shuffle3.
Qed.

(** Into a full buffer nothing is copied, yet every staged segment that is
    found at [recv_seq] is consumed: [recv_seq] moves on by its whole
    length. *)
Lemma deliver_loop_full_consumed fuel conn buffer size :
  0 <= size < 2 ^ 64 -> 0 <= recv_seq conn < 2 ^ 32 ->
  Forall (fun e => 0 <= data_len (oe_packet e)) (ooo_buffer conn) ->
  exists conn',
    deliver_loop fuel conn buffer size size = (conn', buffer, size)
    /\ recv_seq conn'
       = u32 (recv_seq conn + consumed_len (ooo_buffer conn) (ooo_buffer conn'))
    /\ cleared_only (ooo_buffer conn) (ooo_buffer conn').
Proof.
  intros Hsize. revert conn.
  induction fuel as [|fuel IH]; intros conn Hseq Hall; cbn [deliver_loop].
  - exists conn. rewrite consumed_len_refl, Z.add_0_r, u32_small by exact Hseq.
    split; [reflexivity|]. split; [reflexivity|apply cleared_only_refl].
  - destruct (ooo_scan (ix SHAM_WINDOW_SIZE) 0 conn) as [i|] eqn:Hscan.
    2:{ exists conn. rewrite consumed_len_refl, Z.add_0_r, u32_small by exact Hseq.
        split; [reflexivity|]. split; [reflexivity|apply cleared_only_refl]. }
    pose proof (valid_lookup _ _ (ooo_scan_hit _ _ _ _ Hscan)) as Hslot.
    pose proof (ooo_scan_hit _ _ _ _ Hscan) as Hvalid.
    unfold deliver_slot.
    set (e := ooo_buffer conn !!! ix i) in *.
    assert (Hp : 0 <= data_len (oe_packet e))
      by (apply ooo_lookup_total_nonneg; exact Hall).
    assert (Hcopy : min_copy (data_len (oe_packet e)) (usize (size - size)) = 0).
    { rewrite Z.sub_diag. unfold min_copy, usize. rewrite Z.mod_0_l by lia.
      destruct (Z.gtb_spec (data_len (oe_packet e)) 0); lia. }
    rewrite Hcopy, mem_write_nothing, Z.add_0_r, usize_small by exact Hsize.
    set (conn1 := set_ooo_buffer _ (set_recv_seq _ conn)).
    destruct (IH conn1) as (conn' & Hrun & Hadv & Hclr).
    { apply u32_range. }
    { apply Forall_insert; [exact Hall|exact Hp]. }
    exists conn'. split; [exact Hrun|].
    change (ooo_buffer conn1)
      with (<[ix i := {| oe_packet := oe_packet e; valid := false |}]>
              (ooo_buffer conn)) in Hadv, Hclr.
    change (recv_seq conn1) with (u32 (recv_seq conn + data_len (oe_packet e)))
      in Hadv.
    split.
    + rewrite Hadv, (consumed_len_cleared _ _ _ _ Hslot Hvalid Hclr).
      unfold u32. rewrite Zplus_mod_idemp_l. f_equal. lia.
    + eapply cleared_only_trans; [|exact Hclr].
      apply cleared_only_insert. exact Hslot.
Qed.

Lemma recv_segment_truncated_seq w io conn packet buffer bytes_received len :
  seq_num (header packet) = recv_seq conn ->
  0 <= bytes_received < len -> len < 2 ^ 64 ->
  len - bytes_received < data_len packet ->
  Forall (fun e => 0 <= data_len (oe_packet e)) (ooo_buffer conn) ->
  exists conn' io',
    recv_segment w io conn packet buffer bytes_received len
      = (conn',
         mem_write buffer bytes_received (data packet) (len - bytes_received),
         len, io')
    /\ recv_seq conn'
       = u32 (recv_seq conn + data_len packet
              + consumed_len (ooo_buffer conn) (ooo_buffer conn'))
    /\ map oe_packet (ooo_buffer conn') = map oe_packet (ooo_buffer conn).
Proof.
  intros Hseq Hpos Hlen Hbig Hall. unfold recv_segment, place_segment.
  rewrite Hseq, Z.eqb_refl.
  assert (Hroom : usize (len - bytes_received) = len - bytes_received)
    by (apply usize_small; lia).
  assert (Hcopy : min_copy (data_len packet) (usize (len - bytes_received))
                  = len - bytes_received).
  { unfold min_copy. rewrite Hroom.
    destruct (Z.gtb_spec (data_len packet) (len - bytes_received)); lia. }
  rewrite Hcopy.
  replace (bytes_received + (len - bytes_received)) with len by lia.
  rewrite (usize_small len) by lia.
  set (conn2 := sham_update_recv_buffer _ (to_int (data_len packet))).
  unfold sham_deliver_ooo_packets.
  destruct (deliver_loop_full_consumed (S (ix SHAM_WINDOW_SIZE)) conn2
              (mem_write buffer bytes_received (data packet) (len - bytes_received))
              len ltac:(lia)) as (conn3 & Hdeliver & Hadv & Hclr).
  { subst conn2. rewrite update_recv_buffer_recv_seq. apply u32_range. }
  { subst conn2. rewrite update_recv_buffer_ooo. exact Hall. }
  rewrite Hdeliver.
  destruct (sham_send_packet w io _) as [res io'].
  eexists. eexists. split; [reflexivity|].
  rewrite update_recv_buffer_recv_seq, update_recv_buffer_ooo.
  assert (Hob2 : ooo_buffer conn2 = ooo_buffer conn)
    by (subst conn2; rewrite update_recv_buffer_ooo; reflexivity).
  assert (Hseq2 : recv_seq conn2 = u32 (recv_seq conn + data_len packet))
    by (subst conn2; rewrite update_recv_buffer_recv_seq; reflexivity).
  rewrite Hob2 in Hadv, Hclr. rewrite Hseq2 in Hadv. split.
  - rewrite Hadv. unfold u32. rewrite Zplus_mod_idemp_l. reflexivity.
  - apply cleared_only_packets, Hclr.
Qed.

(** C9 as stated fails when a staged segment starts where the truncated one
    ends.  The segment at 105 (three bytes) arrives first and is staged;
    then the segment at 101 arrives with four bytes for a buffer of two.
    Two bytes are copied and the call returns 2, but [recv_seq] has moved
    from 101 to 108, not to 105: the staged segment was consumed on top,
    without a byte of it being copied. *)
Lemma recv_truncated_consumes_staged :
  let w := quiet_world [arrival (data_segment 105 6 [5; 6; 7]);
                        arrival (data_segment 101 6 [1; 2; 3; 4])] 0 in
  let '(res, conn', buffer', _) :=
    sham_recv w 3 io_init (connected 5 100) zero_packet [0; 0] 2 in
  recv_seq (connected 5 100) = 101
  /\ res = Some 2 /\ buffer' = [1; 2]
  /\ recv_seq conn' = 108
  /\ recv_seq conn' <> recv_seq (connected 5 100) + 4.
Proof. by_evaluation. Qed.

(** C9, amended: in [sham_recv], when the packet that arrives is an
    in-order segment ([seq == recv_seq]) with more payload than the
    application buffer has room for, only the prefix that fits is copied
    into the buffer (the call then returns with the buffer full, [len]
    bytes), yet [recv_seq] has advanced by the segment's full [data_len]
    (the rest of the payload is lost) and, beyond that, by the full
    [data_len] of every staged segment that was consumed on top of it,
    of which no byte is copied either.  The staged segments themselves are
    left as they were, the consumed ones marked as not valid.  When no
    staged segment starts at [recv_seq + data_len], the advance is exactly
    [data_len]. *)
Theorem recv_truncated_in_order w fuel io conn packet buffer bytes_received len
    res conn1 packet1 io1 :
  sham_recv_packet_timeout w io conn packet SHAM_RTO_MS
    = (res, conn1, packet1, io1) ->
  res > 0 ->
  seq_num (header packet1) = recv_seq conn1 ->
  0 <= bytes_received < len -> len < 2 ^ 64 ->
  len - bytes_received < data_len packet1 ->
  Forall (fun e => 0 <= data_len (oe_packet e)) (ooo_buffer conn1) ->
  exists conn' io',
    recv_loop w (S (S fuel)) io conn packet buffer bytes_received len
      = (Some (to_int len), conn',
         mem_write buffer bytes_received (data packet1) (len - bytes_received),
         io')
    /\ recv_seq conn'
       = u32 (recv_seq conn1 + data_len packet1
              + consumed_len (ooo_buffer conn1) (ooo_buffer conn'))
    /\ map oe_packet (ooo_buffer conn') = map oe_packet (ooo_buffer conn1)
    /\ (ooo_scan (ix SHAM_WINDOW_SIZE) 0
          (set_recv_seq (u32 (recv_seq conn1 + data_len packet1)) conn1) = None ->
        recv_seq conn' = u32 (recv_seq conn1 + data_len packet1)).
Proof.
  intros Hrecv Hres Hseq Hpos Hlen Hbig Hall.
  destruct (recv_segment_truncated w io1 conn1 packet1 buffer bytes_received len
              Hseq Hpos Hlen Hbig Hall) as (conn' & io' & Hseg & Hadv).
  destruct (recv_segment_truncated_seq w io1 conn1 packet1 buffer bytes_received
              len Hseq Hpos Hlen Hbig Hall) as (conn'' & io'' & Hseg' & Hsum & Hpk).
  rewrite Hseg in Hseg'. injection Hseg' as <- <-.
  exists conn', io'. split; [|auto].
  remember (S fuel) as fuel1 eqn:Hfuel. cbn [recv_loop].
  destruct (Z.ltb_spec bytes_received len); [|lia].
  rewrite Hrecv.
  destruct (Z.leb_spec res 0); [lia|].
  destruct (Z.gtb_spec (data_len packet1) 0); [|lia].
  rewrite Hseg. subst fuel1. cbn [recv_loop].
  destruct (Z.ltb_spec len len); [lia|reflexivity].
Qed.

Lemma recv_truncated_in_order_witness :
  let w := quiet_world [arrival (data_segment 101 6 [1; 2; 3; 4])] 0 in
  let run := sham_recv w 2 io_init (connected 5 100) zero_packet [0; 0] 2 in
  fst (fst (fst run)) = Some 2
  /\ snd (fst run) = [1; 2]
  /\ recv_seq (snd (fst (fst run))) = 105.
Proof.
  intros w run.
  destruct (sham_recv_packet_timeout w io_init (connected 5 100) zero_packet
              SHAM_RTO_MS) as [[[res conn1] packet1] io1] eqn:Hrecv.
  assert (Hfacts : res = 16 /\ conn1 = connected 5 100
                   /\ seq_num (header packet1) = 101 /\ data_len packet1 = 4
                   /\ take 2 (data packet1) = [1; 2]).
  { vm_compute in Hrecv. injection Hrecv as <- <- <- _.
    repeat split; vm_compute; reflexivity. }
  destruct Hfacts as (-> & -> & Hseq & Hdl & Hdata).
  destruct (recv_truncated_in_order w 0 io_init (connected 5 100) zero_packet
              [0; 0] 0 2 16 (connected 5 100) packet1 io1 Hrecv)
    as (conn' & io' & Hrun & _ & _ & Hadv).
  - lia.
  - rewrite Hseq. vm_compute. reflexivity.
  - lia.
  - lia.
  - rewrite Hdl. lia.
  - vm_compute. repeat constructor; discriminate.
  - assert (Hsame : run = recv_loop w 2 io_init (connected 5 100) zero_packet
                            [0; 0] 0 2).
    { subst run. unfold sham_recv.
      replace (state_eqb (state (connected 5 100)) SHAM_ESTABLISHED) with true
        by (vm_compute; reflexivity).
      reflexivity. }
    rewrite Hsame, Hrun. cbn [fst snd].
    split; [reflexivity|]. split.
    + unfold mem_write, memcpy. change (ix 0) with 0%nat.
      change (ix (2 - 0)) with 2%nat. rewrite Hdata. reflexivity.
    + rewrite Hadv; [rewrite Hdl; vm_compute; reflexivity|].
      rewrite Hdl. vm_compute. reflexivity.
Defined.

(** The advertised window is the one the data model specifies as long as the
    buffer counter has not passed the buffer size. *)
Lemma advertised_window_specified conn :
  0 <= recv_buffer_used conn <= recv_buffer_size conn ->
  recv_buffer_size conn < 2 ^ 16 ->
  sham_calculate_advertised_window conn = specified_window conn.
Proof.
  intros Hused Hsize.
  unfold sham_calculate_advertised_window, specified_window, SHAM_MAX_DATA_SIZE.
  rewrite u16_small by lia.
  destruct (Z.ltb_spec (recv_buffer_size conn - recv_buffer_used conn) 1024); lia.
Qed.

(** The ACK that [sham_recv] emits for a data segment carries the window
    computed from the connection. *)
Lemma recv_segment_ack w io conn packet buffer bytes_received len :
  sendto_ok w (n_send io) = true ->
  let '(conn', _, _, io') :=
    recv_segment w io conn packet buffer bytes_received len in
  exists ack, sent io' = sent io ++ [ack]
    /\ window_size (header ack) = htons (sham_calculate_advertised_window conn')
    /\ flags (header ack) = htons SHAM_ACK.
Proof.
  intros Hok. unfold recv_segment.
  destruct (place_segment conn packet buffer bytes_received len)
    as [[conn' buffer'] received'].
  unfold sham_send_packet. rewrite Hok. eexists. split; [reflexivity|].
  split; reflexivity.
Qed.

(** Every packet built by [sham_create_packet] alone advertises the default
    window, whatever the state of the receive buffer. *)
Lemma create_packet_default_window seq ack flgs src len :
  sent_window (sham_create_packet seq ack flgs src len)
    = SHAM_DEFAULT_ADVERTISED_WINDOW.
Proof.
  unfold sent_window, sham_create_packet.
  destruct src; [destruct (_ && _)|]; cbn [header window_size];
    apply ntohs_htons; unfold SHAM_DEFAULT_ADVERTISED_WINDOW; lia.
Qed.

Lemma send_packet_sent w io p res io' :
  sham_send_packet w io p = (res, io') ->
  sent io' = sent io \/ sent io' = sent io ++ [p].
Proof.
  unfold sham_send_packet. destruct (sendto_ok w (n_send io)); intros H;
    simplify_eq; cbn; auto.
Qed.

Lemma recv_timeout_sent w io conn packet timeout_ms res conn' packet' io' :
  sham_recv_packet_timeout w io conn packet timeout_ms = (res, conn', packet', io') ->
  sent io' = sent io.
Proof.
  unfold sham_recv_packet_timeout. intros H.
  destruct (net w (n_net io)) as [| |r rnd]; simplify_eq; try reflexivity.
  destruct (sham_recv_packet conn packet r rnd) as [[res0 conn0] packet0].
  simplify_eq. reflexivity.
Qed.

Lemma close_loop_default_window w fuel io conn packet acked_seen fin_seen
    res conn' io' :
  close_loop w fuel io conn packet acked_seen fin_seen = (res, conn', io') ->
  exists new, sent io' = sent io ++ new
    /\ Forall (fun p => sent_window p = SHAM_DEFAULT_ADVERTISED_WINDOW) new.
Proof.
  revert io conn packet acked_seen fin_seen.
  induction fuel as [|fuel IH]; intros io conn packet acked_seen fin_seen H;
    cbn [close_loop] in H.
  { simplify_eq. exists []. rewrite app_nil_r. auto. }
  destruct ((negb acked_seen || negb fin_seen) && _).
  2:{ simplify_eq. exists []. rewrite app_nil_r. auto. }
  destruct (sham_recv_packet_timeout w io conn packet SHAM_RTO_MS)
    as [[[r conn1] packet1] io1] eqn:Hrecv.
  pose proof (recv_timeout_sent _ _ _ _ _ _ _ _ _ Hrecv) as Hsent1.
  destruct (r <=? 0).
  { destruct (IH _ _ _ _ _ H) as (new & Hnew & Hall). exists new.
    split; [congruence|exact Hall]. }
  destruct (has_flag (flags (header packet1)) SHAM_FIN && negb fin_seen).
  - destruct (sham_send_packet w io1 _) as [r2 io2] eqn:Hsend.
    destruct (IH _ _ _ _ _ H) as (new & Hnew & Hall).
    destruct (send_packet_sent _ _ _ _ _ Hsend) as [Hs|Hs].
    + exists new. split; [congruence|exact Hall].
    + eexists (_ :: new). split.
      * rewrite Hnew, Hs, Hsent1, <- app_assoc. reflexivity.
      * constructor; [apply create_packet_default_window|exact Hall].
  - destruct (IH _ _ _ _ _ H) as (new & Hnew & Hall). exists new.
    split; [congruence|exact Hall].
Qed.

(** Whatever [sham_close] sends, the FIN and the final ACK, advertises the
    default window. *)
Lemma close_default_window w fuel io conn packet res conn' io' :
  sham_close w fuel io conn packet = (res, conn', io') ->
  exists new, sent io' = sent io ++ new
    /\ Forall (fun p => sent_window p = SHAM_DEFAULT_ADVERTISED_WINDOW) new.
Proof.
  unfold sham_close. intros H.
  destruct (state_eqb (state conn) SHAM_ESTABLISHED).
  2:{ simplify_eq. exists []. rewrite app_nil_r. auto. }
  destruct (sham_send_packet w io _) as [r io1] eqn:Hsend.
  assert (Hfirst : exists first, sent io1 = sent io ++ first
            /\ Forall (fun p => sent_window p = SHAM_DEFAULT_ADVERTISED_WINDOW) first).
  { destruct (send_packet_sent _ _ _ _ _ Hsend) as [Hs|Hs].
    - exists []. rewrite app_nil_r. auto.
    - eexists [_]. split; [exact Hs|].
      constructor; [apply create_packet_default_window|constructor]. }
  destruct Hfirst as (first & Hs1 & Hall1).
  destruct (r <? 0).
  { simplify_eq. eauto. }
  destruct (close_loop_default_window _ _ _ _ _ _ _ _ _ _ H) as (new & Hnew & Hall).
  exists (first ++ new). split.
  - rewrite Hnew, Hs1, <- app_assoc. reflexivity.
  - apply Forall_app. auto.
Qed.

(** C5 at the failing input: a freshly connected client (empty receive
    buffer of 32768 bytes) closes while the peer's FIN arrives.  The final
    ACK of the close handshake is built by [sham_create_packet] and
    advertises the default 16384, not [max (32768 - 0) 1024 = 32768]. *)
Theorem close_final_ack_window :
  let conn := connected 5 100 in
  let w := quiet_world [arrival (sham_create_packet 101 6 SHAM_FIN None 0)] 0 in
  match sham_close w 3 io_init conn zero_packet with
  | (res, conn', io') =>
      res = Some 0 /\ state conn' = SHAM_CLOSED
      /\ map is_ack_packet (sent io') = [false; true]
      /\ map sent_window (sent io') = [16384; 16384]
      /\ specified_window conn' = 32768
  end.
Proof. vm_compute. repeat split; reflexivity. Qed.

(** C7 at the failing input: the application reads one byte per call while
    the peer streams 33 full segments.  Every call charges 1024 bytes and
    discharges the single byte it copied, so the counter ends at
    [33 * 1023 = 33759], beyond the buffer size 32768, and the window
    computed from it wraps around to 64545. *)
Theorem recv_buffer_used_overruns :
  let conn := connected 5 100 in
  recv_buffer_within_size conn = true
  /\ match recv_calls (streaming_peer 101 6) 3 33 io_init conn 1 with
     | Some (conn', _) =>
         recv_buffer_used conn' = 33759 /\ recv_buffer_size conn' = 32768
         /\ recv_buffer_within_size conn' = false
         /\ sham_calculate_advertised_window conn' = 64545
     | None => False
     end.
Proof. vm_compute. repeat split; reflexivity. Qed.

(** C3 at the failing input: the segment at sequence number 102 reaches the
    receiver twice before the segment at 101 does.  Both copies are staged;
    after the in-order arrival one copy is delivered and [recv_seq] is 103,
    while the other copy stays valid in slot 1 with sequence number 102. *)
Theorem ooo_duplicate_left_behind :
  let conn := connected 5 100 in
  let w :=
    quiet_world [arrival (data_segment 102 6 [66]);
                 arrival (data_segment 102 6 [66]);
                 arrival (data_segment 101 6 [65])] 0 in
  ooo_all_ahead conn = true
  /\ match sham_recv w 5 io_init conn zero_packet (replicate 8 0) 8 with
     | (res, conn', buffer', _) =>
         res = Some 2 /\ take 2 buffer' = [65; 66] /\ recv_seq conn' = 103
         /\ map (fun e => (valid e, seq_num (header (oe_packet e))))
                (take 2 (ooo_buffer conn')) = [(false, 102); (true, 102)]
         /\ ooo_all_ahead conn' = false
     end.
Proof. vm_compute. repeat split; reflexivity. Qed.

(** ** What the receiver does keep *)

Lemma forallb_insert {A} (f : A -> bool) (l : list A) i x :
  forallb f l = true -> f x = true -> forallb f (<[i := x]> l) = true.
Proof.
  revert i. induction l as [|y l IH]; intros i Hl Hx; [exact Hl|].
  cbn [forallb] in Hl. apply andb_prop in Hl. destruct Hl as [Hy Hl].
  destruct i as [|i].
  - change (<[0%nat := x]> (y :: l)) with (x :: l). cbn [forallb].
    rewrite Hx, Hl. reflexivity.
  - change (<[S i := x]> (y :: l)) with (y :: <[i := x]> l). cbn [forallb].
    rewrite Hy, (IH i Hl Hx). reflexivity.
Qed.

Lemma buffer_ooo_loop_result n i conn packet :
  snd (buffer_ooo_loop n i conn packet) = conn
  \/ exists j, snd (buffer_ooo_loop n i conn packet)
               = set_ooo_buffer
                   (<[j := {| oe_packet := packet; valid := true |}]>
                      (ooo_buffer conn)) conn.
Proof.
  revert i. induction n as [|n IH]; intros i; cbn [buffer_ooo_loop]; [auto|].
  destruct (valid _); [apply IH|]. right. eexists. reflexivity.
Qed.

(** Staging a segment that is ahead of [recv_seq] keeps every staged segment
    ahead of [recv_seq]: the guard of [sham_recv] holds at insertion. *)
Lemma buffer_ooo_keeps_ahead conn packet :
  ooo_all_ahead conn = true ->
  seq_num (header packet) > recv_seq conn ->
  ooo_all_ahead (snd (sham_buffer_ooo_packet conn packet)) = true.
Proof.
  intros Hall Hahead. unfold sham_buffer_ooo_packet.
  destruct (buffer_ooo_loop_result (ix SHAM_WINDOW_SIZE) 0 conn packet)
    as [->|[j ->]]; [exact Hall|].
  unfold ooo_all_ahead in *. cbn.
  apply forallb_insert; [exact Hall|].
  unfold ooo_entry_ahead. cbn. apply Z.gtb_lt. lia.
Qed.

Lemma deliver_loop_recv_buffer fuel conn buffer pos size :
  recv_buffer_used (fst (fst (deliver_loop fuel conn buffer pos size)))
    = recv_buffer_used conn
  /\ recv_buffer_size (fst (fst (deliver_loop fuel conn buffer pos size)))
    = recv_buffer_size conn.
Proof.
  revert conn buffer pos. induction fuel as [|fuel IH]; intros conn buffer pos;
    cbn [deliver_loop]; [auto|].
  destruct (ooo_scan _ 0 conn) as [i|]; [|auto].
  unfold deliver_slot.
  match goal with
  | |- context [deliver_loop fuel ?c ?b ?p size] =>
      destruct (IH c b p) as [-> ->]
  end.
  auto.
Qed.

(** When the application buffer takes the whole in-order segment, or the
    segment is not in order, charge and discharge balance: the arrival
    leaves [recv_buffer_used] where it was. *)
Lemma place_segment_balanced conn packet buffer bytes_received len :
  0 <= recv_buffer_used conn <= recv_buffer_size conn ->
  recv_buffer_size conn <= SHAM_DEFAULT_RECV_BUFFER_SIZE ->
  0 < data_len packet <= SHAM_MAX_DATA_SIZE ->
  (seq_num (header packet) = recv_seq conn ->
   data_len packet <= usize (len - bytes_received)) ->
  recv_buffer_used (fst (fst (place_segment conn packet buffer bytes_received len)))
    = recv_buffer_used conn.
Proof.
  intros Hused Hsize Hlen Hfits. unfold place_segment.
  unfold SHAM_DEFAULT_RECV_BUFFER_SIZE, SHAM_MAX_DATA_SIZE in *.
  destruct (Z.eqb_spec (seq_num (header packet)) (recv_seq conn)) as [Hin|_].
  - specialize (Hfits Hin).
    assert (Hcopy : min_copy (data_len packet) (usize (len - bytes_received))
                    = data_len packet).
    { unfold min_copy. destruct (Z.gtb_spec (data_len packet)
                                   (usize (len - bytes_received))); lia. }
    rewrite Hcopy.
    rewrite !to_int_small by (unfold INT_MAX; try rewrite to_int_small;
                              unfold INT_MAX; lia).
    unfold sham_deliver_ooo_packets.
    match goal with
    | |- context [deliver_loop ?f ?c ?b ?p ?s] =>
        destruct (deliver_loop_recv_buffer f c b p s) as [Hu _];
        destruct (deliver_loop f c b p s) as [[conn3 buffer3] received3]
    end.
    cbn [fst snd] in *.
    unfold sham_update_recv_buffer at 1.
    destruct (Z.gtb_spec (- data_len packet) 0); [lia|].
    destruct (Z.ltb_spec (- data_len packet) 0); [|lia].
    rewrite Z.opp_involutive, to_int_small by (unfold INT_MAX; lia).
    rewrite Hu. unfold sham_update_recv_buffer.
    destruct (Z.gtb_spec (data_len packet) 0); [|lia].
    cbn. rewrite u16_small by lia.
    destruct (Z.geb_spec (recv_buffer_used conn + data_len packet) (data_len packet));
      [|lia].
    cbn. rewrite u16_small by lia. lia.
  - destruct (seq_num (header packet) >? recv_seq conn); [|reflexivity].
    cbn [fst snd]. unfold sham_buffer_ooo_packet.
    destruct (buffer_ooo_loop_result (ix SHAM_WINDOW_SIZE) 0 conn packet)
      as [->|[j ->]];
      reflexivity.
Qed.

(** ** Sender *)

(** *** What receiving a packet can change *)

Lemma recv_packet_conn conn packet r rnd res conn' packet' :
  sham_recv_packet conn packet r rnd = (res, conn', packet') ->
  conn' = conn \/ conn' = set_sockfd (-1) conn
  \/ exists from from_len, conn' = set_peer_len from_len (set_peer_addr from conn).
Proof.
  unfold sham_recv_packet. intros H.
  repeat case_match; simplify_eq; eauto.
Qed.

Lemma recv_packet_timeout_conn w io conn packet timeout_ms res conn' packet' io' :
  sham_recv_packet_timeout w io conn packet timeout_ms = (res, conn', packet', io') ->
  conn' = conn \/ conn' = set_sockfd (-1) conn
  \/ exists from from_len, conn' = set_peer_len from_len (set_peer_addr from conn).
Proof.
  unfold sham_recv_packet_timeout. intros H.
  destruct (net w (n_net io)) as [| |r rnd]; simplify_eq; auto.
  destruct (sham_recv_packet conn packet r rnd) as [[res0 conn0] packet0] eqn:E.
  simplify_eq. exact (recv_packet_conn _ _ _ _ _ _ _ E).
Qed.



(** *** Ring-buffer arithmetic *)

Lemma ring_index_range a : 0 <= a -> 0 <= Z.rem a SHAM_WINDOW_SIZE < SHAM_WINDOW_SIZE.
Proof. intros H. apply Z.rem_bound_pos; unfold SHAM_WINDOW_SIZE; lia. Qed.

Lemma ring_index_distinct ws i j :
  0 <= ws -> 0 <= i -> 0 <= j -> i <> j -> Z.abs (i - j) < SHAM_WINDOW_SIZE ->
  ix (Z.rem (ws + i) SHAM_WINDOW_SIZE) <> ix (Z.rem (ws + j) SHAM_WINDOW_SIZE).
Proof.
  unfold SHAM_WINDOW_SIZE, ix. intros Hws Hi Hj Hne Habs Heq.
  apply Z2Nat.inj in Heq; try (apply Z.rem_nonneg; lia).
  rewrite !Z.rem_mod_nonneg in Heq by lia.
  Z.to_euclidean_division_equations. lia.
Qed.

Lemma ring_index_next ws i :
  0 <= ws -> 0 <= i ->
  Z.rem (Z.rem (ws + 1) SHAM_WINDOW_SIZE + i) SHAM_WINDOW_SIZE
    = Z.rem (ws + (i + 1)) SHAM_WINDOW_SIZE.
Proof.
  unfold SHAM_WINDOW_SIZE. intros Hws Hi.
  rewrite (Z.rem_mod_nonneg (ws + 1)) by lia.
  rewrite !Z.rem_mod_nonneg by (try apply Z.add_nonneg_nonneg;
                                 try apply Z.mod_pos; lia).
  Z.to_euclidean_division_equations. lia.
Qed.

Lemma ring_index_self ws :
  0 <= ws < SHAM_WINDOW_SIZE -> Z.rem (ws + 0) SHAM_WINDOW_SIZE = ws.
Proof. intros H. rewrite Z.add_0_r. apply Z.rem_small. exact H. Qed.

(** *** Entries keep their packets *)

Lemma same_packets_lookup sw sw' i :
  same_packets sw sw' -> we_packet (sw' !!! i) = we_packet (sw !!! i).
Proof.
  unfold same_packets. intros H.
  rewrite !list_lookup_total_alt.
  assert (E : we_packet <$> (sw' !! i) = we_packet <$> (sw !! i)).
  { change (we_packet <$> sw' !! i) with (fmap (M := option) we_packet (sw' !! i)).
    rewrite <- !list_lookup_fmap. change (fmap we_packet sw') with (map we_packet sw').
    change (fmap we_packet sw) with (map we_packet sw). rewrite H. reflexivity. }
  destruct (sw' !! i), (sw !! i); simpl in *; congruence.
Qed.

Lemma same_packets_insert sw i e :
  we_packet e = we_packet (sw !!! i) -> same_packets sw (<[i := e]> sw).
Proof.
  unfold same_packets. intros H.
  change (map we_packet (<[i:=e]> sw)) with (we_packet <$> <[i:=e]> sw).
  rewrite list_fmap_insert. rewrite H.
  destruct (sw !! i) as [x|] eqn:Hx.
  - apply list_insert_id. rewrite list_lookup_fmap, Hx.
    rewrite (list_lookup_total_correct _ _ _ Hx). reflexivity.
  - apply list_insert_ge. rewrite length_fmap. apply lookup_ge_None. exact Hx.
Qed.

Lemma same_packets_length sw sw' : same_packets sw sw' -> length sw' = length sw.
Proof.
  unfold same_packets. intros H.
  rewrite <- (length_map we_packet sw'), H. apply length_map.
Qed.

Lemma packet_end_same e e' : we_packet e' = we_packet e -> packet_end e' = packet_end e.
Proof. unfold packet_end. intros ->. reflexivity. Qed.

(** *** The window tail is kept by every step of [sham_send] *)

Lemma recv_timeout_tail_ok w io conn packet timeout_ms res conn' packet' io' :
  sham_recv_packet_timeout w io conn packet timeout_ms = (res, conn', packet', io') ->
  window_tail_ok conn -> window_tail_ok conn'.
Proof.
  intros H Hok.
  destruct (recv_packet_timeout_conn _ _ _ _ _ _ _ _ _ H)
    as [->|[->|(from & from_len & ->)]]; exact Hok.
Qed.

Lemma ack_walk_tail_ok n ack conn :
  window_tail_ok conn -> window_tail_ok (ack_walk n ack conn).
Proof.
  revert conn. induction n as [|n IH]; intros conn Hok; cbn [ack_walk].
  { exact Hok. }
  destruct (Z.gtb_spec (window_count conn) 0) as [Hpos|_]; [|exact Hok].
  set (e := send_window conn !!! ix (window_start conn)).
  destruct (packet_end e <=? ack); [|exact Hok].
  apply IH. destruct Hok as (Hws & Hcnt & Hlen & Hseq & Htail).
  unfold window_tail_ok, acknowledge_head. cbn.
  split; [apply ring_index_range; lia|].
  split; [lia|].
  split; [rewrite length_insert; exact Hlen|].
  split; [exact Hseq|].
  destruct (Z.eqb_spec (window_count conn) 0) as [|_]; [lia|].
  destruct (Z.eqb_spec (window_count conn - 1) 0) as [Hone|Hmore].
  - replace (window_count conn - 1) with 0 in Htail by lia.
    unfold slot in Htail. rewrite ring_index_self in Htail by exact Hws.
    exact Htail.
  - unfold slot in *. cbn.
    rewrite ring_index_next by lia.
    replace (window_count conn - 1 - 1 + 1) with (window_count conn - 1) by lia.
    rewrite list_lookup_total_insert_ne; [exact Htail|].
    rewrite <- (ring_index_self (window_start conn)) at 1 by exact Hws.
    apply ring_index_distinct; unfold SHAM_WINDOW_SIZE in *; lia.
Qed.

Lemma process_ack_tail_ok conn packet :
  window_tail_ok conn -> window_tail_ok (sham_process_ack conn packet).
Proof.
  intros Hok. unfold sham_process_ack. apply ack_walk_tail_ok.
  destruct (ack_num (header packet) >? last_byte_acked _); exact Hok.
Qed.

Lemma on_ack_tail_ok conn packet :
  window_tail_ok conn -> window_tail_ok (on_ack conn packet).
Proof.
  intros Hok. unfold on_ack.
  destruct (has_flag _ _); [apply process_ack_tail_ok|]; exact Hok.
Qed.

(** [sham_handle_timeout] touches nothing but the retry count and the time
    stamp of window entries. *)
Lemma handle_timeout_loop_frame w now n i conn io res conn' io' :
  handle_timeout_loop w now n i conn io = (res, conn', io') ->
  exists sw', conn' = set_send_window sw' conn
              /\ same_packets (send_window conn) sw'.
Proof.
  revert i conn io. induction n as [|n IH]; intros i conn io H;
    cbn [handle_timeout_loop] in H.
  - injection H as _ <- _.
    exists (send_window conn). split; [by destruct conn|reflexivity].
  - assert (Hid : exists sw', conn = set_send_window sw' conn
                              /\ same_packets (send_window conn) sw').
    { exists (send_window conn). split; [by destruct conn|reflexivity]. }
    destruct (acked _); [exact (IH _ _ _ H)|].
    destruct (gettimeofday w io) as [t io1].
    destruct (sham_is_timeout _ t SHAM_RTO_MS); [|exact (IH _ _ _ H)].
    destruct (retries _ >=? SHAM_MAX_RETRIES); [simplify_eq; exact Hid|].
    destruct (sham_send_packet w io1 _) as [r io2].
    destruct (r <? 0); [simplify_eq; exact Hid|].
    destruct (IH _ _ _ H) as (sw' & -> & Hsame). cbn in Hsame.
    exists sw'. split; [reflexivity|].
    unfold same_packets in *. rewrite Hsame.
    apply same_packets_insert. reflexivity.
Qed.

Lemma handle_timeout_frame w io conn res conn' io' :
  sham_handle_timeout w io conn = (res, conn', io') ->
  exists sw', conn' = set_send_window sw' conn
              /\ same_packets (send_window conn) sw'.
Proof.
  unfold sham_handle_timeout. destruct (gettimeofday w io) as [now io0].
  apply handle_timeout_loop_frame.
Qed.

Lemma same_packets_tail_ok conn sw' :
  same_packets (send_window conn) sw' ->
  window_tail_ok conn -> window_tail_ok (set_send_window sw' conn).
Proof.
  intros Hsame (Hws & Hcnt & Hlen & Hseq & Htail).
  unfold window_tail_ok. cbn.
  split; [exact Hws|]. split; [exact Hcnt|].
  split; [rewrite (same_packets_length _ _ Hsame); exact Hlen|].
  split; [exact Hseq|].
  destruct (window_count conn =? 0); [exact Htail|].
  rewrite <- Htail. unfold slot. cbn.
  apply packet_end_same, same_packets_lookup, Hsame.
Qed.

Lemma handle_timeout_tail_ok w io conn res conn' io' :
  sham_handle_timeout w io conn = (res, conn', io') ->
  window_tail_ok conn -> window_tail_ok conn'.
Proof.
  intros H Hok. destruct (handle_timeout_frame _ _ _ _ _ _ H) as (sw' & -> & Hsame).
  apply same_packets_tail_ok; assumption.
Qed.

Lemma record_sent_tail_ok conn p k now :
  window_tail_ok conn -> window_count conn < SHAM_WINDOW_SIZE ->
  data_len p = k -> seq_num (header p) = htonl (send_seq conn) ->
  window_tail_ok (record_sent conn p k now).
Proof.
  intros (Hws & Hcnt & Hlen & Hseq & Htail) Hroom Hk Hp.
  unfold window_tail_ok, record_sent. cbn.
  split; [exact Hws|]. split; [lia|].
  split; [rewrite length_insert; exact Hlen|].
  split; [apply u32_range|].
  destruct (Z.eqb_spec (window_count conn + 1) 0) as [|_]; [lia|].
  unfold slot. cbn.
  replace (window_count conn + 1 - 1) with (window_count conn) by lia.
  rewrite list_lookup_total_insert_eq.
  - unfold packet_end, new_entry. cbn. rewrite Hp, Hk, ntohl_htonl by exact Hseq.
    reflexivity.
  - rewrite Hlen. unfold ix.
    pose proof (ring_index_range (window_start conn + window_count conn)
                  ltac:(lia)) as Hr.
    unfold SHAM_WINDOW_SIZE in *. lia.
Qed.

Lemma drain_acks_tail_ok w fuel io conn packet left conn' packet' io' :
  drain_acks w fuel io conn packet = (left, conn', packet', io') ->
  window_tail_ok conn -> window_tail_ok conn'.
Proof.
  revert io conn packet. induction fuel as [|fuel IH]; intros io conn packet H Hok;
    cbn [drain_acks] in H.
  - simplify_eq. exact Hok.
  - destruct (sham_recv_packet_timeout w io conn packet 0)
      as [[[res conn1] packet1] io1] eqn:Hrecv.
    pose proof (recv_timeout_tail_ok _ _ _ _ _ _ _ _ _ Hrecv Hok) as Hok1.
    destruct (res >? 0).
    + apply (IH _ _ _ H). apply on_ack_tail_ok. exact Hok1.
    + simplify_eq. exact Hok1.
Qed.

Lemma wait_round_tail_ok w io conn packet conn' packet' io' :
  wait_round w io conn packet = (conn', packet', io') ->
  window_tail_ok conn -> window_tail_ok conn'.
Proof.
  unfold wait_round. intros H Hok.
  destruct (sham_recv_packet_timeout w io conn packet SHAM_RTO_MS)
    as [[[res conn1] packet1] io1] eqn:Hrecv.
  pose proof (recv_timeout_tail_ok _ _ _ _ _ _ _ _ _ Hrecv Hok) as Hok1.
  destruct (sham_handle_timeout w io1 _) as [[r conn3] io3] eqn:Hto.
  simplify_eq. apply (handle_timeout_tail_ok _ _ _ _ _ _ Hto).
  destruct (res >? 0); [apply on_ack_tail_ok|]; exact Hok1.
Qed.

(** When the wait for the last ACKs ends, the window is empty and
    [send_base] has caught up with [send_seq]. *)
Lemma wait_acked_spec w fuel io conn packet bytes_sent res conn' io' :
  wait_acked w fuel io conn packet bytes_sent = (Some res, conn', io') ->
  window_tail_ok conn ->
  res = to_int bytes_sent /\ window_count conn' = 0
  /\ send_base conn' = send_seq conn' /\ window_tail_ok conn'.
Proof.
  revert io conn packet. induction fuel as [|fuel IH]; intros io conn packet H Hok;
    cbn [wait_acked] in H.
  - discriminate.
  - destruct (Z.gtb_spec (window_count conn) 0) as [Hpos|Hzero].
    + destruct (wait_round w io conn packet) as [[conn1 packet1] io1] eqn:Hround.
      apply (IH _ _ _ H). exact (wait_round_tail_ok _ _ _ _ _ _ _ Hround Hok).
    + simplify_eq. pose proof Hok as (_ & Hcnt & _ & _ & Htail).
      assert (Hc : window_count conn' = 0) by lia.
      rewrite Hc in Htail. cbn in Htail. auto.
Qed.

Lemma chunk_of_range len bytes_sent :
  0 <= bytes_sent < len -> len < 2 ^ 64 ->
  0 < chunk_of len bytes_sent <= SHAM_MAX_DATA_SIZE
  /\ chunk_of len bytes_sent <= len - bytes_sent.
Proof.
  intros Hb Hlen. unfold chunk_of, SHAM_MAX_DATA_SIZE.
  rewrite usize_small by lia.
  destruct (Z.gtb_spec (len - bytes_sent) 1024); lia.
Qed.

Lemma data_packet_fields conn seq ack flgs bytes k :
  0 < k <= SHAM_MAX_DATA_SIZE ->
  let p := sham_create_packet_with_conn conn seq ack flgs (Some bytes) k in
  data_len p = k /\ seq_num (header p) = htonl seq
  /\ window_size (header p) = htons (sham_calculate_advertised_window conn).
Proof.
  intros Hk. unfold sham_create_packet_with_conn, sham_create_packet.
  destruct (Z.gtb_spec k 0); [|lia].
  destruct (Z.leb_spec k SHAM_MAX_DATA_SIZE); [|lia].
  cbn. auto.
Qed.

Lemma send_loop_spec w fuel io conn packet bytes len bytes_sent res conn' io' :
  send_loop w fuel io conn packet (Some bytes) len bytes_sent
    = (Some res, conn', io') ->
  window_tail_ok conn -> 0 <= bytes_sent <= len -> len < 2 ^ 64 -> 0 <= res ->
  res = to_int len /\ window_count conn' = 0
  /\ send_base conn' = send_seq conn' /\ window_tail_ok conn'.
Proof.
  revert io conn packet bytes_sent.
  induction fuel as [|fuel IH]; intros io conn packet bytes_sent H Hok Hb Hlen Hres;
    cbn [send_loop] in H.
  { discriminate. }
  destruct (Z.ltb_spec bytes_sent len) as [Hmore|Hdone].
  2:{ replace len with bytes_sent by lia. exact (wait_acked_spec _ _ _ _ _ _ _ _ _ H Hok). }
  destruct (drain_acks w fuel io conn packet) as [[[left conn1] packet1] io1] eqn:Hdrain.
  pose proof (drain_acks_tail_ok _ _ _ _ _ _ _ _ _ Hdrain Hok) as Hok1.
  destruct left; cbn [negb] in H; [|discriminate].
  destruct (sham_handle_timeout w io1 conn1) as [[r conn2] io2] eqn:Hto.
  pose proof (handle_timeout_tail_ok _ _ _ _ _ _ Hto Hok1) as Hok2.
  destruct (Z.geb_spec (window_count conn2) SHAM_WINDOW_SIZE) as [Hfull|Hroom].
  { exact (IH _ _ _ _ H Hok2 Hb Hlen Hres). }
  destruct (negb (sham_can_send_data conn2 (chunk_of len bytes_sent))).
  { exact (IH _ _ _ _ H Hok2 Hb Hlen Hres). }
  destruct (sham_send_packet w _ _) as [sres io3].
  destruct (sres <? 0).
  { simplify_eq. lia. }
  destruct (gettimeofday w io3) as [now io4].
  destruct (chunk_of_range len bytes_sent ltac:(lia) Hlen) as [Hchunk Hfit].
  destruct (data_packet_fields conn2 (send_seq conn2) (recv_seq conn2) 0
              (drop (ix bytes_sent) bytes) _ Hchunk) as (Hdl & Hsq & _).
  apply (IH _ _ _ _ H).
  - apply record_sent_tail_ok; [exact Hok2|lia|exact Hdl|exact Hsq].
  - rewrite usize_small; lia.
  - exact Hlen.
  - exact Hres.
Qed.

(** C2: for a connection in ESTABLISHED state whose send window is well
    formed (as the handshake leaves it and as [sham_send] keeps it), and for
    a buffer of [len] bytes, [len] within the range of the [int] result:
    when [sham_send] returns without error, it returns exactly [len], and at
    that moment [window_count = 0] and [send_base = send_seq].  The window is
    again well formed, so this carries over to the next call. *)
Theorem send_returns_len w fuel io conn packet bytes len res conn' io' :
  state conn = SHAM_ESTABLISHED ->
  window_tail_ok conn ->
  0 <= len <= INT_MAX ->
  sham_send w fuel io conn packet (Some bytes) len = (Some res, conn', io') ->
  0 <= res ->
  res = len /\ window_count conn' = 0 /\ send_base conn' = send_seq conn'
  /\ window_tail_ok conn'.
Proof.
  intros Hstate Hok Hlen Hrun Hres. unfold sham_send in Hrun.
  rewrite Hstate in Hrun. cbn [state_eqb] in Hrun.
  unfold INT_MAX in Hlen.
  destruct (send_loop_spec _ _ _ _ _ _ _ _ _ _ _ Hrun Hok ltac:(lia) ltac:(lia) Hres)
    as (Hr & Hcnt & Hbase & Hok').
  rewrite to_int_small in Hr by (unfold INT_MAX; lia).
  auto.
Qed.

Lemma connected_tail_ok : window_tail_ok (connected 5 100).
Proof. unfold window_tail_ok. by_evaluation. Qed.

Lemma send_returns_len_witness :
  let w := quiet_world [SelectTimeout; arrival (peer_ack 101 9 32768)] 0 in
  let run := sham_send w 5 io_init (connected 5 100) zero_packet (Some [1; 2; 3]) 3 in
  fst (fst run) = Some 3
  /\ window_count (snd (fst run)) = 0
  /\ send_base (snd (fst run)) = send_seq (snd (fst run)).
Proof.
  intros w run.
  assert (Hrun : run = (Some 3, snd (fst run), snd run)) by (vm_compute; reflexivity).
  destruct (send_returns_len w 5 io_init (connected 5 100) zero_packet [1; 2; 3] 3
              3 (snd (fst run)) (snd run)) as (_ & Hcnt & Hbase & _).
  - vm_compute; reflexivity.
  - unfold window_tail_ok. by_evaluation.
  - unfold INT_MAX. lia.
  - exact Hrun.
  - lia.
  - split; [rewrite Hrun; reflexivity|]. split; assumption.
Defined.

(** *** Flow control *)

Lemma ack_walk_flow n ack conn :
  peer_window_size (ack_walk n ack conn) = peer_window_size conn
  /\ last_byte_sent (ack_walk n ack conn) = last_byte_sent conn
  /\ last_byte_acked (ack_walk n ack conn) = last_byte_acked conn.
Proof.
  revert conn. induction n as [|n IH]; intros conn; cbn [ack_walk]; [auto|].
  destruct (window_count conn >? 0); [|auto].
  destruct (packet_end _ <=? ack); [|auto].
  destruct (IH (acknowledge_head conn)) as (-> & -> & ->). auto.
Qed.

Lemma process_ack_flow conn packet :
  peer_window_size (sham_process_ack conn packet) = window_size (header packet)
  /\ last_byte_sent (sham_process_ack conn packet) = last_byte_sent conn
  /\ last_byte_acked (sham_process_ack conn packet)
     = Z.max (last_byte_acked conn) (ack_num (header packet)).
Proof.
  unfold sham_process_ack.
  match goal with |- context [ack_walk ?n ?a ?c] =>
    destruct (ack_walk_flow n a c) as (-> & -> & ->) end.
  cbn. destruct (Z.gtb_spec (ack_num (header packet)) (last_byte_acked conn));
    cbn; repeat split; lia.
Qed.


















(** *** Cumulative ACKs *)

Lemma set_peer_window_size_same conn :
  set_peer_window_size (peer_window_size conn) conn = conn.
Proof. destruct conn. reflexivity. Qed.

(** Once the walk has stopped, walking again changes nothing. *)
Lemma ack_walk_fixed n m ack conn :
  window_count conn <= Z.of_nat n ->
  ack_walk m ack (ack_walk n ack conn) = ack_walk n ack conn.
Proof.
  revert conn. induction n as [|n IH]; intros conn Hn; cbn [ack_walk].
  - destruct m; cbn [ack_walk]; [reflexivity|].
    destruct (Z.gtb_spec (window_count conn) 0); [lia|reflexivity].
  - destruct (window_count conn >? 0) eqn:Hpos.
    + destruct (packet_end _ <=? ack) eqn:Hend.
      * apply IH. unfold acknowledge_head. cbn. lia.
      * destruct m; cbn [ack_walk]; [reflexivity|]. rewrite Hpos, Hend. reflexivity.
    + destruct m; cbn [ack_walk]; [reflexivity|]. rewrite Hpos. reflexivity.
Qed.

(** The loop of [sham_process_ack] is not cut short by its bound. *)
Lemma ack_walk_enough n k ack conn :
  window_count conn <= Z.of_nat n ->
  ack_walk (n + k) ack conn = ack_walk n ack conn.
Proof.
  revert conn. induction n as [|n IH]; intros conn Hn; cbn [ack_walk Nat.add].
  - destruct k; cbn [ack_walk]; [reflexivity|].
    destruct (Z.gtb_spec (window_count conn) 0); [lia|reflexivity].
  - destruct (window_count conn >? 0); [|reflexivity].
    destruct (packet_end _ <=? ack); [|reflexivity].
    apply IH. unfold acknowledge_head. cbn. lia.
Qed.

Lemma process_ack_idempotent conn packet :
  sham_process_ack (sham_process_ack conn packet) packet
    = sham_process_ack conn packet.
Proof.
  destruct (process_ack_flow conn packet) as (Hpw & _ & Hacked).
  assert (Hstop : forall m,
    ack_walk m (ack_num (header packet)) (sham_process_ack conn packet)
      = sham_process_ack conn packet).
  { intros m. unfold sham_process_ack. apply ack_walk_fixed. unfold ix. lia. }
  remember (sham_process_ack conn packet) as conn1 eqn:E.
  unfold sham_process_ack.
  rewrite <- Hpw, set_peer_window_size_same.
  destruct (Z.gtb_spec (ack_num (header packet)) (last_byte_acked conn1)); [lia|].
  apply Hstop.
Qed.

(** *** The order of the in-window entries *)

Lemma in_flight_from_ext n i conn conn' :
  send_window conn' = send_window conn -> window_start conn' = window_start conn ->
  in_flight_from n i conn' = in_flight_from n i conn.
Proof.
  intros Hsw Hws. revert i. induction n as [|n IH]; intros i;
    cbn [in_flight_from]; [reflexivity|].
  rewrite IH. unfold slot. rewrite Hsw, Hws. reflexivity.
Qed.

Lemma window_ends_ext conn conn' :
  send_window conn' = send_window conn -> window_start conn' = window_start conn ->
  window_count conn' = window_count conn ->
  window_ends conn' = window_ends conn.
Proof.
  intros Hsw Hws Hcnt. unfold window_ends, in_flight. rewrite Hcnt.
  rewrite (in_flight_from_ext _ _ conn conn' Hsw Hws). reflexivity.
Qed.

Lemma in_flight_from_pop n i conn :
  0 <= window_start conn < SHAM_WINDOW_SIZE ->
  0 <= i -> i + Z.of_nat n <= 9 ->
  in_flight_from n i (acknowledge_head conn) = in_flight_from n (i + 1) conn.
Proof.
  intros Hws. revert i. induction n as [|n IH]; intros i Hi Hn;
    cbn [in_flight_from]; [reflexivity|].
  f_equal; [|apply IH; lia].
  unfold slot, acknowledge_head. cbn.
  rewrite ring_index_next by lia.
  apply list_lookup_total_insert_ne.
  rewrite <- (ring_index_self (window_start conn)) at 1 by exact Hws.
  apply ring_index_distinct; unfold SHAM_WINDOW_SIZE in *; lia.
Qed.

Lemma in_flight_nonempty conn :
  ring_ok conn -> 0 < window_count conn ->
  in_flight conn
    = send_window conn !!! ix (window_start conn)
      :: in_flight (acknowledge_head conn).
Proof.
  intros (Hws & Hcnt & Hlen) Hpos. unfold in_flight.
  replace (ix (window_count conn)) with (S (ix (window_count conn - 1)))
    by (unfold ix; lia).
  cbn [in_flight_from]. f_equal.
  - unfold slot. rewrite ring_index_self by exact Hws. reflexivity.
  - replace (window_count (acknowledge_head conn)) with (window_count conn - 1)
      by reflexivity.
    symmetry. apply in_flight_from_pop; unfold ix, SHAM_WINDOW_SIZE in *; lia.
Qed.

Lemma in_flight_empty conn : window_count conn <= 0 -> in_flight conn = [].
Proof.
  intros H. unfold in_flight. replace (ix (window_count conn)) with 0%nat
    by (unfold ix; lia). reflexivity.
Qed.

Lemma acknowledge_head_ring_ok conn :
  ring_ok conn -> 0 < window_count conn -> ring_ok (acknowledge_head conn).
Proof.
  intros (Hws & Hcnt & Hlen) Hpos. unfold ring_ok, acknowledge_head. cbn.
  split; [apply ring_index_range; lia|]. split; [lia|].
  rewrite length_insert. exact Hlen.
Qed.

(** The walk pops entries in increasing order of their ends: [send_base]
    never moves back, and it stops in front of the first entry that the ACK
    does not cover. *)
Lemma ack_walk_ordered n ack lo conn :
  ring_ok conn ->
  ascending_from (send_base conn) (window_ends conn) ->
  Forall (fun e => lo < e) (window_ends conn) ->
  window_count conn <= Z.of_nat n ->
  let conn' := ack_walk n ack conn in
  ring_ok conn'
  /\ ascending_from (send_base conn') (window_ends conn')
  /\ Forall (fun e => lo < e) (window_ends conn')
  /\ send_base conn <= send_base conn'
  /\ Forall (fun e => ack < e) (take 1 (window_ends conn')).
Proof.
  revert conn. induction n as [|n IH]; intros conn Hring Hasc Hlo Hn;
    cbn [ack_walk].
  - unfold window_ends. rewrite in_flight_empty by lia. cbn.
    split; [exact Hring|]. split; [exact I|]. split; [constructor|].
    split; [lia|constructor].
  - destruct (Z.gtb_spec (window_count conn) 0) as [Hpos|Hzero].
    2:{ unfold window_ends. rewrite in_flight_empty by lia. cbn.
        split; [exact Hring|]. split; [exact I|]. split; [constructor|].
        split; [lia|constructor]. }
    unfold window_ends in Hasc, Hlo.
    rewrite (in_flight_nonempty conn Hring Hpos) in Hasc, Hlo.
    cbn [map ascending_from] in Hasc, Hlo. destruct Hasc as [Hbase Hrest].
    destruct (Z.leb_spec (packet_end (send_window conn !!! ix (window_start conn))) ack)
      as [Hcovered|Hbeyond].
    + destruct (IH (acknowledge_head conn)) as (R1 & R2 & R3 & R4 & R5).
      * apply acknowledge_head_ring_ok; assumption.
      * exact Hrest.
      * exact (Forall_inv_tail Hlo).
      * cbn. lia.
      * split; [exact R1|]. split; [exact R2|]. split; [exact R3|].
        split; [|exact R5]. cbn in R4. lia.
    + unfold window_ends. rewrite (in_flight_nonempty conn Hring Hpos).
      cbn [map ascending_from take].
      split; [exact Hring|]. split; [split; assumption|]. split; [exact Hlo|].
      split; [lia|]. constructor; [lia|constructor].
Qed.

Lemma ascending_from_lower lo lo' ends :
  ascending_from lo ends -> lo' <= lo -> ascending_from lo' ends.
Proof. destruct ends as [|e rest]; cbn; [auto|]. intros [H1 H2] Hle. split; [lia|exact H2]. Qed.

Lemma ascending_from_all lo ends :
  ascending_from lo ends -> Forall (fun e => lo < e) ends.
Proof.
  revert lo. induction ends as [|e rest IH]; intros lo H; [constructor|].
  destruct H as [H1 H2]. constructor; [exact H1|].
  apply (Forall_impl _ _ _ (IH _ H2)). intros x Hx. cbn in Hx. lia.
Qed.

Lemma acks_ordered_unfold conn :
  acks_ordered conn <->
  ring_ok conn
  /\ ascending_from (Z.max (send_base conn) (last_byte_acked conn)) (window_ends conn).
Proof. unfold acks_ordered. tauto. Qed.

(** A cumulative ACK keeps the order, never moves [send_base] back, and, if
    its value is not beyond [last_byte_acked], changes nothing but the peer
    window. *)
Lemma process_ack_ordered conn packet :
  acks_ordered conn ->
  send_base conn <= send_base (sham_process_ack conn packet)
  /\ acks_ordered (sham_process_ack conn packet)
  /\ (ack_num (header packet) <= last_byte_acked conn ->
      sham_process_ack conn packet
        = set_peer_window_size (window_size (header packet)) conn).
Proof.
  intros Hord. apply acks_ordered_unfold in Hord. destruct Hord as [Hring Hasc].
  pose proof (ascending_from_all _ _ Hasc) as Hall.
  destruct (process_ack_flow conn packet) as (_ & _ & Hacked).
  unfold sham_process_ack in *.
  set (ack := ack_num (header packet)) in *.
  set (conn1 := set_peer_window_size (window_size (header packet)) conn) in *.
  set (conn2 := if ack >? last_byte_acked conn1
                then set_last_byte_acked ack conn1 else conn1) in *.
  assert (Hsame : ring_ok conn2 /\ window_ends conn2 = window_ends conn
                  /\ send_base conn2 = send_base conn
                  /\ window_count conn2 = window_count conn).
  { subst conn2. destruct (ack >? last_byte_acked conn1);
      (split; [exact Hring|]; split; [apply window_ends_ext; reflexivity|];
       split; reflexivity). }
  destruct Hsame as (Hring2 & Hends2 & Hbase2 & Hcount2).
  destruct (ack_walk_ordered (ix (window_count conn2)) ack (last_byte_acked conn) conn2)
    as (R1 & R2 & R3 & R4 & R5).
  - exact Hring2.
  - rewrite Hends2, Hbase2. apply (ascending_from_lower _ _ _ Hasc). lia.
  - rewrite Hends2. apply (Forall_impl _ _ _ Hall). intros x Hx. cbn in Hx. lia.
  - unfold ix. lia.
  - split; [lia|]. split.
    + apply acks_ordered_unfold. split; [exact R1|].
      rewrite Hacked.
      destruct (window_ends (ack_walk (ix (window_count conn2)) ack conn2))
        as [|e rest]; [exact I|].
      cbn in *. destruct R2 as [R2 R2']. split; [|exact R2'].
      pose proof (Forall_inv R3). pose proof (Forall_inv R5). cbn in *. lia.
    + intros Hold.
      assert (Hc2 : conn2 = conn1).
      { subst conn2. destruct (Z.gtb_spec ack (last_byte_acked conn1)) as [Hgt|];
          [|reflexivity]. change (last_byte_acked conn1) with (last_byte_acked conn) in Hgt.
        lia. }
      rewrite Hc2 in *.
      destruct (ix (window_count conn1)) as [|n]; [reflexivity|].
      cbn [ack_walk].
      destruct (Z.gtb_spec (window_count conn1) 0) as [Hpos|]; [|reflexivity].
      rewrite <- Hends2 in Hall. unfold window_ends in Hall.
      rewrite (in_flight_nonempty conn1 Hring2 Hpos) in Hall.
      pose proof (Forall_inv Hall) as Hhead. lazy beta in Hhead.
      destruct (Z.leb_spec (packet_end (send_window conn1 !!! ix (window_start conn1))) ack);
        [lia|reflexivity].
Qed.

(** C8 as stated fails at "leaves the connection state unchanged": an ACK
    whose value equals [last_byte_acked] but which advertises another window
    changes [peer_window_size]. *)
Lemma ack_not_beyond_changes_state :
  let conn := connected 5 100 in
  let packet := received_ack 101 5 1024 in
  ack_num (header packet) <= last_byte_acked conn
  /\ peer_window_size conn = 16384
  /\ peer_window_size (sham_process_ack conn packet) = 1024
  /\ sham_process_ack conn packet <> conn.
Proof.
  cbv zeta. split; [by_evaluation|]. split; [by_evaluation|].
  split; [by_evaluation|].
  intros H. apply (f_equal peer_window_size) in H. vm_compute in H. discriminate.
Qed.

(** C8, amended: cumulative-ACK processing is idempotent (for every
    connection state, processing the same ACK a second time changes
    nothing) and, on a sender whose window entries end in increasing order
    beyond [send_base] and [last_byte_acked], monotonic: no ACK decreases
    [send_base], the order is kept, and an ACK whose value is not beyond
    [last_byte_acked] changes nothing but [peer_window_size], which takes
    the advertised value. *)
Theorem process_ack_idempotent_monotonic conn packet :
  sham_process_ack (sham_process_ack conn packet) packet
    = sham_process_ack conn packet
  /\ (acks_ordered conn ->
      send_base conn <= send_base (sham_process_ack conn packet)
      /\ acks_ordered (sham_process_ack conn packet)
      /\ (ack_num (header packet) <= last_byte_acked conn ->
          sham_process_ack conn packet
            = set_peer_window_size (window_size (header packet)) conn)).
Proof.
  split; [apply process_ack_idempotent|apply process_ack_ordered].
Qed.

Lemma process_ack_idempotent_monotonic_witness :
  let conn := after_first_segment in
  let packet := received_ack 101 7 32768 in
  acks_ordered conn
  /\ send_base conn <= send_base (sham_process_ack conn packet)
  /\ window_count conn = 1 /\ window_count (sham_process_ack conn packet) = 0.
Proof.
  intros conn packet.
  assert (Hord : acks_ordered conn) by (unfold acks_ordered, ring_ok; by_evaluation).
  destruct (process_ack_idempotent_monotonic conn packet) as (_ & Hmono).
  destruct (Hmono Hord) as (Hbase & _ & _).
  split; [exact Hord|]. split; [exact Hbase|]. split; vm_compute; reflexivity.
Defined.

(** *** Retransmission exhaustion *)

Lemma handle_timeout_exhausted w io conn :
  0 < window_count conn ->
  acked (slot conn 0) = false ->
  SHAM_MAX_RETRIES <= retries (slot conn 0) ->
  sham_is_timeout (send_time (slot conn 0)) (clock w (S (n_clock io))) SHAM_RTO_MS
    = true ->
  exists io', sham_handle_timeout w io conn = (-1, conn, io')
              /\ n_net io' = n_net io /\ n_clock io' = S (S (n_clock io)).
Proof.
  intros Hcnt Hacked Hretries Hlate. unfold sham_handle_timeout, gettimeofday.
  replace (ix (window_count conn)) with (S (ix (window_count conn - 1)))
    by (unfold ix; lia).
  cbn [handle_timeout_loop]. unfold slot in *.
  rewrite Hacked. unfold gettimeofday. cbn [n_clock]. rewrite Hlate.
  destruct (Z.geb_spec (retries (send_window conn
              !!! ix (Z.rem (window_start conn + 0) SHAM_WINDOW_SIZE)))
              SHAM_MAX_RETRIES); [|lia].
  eexists. split; [reflexivity|]. split; reflexivity.
Qed.

(** With the oldest segment out of retries, a silent peer and a clock that
    has moved past the RTO, the wait for the last ACKs goes round for ever:
    [sham_handle_timeout] answers -1 every time and [sham_send] carries on. *)
Lemma wait_acked_never_returns w first fuel io conn packet bytes_sent :
  (forall i, net w i = SelectTimeout) ->
  0 < window_count conn ->
  acked (slot conn 0) = false ->
  SHAM_MAX_RETRIES <= retries (slot conn 0) ->
  (forall i, (first <= i)%nat ->
     sham_is_timeout (send_time (slot conn 0)) (clock w i) SHAM_RTO_MS = true) ->
  (first <= n_clock io)%nat ->
  exists io', wait_acked w fuel io conn packet bytes_sent = (None, conn, io')
              /\ (first <= n_clock io')%nat.
Proof.
  intros Hsilent Hcnt Hacked Hretries Hlate. revert io.
  induction fuel as [|fuel IH]; intros io Hclock; cbn [wait_acked].
  { eauto. }
  destruct (Z.gtb_spec (window_count conn) 0) as [_|]; [|lia].
  unfold wait_round, sham_recv_packet_timeout. rewrite Hsilent.
  cbn [Z.gtb Z.compare].
  destruct (handle_timeout_exhausted w (net_tick io) conn Hcnt Hacked Hretries)
    as (io3 & -> & _ & Hc3).
  { apply Hlate. unfold net_tick. cbn [n_clock]. lia. }
  apply IH. unfold observe. cbn [n_clock]. rewrite Hc3.
  unfold net_tick. cbn [n_clock]. lia.
Qed.

Lemma ticking_clock_late (j i : nat) :
  (j < i)%nat ->
  sham_is_timeout (ticking_clock SHAM_RTO_MS j) (ticking_clock SHAM_RTO_MS i)
    SHAM_RTO_MS = true.
Proof.
  intros Hji. unfold sham_is_timeout, ticking_clock, at_time, SHAM_RTO_MS.
  cbn [tv_sec tv_usec]. apply Z.geb_le.
  set (a := 500 * Z.of_nat j). set (b := 500 * Z.of_nat i).
  assert (Hab : a + 500 <= b) by (unfold a, b; lia).
  assert (Ha : 0 <= a) by (unfold a; lia).
  clearbody a b.
  pose proof (Z.div_mod a 1000 ltac:(lia)) as Ea.
  pose proof (Z.div_mod b 1000 ltac:(lia)) as Eb.
  pose proof (Z.mod_pos_bound a 1000 ltac:(lia)) as Ba.
  pose proof (Z.mod_pos_bound b 1000 ltac:(lia)) as Bb.
  replace ((b mod 1000) * 1000 - (a mod 1000) * 1000)
    with ((b mod 1000 - a mod 1000) * 1000) by lia.
  rewrite Z.quot_mul by lia. lia.
Qed.


(** *** Errors that [sham_send] can report *)

Lemma create_packet_len_range conn seq ack flgs src len :
  0 <= data_len (sham_create_packet_with_conn conn seq ack flgs src len)
    <= SHAM_MAX_DATA_SIZE.
Proof.
  unfold sham_create_packet_with_conn, sham_create_packet, SHAM_MAX_DATA_SIZE.
  destruct src as [bytes|]; [|cbn; lia].
  destruct (Z.gtb_spec len 0); destruct (Z.leb_spec len 1024); cbn; lia.
Qed.

Lemma send_packet_ok w io p :
  sendto_ok w (n_send io) = true ->
  0 <= data_len p <= SHAM_MAX_DATA_SIZE ->
  fst (sham_send_packet w io p) = SHAM_HEADER_SIZE + data_len p.
Proof.
  intros Hok Hlen. unfold sham_send_packet. rewrite Hok. cbn [fst].
  unfold SHAM_HEADER_SIZE, SHAM_MAX_DATA_SIZE in *.
  rewrite usize_small by lia. apply to_int_small. unfold INT_MAX. lia.
Qed.

Lemma wait_acked_result w fuel io conn packet bytes_sent res conn' io' :
  wait_acked w fuel io conn packet bytes_sent = (Some res, conn', io') ->
  res = to_int bytes_sent.
Proof.
  revert io conn packet. induction fuel as [|fuel IH]; intros io conn packet H;
    cbn [wait_acked] in H; [discriminate|].
  destruct (window_count conn >? 0); [|simplify_eq; reflexivity].
  destruct (wait_round w io conn packet) as [[conn1 packet1] io1].
  exact (IH _ _ _ H).
Qed.

Lemma send_loop_no_error w fuel io conn packet src len bytes_sent res conn' io' :
  (forall i, sendto_ok w i = true) ->
  0 <= bytes_sent <= len -> len <= INT_MAX ->
  send_loop w fuel io conn packet src len bytes_sent = (Some res, conn', io') ->
  res = len.
Proof.
  intros Hok. revert io conn packet bytes_sent.
  induction fuel as [|fuel IH]; intros io conn packet bytes_sent Hb Hlen H;
    cbn [send_loop] in H; [discriminate|].
  unfold INT_MAX in Hlen.
  destruct (Z.ltb_spec bytes_sent len) as [Hmore|Hdone].
  2:{ rewrite (wait_acked_result _ _ _ _ _ _ _ _ _ H).
      rewrite to_int_small by (unfold INT_MAX; lia). lia. }
  destruct (drain_acks w fuel io conn packet) as [[[left conn1] packet1] io1].
  destruct left; cbn [negb] in H; [|discriminate].
  destruct (sham_handle_timeout w io1 conn1) as [[r conn2] io2].
  destruct (window_count conn2 >=? SHAM_WINDOW_SIZE);
    [exact (IH _ _ _ _ Hb ltac:(unfold INT_MAX; lia) H)|].
  destruct (negb (sham_can_send_data conn2 (chunk_of len bytes_sent)));
    [exact (IH _ _ _ _ Hb ltac:(unfold INT_MAX; lia) H)|].
  match type of H with
  | context [sham_send_packet w ?i ?p] =>
      pose proof (send_packet_ok w i p (Hok _)
                    (create_packet_len_range _ _ _ _ _ _)) as Hres;
      destruct (sham_send_packet w i p) as [sres io3]
  end.
  cbn [fst] in Hres.
  pose proof (create_packet_len_range conn2 (send_seq conn2) (recv_seq conn2) 0
                (ptr_add src bytes_sent) (chunk_of len bytes_sent)) as Hdl.
  unfold SHAM_HEADER_SIZE in Hres.
  destruct (Z.ltb_spec sres 0); [lia|].
  destruct (gettimeofday w io3) as [now io4].
  destruct (chunk_of_range len bytes_sent ltac:(lia) ltac:(lia)) as [Hchunk Hfit].
  eapply IH; cycle 2; [exact H|rewrite usize_small; lia|unfold INT_MAX; lia].
Qed.

(** As long as [sendto] succeeds, [sham_send] has no way to report an error:
    whatever [sham_handle_timeout] finds, a call on an ESTABLISHED
    connection that returns, returns the byte count. *)
Lemma send_reports_no_timeout_error w fuel io conn packet src len res conn' io' :
  (forall i, sendto_ok w i = true) ->
  state conn = SHAM_ESTABLISHED -> 0 <= len <= INT_MAX ->
  sham_send w fuel io conn packet src len = (Some res, conn', io') ->
  res = len.
Proof.
  intros Hok Hstate Hlen H. unfold sham_send in H. rewrite Hstate in H.
  cbn [state_eqb] in H.
  eapply send_loop_no_error; cycle 3; [exact H|exact Hok|lia|lia].
Qed.

(** *** Runs against a silent peer, step by step *)

Lemma drain_acks_silent w fuel io conn packet :
  net w (n_net io) = SelectTimeout ->
  drain_acks w (S fuel) io conn packet = (true, conn, packet, net_tick io).
Proof.
  intros Hsilent. cbn [drain_acks]. unfold sham_recv_packet_timeout.
  rewrite Hsilent. reflexivity.
Qed.

Lemma send_loop_done w fuel io conn packet src len bytes_sent :
  len <= bytes_sent ->
  send_loop w (S fuel) io conn packet src len bytes_sent
    = wait_acked w fuel io conn packet bytes_sent.
Proof.
  intros Hdone. cbn [send_loop].
  destruct (Z.ltb_spec bytes_sent len); [lia|reflexivity].
Qed.

(** One round of the send loop that emits a segment. *)
Lemma send_loop_emits w fuel io conn packet src len bytes_sent
    r conn2 io2 sres io3 now io4 :
  net w (n_net io) = SelectTimeout ->
  bytes_sent < len ->
  sham_handle_timeout w (net_tick io) conn = (r, conn2, io2) ->
  window_count conn2 < SHAM_WINDOW_SIZE ->
  sham_can_send_data conn2 (chunk_of len bytes_sent) = true ->
  sham_send_packet w (observe (Polled conn2) io2)
    (sham_create_packet_with_conn conn2 (send_seq conn2) (recv_seq conn2) 0
       (ptr_add src bytes_sent) (chunk_of len bytes_sent)) = (sres, io3) ->
  0 <= sres ->
  gettimeofday w io3 = (now, io4) ->
  let conn3 :=
    record_sent conn2
      (sham_create_packet_with_conn conn2 (send_seq conn2) (recv_seq conn2) 0
         (ptr_add src bytes_sent) (chunk_of len bytes_sent))
      (chunk_of len bytes_sent) now in
  send_loop w (S (S fuel)) io conn packet src len bytes_sent
    = send_loop w (S fuel)
        (observe (Emitted conn2 (chunk_of len bytes_sent) conn3) io4)
        conn3 packet src len (usize (bytes_sent + chunk_of len bytes_sent)).
Proof.
  intros Hsilent Hmore Hto Hroom Hgate Hsend Hsres Hclock conn3.
  remember (S fuel) as fuel1 eqn:Hfuel.
  cbn [send_loop].
  destruct (Z.ltb_spec bytes_sent len); [|lia].
  rewrite Hfuel at 1. rewrite (drain_acks_silent _ _ _ _ _ Hsilent).
  cbn [negb]. rewrite Hto.
  destruct (Z.geb_spec (window_count conn2) SHAM_WINDOW_SIZE); [lia|].
  rewrite Hgate. cbn [negb]. rewrite Hsend.
  destruct (Z.ltb_spec sres 0); [lia|].
  rewrite Hclock. reflexivity.
Qed.

(** More fuel lets an unfinished wait go on from where it stopped. *)
Lemma wait_acked_resume w k fuel io conn packet bytes_sent conn' io' :
  (forall i, net w i = SelectTimeout) ->
  wait_acked w k io conn packet bytes_sent = (None, conn', io') ->
  wait_acked w (k + fuel) io conn packet bytes_sent
    = wait_acked w fuel io' conn' packet bytes_sent.
Proof.
  intros Hsilent. revert io conn.
  induction k as [|k IH]; intros io conn H; cbn [wait_acked Nat.add] in *.
  - simplify_eq. reflexivity.
  - destruct (window_count conn >? 0); [|discriminate].
    destruct (wait_round w io conn packet) as [[conn1 packet1] io1] eqn:Hround.
    assert (packet1 = packet) as ->.
    { unfold wait_round, sham_recv_packet_timeout in Hround.
      rewrite Hsilent in Hround.
      destruct (sham_handle_timeout w (net_tick io) _) as [[r c3] io3].
      simplify_eq. reflexivity. }
    apply IH. exact H.
Qed.

Lemma pair3 {A B C} (x : A * B * C) : x = (fst (fst x), snd (fst x), snd x).
Proof. destruct x as [[a b] c]. reflexivity. Qed.

(** Against the silent peer, the call spends its first two units of fuel on
    sending the segment. *)
Lemma silent_start f :
    sham_send silent_world (S (S f)) io_init (connected 5 100) zero_packet (Some [1]) 1
    = wait_acked silent_world f io_after_first_segment after_first_segment zero_packet (usize (0 + chunk_of 1 0)).
Proof.
  unfold sham_send.
    replace (state_eqb (state (connected 5 100)) SHAM_ESTABLISHED) with true by (vm_compute; reflexivity).
    rewrite (send_loop_emits silent_world f io_init (connected 5 100) zero_packet (Some [1]) 1 0
               0 (connected 5 100) {| n_net := 1; n_send := 0; n_clock := 1; sent := []; trace := [] |}
               13 {| n_net := 1; n_send := 1; n_clock := 1; sent := [first_segment]; trace := [Polled (connected 5 100)] |}
               (ticking_clock SHAM_RTO_MS 1)
               {| n_net := 1; n_send := 1; n_clock := 2; sent := [first_segment]; trace := [Polled (connected 5 100)] |}).
    - apply send_loop_done. vm_compute. discriminate.
    - reflexivity.
    - lia.
    - vm_compute. reflexivity.
    - vm_compute. reflexivity.
    - vm_compute. reflexivity.
    - vm_compute. reflexivity.
    - lia.
    - vm_compute. reflexivity.
Qed.

(** Six rounds of waiting use up the five retransmissions. *)
Lemma retries_spent :
  wait_acked silent_world 6 io_after_first_segment after_first_segment
    zero_packet (usize (0 + chunk_of 1 0)) = (None, exhausted_conn, exhausted_io).
Proof. vm_compute. reflexivity. Qed.

Lemma exhausted_facts :
  window_count exhausted_conn = 1
  /\ acked (slot exhausted_conn 0) = false
  /\ retries (slot exhausted_conn 0) = SHAM_MAX_RETRIES
  /\ send_time (slot exhausted_conn 0) = ticking_clock SHAM_RTO_MS 10
  /\ (11 <= n_clock exhausted_io)%nat.
Proof.
  split; [vm_compute; reflexivity|].
  split; [vm_compute; reflexivity|].
  split; [vm_compute; reflexivity|].
  split; [vm_compute; reflexivity|].
  vm_compute. lia.
Qed.

Lemma exhausted_late i :
  (11 <= i)%nat ->
  sham_is_timeout (send_time (slot exhausted_conn 0)) (clock silent_world i)
    SHAM_RTO_MS = true.
Proof.
  intros Hi. destruct exhausted_facts as (_ & _ & _ & Htime & _). rewrite Htime.
  apply ticking_clock_late. lia.
Qed.

(** From the eighth unit of fuel on the connection does not change any
    more, and the call is still running. *)
Lemma silent_forever fuel :
  exists io',
    sham_send silent_world (8 + fuel) io_init (connected 5 100) zero_packet
      (Some [1]) 1 = (None, exhausted_conn, io')
    /\ (11 <= n_clock io')%nat.
Proof.
  destruct exhausted_facts as (Hcnt & Hacked & Hretries & _ & Hclock8).
  destruct (wait_acked_never_returns silent_world 11 fuel exhausted_io
              exhausted_conn zero_packet (usize (0 + chunk_of 1 0)))
    as (io' & Hrun & Hclock).
  - reflexivity.
  - rewrite Hcnt. lia.
  - exact Hacked.
  - rewrite Hretries. reflexivity.
  - exact exhausted_late.
  - exact Hclock8.
  - exists io'. split; [|exact Hclock].
    change (8 + fuel)%nat with (S (S (6 + fuel))).
    rewrite silent_start.
    rewrite (wait_acked_resume silent_world 6 fuel io_after_first_segment
               after_first_segment zero_packet (usize (0 + chunk_of 1 0))
               exhausted_conn exhausted_io).
    + exact Hrun.
    + reflexivity.
    + exact retries_spent.
Qed.

(** C1 at the failing input: one byte is sent to a peer that never answers
    while the clock moves on by one RTO between readings.  The segment is
    retransmitted five times; from then on [sham_handle_timeout] returns -1
    in every round, but [sham_send] does not look at that result: whatever
    the fuel, it has not returned, let alone with an error. *)
Theorem send_ignores_retry_exhaustion (fuel : nat) :
  let run :=
    sham_send silent_world fuel io_init (connected 5 100) zero_packet (Some [1]) 1 in
  fst (fst run) = None
  /\ ((8 <= fuel)%nat ->
      retries (slot (snd (fst run)) 0) = SHAM_MAX_RETRIES
      /\ acked (slot (snd (fst run)) 0) = false
      /\ window_count (snd (fst run)) = 1
      /\ exists io'',
           sham_handle_timeout silent_world (snd run) (snd (fst run))
             = (-1, snd (fst run), io'')).
Proof.
  intros run. destruct (le_lt_dec 8 fuel) as [Hbig|Hsmall].
  - destruct (silent_forever (fuel - 8)) as (io' & Hrun & Hclock).
    replace (8 + (fuel - 8))%nat with fuel in Hrun by lia.
    subst run. rewrite Hrun. cbn [fst snd].
    destruct exhausted_facts as (Hcnt & Hacked & Hretries & _ & _).
    split; [reflexivity|]. intros _.
    split; [exact Hretries|]. split; [exact Hacked|]. split; [exact Hcnt|].
    destruct (handle_timeout_exhausted silent_world io' exhausted_conn)
      as (io'' & Hto & _).
    + rewrite Hcnt. lia.
    + exact Hacked.
    + rewrite Hretries. reflexivity.
    + apply exhausted_late. lia.
    + exists io''. exact Hto.
  - split; [|intros; lia]. subst run.
    do 8 (destruct fuel as [|fuel]; [vm_compute; reflexivity|]). lia.
Qed.

(** ** The invariants are established by the handshake *)

Lemma generate_isn_range rnd :
  0 <= rnd -> 0 <= sham_generate_isn rnd < 2 ^ 32.
Proof.
  intros H. unfold sham_generate_isn, UINT32_MAX.
  pose proof (Z.rem_bound_pos rnd (2 ^ 32 - 1) H ltac:(lia)). lia.
Qed.

(** A client that [sham_connect] reports as connected is ESTABLISHED with an
    empty, well-formed send window, counters in range and nothing staged. *)
Lemma connect_establishes w io rnd packet sock host port conn' packet' io' :
  0 <= rnd ->
  sham_connect w io (sham_create_connection rnd) packet sock host port
    = (0, conn', packet', io') ->
  state conn' = SHAM_ESTABLISHED
  /\ window_count conn' = 0
  /\ window_tail_ok conn'
  /\ acks_ordered conn'
  /\ flow_in_range conn'
  /\ ooo_all_ahead conn' = true
  /\ recv_buffer_used conn' = 0.
Proof.
  intros Hrnd H. pose proof (generate_isn_range rnd Hrnd) as Hisn.
  unfold sham_connect in H.
  change (state (sham_create_connection rnd)) with SHAM_CLOSED in H.
  change (sockfd (sham_create_connection rnd) <? 0) with true in H.
  cbn [state_eqb negb] in H.
  change (sockfd (set_sockfd sock (sham_create_connection rnd))) with sock in H.
  destruct (sock <? 0); [discriminate|].
  destruct host as [addr|]; [|discriminate].
  destruct (sham_send_packet w io _) as [res io1].
  destruct (res <? 0); [discriminate|].
  destruct (sham_recv_packet_timeout w io1 _ packet SHAM_RTO_MS)
    as [[[rr conn3] syn_ack] io2] eqn:Hrecv.
  destruct (rr <=? 0); [discriminate|].
  destruct (negb _ || negb _); [discriminate|].
  destruct (sham_send_packet w io2 _) as [res2 io3].
  destruct (res2 <? 0); [discriminate|].
  injection H as <- _ _.
  destruct (recv_packet_timeout_conn _ _ _ _ _ _ _ _ _ Hrecv)
    as [->|[->|(from & from_len & ->)]].
  all: unfold window_tail_ok, acks_ordered, ring_ok, window_ends, in_flight,
         flow_in_range, ooo_all_ahead.
  all: cbn -[Z.pow u32 replicate].
  all: pose proof (u32_range (sham_generate_isn rnd + 1)) as Hseq.
  all: unfold SHAM_WINDOW_SIZE, SHAM_DEFAULT_ADVERTISED_WINDOW, ix.
  all: rewrite length_replicate.
  all: repeat split; try reflexivity; try lia.
Qed.

(** ** The cumulative-ACK order is kept when a segment is sent *)

Lemma in_flight_from_push n i conn p k now :
  ring_ok conn -> window_count conn < SHAM_WINDOW_SIZE ->
  0 <= i -> i + Z.of_nat n = window_count conn ->
  in_flight_from (S n) i (record_sent conn p k now)
    = in_flight_from n i conn ++ [new_entry p now].
Proof.
  intros (Hws & Hcnt & Hlen) Hroom. revert i.
  induction n as [|n IH]; intros i Hi Hn.
  - cbn [in_flight_from app]. f_equal. unfold slot, record_sent. cbn.
    replace i with (window_count conn) by lia.
    apply list_lookup_total_insert_eq. rewrite Hlen. unfold ix.
    pose proof (ring_index_range (window_start conn + window_count conn)
                  ltac:(lia)).
    unfold SHAM_WINDOW_SIZE in *. lia.
  - change (in_flight_from (S (S n)) i (record_sent conn p k now))
      with (slot (record_sent conn p k now) i
            :: in_flight_from (S n) (i + 1) (record_sent conn p k now)).
    rewrite IH by lia. cbn [in_flight_from app]. f_equal.
    unfold slot, record_sent. cbn.
    apply list_lookup_total_insert_ne.
    apply ring_index_distinct; unfold SHAM_WINDOW_SIZE in *; lia.
Qed.

Lemma last_in_flight_from n i conn :
  last (in_flight_from (S n) i conn) = Some (slot conn (i + Z.of_nat n)).
Proof.
  revert i. induction n as [|n IH]; intros i.
  - cbn. rewrite Z.add_0_r. reflexivity.
  - change (in_flight_from (S (S n)) i conn)
      with (slot conn i :: in_flight_from (S n) (i + 1) conn).
    rewrite last_cons, IH. cbn [from_option].
    replace (i + 1 + Z.of_nat n) with (i + Z.of_nat (S n)) by lia. reflexivity.
Qed.

Lemma ascending_from_snoc lo ends x :
  ascending_from lo ends -> default lo (last ends) < x ->
  ascending_from lo (ends ++ [x]).
Proof.
  revert lo. induction ends as [|e rest IH]; intros lo Hasc Hlast.
  - cbn in *. auto.
  - destruct Hasc as [H1 H2]. cbn [app ascending_from]. split; [exact H1|].
    apply IH; [exact H2|]. rewrite last_cons in Hlast.
    destruct (last rest); exact Hlast.
Qed.

(** Sending a segment keeps the order, provided the sequence numbers do not
    wrap and nothing beyond [send_seq] was acknowledged. *)
Lemma record_sent_acks_ordered conn p k now :
  acks_ordered conn -> window_tail_ok conn ->
  window_count conn < SHAM_WINDOW_SIZE ->
  last_byte_acked conn <= send_seq conn ->
  0 < k -> send_seq conn + k < 2 ^ 32 ->
  data_len p = k -> seq_num (header p) = htonl (send_seq conn) ->
  acks_ordered (record_sent conn p k now).
Proof.
  intros Hord Htail Hroom Hacked Hk Hwrap Hlen Hseq.
  apply acks_ordered_unfold in Hord. destruct Hord as [Hring Hasc].
  pose proof Hring as (Hws & Hcnt & Hsw).
  destruct Htail as (_ & _ & _ & Hrange & Hnewest).
  apply acks_ordered_unfold. split.
  { unfold ring_ok, record_sent. cbn. split; [exact Hws|]. split; [lia|].
    rewrite length_insert. exact Hsw. }
  assert (Hends : window_ends (record_sent conn p k now)
                  = window_ends conn ++ [send_seq conn + k]).
  { unfold window_ends, in_flight.
    replace (ix (window_count (record_sent conn p k now)))
      with (S (ix (window_count conn)))
      by (unfold record_sent, ix; cbn; lia).
    rewrite in_flight_from_push; try assumption; try (unfold ix; lia).
    rewrite map_app. cbn [map]. f_equal. f_equal.
    unfold packet_end, new_entry. cbn.
    rewrite Hseq, Hlen, ntohl_htonl by exact Hrange. apply u32_small. lia. }
  rewrite Hends.
  change (send_base (record_sent conn p k now)) with (send_base conn).
  change (last_byte_acked (record_sent conn p k now)) with (last_byte_acked conn).
  apply ascending_from_snoc; [exact Hasc|].
  destruct (Z.eqb_spec (window_count conn) 0) as [Hzero|Hpos].
  - unfold window_ends. rewrite in_flight_empty by lia. cbn. lia.
  - unfold window_ends, in_flight.
    replace (ix (window_count conn)) with (S (ix (window_count conn - 1)))
      by (unfold ix; lia).
    change (last (map packet_end ?l)) with (last (packet_end <$> l)).
    rewrite fmap_last, last_in_flight_from. cbn.
    replace (0 + Z.of_nat (ix (window_count conn - 1)))
      with (window_count conn - 1) by (unfold ix; lia).
    rewrite Hnewest. lia.
Qed.

Lemma ack_walk_send_seq n ack conn :
  send_seq (ack_walk n ack conn) = send_seq conn.
Proof.
  revert conn. induction n as [|n IH]; intros conn; cbn [ack_walk]; [reflexivity|].
  destruct (window_count conn >? 0); [|reflexivity].
  destruct (packet_end _ <=? ack); [|reflexivity].
  rewrite IH. reflexivity.
Qed.

(** An ACK for bytes that were sent keeps [last_byte_acked] within
    [send_seq]. *)
Lemma process_ack_acked_within conn packet :
  last_byte_acked conn <= send_seq conn ->
  ack_num (header packet) <= send_seq conn ->
  last_byte_acked (sham_process_ack conn packet)
    <= send_seq (sham_process_ack conn packet).
Proof.
  intros Hacked Hack.
  destruct (process_ack_flow conn packet) as (_ & _ & ->).
  unfold sham_process_ack. rewrite ack_walk_send_seq.
  destruct (_ >? _); cbn; lia.
Qed.

Lemma same_packets_acks_ordered conn sw' :
  same_packets (send_window conn) sw' ->
  acks_ordered conn -> acks_ordered (set_send_window sw' conn).
Proof.
  intros Hsame Hord. apply acks_ordered_unfold in Hord.
  destruct Hord as [(Hws & Hcnt & Hlen) Hasc].
  apply acks_ordered_unfold. split.
  { split; [exact Hws|]. split; [exact Hcnt|].
    cbn. rewrite (same_packets_length _ _ Hsame). exact Hlen. }
  assert (Hends : forall n i,
            map packet_end (in_flight_from n i (set_send_window sw' conn))
            = map packet_end (in_flight_from n i conn)).
  { induction n as [|n IH]; intros i; cbn [in_flight_from map]; [reflexivity|].
    rewrite IH. f_equal. unfold slot. cbn.
    apply packet_end_same, same_packets_lookup, Hsame. }
  unfold window_ends, in_flight.
  change (window_count (set_send_window sw' conn)) with (window_count conn).
  rewrite Hends. exact Hasc.
Qed.

Lemma handle_timeout_acks_ordered w io conn res conn' io' :
  sham_handle_timeout w io conn = (res, conn', io') ->
  acks_ordered conn -> acks_ordered conn'.
Proof.
  intros H Hord. destruct (handle_timeout_frame _ _ _ _ _ _ H) as (sw' & -> & Hsame).
  apply same_packets_acks_ordered; assumption.
Qed.

(** ** The loop of [sham_deliver_ooo_packets] is not cut short by its bound *)

Lemma count_valid_insert l i e e' :
  l !! i = Some e -> valid e = true -> valid e' = false ->
  S (count_valid (<[i := e']> l)) = count_valid l.
Proof.
  revert i. induction l as [|x l IH]; intros i Hi He He'; [discriminate|].
  destruct i as [|i].
  - cbn in *. simplify_eq. rewrite He, He'. reflexivity.
  - pose proof (IH i Hi He He') as IH'.
    change (<[S i := e']> (x :: l)) with (x :: <[i := e']> l).
    cbn [count_valid]. destruct (valid x); lia.
Qed.

Lemma ooo_scan_found n i0 conn i :
  ooo_scan n i0 conn = Some i ->
  i0 <= i < i0 + Z.of_nat n /\ valid (ooo_buffer conn !!! ix i) = true.
Proof.
  revert i0. induction n as [|n IH]; intros i0 H; cbn [ooo_scan] in H; [discriminate|].
  destruct (valid (ooo_buffer conn !!! ix i0)) eqn:Hv; cbn [andb] in H.
  - destruct (_ =? _).
    + simplify_eq. split; [lia|exact Hv].
    + destruct (IH _ H). split; [lia|assumption].
  - destruct (IH _ H). split; [lia|assumption].
Qed.

Lemma deliver_slot_staged i conn buffer pos size conn' buffer' pos' :
  0 <= i < SHAM_WINDOW_SIZE -> valid (ooo_buffer conn !!! ix i) = true ->
  deliver_slot i conn buffer pos size = (conn', buffer', pos') ->
  S (staged conn') = staged conn.
Proof.
  intros Hi Hv H. unfold deliver_slot in H. simplify_eq.
  unfold staged. cbn.
  assert (Hlook : ooo_buffer conn !! ix i = Some (ooo_buffer conn !!! ix i)).
  { rewrite list_lookup_total_alt in Hv |- *.
    destruct (ooo_buffer conn !! ix i); [reflexivity|discriminate]. }
  rewrite take_insert_lt by (unfold ix, SHAM_WINDOW_SIZE in *; lia).
  apply (count_valid_insert _ _ (ooo_buffer conn !!! ix i)).
  - rewrite lookup_take_lt by (unfold ix, SHAM_WINDOW_SIZE in *; lia). exact Hlook.
  - exact Hv.
  - reflexivity.
Qed.

Lemma deliver_loop_stable fuel fuel' conn buffer pos size :
  (staged conn < fuel)%nat -> (staged conn < fuel')%nat ->
  deliver_loop fuel conn buffer pos size = deliver_loop fuel' conn buffer pos size.
Proof.
  revert fuel' conn buffer pos.
  induction fuel as [|fuel IH]; intros fuel' conn buffer pos Hf Hf'; [lia|].
  destruct fuel' as [|fuel']; [lia|]. cbn [deliver_loop].
  destruct (ooo_scan (ix SHAM_WINDOW_SIZE) 0 conn) as [i|] eqn:Hscan; [|reflexivity].
  destruct (ooo_scan_found _ _ _ _ Hscan) as [Hi Hv].
  destruct (deliver_slot i conn buffer pos size) as [[conn' buffer'] pos'] eqn:Hslot.
  pose proof (deliver_slot_staged i conn buffer pos size conn' buffer' pos'
                ltac:(unfold ix, SHAM_WINDOW_SIZE in *; lia) Hv Hslot).
  apply IH; lia.
Qed.

Lemma count_valid_length l : (count_valid l <= length l)%nat.
Proof. induction l as [|e l IH]; cbn; [lia|]. destruct (valid e); lia. Qed.

(** Any larger bound gives the result of [sham_deliver_ooo_packets]: the
    loop ends by its own condition. *)
Lemma deliver_loop_enough k conn buffer pos size :
  deliver_loop (S (ix SHAM_WINDOW_SIZE) + k) conn buffer pos size
    = sham_deliver_ooo_packets conn buffer pos size.
Proof.
  unfold sham_deliver_ooo_packets.
  assert (staged conn <= ix SHAM_WINDOW_SIZE)%nat.
  { unfold staged. pose proof (count_valid_length (take (ix SHAM_WINDOW_SIZE) (ooo_buffer conn))).
    rewrite length_take in *. lia. }
  apply deliver_loop_stable; lia.
Qed.

(** * Further properties of the code *)

(** ** Concrete runs

    Projections of a run and facts about the connections of the scenarios,
    used to apply the theorems to concrete inputs. *)

Lemma triple_eta {A B C} (x : A * B * C) : x = (fst (fst x), snd (fst x), snd x).
Proof. destruct x as [[? ?] ?]. reflexivity. Qed.

Lemma quadruple_eta {A B C D} (x : A * B * C * D) :
  x = (fst (fst (fst x)), snd (fst (fst x)), snd (fst x), snd x).
Proof. destruct x as [[[? ?] ?] ?]. reflexivity. Qed.

Lemma connected_staging_empty : staging_empty (connected 5 100).
Proof. split; [reflexivity|]. apply Forall_replicate. reflexivity. Qed.

Lemma connected_staging_well_formed : staging_well_formed (connected 5 100).
Proof.
  unfold staging_well_formed. apply Forall_replicate.
  unfold packet_well_formed. by_evaluation.
Qed.

Lemma connected_retries_bounded : retries_bounded (connected 5 100).
Proof. unfold retries_bounded. apply Forall_replicate. by_evaluation. Qed.

Lemma zero_packet_well_formed : packet_well_formed zero_packet.
Proof. unfold packet_well_formed. by_evaluation. Qed.

Ltac settle :=
  first [ exact connected_staging_empty | exact connected_staging_well_formed
        | exact connected_retries_bounded | exact zero_packet_well_formed
        | (intros ?; reflexivity) | by_evaluation ].

(** ** Wire format *)

Lemma lossless_no_drop conn rnd :
  lossless conn -> sham_should_drop_packet (loss_rate conn) rnd = false.
Proof. unfold lossless, sham_should_drop_packet. intros ->. reflexivity. Qed.

Lemma length_header_bytes h : length (header_bytes h) = 12%nat.
Proof. reflexivity. Qed.

Lemma length_sham_wire p :
  (ix (data_len p) <= length (data p))%nat ->
  Z.of_nat (length (sham_wire p)) = SHAM_HEADER_SIZE + Z.of_nat (ix (data_len p)).
Proof.
  intros H. unfold sham_wire. rewrite length_app, length_header_bytes, length_take.
  unfold SHAM_HEADER_SIZE. lia.
Qed.

(** What [sham_recv_packet] makes of a datagram that [sham_send_packet]
    built from [p]. *)
Lemma recv_packet_wire conn packet p from from_len rnd :
  header_in_range (header p) ->
  0 <= data_len p <= SHAM_MAX_DATA_SIZE ->
  data_len p <= Z.of_nat (length (data p)) ->
  sham_should_drop_packet (loss_rate conn) rnd = false ->
  exists bytes,
    sham_recv_packet conn packet (RecvDgram (sham_wire p) from from_len) rnd
      = (SHAM_HEADER_SIZE + data_len p, learn_peer conn from from_len,
         {| header := host_order (header p); data := bytes;
            data_len := data_len p |})
    /\ take (ix (data_len p)) bytes = take (ix (data_len p)) (data p)
    /\ (data_len p <= Z.of_nat (length (data packet)) ->
        length bytes = length (data packet)).
Proof.
  intros Hh Hlen Hdata Hdrop.
  assert (Hwire : Z.of_nat (length (sham_wire p)) = 12 + data_len p).
  { rewrite length_sham_wire by (unfold ix; lia). unfold SHAM_HEADER_SIZE, ix. lia. }
  assert (Hbuf : recvfrom_buffer (sham_wire p) = sham_wire p).
  { unfold recvfrom_buffer. apply take_ge.
    unfold ix, SHAM_MAX_PACKET_SIZE, SHAM_HEADER_SIZE, SHAM_MAX_DATA_SIZE in *. lia. }
  unfold sham_recv_packet. rewrite Hdrop.
  rewrite (wire_header_roundtrip p Hh). rewrite Hbuf, Hwire.
  unfold SHAM_HEADER_SIZE, SHAM_MAX_DATA_SIZE in *.
  replace (12 + data_len p <? 12) with false by (symmetry; apply Z.ltb_ge; lia).
  rewrite to_int_small by (unfold INT_MAX; lia).
  replace (12 + data_len p - 12) with (data_len p) by lia.
  fold (learn_peer conn from from_len). fold (host_order (header p)).
  eexists. split; [reflexivity|].
  assert (Hdrop12 : drop (ix 12) (sham_wire p) = take (ix (data_len p)) (data p)).
  { unfold sham_wire. change (ix 12) with (length (header_bytes (header p))).
    apply drop_app_length. }
  destruct (Z.gtb_spec (data_len p) 0) as [Hpos|Hzero].
  - rewrite Hdrop12. unfold memcpy. rewrite take_take, Nat.min_id.
    split.
    + rewrite take_app_le by (rewrite length_take; unfold ix; lia).
      rewrite take_take, Nat.min_id. reflexivity.
    + intros Hp. rewrite length_app, length_take, length_drop. unfold ix. lia.
  - replace (data_len p) with 0 by lia. change (ix 0) with 0%nat.
    rewrite !take_0. split; [reflexivity|]. intros _. reflexivity.
Qed.

Lemma create_packet_header seq ack flgs src len :
  header (sham_create_packet seq ack flgs src len)
    = {| seq_num := htonl seq; ack_num := htonl ack; flags := htons flgs;
         window_size := htons SHAM_DEFAULT_ADVERTISED_WINDOW |}.
Proof. unfold sham_create_packet. destruct src; [destruct (_ && _)|]; reflexivity. Qed.

Lemma create_packet_with_conn_header conn seq ack flgs src len :
  header (sham_create_packet_with_conn conn seq ack flgs src len)
    = {| seq_num := htonl seq; ack_num := htonl ack; flags := htons flgs;
         window_size := htons (sham_calculate_advertised_window conn) |}.
Proof.
  unfold sham_create_packet_with_conn, set_packet_window. cbn [header].
  rewrite create_packet_header. reflexivity.
Qed.

Lemma advertised_window_range conn :
  SHAM_MAX_DATA_SIZE <= sham_calculate_advertised_window conn < 2 ^ 16.
Proof.
  unfold sham_calculate_advertised_window, SHAM_MAX_DATA_SIZE.
  pose proof (u16_range (recv_buffer_size conn - recv_buffer_used conn)).
  destruct (Z.ltb_spec (u16 (recv_buffer_size conn - recv_buffer_used conn)) 1024); lia.
Qed.

Lemma wire_header_in_range seq ack flgs win :
  header_in_range {| seq_num := htonl seq; ack_num := htonl ack;
                     flags := htons flgs; window_size := htons win |}.
Proof.
  unfold header_in_range, htonl, htons. cbn [seq_num ack_num flags window_size].
  repeat split; try apply bswap32_range; apply bswap16_range.
Qed.

Lemma host_order_wire seq ack flgs win :
  0 <= seq < 2 ^ 32 -> 0 <= ack < 2 ^ 32 -> 0 <= flgs < 2 ^ 16 ->
  0 <= win < 2 ^ 16 ->
  host_order {| seq_num := htonl seq; ack_num := htonl ack;
                flags := htons flgs; window_size := htons win |}
    = {| seq_num := seq; ack_num := ack; flags := flgs; window_size := win |}.
Proof.
  intros. unfold host_order. cbn [seq_num ack_num flags window_size].
  rewrite !ntohl_htonl, !ntohs_htons by assumption. reflexivity.
Qed.

Lemma create_packet_payload seq ack flgs bytes len :
  0 < len <= SHAM_MAX_DATA_SIZE ->
  data_len (sham_create_packet seq ack flgs (Some bytes) len) = len
  /\ data (sham_create_packet seq ack flgs (Some bytes) len)
     = memcpy zero_data bytes len.
Proof.
  intros H. unfold sham_create_packet.
  replace (len >? 0) with true by (symmetry; apply Z.gtb_lt; lia).
  replace (len <=? SHAM_MAX_DATA_SIZE) with true by (symmetry; apply Z.leb_le; lia).
  split; reflexivity.
Qed.

Lemma create_packet_empty seq ack flgs :
  data_len (sham_create_packet seq ack flgs None 0) = 0
  /\ data (sham_create_packet seq ack flgs None 0) = zero_data.
Proof. split; reflexivity. Qed.

(** X1: round trip of a data segment through the wire format.  A segment that
    [sham_create_packet_with_conn] builds from [len] bytes of the caller's
    buffer (1 to 1024 of them), put on the wire and received by
    [sham_recv_packet] on a connection whose loss simulation is off, is
    accepted: the call returns [12 + len], the header comes back in host
    byte order with the sequence number, ACK number and flags that were
    given and with the window the sender advertises, [data_len] is [len]
    and the payload is the first [len] bytes of the buffer.  The receiver
    notes the sender's address if it had none. *)
Theorem data_segment_round_trip sender receiver packet seq ack flgs bytes len
    from from_len rnd :
  0 <= seq < 2 ^ 32 -> 0 <= ack < 2 ^ 32 -> 0 <= flgs < 2 ^ 16 ->
  0 < len <= SHAM_MAX_DATA_SIZE -> len <= Z.of_nat (length bytes) ->
  lossless receiver ->
  let p := sham_create_packet_with_conn sender seq ack flgs (Some bytes) len in
  exists q,
    sham_recv_packet receiver packet (RecvDgram (sham_wire p) from from_len) rnd
      = (SHAM_HEADER_SIZE + len, learn_peer receiver from from_len, q)
    /\ header q = {| seq_num := seq; ack_num := ack; flags := flgs;
                     window_size := sham_calculate_advertised_window sender |}
    /\ data_len q = len
    /\ take (ix len) (data q) = take (ix len) bytes.
Proof.
  intros Hs Ha Hf Hlen Hbytes Hloss p.
  destruct (create_packet_with_conn_payload sender seq ack flgs (Some bytes) len)
    as [Hd Hl].
  destruct (create_packet_payload seq ack flgs bytes len Hlen) as [Hl' Hd'].
  fold p in Hd, Hl. rewrite Hl' in Hl. rewrite Hd' in Hd.
  pose proof (create_packet_with_conn_header sender seq ack flgs (Some bytes) len)
    as Hh. fold p in Hh.
  destruct (recv_packet_wire receiver packet p from from_len rnd) as (b & Hrun & Htake & _).
  - rewrite Hh. apply wire_header_in_range.
  - lia.
  - rewrite Hl, Hd. unfold memcpy. rewrite length_app, length_take, length_drop.
    rewrite length_zero_data. unfold ix, SHAM_MAX_DATA_SIZE in *. lia.
  - apply lossless_no_drop, Hloss.
  - rewrite Hl in Hrun, Htake. eexists. split; [exact Hrun|].
    cbn [header data_len data]. rewrite Hh.
    pose proof (advertised_window_range sender). unfold SHAM_MAX_DATA_SIZE in *.
    rewrite host_order_wire by lia.
    split; [reflexivity|]. split; [reflexivity|].
    rewrite Htake, Hd. unfold memcpy.
    rewrite take_app_le by (rewrite length_take; unfold ix; lia).
    rewrite take_take, Nat.min_id. reflexivity.
Qed.

Lemma data_segment_round_trip_witness :
  exists q,
    sham_recv_packet (connected 100 5) zero_packet
      (RecvDgram
         (sham_wire
            (sham_create_packet_with_conn (connected 5 100) 6 101 0
               (Some [1; 2; 3]) 3))
         loopback 16) 0
      = (SHAM_HEADER_SIZE + 3, learn_peer (connected 100 5) loopback 16, q)
    /\ header q
       = {| seq_num := 6; ack_num := 101; flags := 0;
            window_size := sham_calculate_advertised_window (connected 5 100) |}
    /\ data_len q = 3
    /\ take (ix 3) (data q) = take (ix 3) [1; 2; 3].
Proof.
  apply (data_segment_round_trip (connected 5 100) (connected 100 5) zero_packet
           6 101 0 [1; 2; 3] 3 loopback 16 0); by_evaluation.
Defined.

(** ** Connection set-up: the client *)

(** X2: a [sham_connect] that returns 0 started from a CLOSED connection and
    leaves it ESTABLISHED, with [send_seq] advanced by one (modulo 2^32), [send_base]
    equal to it, and [recv_seq] one past the sequence number of the SYN-ACK
    it received, whose ACK number is the new [send_seq].  It sent exactly
    two packets, both without payload: a SYN with the initial [send_seq]
    and ACK number 0, then an ACK with the new [send_seq] and
    [recv_seq]. *)
Theorem connect_success w io conn packet sock host port conn' syn_ack io' :
  sham_connect w io conn packet sock host port = (0, conn', syn_ack, io') ->
  state conn = SHAM_CLOSED
  /\ state conn' = SHAM_ESTABLISHED
  /\ send_seq conn' = u32 (send_seq conn + 1)
  /\ send_base conn' = send_seq conn'
  /\ recv_seq conn' = u32 (seq_num (header syn_ack) + 1)
  /\ ack_num (header syn_ack) = send_seq conn'
  /\ exists syn ack,
       sent io' = sent io ++ [syn; ack]
       /\ header syn
          = {| seq_num := htonl (send_seq conn); ack_num := htonl 0;
               flags := htons SHAM_SYN;
               window_size := htons (sham_calculate_advertised_window conn) |}
       /\ header ack
          = {| seq_num := htonl (send_seq conn');
               ack_num := htonl (recv_seq conn');
               flags := htons SHAM_ACK;
               window_size := htons (sham_calculate_advertised_window conn) |}
       /\ data_len syn = 0 /\ data_len ack = 0.
Proof.
  unfold sham_connect. intros H.
  destruct (state conn) eqn:Hst; cbn [state_eqb negb] in H; try discriminate.
  split; [reflexivity|].
  set (conn0 := if sockfd conn <? 0 then set_sockfd sock conn else conn) in *.
  destruct (sockfd conn0 <? 0); [discriminate|].
  destruct host as [addr|]; [|discriminate].
  destruct (sham_send_packet w io _) as [res io1] eqn:Hsend1.
  destruct (Z.ltb_spec res 0) as [|Hres]; [discriminate|].
  destruct (sham_recv_packet_timeout w io1 _ packet SHAM_RTO_MS)
    as [[[rr conn3] sa] io2] eqn:Hrecv.
  destruct (rr <=? 0); [discriminate|].
  destruct (negb (Z.land _ _ =? _)) eqn:Hflags; [discriminate|].
  destruct (Z.eqb_spec (ack_num (header sa)) (u32 (send_seq conn3 + 1))) as [Hack|];
    [|discriminate].
  cbn [negb orb] in H.
  destruct (sham_send_packet w io2 _) as [res2 io3] eqn:Hsend2.
  destruct (Z.ltb_spec res2 0) as [|Hres2]; [discriminate|].
  injection H as <- <- <-.
  pose proof (recv_timeout_sent _ _ _ _ _ _ _ _ _ Hrecv) as Hs.
  match type of Hsend1 with sham_send_packet _ _ ?p = _ =>
    assert (Hsent1 : sent io1 = sent io ++ [p]) end.
  { unfold sham_send_packet in Hsend1.
    destruct (sendto_ok w (n_send io)); simplify_eq; [reflexivity|lia]. }
  match type of Hsend2 with sham_send_packet _ _ ?p = _ =>
    assert (Hsent2 : sent io3 = sent io2 ++ [p]) end.
  { unfold sham_send_packet in Hsend2.
    destruct (sendto_ok w (n_send io2)); simplify_eq; [reflexivity|lia]. }
  assert (Hframe : send_seq conn3 = send_seq conn
                   /\ sham_calculate_advertised_window conn3
                      = sham_calculate_advertised_window conn).
  { destruct (recv_packet_timeout_conn _ _ _ _ _ _ _ _ _ Hrecv)
      as [->|[->|(from & from_len & ->)]];
      subst conn0; destruct (sockfd conn <? 0); split; reflexivity. }
  destruct Hframe as [Hseq Hwin].
  cbn [state send_seq send_base recv_seq set_send_base set_state set_send_seq
       set_recv_seq].
  rewrite Hseq in *.
  repeat split; try reflexivity; try assumption.
  eexists _, _. rewrite Hsent2, Hs, Hsent1, <- app_assoc.
  split; [reflexivity|].
  rewrite !create_packet_with_conn_header.
  cbn [send_seq recv_seq set_send_seq set_recv_seq set_peer_len set_peer_addr].
  rewrite ?Hseq.
  replace (send_seq conn0) with (send_seq conn)
    by (subst conn0; destruct (sockfd conn <? 0); reflexivity).
  replace (sham_calculate_advertised_window
             (set_peer_len 16 (set_peer_addr _ conn0)))
    with (sham_calculate_advertised_window conn)
    by (subst conn0; destruct (sockfd conn <? 0); reflexivity).
  replace (sham_calculate_advertised_window (set_send_seq _ (set_recv_seq _ conn3)))
    with (sham_calculate_advertised_window conn) by (rewrite <- Hwin; reflexivity).
  repeat split; reflexivity.
Qed.

Lemma connect_success_witness :
  let w := quiet_world [arrival (syn_ack_for 5 100)] 0 in
  let run :=
    sham_connect w io_init (sham_create_connection 5) zero_packet 3
      (Some 2130706433) 8080 in
  state (snd (fst (fst run))) = SHAM_ESTABLISHED
  /\ send_seq (snd (fst (fst run))) = 6
  /\ length (sent (snd run)) = 2%nat.
Proof.
  intros w run.
  assert (Hrun : run = (0, snd (fst (fst run)), snd (fst run), snd run))
    by (vm_compute; reflexivity).
  destruct (connect_success _ _ _ _ _ _ _ _ _ _ Hrun)
    as (_ & Hst & Hseq & _ & _ & _ & syn & ack & Hsent & _).
  split; [exact Hst|]. split; [rewrite Hseq; vm_compute; reflexivity|].
  rewrite Hsent. vm_compute. reflexivity.
Defined.

(** Closes a path of [sham_connect] that ends in a failure. *)
Ltac close_path H :=
  cbv beta iota in H; injection H as <- <- <- <-;
  repeat split; first [reflexivity | assumption | cbn [state set_state]; congruence].

(** X3: a [sham_connect] that fails returns -1 and leaves the connection in
    the state it was called in (CLOSED again after a handshake that did not
    complete); called on a connection that is not CLOSED it changes nothing
    and sends nothing. *)
Theorem connect_failure w io conn packet sock host port res conn' packet' io' :
  sham_connect w io conn packet sock host port = (res, conn', packet', io') ->
  res <> 0 ->
  res = -1 /\ state conn' = state conn
  /\ (state conn <> SHAM_CLOSED -> conn' = conn /\ io' = io).
Proof.
  unfold sham_connect. intros H Hres.
  destruct (state_eqb (state conn) SHAM_CLOSED) eqn:Hst; cbn [negb] in H.
  2:{ injection H as <- <- <- <-. repeat split; try reflexivity. }
  apply state_eqb_eq in Hst.
  assert (Hno : forall P : Prop, state conn <> SHAM_CLOSED -> P)
    by (intros P Hn; contradiction).
  set (conn0 := if sockfd conn <? 0 then set_sockfd sock conn else conn) in *.
  assert (H0 : state conn0 = state conn)
    by (subst conn0; destruct (sockfd conn <? 0); reflexivity).
  destruct (sockfd conn0 <? 0); [close_path H|].
  destruct host as [addr|]; [|close_path H].
  destruct (sham_send_packet w io _) as [r1 io1].
  destruct (r1 <? 0); [close_path H|].
  destruct (sham_recv_packet_timeout w io1 _ packet SHAM_RTO_MS)
    as [[[rr conn3] sa] io2] eqn:Hrecv.
  destruct (rr <=? 0); [close_path H|].
  destruct (negb _ || negb _); [close_path H|].
  destruct (sham_send_packet w io2 _) as [r2 io3].
  destruct (r2 <? 0); [close_path H|].
  injection H as <- <- <- <-. contradiction.
Qed.

Lemma connect_failure_witness :
  let run :=
    sham_connect (quiet_world [] 0) io_init (sham_create_connection 5) zero_packet
      3 (Some 2130706433) 8080 in
  fst (fst (fst run)) = -1 /\ state (snd (fst (fst run))) = SHAM_CLOSED.
Proof.
  intros run.
  destruct (connect_failure _ _ _ _ _ _ _ _ _ _ _ (quadruple_eta run))
    as (Hres & Hst & _).
  - vm_compute. discriminate.
  - split; [exact Hres|rewrite Hst; vm_compute; reflexivity].
Defined.

(** X4: [sham_listen] returns 0 exactly when the connection is CLOSED,
    [socket] yields a descriptor and [bind] succeeds, and the connection is
    then in LISTEN state on that descriptor.  Otherwise it returns -1 and
    leaves the state as it was; when it is [bind] that failed, the
    connection keeps the descriptor that was opened. *)
Theorem listen_outcome conn fd bound port :
  let '(res, conn') := sham_listen conn fd bound port in
  (res = 0 <-> state conn = SHAM_CLOSED /\ 0 <= fd /\ bound = true)
  /\ (res = 0 -> state conn' = SHAM_LISTEN /\ sockfd conn' = fd)
  /\ (res <> 0 -> res = -1 /\ state conn' = state conn)
  /\ (res <> 0 -> state conn = SHAM_CLOSED -> 0 <= fd ->
      sockfd conn' = fd /\ bound = false).
Proof.
  unfold sham_listen, sham_socket, sham_bind.
  destruct (state_eqb (state conn) SHAM_CLOSED) eqn:Hst; cbn [negb].
  2:{ assert (state conn <> SHAM_CLOSED)
        by (intros E; rewrite E in Hst; discriminate).
      repeat split; try intros; try tauto; try lia; try contradiction. all: tauto. }
  apply state_eqb_eq in Hst.
  destruct (Z.ltb_spec fd 0) as [Hfd|Hfd]; cbn [sockfd set_sockfd].
  { change (-1 <? 0) with true. cbn iota.
    repeat split; try intros; try lia; try tauto. all: intuition lia. }
  destruct (Z.ltb_spec fd 0) as [|_]; [lia|].
  destruct bound; cbn [Z.ltb Z.compare].
  - repeat split; try intros; try lia; try tauto; try reflexivity; try contradiction.
  - repeat split; try intros; try lia; try tauto; try reflexivity; try discriminate.
    all: intuition discriminate.
Qed.

(** ** Connection set-up: the server *)

Lemma recv_packet_accepted conn packet r rnd res conn' packet' :
  sham_recv_packet conn packet r rnd = (res, conn', packet') ->
  res > 0 ->
  exists dgram from from_len,
    r = RecvDgram dgram from from_len
    /\ conn' = learn_peer conn from from_len
    /\ header packet' = host_order (header_of_bytes (recvfrom_buffer dgram)).
Proof.
  unfold sham_recv_packet. intros H Hres.
  destruct r as [e|dgram from from_len].
  { destruct (_ || _); simplify_eq; lia. }
  destruct (_ <? _); [simplify_eq; lia|].
  destruct (sham_should_drop_packet _ _); [simplify_eq; lia|].
  injection H as _ <- <-. eauto 10.
Qed.

Lemma recv_packet_timeout_accepted w io conn packet timeout_ms res conn' packet' io' :
  sham_recv_packet_timeout w io conn packet timeout_ms = (res, conn', packet', io') ->
  res > 0 ->
  exists dgram from from_len rnd,
    net w (n_net io) = SelectReady (RecvDgram dgram from from_len) rnd
    /\ conn' = learn_peer conn from from_len
    /\ header packet' = host_order (header_of_bytes (recvfrom_buffer dgram)).
Proof.
  unfold sham_recv_packet_timeout. intros H Hres.
  destruct (net w (n_net io)) as [| |r rnd]; simplify_eq; try lia.
  destruct (sham_recv_packet conn packet r rnd) as [[res0 conn0] packet0] eqn:E.
  simplify_eq.
  destruct (recv_packet_accepted _ _ _ _ _ _ _ E Hres)
    as (dgram & from & from_len & -> & -> & Hh).
  eauto 10.
Qed.

Lemma learn_peer_fields conn from from_len :
  sockfd (learn_peer conn from from_len) = sockfd conn
  /\ state (learn_peer conn from from_len) = state conn
  /\ send_seq (learn_peer conn from from_len) = send_seq conn
  /\ recv_seq (learn_peer conn from from_len) = recv_seq conn
  /\ send_base (learn_peer conn from from_len) = send_base conn
  /\ window_count (learn_peer conn from from_len) = window_count conn
  /\ loss_rate (learn_peer conn from from_len) = loss_rate conn.
Proof. unfold learn_peer. destruct (peer_len conn =? 0); repeat split. Qed.

Lemma learn_peer_known conn from from_len :
  peer_len conn <> 0 -> learn_peer conn from from_len = conn.
Proof.
  intros H. unfold learn_peer.
  destruct (Z.eqb_spec (peer_len conn) 0); [contradiction|reflexivity].
Qed.

(** X5: a [sham_accept] that returns a connection was called on a LISTEN
    connection, which stays in LISTEN state, and closed no descriptor.  The
    new connection is ESTABLISHED on the descriptor of the listening
    connection, with an empty send window and [send_base = send_seq]; its
    [send_seq] is one past its initial sequence number and its [recv_seq]
    one past the sequence number of the datagram that was received.  The
    one packet sent is a SYN-ACK without payload that carries the initial
    sequence number, that [recv_seq], and the default receive buffer size
    as window.  The listening connection has noted the sender of the
    datagram (if it had no peer yet). *)
Theorem accept_success w io l packet r rnd fresh c l' closed io' :
  sham_accept w io l packet r rnd fresh = (Some c, l', closed, io') ->
  state l = SHAM_LISTEN /\ state l' = SHAM_LISTEN
  /\ state c = SHAM_ESTABLISHED /\ closed = []
  /\ sockfd c = sockfd l /\ sockfd l' = sockfd l
  /\ send_base c = send_seq c /\ window_count c = 0
  /\ exists isn_rnd dgram from from_len syn_ack,
       fresh = Some isn_rnd /\ r = RecvDgram dgram from from_len
       /\ l' = learn_peer l from from_len
       /\ send_seq c = u32 (sham_generate_isn isn_rnd + 1)
       /\ recv_seq c
          = u32 (ntohl (seq_num (header_of_bytes (recvfrom_buffer dgram))) + 1)
       /\ sent io' = sent io ++ [syn_ack]
       /\ header syn_ack
          = {| seq_num := htonl (sham_generate_isn isn_rnd);
               ack_num := htonl (recv_seq c);
               flags := htons (Z.lor SHAM_SYN SHAM_ACK);
               window_size := htons SHAM_DEFAULT_RECV_BUFFER_SIZE |}
       /\ data_len syn_ack = 0.
Proof.
  unfold sham_accept. intros H.
  destruct (state_eqb (state l) SHAM_LISTEN) eqn:Hst; cbn [negb] in H;
    [|discriminate].
  apply state_eqb_eq in Hst.
  destruct (sockfd l <? 0); [discriminate|].
  destruct (sham_recv_packet l packet r rnd) as [[rr l1] syn] eqn:Hrecv.
  destruct (Z.leb_spec rr 0) as [|Hrr]; [discriminate|].
  destruct (negb (has_flag _ _)); [discriminate|].
  destruct fresh as [isn_rnd|]; [|discriminate].
  destruct (sham_send_packet w io _) as [res io1] eqn:Hsend.
  destruct (Z.ltb_spec res 0) as [|Hres]; [discriminate|].
  destruct (sham_recv_packet_timeout w io1 _ packet SHAM_RTO_MS)
    as [[[rr2 new3] final_ack] io2] eqn:Hrecv2.
  destruct (Z.leb_spec rr2 0) as [|Hrr2]; [discriminate|].
  destruct (negb _ || negb _); [discriminate|].
  injection H as <- <- <- <-.
  destruct (recv_packet_accepted _ _ _ _ _ _ _ Hrecv ltac:(lia))
    as (dgram & from & from_len & -> & -> & Hh).
  destruct (recv_packet_timeout_accepted _ _ _ _ _ _ _ _ _ Hrecv2 ltac:(lia))
    as (dgram2 & from2 & from_len2 & rnd2 & _ & -> & _).
  pose proof (recv_timeout_sent _ _ _ _ _ _ _ _ _ Hrecv2) as Hs.
  match type of Hsend with sham_send_packet _ _ ?p = _ =>
    assert (Hsent : sent io1 = sent io ++ [p]) end.
  { unfold sham_send_packet in Hsend.
    destruct (sendto_ok w (n_send io)); simplify_eq; [reflexivity|lia]. }
  destruct (learn_peer_fields l from from_len) as (Hfd & Hst' & _).
  match goal with |- context [learn_peer ?c from2 from_len2] =>
    set (new2 := c) in *;
    destruct (learn_peer_fields new2 from2 from_len2)
      as (Hfd2 & _ & Hseq2 & Hrecvseq2 & _ & Hcount2 & _) end.
  cbn [state sockfd send_base send_seq window_count recv_seq set_send_base
       set_state].
  rewrite Hfd2, Hseq2, Hcount2, Hst', Hfd.
  assert (Hnew : sockfd new2 = sockfd (learn_peer l from from_len)
                 /\ window_count new2 = 0
                 /\ send_seq new2 = u32 (sham_generate_isn isn_rnd + 1)
                 /\ recv_seq new2 = u32 (seq_num (header syn) + 1))
    by (subst new2; repeat split).
  destruct Hnew as (-> & -> & -> & Hrs).
  repeat split; try reflexivity; try assumption.
  eexists isn_rnd, dgram, from, from_len, _.
  rewrite Hs, Hsent, Hrecvseq2, Hrs.
  repeat split; try reflexivity.
  rewrite Hh. reflexivity.
Qed.

Lemma accept_success_witness :
  let run :=
    sham_accept (answering (arrival (client_ack 7))) io_init listener zero_packet
      (RecvDgram (sham_wire client_syn) loopback 16) 0 (Some 7) in
  let c := default listener (fst (fst (fst run))) in
  fst (fst (fst run)) = Some c
  /\ state c = SHAM_ESTABLISHED /\ sockfd c = sockfd listener
  /\ send_base c = send_seq c /\ snd (fst run) = [].
Proof.
  intros run c.
  assert (Hrun : run = (Some c, snd (fst (fst run)), snd (fst run), snd run))
    by (vm_compute; reflexivity).
  destruct (accept_success _ _ _ _ _ _ _ _ _ _ _ Hrun)
    as (_ & _ & Hst & Hclosed & Hfd & _ & Hbase & _).
  split; [vm_compute; reflexivity|]. auto.
Defined.

(** X6: once the listening connection has a peer address on record
    ([peer_len] is not 0, as after an earlier [sham_accept]), a successful
    [sham_accept] leaves the listening connection as it is and gives the
    new connection the recorded address, whoever sent the SYN. *)
Theorem accept_keeps_recorded_peer w io l packet r rnd fresh c l' closed io' :
  sham_accept w io l packet r rnd fresh = (Some c, l', closed, io') ->
  peer_len l <> 0 ->
  l' = l /\ peer_addr c = peer_addr l /\ peer_len c = peer_len l.
Proof.
  unfold sham_accept. intros H Hpeer.
  destruct (negb (state_eqb (state l) SHAM_LISTEN)); [discriminate|].
  destruct (sockfd l <? 0); [discriminate|].
  destruct (sham_recv_packet l packet r rnd) as [[rr l1] syn] eqn:Hrecv.
  destruct (Z.leb_spec rr 0) as [|Hrr]; [discriminate|].
  destruct (negb (has_flag _ _)); [discriminate|].
  destruct fresh as [isn_rnd|]; [|discriminate].
  destruct (sham_send_packet w io _) as [res io1] eqn:Hsend.
  destruct (Z.ltb_spec res 0) as [|Hres]; [discriminate|].
  destruct (sham_recv_packet_timeout w io1 _ packet SHAM_RTO_MS)
    as [[[rr2 new3] final_ack] io2] eqn:Hrecv2.
  destruct (Z.leb_spec rr2 0) as [|Hrr2]; [discriminate|].
  destruct (negb _ || negb _); [discriminate|].
  injection H as <- <- <- <-.
  destruct (recv_packet_accepted _ _ _ _ _ _ _ Hrecv ltac:(lia))
    as (dgram & from & from_len & -> & -> & Hh).
  destruct (recv_packet_timeout_accepted _ _ _ _ _ _ _ _ _ Hrecv2 ltac:(lia))
    as (dgram2 & from2 & from_len2 & rnd2 & _ & -> & _).
  rewrite (learn_peer_known l) in * by assumption.
  rewrite learn_peer_known by (cbn; assumption).
  repeat split.
Qed.

Lemma accept_keeps_recorded_peer_witness :
  let run :=
    sham_accept (answering (arrival (client_ack 7))) io_init listener_after_accept
      zero_packet (RecvDgram (sham_wire client_syn) other_host 16) 0 (Some 7) in
  let c := default listener (fst (fst (fst run))) in
  fst (fst (fst run)) = Some c
  /\ peer_addr c = peer_addr listener_after_accept
  /\ peer_addr listener_after_accept = loopback.
Proof.
  intros run c.
  assert (Hrun : run = (Some c, snd (fst (fst run)), snd (fst run), snd run))
    by (vm_compute; reflexivity).
  destruct (accept_keeps_recorded_peer _ _ _ _ _ _ _ _ _ _ _ Hrun) as (_ & Haddr & _).
  - vm_compute. discriminate.
  - split; [vm_compute; reflexivity|]. split; [exact Haddr|vm_compute; reflexivity].
Defined.

(** Closes a path of [sham_accept] that frees the new connection. *)
Ltac closing H :=
  injection H as <- <- <-; unfold sham_free_connection;
  cbn [sockfd set_sockfd set_loss_rate set_state set_recv_seq set_peer_len
       set_peer_addr];
  match goal with
  | Hn : sockfd _ = sockfd ?l, Hf : sockfd (learn_peer ?l _ _) = sockfd ?l,
    Hs : state (learn_peer ?l _ _) = state ?l |- _ =>
      rewrite ?Hn, ?Hf, ?Hs; destruct (Z.geb_spec (sockfd l) 0); [auto|lia]
  end.

(** X7: when [sham_accept] fails after it got as far as sending the SYN-ACK
    (the [sendto] failed, the final ACK did not arrive or was not valid),
    and the wait for the final ACK did not end on [EBADF] or [ENOTSOCK], the
    descriptor that [sham_free_connection] closes is the one of the
    listening connection, which the new connection shares.  The listening
    connection is still in LISTEN state on that descriptor. *)
Theorem accept_failure_closes_listener w io l packet r rnd fresh l' closed io' :
  sham_accept w io l packet r rnd fresh = (None, l', closed, io') ->
  n_send io' <> n_send io ->
  (forall e k, net w (n_net io) = SelectReady (RecvFail e) k ->
               e <> EBADF /\ e <> ENOTSOCK) ->
  closed = [sockfd l] /\ 0 <= sockfd l
  /\ sockfd l' = sockfd l /\ state l' = SHAM_LISTEN.
Proof.
  unfold sham_accept. intros H Hsent Hfatal.
  destruct (state_eqb (state l) SHAM_LISTEN) eqn:Hst; cbn [negb] in H;
    [|simplify_eq; contradiction].
  apply state_eqb_eq in Hst.
  destruct (Z.ltb_spec (sockfd l) 0) as [|Hfd]; [simplify_eq; contradiction|].
  destruct (sham_recv_packet l packet r rnd) as [[rr l1] syn] eqn:Hrecv.
  destruct (Z.leb_spec rr 0) as [|Hrr]; [simplify_eq; contradiction|].
  destruct (negb (has_flag _ _)); [simplify_eq; contradiction|].
  destruct fresh as [isn_rnd|]; [|simplify_eq; contradiction].
  destruct (recv_packet_accepted _ _ _ _ _ _ _ Hrecv ltac:(lia))
    as (dgram & from & from_len & -> & -> & Hh).
  destruct (learn_peer_fields l from from_len) as (Hfd1 & Hst1 & _).
  pose (Hnew3 := Hfd1).
  destruct (sham_send_packet w io _) as [res io1] eqn:Hsend.
  assert (Hnet : n_net io1 = n_net io).
  { unfold sham_send_packet in Hsend.
    destruct (sendto_ok w (n_send io)); simplify_eq; reflexivity. }
  destruct (Z.ltb_spec res 0) as [|Hres].
  { closing H. }
  destruct (sham_recv_packet_timeout w io1 _ packet SHAM_RTO_MS)
    as [[[rr2 new3] final_ack] io2] eqn:Hrecv2.
  clear Hnew3. assert (Hnew3 : sockfd new3 = sockfd l).
  { unfold sham_recv_packet_timeout in Hrecv2. rewrite Hnet in Hrecv2.
    destruct (net w (n_net io)) as [| |r2 k] eqn:Hev; simplify_eq;
      try (cbn; exact Hfd1).
    destruct (sham_recv_packet _ packet r2 k) as [[a b] d] eqn:E.
    simplify_eq. unfold sham_recv_packet in E.
    destruct r2 as [e|dg f fl].
    - destruct (Hfatal e k eq_refl) as [He1 He2].
      destruct (Z.eqb_spec e EBADF); [contradiction|].
      destruct (Z.eqb_spec e ENOTSOCK); [contradiction|].
      cbn [orb] in E. simplify_eq. cbn. exact Hfd1.
    - repeat case_match; simplify_eq; cbn; exact Hfd1. }
  destruct (Z.leb_spec rr2 0) as [|Hrr2].
  { closing H. }
  destruct (negb _ || negb _); [|discriminate].
  closing H.
Qed.

Lemma accept_failure_closes_listener_witness :
  let run :=
    sham_accept (answering SelectTimeout) io_init listener zero_packet
      (RecvDgram (sham_wire client_syn) loopback 16) 0 (Some 7) in
  fst (fst (fst run)) = None /\ snd (fst run) = [4]
  /\ state (snd (fst (fst run))) = SHAM_LISTEN.
Proof.
  intros run.
  assert (Hrun : run = (None, snd (fst (fst run)), snd (fst run), snd run))
    by (vm_compute; reflexivity).
  destruct (accept_failure_closes_listener _ _ _ _ _ _ _ _ _ _ Hrun)
    as (Hclosed & _ & _ & Hst).
  - vm_compute. discriminate.
  - intros e k H. vm_compute in H. discriminate.
  - split; [vm_compute; reflexivity|].
    split; [rewrite Hclosed; vm_compute; reflexivity|exact Hst].
Defined.

(** ** The three-way handshake *)

Lemma recv_header_packet conn packet seq ack flgs win :
  0 <= seq < 2 ^ 32 -> 0 <= ack < 2 ^ 32 -> 0 <= flgs < 2 ^ 16 ->
  0 <= win < 2 ^ 16 ->
  lossless conn ->
  forall p,
    header p = {| seq_num := htonl seq; ack_num := htonl ack;
                  flags := htons flgs; window_size := htons win |} ->
    data_len p = 0 ->
    exists bytes,
      sham_recv_packet conn packet (RecvDgram (sham_wire p) loopback 16) 0
        = (SHAM_HEADER_SIZE, learn_peer conn loopback 16,
           {| header := {| seq_num := seq; ack_num := ack; flags := flgs;
                           window_size := win |};
              data := bytes; data_len := 0 |}).
Proof.
  intros Hs Ha Hf Hw Hloss p Hh Hl.
  destruct (recv_packet_wire conn packet p loopback 16 0) as (b & Hrun & _).
  - rewrite Hh. apply wire_header_in_range.
  - rewrite Hl. unfold SHAM_MAX_DATA_SIZE. lia.
  - rewrite Hl. lia.
  - apply lossless_no_drop, Hloss.
  - rewrite Hl, Hh, host_order_wire in Hrun by assumption.
    rewrite Z.add_0_r in Hrun. eauto.
Qed.

Lemma send_packet_answering ev io p :
  sham_send_packet (answering ev) io p
    = (to_int (usize (SHAM_HEADER_SIZE + data_len p)),
       {| n_net := n_net io; n_send := S (n_send io); n_clock := n_clock io;
          sent := sent io ++ [p]; trace := trace io |}).
Proof. reflexivity. Qed.

Lemma send_empty_answering ev io p :
  data_len p = 0 ->
  sham_send_packet (answering ev) io p
    = (12, {| n_net := n_net io; n_send := S (n_send io); n_clock := n_clock io;
              sent := sent io ++ [p]; trace := trace io |}).
Proof. intros H. rewrite send_packet_answering, H. reflexivity. Qed.

(** X8: the three-way handshake.  [sham_connect] on a CLOSED connection and
    [sham_accept] on a LISTEN connection, each fed the packets the other
    one sends (no loss), both succeed: both connections are ESTABLISHED,
    each side's [recv_seq] is the other side's [send_seq] (one past the
    initial sequence number of that side), and [send_base = send_seq] on
    both. *)
Theorem handshake_agrees c0 sock addr port l isn_rnd :
  state c0 = SHAM_CLOSED -> 0 <= send_seq c0 < 2 ^ 32 -> 0 <= sock ->
  lossless c0 ->
  state l = SHAM_LISTEN -> 0 <= sockfd l -> lossless l -> 0 <= isn_rnd ->
  exists c s,
    handshake c0 sock addr port l isn_rnd = (0, c, Some s)
    /\ state c = SHAM_ESTABLISHED /\ state s = SHAM_ESTABLISHED
    /\ send_seq c = u32 (send_seq c0 + 1)
    /\ send_seq s = u32 (sham_generate_isn isn_rnd + 1)
    /\ recv_seq s = send_seq c /\ recv_seq c = send_seq s
    /\ send_base c = send_seq c /\ send_base s = send_seq s.
Proof.
  intros Hst Hseq Hsock Hloss Hlst Hlfd Hlloss Hrnd.
  pose proof (generate_isn_range isn_rnd Hrnd) as Hisn.
  set (conn0 := if sockfd c0 <? 0 then set_sockfd sock c0 else c0).
  assert (Hfd0 : (sockfd conn0 <? 0) = false).
  { subst conn0. destruct (Z.ltb_spec (sockfd c0) 0); cbn [sockfd set_sockfd];
      apply Z.ltb_ge; lia. }
  set (conn1 := set_peer_len 16
                  (set_peer_addr {| sin_addr := addr; sin_port := htons (u16 port) |}
                     conn0)).
  set (syn := sham_create_packet_with_conn conn1 (send_seq conn1) 0 SHAM_SYN None 0).
  assert (Hc1 : send_seq conn1 = send_seq c0 /\ loss_rate conn1 = loss_rate c0
                /\ peer_len conn1 = 16 /\ state conn1 = SHAM_CLOSED).
  { subst conn1 conn0. destruct (sockfd c0 <? 0); repeat split; assumption. }
  destruct Hc1 as (Hc1seq & Hc1loss & Hc1len & Hc1st).
  (* the client's run, whatever arrives *)
  assert (Hclient : forall ev,
    client_side c0 sock addr port ev
      = let io1 := {| n_net := 0; n_send := 1; n_clock := 0; sent := [syn];
                      trace := [] |} in
        let conn2 := set_state SHAM_SYN_SENT conn1 in
        let '(recv_result, conn3, syn_ack, io2) :=
          sham_recv_packet_timeout (answering ev) io1 conn2 zero_packet SHAM_RTO_MS in
        if recv_result <=? 0 then (-1, set_state SHAM_CLOSED conn3, syn_ack, io2)
        else if negb (Z.land (flags (header syn_ack)) (Z.lor SHAM_SYN SHAM_ACK)
                      =? Z.lor SHAM_SYN SHAM_ACK)
                || negb (ack_num (header syn_ack) =? u32 (send_seq conn3 + 1))
        then (-1, set_state SHAM_CLOSED conn3, syn_ack, io2)
        else
          let conn4 := set_send_seq (u32 (send_seq conn3 + 1))
                         (set_recv_seq (u32 (seq_num (header syn_ack) + 1)) conn3) in
          let ack := sham_create_packet_with_conn conn4 (send_seq conn4)
                       (recv_seq conn4) SHAM_ACK None 0 in
          (0, set_send_base (send_seq conn4) (set_state SHAM_ESTABLISHED conn4),
           syn_ack,
           {| n_net := n_net io2; n_send := S (n_send io2); n_clock := n_clock io2;
              sent := sent io2 ++ [ack]; trace := trace io2 |})).
  { intros ev. unfold client_side, sham_connect. rewrite Hst.
    cbn [state_eqb negb]. fold conn0. rewrite Hfd0. fold conn1. fold syn.
    rewrite send_empty_answering by reflexivity.
    change (12 <? 0) with false. cbv iota. cbn zeta.
    destruct (sham_recv_packet_timeout _ _ _ _ _) as [[[rr conn3] sa] io2].
    destruct (rr <=? 0); [reflexivity|].
    destruct (negb _ || negb _); [reflexivity|].
    rewrite send_empty_answering by reflexivity. reflexivity. }
  unfold handshake.
  (* the SYN *)
  assert (Hsyn : nth_sent 0 (snd (client_side c0 sock addr port SelectTimeout)) = syn).
  { rewrite Hclient. reflexivity. }
  rewrite Hsyn.
  assert (Hsynh : header syn
            = {| seq_num := htonl (send_seq c0); ack_num := htonl 0;
                 flags := htons SHAM_SYN;
                 window_size := htons (sham_calculate_advertised_window conn1) |}).
  { subst syn. rewrite create_packet_with_conn_header, Hc1seq. reflexivity. }
  pose proof (advertised_window_range conn1) as Hwin1.
  unfold SHAM_MAX_DATA_SIZE in Hwin1.
  destruct (recv_header_packet l zero_packet (send_seq c0) 0 SHAM_SYN
              (sham_calculate_advertised_window conn1)
              Hseq ltac:(lia) ltac:(unfold SHAM_SYN; lia) ltac:(lia) Hlloss
              syn Hsynh eq_refl) as (b1 & Hrecv_syn).
  destruct (learn_peer_fields l loopback 16) as (Hl1fd & _ & _ & _ & _ & _ & Hl1loss).
  set (l1 := learn_peer l loopback 16) in *.
  set (new1 := set_loss_rate (loss_rate l1)
                 (set_state SHAM_SYN_RECEIVED
                    (set_recv_seq (u32 (send_seq c0 + 1))
                       (set_peer_len (peer_len l1)
                          (set_peer_addr (peer_addr l1)
                             (set_sockfd (sockfd l1)
                                (sham_create_connection isn_rnd))))))).
  set (syn_ack := sham_create_packet_with_conn new1 (send_seq new1) (recv_seq new1)
                    (Z.lor SHAM_SYN SHAM_ACK) None 0).
  set (new2 := set_send_seq (u32 (send_seq new1 + 1)) new1).
  assert (Hserver : forall ev,
    server_side l syn isn_rnd ev
      = let io1 := {| n_net := 0; n_send := 1; n_clock := 0; sent := [syn_ack];
                      trace := [] |} in
        let '(res2, new3, final_ack, io2) :=
          sham_recv_packet_timeout (answering ev) io1 new2 zero_packet SHAM_RTO_MS in
        if res2 <=? 0 then (None, l1, sham_free_connection (Some new3), io2)
        else if negb (has_flag (flags (header final_ack)) SHAM_ACK)
                || negb (ack_num (header final_ack) =? send_seq new3)
        then (None, l1, sham_free_connection (Some new3), io2)
        else (Some (set_send_base (send_seq new3) (set_state SHAM_ESTABLISHED new3)),
              l1, [], io2)).
  { intros ev. unfold server_side, sham_accept. rewrite Hlst.
    cbn [state_eqb negb].
    replace (sockfd l <? 0) with false by (symmetry; apply Z.ltb_ge; lia).
    rewrite Hrecv_syn.
    change (SHAM_HEADER_SIZE <=? 0) with false. cbv iota.
    cbn [header flags seq_num].
    change (negb (has_flag SHAM_SYN SHAM_SYN)) with false. cbv iota.
    fold new1. fold syn_ack.
    rewrite send_empty_answering by reflexivity.
    change (12 <? 0) with false. cbv iota. fold new2. reflexivity. }
  assert (Hsa : nth_sent 0 (snd (server_side l syn isn_rnd SelectTimeout)) = syn_ack).
  { rewrite Hserver. reflexivity. }
  rewrite Hsa.
  assert (Hnew1 : send_seq new1 = sham_generate_isn isn_rnd
                  /\ recv_seq new1 = u32 (send_seq c0 + 1)
                  /\ sham_calculate_advertised_window new1 = 32768)
    by (subst new1; repeat split).
  destruct Hnew1 as (Hn1seq & Hn1recv & Hn1win).
  assert (Hsah : header syn_ack
            = {| seq_num := htonl (sham_generate_isn isn_rnd);
                 ack_num := htonl (u32 (send_seq c0 + 1));
                 flags := htons (Z.lor SHAM_SYN SHAM_ACK);
                 window_size := htons 32768 |}).
  { subst syn_ack. rewrite create_packet_with_conn_header, Hn1seq, Hn1recv, Hn1win.
    reflexivity. }
  pose proof (u32_range (send_seq c0 + 1)) as Hcseq.
  set (conn2 := set_state SHAM_SYN_SENT conn1).
  assert (Hloss2 : lossless conn2).
  { unfold lossless. change (loss_rate conn2) with (loss_rate conn1).
    rewrite Hc1loss. exact Hloss. }
  destruct (recv_header_packet conn2 zero_packet (sham_generate_isn isn_rnd)
              (u32 (send_seq c0 + 1)) (Z.lor SHAM_SYN SHAM_ACK) 32768
              Hisn Hcseq ltac:(change (Z.lor SHAM_SYN SHAM_ACK) with 3; lia) ltac:(lia) Hloss2
              syn_ack Hsah eq_refl) as (b2 & Hrecv_sa).
  rewrite (learn_peer_known conn2) in Hrecv_sa
    by (change (peer_len conn2) with (peer_len conn1); rewrite Hc1len; lia).
  (* the client's run on the SYN-ACK *)
  rewrite Hclient. cbv zeta. fold conn2.
  unfold sham_recv_packet_timeout at 1. cbn [net answering n_net arrival].
  rewrite Hrecv_sa.
  change (SHAM_HEADER_SIZE <=? 0) with false. cbv iota.
  cbn [header flags ack_num seq_num].
  change (Z.land (Z.lor SHAM_SYN SHAM_ACK) (Z.lor SHAM_SYN SHAM_ACK)
          =? Z.lor SHAM_SYN SHAM_ACK) with true.
  replace (send_seq conn2) with (send_seq c0) by (symmetry; exact Hc1seq).
  rewrite Z.eqb_refl. cbn [negb orb]. cbv iota.
  set (conn4 := set_send_seq (u32 (send_seq c0 + 1))
                  (set_recv_seq (u32 (sham_generate_isn isn_rnd + 1)) conn2)).
  set (ack := sham_create_packet_with_conn conn4 (send_seq conn4) (recv_seq conn4)
                SHAM_ACK None 0).
  cbn [net_tick sent n_net n_send n_clock trace app].
  change (nth_sent 1 _) with ack.
  (* the server's run on the ACK *)
  assert (Hackh : header ack
            = {| seq_num := htonl (u32 (send_seq c0 + 1));
                 ack_num := htonl (u32 (sham_generate_isn isn_rnd + 1));
                 flags := htons SHAM_ACK;
                 window_size := htons (sham_calculate_advertised_window conn4) |}).
  { subst ack. rewrite create_packet_with_conn_header. reflexivity. }
  pose proof (advertised_window_range conn4) as Hwin4.
  unfold SHAM_MAX_DATA_SIZE in Hwin4.
  pose proof (u32_range (sham_generate_isn isn_rnd + 1)) as Hsseq.
  assert (Hloss_new : lossless new2).
  { unfold lossless. subst new2 new1. cbn [loss_rate set_send_seq set_loss_rate].
    rewrite Hl1loss. exact Hlloss. }
  destruct (recv_header_packet new2 zero_packet (u32 (send_seq c0 + 1))
              (u32 (sham_generate_isn isn_rnd + 1)) SHAM_ACK
              (sham_calculate_advertised_window conn4)
              Hcseq Hsseq ltac:(unfold SHAM_ACK; lia) ltac:(lia) Hloss_new
              ack Hackh eq_refl) as (b3 & Hrecv_ack).
  rewrite Hserver. cbv zeta.
  unfold sham_recv_packet_timeout at 1. cbn [net answering n_net arrival].
  rewrite Hrecv_ack.
  change (SHAM_HEADER_SIZE <=? 0) with false. cbv iota.
  cbn [header flags ack_num seq_num].
  change (negb (has_flag SHAM_ACK SHAM_ACK)) with false.
  destruct (learn_peer_fields new2 loopback 16)
    as (_ & _ & Hs3seq & Hs3recv & _ & _ & _).
  rewrite Hs3seq.
  replace (send_seq new2) with (u32 (sham_generate_isn isn_rnd + 1))
    by (subst new2; cbn [send_seq set_send_seq]; rewrite Hn1seq; reflexivity).
  rewrite Z.eqb_refl. cbn [negb orb]. cbv iota.
  eexists _, _. split; [reflexivity|].
  cbn [state send_seq recv_seq send_base set_send_base set_state].
  rewrite Hs3seq, Hs3recv.
  subst conn4 new2. cbn [send_seq recv_seq set_send_seq set_recv_seq].
  rewrite Hn1seq, Hn1recv.
  repeat split; reflexivity.
Qed.

Lemma handshake_agrees_witness :
  exists c s,
    handshake (sham_create_connection 5) 3 2130706433 8080 listener 7
      = (0, c, Some s)
    /\ recv_seq s = send_seq c /\ recv_seq c = send_seq s.
Proof.
  destruct (handshake_agrees (sham_create_connection 5) 3 2130706433 8080
              listener 7)
    as (c & s & Hrun & _ & _ & _ & _ & Hrs & Hrc & _); [by_evaluation..|].
  exists c, s. auto.
Defined.

(** ** The flow-control window *)

Lemma chunk_of_bound len bytes_sent :
  0 <= chunk_of len bytes_sent <= SHAM_MAX_DATA_SIZE.
Proof.
  unfold chunk_of, SHAM_MAX_DATA_SIZE.
  pose proof (Z.mod_pos_bound (len - bytes_sent) (2 ^ 64) ltac:(lia)) as H.
  fold (usize (len - bytes_sent)) in H.
  destruct (Z.gtb_spec (usize (len - bytes_sent)) 1024); lia.
Qed.

(** X9: an ACK that advertises what [sham_calculate_advertised_window]
    computes, whatever the state of the receiver, and that acknowledges at
    least [last_byte_sent]: after [sham_process_ack] the peer window is at
    least [SHAM_MAX_DATA_SIZE], nothing counts as in flight, and
    [sham_can_send_data] admits the next chunk of any [sham_send]. *)
Theorem window_floor_admits_segment receiver sender ack len bytes_sent :
  window_size (header ack) = sham_calculate_advertised_window receiver ->
  last_byte_sent sender <= ack_num (header ack) ->
  SHAM_MAX_DATA_SIZE <= peer_window_size (sham_process_ack sender ack)
  /\ bytes_in_flight (sham_process_ack sender ack) = 0
  /\ sham_can_send_data (sham_process_ack sender ack) (chunk_of len bytes_sent)
     = true.
Proof.
  intros Hwin Hack.
  destruct (process_ack_flow sender ack) as (Hpw & Hlbs & Hlba).
  pose proof (advertised_window_range receiver) as Hrange.
  pose proof (chunk_of_bound len bytes_sent) as Hchunk.
  unfold SHAM_MAX_DATA_SIZE in *.
  assert (Hfl : bytes_in_flight (sham_process_ack sender ack) = 0).
  { unfold bytes_in_flight. rewrite Hlbs, Hlba.
    destruct (Z.geb_spec (last_byte_sent sender)
                (Z.max (last_byte_acked sender) (ack_num (header ack))));
      [|reflexivity].
    replace (last_byte_sent sender
             - Z.max (last_byte_acked sender) (ack_num (header ack))) with 0 by lia.
    reflexivity. }
  split; [rewrite Hpw, Hwin; lia|]. split; [exact Hfl|].
  unfold sham_can_send_data, available_window. rewrite Hfl, Hpw, Hwin.
  destruct (Z.gtb_spec (sham_calculate_advertised_window receiver) 0); [|lia].
  rewrite Z.sub_0_r, u32_small by lia. apply Z.leb_le. lia.
Qed.

Lemma window_floor_admits_segment_witness :
  let ack := received_ack 101 6
               (sham_calculate_advertised_window (connected 100 5)) in
  sham_can_send_data (sham_process_ack (connected 5 100) ack) (chunk_of 5000 0)
    = true.
Proof.
  intros ack.
  apply (window_floor_admits_segment (connected 100 5) (connected 5 100) ack
           5000 0); by_evaluation.
Defined.

(** X10: [sham_update_recv_buffer] with a positive count adds it to
    [recv_buffer_used] modulo 2^16; with a negative count it subtracts, but
    stops at 0.  Charging [n] bytes and discharging them again gives the
    connection back as long as the sum stayed below 2^16. *)
Theorem recv_buffer_charge_discharge conn n :
  0 <= recv_buffer_used conn < 2 ^ 16 -> 0 < n <= INT_MAX ->
  recv_buffer_used (sham_update_recv_buffer conn (- n))
    = Z.max 0 (recv_buffer_used conn - n)
  /\ (recv_buffer_used conn + n < 2 ^ 16 ->
      sham_update_recv_buffer (sham_update_recv_buffer conn n) (- n) = conn)
  /\ recv_buffer_used (sham_update_recv_buffer conn n)
     = (recv_buffer_used conn + n) mod 2 ^ 16.
Proof.
  intros Hused Hn. unfold INT_MAX in Hn.
  assert (Hdis : forall c, 0 <= recv_buffer_used c < 2 ^ 16 ->
            sham_update_recv_buffer c (- n)
              = set_recv_buffer_used (Z.max 0 (recv_buffer_used c - n)) c).
  { intros c Hc. unfold sham_update_recv_buffer.
    destruct (Z.gtb_spec (- n) 0); [lia|].
    destruct (Z.ltb_spec (- n) 0); [|lia].
    rewrite Z.opp_involutive, to_int_small by (unfold INT_MAX; lia).
    destruct (Z.geb_spec (recv_buffer_used c) n).
    - rewrite u16_small by lia. f_equal. lia.
    - f_equal. lia. }
  assert (Hch : sham_update_recv_buffer conn n
                = set_recv_buffer_used (u16 (recv_buffer_used conn + n)) conn).
  { unfold sham_update_recv_buffer. destruct (Z.gtb_spec n 0); [reflexivity|lia]. }
  split; [rewrite Hdis by exact Hused; reflexivity|].
  split; [|rewrite Hch; reflexivity].
  intros Hfit. rewrite Hch, Hdis by (cbn; apply u16_range).
  cbn [recv_buffer_used set_recv_buffer_used].
  rewrite u16_small by lia.
  replace (Z.max 0 (recv_buffer_used conn + n - n)) with (recv_buffer_used conn) by lia.
  destruct conn; reflexivity.
Qed.

Lemma recv_buffer_charge_discharge_witness :
  sham_update_recv_buffer (sham_update_recv_buffer (connected 5 100) 100) (- 100)
    = connected 5 100.
Proof.
  destruct (recv_buffer_charge_discharge (connected 5 100) 100) as (_ & H & _);
    [by_evaluation..|].
  apply H. by_evaluation.
Defined.

(** ** Staging *)

Lemma buffer_ooo_loop_full n i conn p :
  (forall k, i <= k < i + Z.of_nat n -> valid (ooo_buffer conn !!! ix k) = true) ->
  buffer_ooo_loop n i conn p = (-1, conn).
Proof.
  revert i. induction n as [|n IH]; intros i Hall; cbn [buffer_ooo_loop].
  - reflexivity.
  - rewrite Hall by lia. apply IH. intros k Hk. apply Hall. lia.
Qed.

Lemma buffer_ooo_loop_free n i j conn p :
  i <= j < i + Z.of_nat n ->
  valid (ooo_buffer conn !!! ix j) = false ->
  (forall k, i <= k < j -> valid (ooo_buffer conn !!! ix k) = true) ->
  buffer_ooo_loop n i conn p
    = (0, set_ooo_buffer
            (<[ix j := {| oe_packet := p; valid := true |}]> (ooo_buffer conn))
            conn).
Proof.
  revert i. induction n as [|n IH]; intros i Hj Hfree Hbefore;
    cbn [buffer_ooo_loop]; [lia|].
  destruct (Z.eq_dec i j) as [->|Hne].
  - rewrite Hfree. reflexivity.
  - rewrite Hbefore by lia. apply IH; [lia|exact Hfree|].
    intros k Hk. apply Hbefore. lia.
Qed.

(** X11: [sham_buffer_ooo_packet] stores the segment in the first slot that is
    not valid and returns 0, touching no other slot; when all
    [SHAM_WINDOW_SIZE] slots are valid it returns -1 and changes
    nothing. *)
Theorem buffer_ooo_first_free conn packet :
  length (ooo_buffer conn) = ix SHAM_WINDOW_SIZE ->
  (Forall (fun e => valid e = true) (ooo_buffer conn) ->
   sham_buffer_ooo_packet conn packet = (-1, conn))
  /\ (forall i,
        (i < ix SHAM_WINDOW_SIZE)%nat ->
        valid (ooo_buffer conn !!! i) = false ->
        (forall j, (j < i)%nat -> valid (ooo_buffer conn !!! j) = true) ->
        sham_buffer_ooo_packet conn packet
          = (0, set_ooo_buffer
                  (<[i := {| oe_packet := packet; valid := true |}]>
                     (ooo_buffer conn)) conn)).
Proof.
  intros Hlen. unfold sham_buffer_ooo_packet. split.
  - intros Hall. apply buffer_ooo_loop_full. intros k Hk.
    rewrite Forall_forall in Hall. apply Hall.
    apply list_elem_of_lookup_total_2. rewrite Hlen.
    unfold ix, SHAM_WINDOW_SIZE in *. lia.
  - intros i Hi Hfree Hbefore.
    rewrite (buffer_ooo_loop_free _ 0 (Z.of_nat i)).
    + unfold ix. rewrite Nat2Z.id. reflexivity.
    + unfold ix, SHAM_WINDOW_SIZE in *. lia.
    + unfold ix. rewrite Nat2Z.id. exact Hfree.
    + intros k Hk. apply Hbefore. unfold ix. lia.
Qed.

Lemma buffer_ooo_first_free_witness :
  let p := received_segment 105 6 [9] in
  sham_buffer_ooo_packet (connected 5 100) p
    = (0, set_ooo_buffer
            (<[0%nat := {| oe_packet := p; valid := true |}]>
               (ooo_buffer (connected 5 100)))
            (connected 5 100)).
Proof.
  intros p.
  destruct (buffer_ooo_first_free (connected 5 100) p) as [_ H]; [reflexivity|].
  apply (H 0%nat).
  - unfold ix, SHAM_WINDOW_SIZE. lia.
  - reflexivity.
  - intros j Hj. lia.
Defined.

(** ** The caller's buffer *)

Lemma mem_write_frame buf pos src n len :
  0 <= pos -> 0 <= n -> pos + n <= len -> len <= Z.of_nat (length buf) ->
  n <= Z.of_nat (length src) ->
  length (mem_write buf pos src n) = length buf
  /\ drop (ix len) (mem_write buf pos src n) = drop (ix len) buf
  /\ take (ix pos) (mem_write buf pos src n) = take (ix pos) buf.
Proof.
  intros Hpos Hn Hfit Hlen Hsrc. unfold mem_write, memcpy, ix.
  assert (Ht : length (take (Z.to_nat pos) buf) = Z.to_nat pos)
    by (rewrite length_take; lia).
  assert (Hs : length (take (Z.to_nat n) src) = Z.to_nat n)
    by (rewrite length_take; lia).
  split; [|split].
  - rewrite !length_app, Ht, Hs, !length_drop. lia.
  - rewrite drop_app_ge by lia. rewrite Ht.
    rewrite drop_app_ge by lia. rewrite Hs.
    rewrite !drop_drop. f_equal. lia.
  - rewrite take_app_le by lia. rewrite take_take. f_equal. lia.
Qed.

Lemma lookup_total_well_formed (l : list sham_ooo_entry) i :
  Forall (fun e => packet_well_formed (oe_packet e)) l ->
  packet_well_formed (oe_packet (l !!! i)).
Proof.
  intros Hall. rewrite list_lookup_total_alt.
  destruct (l !! i) as [e|] eqn:He; simpl.
  - exact (Forall_lookup_1 _ _ _ _ Hall He).
  - unfold packet_well_formed. by_evaluation.
Qed.

Lemma min_copy_bound a room :
  0 <= a -> 0 <= room -> 0 <= min_copy a room <= room /\ min_copy a room <= a.
Proof. intros. unfold min_copy. destruct (Z.gtb_spec a room); lia. Qed.

Lemma deliver_loop_within fuel conn buffer pos size conn' buffer' pos' :
  deliver_loop fuel conn buffer pos size = (conn', buffer', pos') ->
  staging_well_formed conn ->
  0 <= pos <= size -> size < 2 ^ 64 -> size <= Z.of_nat (length buffer) ->
  staging_well_formed conn'
  /\ pos <= pos' <= size
  /\ length buffer' = length buffer
  /\ drop (ix size) buffer' = drop (ix size) buffer
  /\ take (ix pos) buffer' = take (ix pos) buffer.
Proof.
  revert conn buffer pos.
  induction fuel as [|fuel IH]; intros conn buffer pos H Hwf Hpos Hsize Hlen;
    cbn [deliver_loop] in H.
  { injection H as <- <- <-. repeat split; try assumption; lia. }
  destruct (ooo_scan (ix SHAM_WINDOW_SIZE) 0 conn) as [i|].
  2:{ injection H as <- <- <-. repeat split; try assumption; lia. }
  unfold deliver_slot in H.
  set (p := oe_packet (ooo_buffer conn !!! ix i)) in *.
  destruct (lookup_total_well_formed (ooo_buffer conn) (ix i) Hwf) as [Hdl Hdata].
  fold p in Hdl, Hdata. unfold SHAM_MAX_DATA_SIZE in *.
  rewrite (usize_small (size - pos)) in H by lia.
  destruct (min_copy_bound (data_len p) (size - pos) ltac:(lia) ltac:(lia))
    as [Hc1 Hc2].
  set (copy_len := min_copy (data_len p) (size - pos)) in *.
  rewrite (usize_small (pos + copy_len)) in H by lia.
  destruct (mem_write_frame buffer pos (data p) copy_len size)
    as (Hl1 & Hd1 & Ht1); try lia.
  { rewrite Hdata. unfold ix. lia. }
  apply IH in H; try lia.
  - destruct H as (Hwf' & Hp' & Hl' & Hd' & Ht').
    split; [exact Hwf'|]. split; [lia|].
    split; [rewrite Hl'; exact Hl1|]. split; [rewrite Hd'; exact Hd1|].
    transitivity (take (ix pos) (take (ix (pos + copy_len)) buffer')).
    { rewrite take_take. f_equal. unfold ix. lia. }
    rewrite Ht', take_take, <- Ht1. f_equal. unfold ix. lia.
  - unfold staging_well_formed in *. cbn [ooo_buffer set_ooo_buffer set_recv_seq].
    apply Forall_insert; [exact Hwf|]. cbn [oe_packet].
    unfold packet_well_formed, SHAM_MAX_DATA_SIZE. split; [lia|exact Hdata].
Qed.

Lemma recv_packet_well_formed conn packet r rnd res conn' packet' :
  sham_recv_packet conn packet r rnd = (res, conn', packet') ->
  length (data packet) = ix SHAM_MAX_DATA_SIZE ->
  length (data packet') = ix SHAM_MAX_DATA_SIZE
  /\ (res > 0 -> packet_well_formed packet').
Proof.
  unfold sham_recv_packet. intros H Hlen.
  destruct r as [e|dgram from from_len].
  { destruct (_ || _); simplify_eq; (split; [exact Hlen|lia]). }
  pose proof (length_recvfrom_buffer dgram) as Hbuf.
  set (buffer := recvfrom_buffer dgram) in *.
  unfold SHAM_MAX_PACKET_SIZE, SHAM_HEADER_SIZE, SHAM_MAX_DATA_SIZE in *.
  destruct (Z.ltb_spec (Z.of_nat (length buffer)) 12);
    [simplify_eq; (split; [exact Hlen|lia])|].
  destruct (sham_should_drop_packet _ _);
    [simplify_eq; (split; [exact Hlen|lia])|].
  injection H as _ _ <-. unfold packet_well_formed. cbn [data data_len].
  assert (Hd : length (if Z.of_nat (length buffer) - 12 >? 0
                       then memcpy (data packet) (drop (ix 12) buffer)
                              (Z.of_nat (length buffer) - 12)
                       else data packet) = ix 1024).
  { destruct (Z.gtb_spec (Z.of_nat (length buffer) - 12) 0); [|exact Hlen].
    unfold memcpy. rewrite length_app, length_take, length_drop, length_drop, Hlen.
    unfold ix. lia. }
  split; [exact Hd|]. intros _. unfold SHAM_MAX_DATA_SIZE.
  split; [lia|exact Hd].
Qed.

Lemma recv_packet_timeout_well_formed w io conn packet timeout_ms
    res conn' packet' io' :
  sham_recv_packet_timeout w io conn packet timeout_ms = (res, conn', packet', io') ->
  length (data packet) = ix SHAM_MAX_DATA_SIZE ->
  length (data packet') = ix SHAM_MAX_DATA_SIZE
  /\ (res > 0 -> packet_well_formed packet')
  /\ ooo_buffer conn' = ooo_buffer conn.
Proof.
  unfold sham_recv_packet_timeout. intros H Hlen.
  destruct (net w (n_net io)) as [| |r rnd]; simplify_eq;
    try (split; [exact Hlen|split; [lia|reflexivity]]).
  destruct (sham_recv_packet conn packet r rnd) as [[res0 conn0] packet0] eqn:E.
  simplify_eq.
  destruct (recv_packet_well_formed _ _ _ _ _ _ _ E Hlen) as [H1 H2].
  split; [exact H1|]. split; [exact H2|].
  destruct (recv_packet_conn _ _ _ _ _ _ _ E) as [->|[->|(from & from_len & ->)]];
    reflexivity.
Qed.

Lemma update_recv_buffer_staging conn n :
  staging_well_formed conn -> staging_well_formed (sham_update_recv_buffer conn n).
Proof. unfold staging_well_formed. rewrite update_recv_buffer_ooo. auto. Qed.

Lemma buffer_ooo_staging conn packet :
  staging_well_formed conn -> packet_well_formed packet ->
  staging_well_formed (snd (sham_buffer_ooo_packet conn packet)).
Proof.
  intros Hwf Hp.
  destruct (buffer_ooo_loop_result (ix SHAM_WINDOW_SIZE) 0 conn packet)
    as [H|[j H]]; unfold sham_buffer_ooo_packet; rewrite H; [exact Hwf|].
  unfold staging_well_formed. cbn [ooo_buffer set_ooo_buffer].
  apply Forall_insert; [exact Hwf|exact Hp].
Qed.

Lemma place_segment_within conn packet buffer bytes_received len
    conn' buffer' received' :
  place_segment conn packet buffer bytes_received len = (conn', buffer', received') ->
  staging_well_formed conn -> packet_well_formed packet ->
  0 <= bytes_received <= len -> len < 2 ^ 64 ->
  len <= Z.of_nat (length buffer) ->
  staging_well_formed conn'
  /\ bytes_received <= received' <= len
  /\ length buffer' = length buffer
  /\ drop (ix len) buffer' = drop (ix len) buffer
  /\ take (ix bytes_received) buffer' = take (ix bytes_received) buffer.
Proof.
  unfold place_segment. intros H Hwf [Hdl Hdata] Hpos Hlen Hbuf.
  unfold SHAM_MAX_DATA_SIZE in *.
  destruct (seq_num (header packet) =? recv_seq conn).
  - rewrite (usize_small (len - bytes_received)) in H by lia.
    destruct (min_copy_bound (data_len packet) (len - bytes_received)
                ltac:(lia) ltac:(lia)) as [Hc1 Hc2].
    set (copy_len := min_copy (data_len packet) (len - bytes_received)) in *.
    rewrite (usize_small (bytes_received + copy_len)) in H by lia.
    destruct (mem_write_frame buffer bytes_received (data packet) copy_len len)
      as (Hl1 & Hd1 & Ht1); try lia.
    { rewrite Hdata. unfold ix. lia. }
    destruct (sham_deliver_ooo_packets _ _ _ _) as [[conn3 buffer3] received3] eqn:E.
    injection H as <- <- <-.
    unfold sham_deliver_ooo_packets in E.
    apply deliver_loop_within in E; try lia.
    + destruct E as (Hwf' & Hp' & Hl' & Hd' & Ht').
      split; [apply update_recv_buffer_staging; exact Hwf'|].
      split; [lia|]. split; [rewrite Hl'; exact Hl1|].
      split; [rewrite Hd'; exact Hd1|].
      transitivity (take (ix bytes_received)
                      (take (ix (bytes_received + copy_len)) buffer3)).
      { rewrite take_take. f_equal. unfold ix. lia. }
      rewrite Ht', take_take, <- Ht1. f_equal. unfold ix. lia.
    + apply update_recv_buffer_staging. exact Hwf.
  - destruct (seq_num (header packet) >? recv_seq conn); injection H as <- <- <-.
    + split; [apply buffer_ooo_staging;
               [exact Hwf
               |unfold packet_well_formed, SHAM_MAX_DATA_SIZE;
                split; [lia|exact Hdata]]|].
      repeat split; try reflexivity; lia.
    + repeat split; try assumption; try reflexivity; lia.
Qed.

Lemma recv_loop_within w fuel io conn packet buffer bytes_received len
    res conn' buffer' io' :
  recv_loop w fuel io conn packet buffer bytes_received len
    = (res, conn', buffer', io') ->
  staging_well_formed conn -> length (data packet) = ix SHAM_MAX_DATA_SIZE ->
  0 <= bytes_received <= len -> len <= INT_MAX ->
  len <= Z.of_nat (length buffer) ->
  length buffer' = length buffer
  /\ drop (ix len) buffer' = drop (ix len) buffer
  /\ take (ix bytes_received) buffer' = take (ix bytes_received) buffer
  /\ (forall n, res = Some n -> bytes_received <= n <= len)
  /\ staging_well_formed conn'.
Proof.
  revert io conn packet buffer bytes_received.
  induction fuel as [|fuel IH];
    intros io conn packet buffer bytes_received H Hwf Hdata Hpos Hlen Hbuf;
    cbn [recv_loop] in H.
  { injection H as <- <- <- <-.
    repeat split; try reflexivity; try assumption; discriminate. }
  unfold INT_MAX in *.
  assert (Hret : to_int bytes_received = bytes_received)
    by (apply to_int_small; unfold INT_MAX; lia).
  destruct (bytes_received <? len).
  2:{ injection H as <- <- <- <-.
      repeat split; try reflexivity; try assumption; simplify_eq; lia. }
  destruct (sham_recv_packet_timeout w io conn packet SHAM_RTO_MS)
    as [[[result conn1] packet1] io1] eqn:Hrecv.
  destruct (recv_packet_timeout_well_formed _ _ _ _ _ _ _ _ _ Hrecv Hdata)
    as (Hdata1 & Hwf1 & Hooo1).
  assert (Hst1 : staging_well_formed conn1)
    by (unfold staging_well_formed; rewrite Hooo1; exact Hwf).
  destruct (Z.leb_spec result 0) as [|Hres].
  { injection H as <- <- <- <-.
    repeat split; try reflexivity; try assumption; simplify_eq; lia. }
  destruct (data_len packet1 >? 0).
  2:{ apply IH in H; assumption. }
  unfold recv_segment in H.
  destruct (place_segment conn1 packet1 buffer bytes_received len)
    as [[conn2 buffer2] received2] eqn:Hplace.
  destruct (sham_send_packet w io1 _) as [r io2].
  apply place_segment_within in Hplace; try assumption; try lia.
  2:{ apply Hwf1. lia. }
  destruct Hplace as (Hwf2 & Hr2 & Hl2 & Hd2 & Ht2).
  apply IH in H; try assumption; try lia.
  destruct H as (Hl' & Hd' & Ht' & Hn' & Hwf').
  split; [rewrite Hl'; exact Hl2|]. split; [rewrite Hd'; exact Hd2|].
  split; [|split; [|exact Hwf']].
  - transitivity (take (ix bytes_received) (take (ix received2) buffer')).
    { rewrite take_take. f_equal. unfold ix. lia. }
    rewrite Ht', take_take, <- Ht2. f_equal. unfold ix. lia.
  - intros n Hn. specialize (Hn' n Hn). lia.
Qed.

Lemma recv_within w fuel io conn packet buffer len res conn' buffer' io' :
  sham_recv w fuel io conn packet buffer len = (res, conn', buffer', io') ->
  0 <= len <= INT_MAX -> len <= Z.of_nat (length buffer) ->
  packet_well_formed packet -> staging_well_formed conn ->
  length buffer' = length buffer
  /\ drop (ix len) buffer' = drop (ix len) buffer
  /\ (forall n, res = Some n -> -1 <= n <= len)
  /\ (forall n, res = Some n -> state conn = SHAM_ESTABLISHED -> 0 <= n)
  /\ staging_well_formed conn'.
Proof.
  unfold sham_recv. intros H Hlen Hbuf [_ Hdata] Hwf.
  destruct (state_eqb (state conn) SHAM_ESTABLISHED) eqn:Hst.
  - apply recv_loop_within in H; try assumption; try lia.
    destruct H as (Hl & Hd & _ & Hn & Hwf').
    split; [exact Hl|]. split; [exact Hd|].
    split; [|split; [|exact Hwf']];
      intros n Hres; try intros _; specialize (Hn n Hres); lia.
  - injection H as <- <- <- <-. split; [reflexivity|]. split; [reflexivity|].
    split; [|split; [|exact Hwf]]; intros n Hn; [simplify_eq; lia|].
    intros Hest. rewrite Hest in Hst. discriminate.
Qed.

(** X12: [sham_recv] with a buffer that holds at least [len] bytes writes
    only to its first [len] bytes: the buffer keeps its length and
    everything from offset [len] on.  A result is between -1 and [len], and
    not negative on an ESTABLISHED connection.  The staged segments stay
    well formed.  (The packet variable and the staged segments are well
    formed to begin with, [len] is within the range of [int].) *)
Theorem recv_stays_within_buffer w fuel io conn packet buffer len
    res conn' buffer' io' :
  sham_recv w fuel io conn packet buffer len = (res, conn', buffer', io') ->
  0 <= len <= INT_MAX -> len <= Z.of_nat (length buffer) ->
  packet_well_formed packet -> staging_well_formed conn ->
  length buffer' = length buffer
  /\ drop (ix len) buffer' = drop (ix len) buffer
  /\ (forall n, res = Some n -> -1 <= n <= len)
  /\ (forall n, res = Some n -> state conn = SHAM_ESTABLISHED -> 0 <= n)
  /\ staging_well_formed conn'.
Proof. apply recv_within. Qed.

Lemma recv_stays_within_buffer_witness :
  let w := quiet_world [arrival (data_segment 101 6 [1; 2; 3; 4])] 0 in
  let run := sham_recv w 2 io_init (connected 5 100) zero_packet [0; 0; 8; 9] 2 in
  length (snd (fst run)) = 4%nat /\ drop 2 (snd (fst run)) = [8; 9].
Proof.
  intros w run.
  destruct (recv_stays_within_buffer _ _ _ _ _ _ _ _ _ _ _ (quadruple_eta run))
    as (Hlen & Hdrop & _); [settle..|].
  split; [exact Hlen|exact Hdrop].
Defined.

(** ** Reassembly *)

Lemma ooo_scan_none n i conn :
  (forall k, i <= k < i + Z.of_nat n -> valid (ooo_buffer conn !!! ix k) = false) ->
  ooo_scan n i conn = None.
Proof.
  revert i. induction n as [|n IH]; intros i Hall; cbn [ooo_scan]; [reflexivity|].
  rewrite Hall by lia. cbn [andb]. apply IH. intros k Hk. apply Hall. lia.
Qed.

Lemma lookup_total_invalid (l : list sham_ooo_entry) i :
  Forall (fun e => valid e = false) l -> valid (l !!! i) = false.
Proof.
  intros Hall. rewrite list_lookup_total_alt.
  destruct (l !! i) as [e|] eqn:He; simpl.
  - exact (Forall_lookup_1 _ _ _ _ Hall He).
  - reflexivity.
Qed.

Lemma mem_write_start buffer src n :
  mem_write buffer 0 src n = take (ix n) src ++ drop (ix n) buffer.
Proof. unfold mem_write, memcpy. change (ix 0) with 0%nat. rewrite take_0, drop_0. reflexivity. Qed.

Lemma mem_write_append front rest pos src n :
  Z.of_nat (length front) = pos ->
  mem_write (front ++ rest) pos src n
    = front ++ take (ix n) src ++ drop (ix n) rest.
Proof.
  intros Hpos. unfold mem_write, memcpy.
  assert (Hix : ix pos = length front) by (unfold ix; lia).
  rewrite Hix, take_app_length, drop_app_length. reflexivity.
Qed.

(** What [sham_recv_packet] makes of a data segment of the peer. *)
Lemma recv_peer_segment conn packet peer seq ack bytes from from_len rnd :
  0 <= seq < 2 ^ 32 -> 0 <= ack < 2 ^ 32 ->
  0 < Z.of_nat (length bytes) <= SHAM_MAX_DATA_SIZE ->
  lossless conn -> length (data packet) = ix SHAM_MAX_DATA_SIZE ->
  exists q,
    sham_recv_packet conn packet
      (RecvDgram (sham_wire (peer_segment peer seq ack bytes)) from from_len) rnd
      = (SHAM_HEADER_SIZE + Z.of_nat (length bytes),
         learn_peer conn from from_len, q)
    /\ seq_num (header q) = seq /\ ack_num (header q) = ack
    /\ data_len q = Z.of_nat (length bytes)
    /\ take (length bytes) (data q) = bytes
    /\ length (data q) = ix SHAM_MAX_DATA_SIZE.
Proof.
  intros Hs Ha Hlen Hloss Hpk. unfold peer_segment.
  set (len := Z.of_nat (length bytes)) in *.
  set (p := sham_create_packet_with_conn peer seq ack 0 (Some bytes) len).
  destruct (create_packet_with_conn_payload peer seq ack 0 (Some bytes) len)
    as [Hd Hl].
  destruct (create_packet_payload seq ack 0 bytes len Hlen) as [Hl' Hd'].
  fold p in Hd, Hl. rewrite Hl' in Hl. rewrite Hd' in Hd.
  pose proof (create_packet_with_conn_header peer seq ack 0 (Some bytes) len) as Hh.
  fold p in Hh.
  assert (Hplen : length (data p) = ix SHAM_MAX_DATA_SIZE).
  { rewrite Hd. unfold memcpy. rewrite length_app, length_take, length_drop.
    rewrite length_zero_data. unfold ix, SHAM_MAX_DATA_SIZE in *. lia. }
  destruct (recv_packet_wire conn packet p from from_len rnd)
    as (b & Hrun & Htake & Hblen).
  - rewrite Hh. apply wire_header_in_range.
  - lia.
  - rewrite Hl, Hplen. unfold ix, SHAM_MAX_DATA_SIZE in *. lia.
  - apply lossless_no_drop, Hloss.
  - rewrite Hl in Hrun, Htake, Hblen. eexists. split; [exact Hrun|].
    cbn [header data_len data]. rewrite Hh.
    pose proof (advertised_window_range peer). unfold SHAM_MAX_DATA_SIZE in *.
    rewrite host_order_wire by lia. cbn [seq_num ack_num].
    split; [reflexivity|]. split; [reflexivity|]. split; [reflexivity|].
    split.
    + replace (length bytes) with (ix len) by (unfold ix; lia).
      rewrite Htake, Hd. unfold memcpy.
      rewrite take_app_le by (rewrite length_take; unfold ix; lia).
      rewrite take_take, Nat.min_id. apply take_ge. unfold ix. lia.
    + rewrite Hblen; [exact Hpk|]. rewrite Hpk. unfold ix. lia.
Qed.

Lemma place_segment_ahead conn q buffer bytes_received len :
  staging_empty conn -> seq_num (header q) > recv_seq conn ->
  place_segment conn q buffer bytes_received len
    = (set_ooo_buffer (<[0%nat := {| oe_packet := q; valid := true |}]>
                         (ooo_buffer conn)) conn,
       buffer, bytes_received).
Proof.
  intros [Hlen Hall] Hseq. unfold place_segment.
  destruct (Z.eqb_spec (seq_num (header q)) (recv_seq conn)); [lia|].
  destruct (Z.gtb_spec (seq_num (header q)) (recv_seq conn)); [|lia].
  unfold sham_buffer_ooo_packet.
  rewrite (buffer_ooo_loop_free _ 0 0); [reflexivity| | |].
  - unfold ix, SHAM_WINDOW_SIZE. lia.
  - apply lookup_total_invalid, Hall.
  - intros k Hk. lia.
Qed.

Lemma staged_head_scan conn ob q :
  length ob = ix SHAM_WINDOW_SIZE -> Forall (fun e => valid e = false) ob ->
  ooo_buffer conn = <[0%nat := {| oe_packet := q; valid := true |}]> ob ->
  seq_num (header q) = recv_seq conn ->
  ooo_scan (ix SHAM_WINDOW_SIZE) 0 conn = Some 0.
Proof.
  intros Hlen Hall Hob Hseq.
  change (ix SHAM_WINDOW_SIZE) with (S 9). cbn [ooo_scan].
  rewrite Hob. change (ix 0) with 0%nat.
  rewrite list_lookup_total_insert_eq by (rewrite Hlen; unfold ix, SHAM_WINDOW_SIZE; lia).
  cbn [valid oe_packet andb]. rewrite Hseq, Z.eqb_refl. reflexivity.
Qed.

Lemma cleared_head_scan conn ob e :
  Forall (fun e => valid e = false) ob -> valid e = false ->
  ooo_buffer conn = <[0%nat := e]> ob ->
  ooo_scan (ix SHAM_WINDOW_SIZE) 0 conn = None.
Proof.
  intros Hall He Hob. apply ooo_scan_none. intros k Hk. rewrite Hob.
  apply lookup_total_invalid. apply Forall_insert; assumption.
Qed.

Lemma empty_scan conn :
  staging_empty conn -> ooo_scan (ix SHAM_WINDOW_SIZE) 0 conn = None.
Proof.
  intros [_ Hall]. apply ooo_scan_none. intros k Hk.
  apply lookup_total_invalid, Hall.
Qed.

(** With nothing staged, [sham_deliver_ooo_packets] changes nothing. *)
Lemma deliver_nothing conn buffer pos size :
  staging_empty conn ->
  sham_deliver_ooo_packets conn buffer pos size = (conn, buffer, pos).
Proof.
  intros Hempty. unfold sham_deliver_ooo_packets. cbn [deliver_loop].
  rewrite (empty_scan conn Hempty). reflexivity.
Qed.

(** A segment staged in the first slot that starts at [recv_seq] is
    delivered, and the scan that follows finds nothing more. *)
Lemma deliver_staged_head conn ob q buffer pos size :
  length ob = ix SHAM_WINDOW_SIZE -> Forall (fun e => valid e = false) ob ->
  ooo_buffer conn = <[0%nat := {| oe_packet := q; valid := true |}]> ob ->
  seq_num (header q) = recv_seq conn ->
  0 <= pos -> 0 < data_len q -> pos + data_len q <= size -> size < 2 ^ 64 ->
  sham_deliver_ooo_packets conn buffer pos size
    = (set_ooo_buffer (<[0%nat := {| oe_packet := q; valid := false |}]> ob)
         (set_recv_seq (u32 (recv_seq conn + data_len q)) conn),
       mem_write buffer pos (data q) (data_len q), pos + data_len q).
Proof.
  intros Hlen Hall Hob Hseq Hpos Hq Hfit Hsize.
  unfold sham_deliver_ooo_packets.
  assert (Hstep : forall fuel c b p,
            deliver_loop (S fuel) c b p size
              = match ooo_scan (ix SHAM_WINDOW_SIZE) 0 c with
                | None => (c, b, p)
                | Some i =>
                    let '(c', b', p') := deliver_slot i c b p size in
                    deliver_loop fuel c' b' p' size
                end) by reflexivity.
  rewrite Hstep, (staged_head_scan conn ob q Hlen Hall Hob Hseq).
  unfold deliver_slot. rewrite Hob. change (ix 0) with 0%nat.
  rewrite list_lookup_total_insert_eq
    by (rewrite Hlen; unfold ix, SHAM_WINDOW_SIZE; lia).
  cbn [oe_packet].
  assert (Hcopy : min_copy (data_len q) (usize (size - pos)) = data_len q).
  { unfold min_copy. rewrite usize_small by lia.
    destruct (Z.gtb_spec (data_len q) (size - pos)); lia. }
  rewrite Hcopy, (usize_small (pos + data_len q)) by lia.
  rewrite list_insert_insert_eq.
  change (ix SHAM_WINDOW_SIZE) with (S 9). rewrite Hstep.
  change (S 9) with (ix SHAM_WINDOW_SIZE).
  rewrite (cleared_head_scan _ ob {| oe_packet := q; valid := false |});
    [reflexivity|exact Hall|reflexivity|reflexivity].
Qed.

(** One round of [sham_recv] in which a data segment of the peer arrives:
    the segment is placed and acknowledged. *)
Lemma recv_loop_data_step w fuel io conn packet buffer bytes_received len
    peer seq ackno bytes :
  net w (n_net io) = arrival (peer_segment peer seq ackno bytes) ->
  sendto_ok w (n_send io) = true ->
  lossless conn -> peer_len conn <> 0 ->
  length (data packet) = ix SHAM_MAX_DATA_SIZE ->
  0 <= seq < 2 ^ 32 -> 0 <= ackno < 2 ^ 32 ->
  0 < Z.of_nat (length bytes) <= SHAM_MAX_DATA_SIZE ->
  bytes_received < len ->
  exists q,
    seq_num (header q) = seq /\ data_len q = Z.of_nat (length bytes)
    /\ take (length bytes) (data q) = bytes
    /\ length (data q) = ix SHAM_MAX_DATA_SIZE
    /\ recv_loop w (S fuel) io conn packet buffer bytes_received len
       = let '(conn', buffer', received') :=
           place_segment conn q buffer bytes_received len in
         recv_loop w fuel
           {| n_net := S (n_net io); n_send := S (n_send io);
              n_clock := n_clock io;
              sent := sent io
                      ++ [sham_create_packet_with_conn conn' (send_seq conn')
                            (recv_seq conn') SHAM_ACK None 0];
              trace := trace io |}
           conn' q buffer' received' len.
Proof.
  intros Hnet Hsend Hloss Hpeer Hpk Hseq Hack Hlen Hmore.
  destruct (recv_peer_segment conn packet peer seq ackno bytes loopback 16 0)
    as (q & Hrun & Hqseq & _ & Hqlen & Hqdata & Hqpk); try assumption.
  exists q. split; [exact Hqseq|]. split; [exact Hqlen|]. split; [exact Hqdata|].
  split; [exact Hqpk|].
  cbn [recv_loop].
  replace (bytes_received <? len) with true by (symmetry; apply Z.ltb_lt; lia).
  unfold sham_recv_packet_timeout. rewrite Hnet. unfold arrival.
  rewrite Hrun, (learn_peer_known conn) by exact Hpeer.
  replace (SHAM_HEADER_SIZE + Z.of_nat (length bytes) <=? 0) with false
    by (symmetry; apply Z.leb_gt; unfold SHAM_HEADER_SIZE; lia).
  rewrite Hqlen.
  replace (Z.of_nat (length bytes) >? 0) with true by (symmetry; apply Z.gtb_lt; lia).
  unfold recv_segment.
  destruct (place_segment conn q buffer bytes_received len)
    as [[conn' buffer'] received'].
  unfold sham_send_packet. cbn [net_tick n_net n_send n_clock sent trace].
  rewrite Hsend. reflexivity.
Qed.

Lemma recv_loop_full w fuel io conn packet buffer len :
  recv_loop w (S fuel) io conn packet buffer len len
    = (Some (to_int len), conn, buffer, io).
Proof. cbn [recv_loop]. rewrite Z.ltb_irrefl. reflexivity. Qed.

(** X13: two segments that arrive in the reverse order.  On an ESTABLISHED
    connection with nothing staged, when the segment that is ahead arrives
    first and the one at [recv_seq] second (no loss, sequence numbers not
    wrapping), [sham_recv] for the sum of their lengths returns that sum
    with the bytes in stream order at the start of the buffer, the rest of
    the buffer unchanged.  [recv_seq] has advanced past both segments,
    nothing is staged any more, [recv_buffer_used] is what it was, and two
    ACKs went out: the first repeats the old [recv_seq], the second
    acknowledges both segments. *)
Theorem recv_reassembles_reordered w fuel io conn peer packet buffer A B ackno :
  let a := Z.of_nat (length A) in
  let b := Z.of_nat (length B) in
  state conn = SHAM_ESTABLISHED -> lossless conn -> peer_len conn <> 0 ->
  staging_empty conn ->
  0 <= recv_seq conn -> recv_seq conn + a + b < 2 ^ 32 ->
  0 < a <= SHAM_MAX_DATA_SIZE -> 0 < b <= SHAM_MAX_DATA_SIZE ->
  0 <= ackno < 2 ^ 32 ->
  0 <= recv_buffer_used conn -> recv_buffer_used conn + a < 2 ^ 16 ->
  packet_well_formed packet -> a + b <= Z.of_nat (length buffer) ->
  net w (n_net io) = arrival (peer_segment peer (recv_seq conn + a) ackno B) ->
  net w (S (n_net io)) = arrival (peer_segment peer (recv_seq conn) ackno A) ->
  (forall i, sendto_ok w i = true) ->
  exists conn' io' ack1 ack2,
    sham_recv w (S (S (S fuel))) io conn packet buffer (a + b)
      = (Some (a + b), conn', A ++ B ++ drop (ix (a + b)) buffer, io')
    /\ recv_seq conn' = recv_seq conn + a + b
    /\ staging_empty conn'
    /\ recv_buffer_used conn' = recv_buffer_used conn
    /\ sent io' = sent io ++ [ack1; ack2]
    /\ sent_ack ack1 = recv_seq conn
    /\ sent_ack ack2 = recv_seq conn + a + b.
Proof.
  intros a b Hst Hloss Hpeer Hempty Hseq Hend Ha Hb Hack Hused Hfit [_ Hpk] Hbuf
    Hnet1 Hnet2 Hsend.
  pose proof Hempty as [Hoblen Hoball].
  set (s := recv_seq conn) in *.
  unfold sham_recv. rewrite Hst. cbn [state_eqb].
  (* first arrival: the segment that is ahead *)
  destruct (recv_loop_data_step w (S (S fuel)) io conn packet buffer 0 (a + b)
              peer (s + a) ackno B) as (q1 & Hq1seq & Hq1len & Hq1data & Hq1pk & Hstep1);
    try assumption; try (unfold SHAM_MAX_DATA_SIZE in *; lia); [apply Hsend|].
  rewrite Hstep1. clear Hstep1.
  rewrite place_segment_ahead by (try assumption; rewrite Hq1seq; fold s; lia).
  set (ob := ooo_buffer conn) in *.
  set (conn2 := set_ooo_buffer (<[0%nat := {| oe_packet := q1; valid := true |}]> ob)
                  conn).
  set (ack1 := sham_create_packet_with_conn conn2 (send_seq conn2) (recv_seq conn2)
                 SHAM_ACK None 0).
  set (io2 := {| n_net := S (n_net io); n_send := S (n_send io);
                 n_clock := n_clock io; sent := sent io ++ [ack1];
                 trace := trace io |}).
  (* second arrival: the segment that is in order *)
  destruct (recv_loop_data_step w (S fuel) io2 conn2 q1 buffer 0 (a + b)
              peer s ackno A) as (q2 & Hq2seq & Hq2len & Hq2data & Hq2pk & Hstep2);
    try assumption; try (unfold SHAM_MAX_DATA_SIZE in *; lia); [apply Hsend|].
  rewrite Hstep2. clear Hstep2.
  fold a in Hq2len. fold b in Hq1len. unfold SHAM_MAX_DATA_SIZE in Ha, Hb.
  unfold place_segment.
  change (recv_seq conn2) with s. rewrite Hq2seq, Z.eqb_refl, Hq2len.
  rewrite Z.sub_0_r, (usize_small (a + b)) by lia.
  assert (Hcopy : min_copy a (a + b) = a)
    by (unfold min_copy; destruct (Z.gtb_spec a (a + b)); lia).
  rewrite Hcopy, Z.add_0_l, (usize_small a), (u32_small (s + a)),
    (to_int_small a) by (unfold INT_MAX; lia).
  set (conn3 := sham_update_recv_buffer (set_recv_seq (s + a) conn2) a).
  assert (Hc3 : ooo_buffer conn3
                = <[0%nat := {| oe_packet := q1; valid := true |}]> ob
                /\ recv_seq conn3 = s + a).
  { subst conn3. rewrite update_recv_buffer_ooo, update_recv_buffer_recv_seq.
    split; reflexivity. }
  destruct Hc3 as [Hc3ob Hc3seq].
  rewrite (deliver_staged_head conn3 ob q1) by (try assumption; lia).
  rewrite Hq1len, Hc3seq, (u32_small (s + a + b)) by lia.
  set (conn4 := set_ooo_buffer _ (set_recv_seq (s + a + b) conn3)).
  set (conn5 := sham_update_recv_buffer conn4 (to_int (- a))).
  set (ack2 := sham_create_packet_with_conn conn5 (send_seq conn5) (recv_seq conn5)
                 SHAM_ACK None 0).
  (* the buffer is full: the call returns *)
  rewrite recv_loop_full.
  rewrite (to_int_small (a + b)) by (unfold INT_MAX; lia).
  (* the bytes *)
  assert (Hbytes : mem_write (mem_write buffer 0 (data q2) a) a (data q1) b
                   = A ++ B ++ drop (ix (a + b)) buffer).
  { rewrite mem_write_start.
    replace (ix a) with (length A) by (unfold ix, a; lia).
    rewrite Hq2data.
    rewrite mem_write_append by reflexivity.
    replace (ix b) with (length B) by (unfold ix, b; lia).
    rewrite Hq1data, drop_drop. do 3 f_equal. unfold ix, a, b. lia. }
  rewrite Hbytes.
  assert (Hc5 : recv_seq conn5 = s + a + b
                /\ ooo_buffer conn5
                   = <[0%nat := {| oe_packet := q1; valid := false |}]> ob
                /\ recv_buffer_used conn5 = recv_buffer_used conn).
  { subst conn5. rewrite update_recv_buffer_recv_seq, update_recv_buffer_ooo.
    split; [reflexivity|]. split; [reflexivity|].
    rewrite to_int_small by (unfold INT_MAX; lia).
    assert (Hu4 : recv_buffer_used conn4 = recv_buffer_used conn + a).
    { subst conn4 conn3. cbn [recv_buffer_used set_ooo_buffer set_recv_seq].
      unfold sham_update_recv_buffer.
      destruct (Z.gtb_spec a 0); [|lia].
      cbn [recv_buffer_used set_recv_buffer_used]. apply u16_small.
      change (recv_buffer_used (set_recv_seq (s + a) conn2))
        with (recv_buffer_used conn). lia. }
    unfold sham_update_recv_buffer.
    destruct (Z.gtb_spec (- a) 0); [lia|].
    destruct (Z.ltb_spec (- a) 0); [|lia].
    rewrite Z.opp_involutive, to_int_small by (unfold INT_MAX; lia).
    rewrite Hu4.
    destruct (Z.geb_spec (recv_buffer_used conn + a) a); [|lia].
    cbn [recv_buffer_used set_recv_buffer_used]. rewrite u16_small by lia. lia. }
  destruct Hc5 as (Hc5seq & Hc5ob & Hc5used).
  eexists conn5, _, ack1, ack2. split; [reflexivity|].
  split; [exact Hc5seq|]. split.
  { split.
    - rewrite Hc5ob, length_insert. exact Hoblen.
    - rewrite Hc5ob. apply Forall_insert; [exact Hoball|reflexivity]. }
  split; [exact Hc5used|].
  cbn [sent io2]. rewrite <- app_assoc. split; [reflexivity|].
  unfold sent_ack. subst ack1 ack2. rewrite !create_packet_with_conn_header.
  cbn [ack_num]. rewrite !ntohl_htonl.
  - split; [reflexivity|exact Hc5seq].
  - rewrite Hc5seq. lia.
  - change (recv_seq conn2) with s. lia.
Qed.

Lemma recv_reassembles_reordered_witness :
  let peer := connected 100 5 in
  let w := quiet_world [arrival (peer_segment peer 103 6 [3; 4; 5]);
                        arrival (peer_segment peer 101 6 [1; 2])] 0 in
  exists conn' io',
    sham_recv w 3 io_init (connected 5 100) zero_packet [0; 0; 0; 0; 0; 9] 5
      = (Some 5, conn', [1; 2; 3; 4; 5; 9], io')
    /\ recv_seq conn' = 106.
Proof.
  intros peer w.
  destruct (recv_reassembles_reordered w 0 io_init (connected 5 100) peer
              zero_packet [0; 0; 0; 0; 0; 9] [1; 2] [3; 4; 5] 6)
    as (conn' & io' & _ & _ & Hrun & Hseq & _); [settle..|].
  exists conn', io'. split; [exact Hrun|exact Hseq].
Defined.

(** ** Properties that every step of [sham_send] keeps *)

(** A data packet that [sendto] takes is on the wire; one it refuses is
    not. *)
Lemma send_packet_wire w io p res io' :
  sham_send_packet w io p = (res, io') ->
  0 <= data_len p <= SHAM_MAX_DATA_SIZE ->
  (res < 0 /\ sent io' = sent io) \/ (0 <= res /\ sent io' = sent io ++ [p]).
Proof.
  unfold sham_send_packet, SHAM_MAX_DATA_SIZE. intros H Hlen.
  destruct (sendto_ok w (n_send io)); injection H as <- <-; cbn [sent].
  - right. split; [|reflexivity]. unfold SHAM_HEADER_SIZE.
    rewrite usize_small, to_int_small by (unfold INT_MAX; lia). lia.
  - left. split; [lia|reflexivity].
Qed.

Lemma handle_timeout_loop_sent_frame w now n i conn io res conn' io' :
  handle_timeout_loop w now n i conn io = (res, conn', io') ->
  exists new, sent io' = sent io ++ new.
Proof.
  revert i conn io. induction n as [|n IH]; intros i conn io H;
    cbn [handle_timeout_loop] in H.
  - injection H as _ _ <-. exists []. rewrite app_nil_r. reflexivity.
  - destruct (acked _); [exact (IH _ _ _ H)|].
    destruct (gettimeofday w io) as [t io1] eqn:Hclock.
    assert (Hs1 : sent io1 = sent io)
      by (unfold gettimeofday in Hclock; simplify_eq; reflexivity).
    rewrite <- Hs1.
    destruct (sham_is_timeout _ t SHAM_RTO_MS); [|exact (IH _ _ _ H)].
    destruct (retries _ >=? SHAM_MAX_RETRIES).
    { injection H as _ _ <-. exists []. rewrite app_nil_r. reflexivity. }
    destruct (sham_send_packet w io1 _) as [r io2] eqn:Hsend.
    destruct (send_packet_sent _ _ _ _ _ Hsend) as [Hs2|Hs2].
    + destruct (r <? 0).
      * injection H as _ _ <-. exists []. rewrite app_nil_r. exact Hs2.
      * rewrite <- Hs2. exact (IH _ _ _ H).
    + destruct (r <? 0).
      * injection H as _ _ <-. eexists. exact Hs2.
      * destruct (IH _ _ _ H) as [new Hnew]. rewrite Hnew, Hs2, <- app_assoc.
        eexists. reflexivity.
Qed.

Section SendInvariant.

(** [P conn snt n]: the connection, the packets sent so far and the number
    of bytes handed over so far. *)
Variable P : sham_connection -> list sham_packet -> Z -> Prop.
Variable src : option (list Z).
Variable len : Z.

Hypothesis P_peer : forall conn snt n,
  P conn snt n ->
  P (set_sockfd (-1) conn) snt n
  /\ forall from from_len,
       P (set_peer_len from_len (set_peer_addr from conn)) snt n.
Hypothesis P_ack : forall conn packet snt n,
  P conn snt n -> P (sham_process_ack conn packet) snt n.
Hypothesis P_timeout : forall w io conn res conn' io' n,
  sham_handle_timeout w io conn = (res, conn', io') ->
  P conn (sent io) n -> P conn' (sent io') n.
Hypothesis P_emit : forall conn snt n now,
  P conn snt n -> 0 <= n < len -> window_count conn < SHAM_WINDOW_SIZE ->
  let k := chunk_of len n in
  let p := sham_create_packet_with_conn conn (send_seq conn) (recv_seq conn) 0
             (ptr_add src n) k in
  let conn' := record_sent conn p k now in
  P conn' (snt ++ [p]) (n + k).

Lemma recv_timeout_invariant w io conn packet timeout_ms res conn' packet' io' n :
  sham_recv_packet_timeout w io conn packet timeout_ms
    = (res, conn', packet', io') ->
  P conn (sent io) n -> P conn' (sent io') n.
Proof.
  intros H HP. rewrite (recv_timeout_sent _ _ _ _ _ _ _ _ _ H).
  destruct (P_peer _ _ _ HP) as [H1 H2].
  destruct (recv_packet_timeout_conn _ _ _ _ _ _ _ _ _ H)
    as [->|[->|(from & from_len & ->)]]; auto.
Qed.

Lemma on_ack_invariant conn packet snt n :
  P conn snt n -> P (on_ack conn packet) snt n.
Proof. intros HP. unfold on_ack. destruct (has_flag _ _); auto. Qed.

Lemma drain_acks_invariant w fuel io conn packet left conn' packet' io' n :
  drain_acks w fuel io conn packet = (left, conn', packet', io') ->
  P conn (sent io) n -> P conn' (sent io') n.
Proof.
  revert io conn packet. induction fuel as [|fuel IH]; intros io conn packet H HP;
    cbn [drain_acks] in H.
  - simplify_eq. exact HP.
  - destruct (sham_recv_packet_timeout w io conn packet 0)
      as [[[res conn1] packet1] io1] eqn:Hrecv.
    pose proof (recv_timeout_invariant _ _ _ _ _ _ _ _ _ _ Hrecv HP) as HP1.
    destruct (res >? 0).
    + apply (IH _ _ _ H). apply on_ack_invariant. exact HP1.
    + simplify_eq. exact HP1.
Qed.

Lemma wait_round_invariant w io conn packet conn' packet' io' n :
  wait_round w io conn packet = (conn', packet', io') ->
  P conn (sent io) n -> P conn' (sent io') n.
Proof.
  unfold wait_round. intros H HP.
  destruct (sham_recv_packet_timeout w io conn packet SHAM_RTO_MS)
    as [[[res conn1] packet1] io1] eqn:Hrecv.
  pose proof (recv_timeout_invariant _ _ _ _ _ _ _ _ _ _ Hrecv HP) as HP1.
  destruct (sham_handle_timeout w io1 _) as [[r conn3] io3] eqn:Hto.
  simplify_eq. cbn [sent observe].
  apply (P_timeout _ _ _ _ _ _ _ Hto).
  destruct (res >? 0); [apply on_ack_invariant|]; exact HP1.
Qed.

Lemma wait_acked_invariant w fuel io conn packet bytes_sent res conn' io' n :
  wait_acked w fuel io conn packet bytes_sent = (res, conn', io') ->
  P conn (sent io) n -> P conn' (sent io') n.
Proof.
  revert io conn packet. induction fuel as [|fuel IH];
    intros io conn packet H HP; cbn [wait_acked] in H.
  - simplify_eq. exact HP.
  - destruct (window_count conn >? 0); [|simplify_eq; exact HP].
    destruct (wait_round w io conn packet) as [[conn1 packet1] io1] eqn:Hround.
    apply (IH _ _ _ H). exact (wait_round_invariant _ _ _ _ _ _ _ _ Hround HP).
Qed.

Lemma send_loop_invariant w fuel io conn packet bytes_sent res conn' io' :
  send_loop w fuel io conn packet src len bytes_sent = (res, conn', io') ->
  P conn (sent io) bytes_sent -> 0 <= bytes_sent <= len -> len < 2 ^ 64 ->
  exists n, bytes_sent <= n <= len /\ P conn' (sent io') n
            /\ (forall r, res = Some r -> 0 <= r -> n = len).
Proof.
  revert io conn packet bytes_sent.
  induction fuel as [|fuel IH]; intros io conn packet bytes_sent H HP Hb Hlen;
    cbn [send_loop] in H.
  { simplify_eq. exists bytes_sent. split; [lia|]. split; [exact HP|discriminate]. }
  destruct (Z.ltb_spec bytes_sent len) as [Hmore|Hdone].
  2:{ exists bytes_sent. split; [lia|].
      split; [exact (wait_acked_invariant _ _ _ _ _ _ _ _ _ _ H HP)|]. intros; lia. }
  destruct (drain_acks w fuel io conn packet) as [[[left conn1] packet1] io1]
    eqn:Hdrain.
  pose proof (drain_acks_invariant _ _ _ _ _ _ _ _ _ _ Hdrain HP) as HP1.
  destruct left; cbn [negb] in H.
  2:{ simplify_eq. exists bytes_sent. split; [lia|]. split; [exact HP1|discriminate]. }
  destruct (sham_handle_timeout w io1 conn1) as [[r conn2] io2] eqn:Hto.
  assert (HP2 : P conn2 (sent (observe (Polled conn2) io2)) bytes_sent).
  { cbn [sent observe]. exact (P_timeout _ _ _ _ _ _ _ Hto HP1). }
  destruct (Z.geb_spec (window_count conn2) SHAM_WINDOW_SIZE) as [Hfull|Hroom].
  { exact (IH _ _ _ _ H HP2 Hb Hlen). }
  destruct (negb (sham_can_send_data conn2 (chunk_of len bytes_sent))).
  { exact (IH _ _ _ _ H HP2 Hb Hlen). }
  destruct (sham_send_packet w _ _) as [sres io3] eqn:Hsend.
  destruct (send_packet_wire _ _ _ _ _ Hsend
              (create_packet_len_range conn2 (send_seq conn2) (recv_seq conn2) 0
                 (ptr_add src bytes_sent) (chunk_of len bytes_sent)))
    as [[Hneg Hs3]|[Hpos Hs3]].
  { destruct (Z.ltb_spec sres 0); [|lia].
    simplify_eq. exists bytes_sent. split; [lia|].
    split; [rewrite Hs3; exact HP2|]. intros r' Hr' Hpos. simplify_eq. lia. }
  destruct (Z.ltb_spec sres 0); [lia|].
  destruct (gettimeofday w io3) as [now io4] eqn:Hclock.
  assert (Hs4 : sent io4 = sent io3)
    by (unfold gettimeofday in Hclock; simplify_eq; reflexivity).
  destruct (chunk_of_range len bytes_sent ltac:(lia) Hlen) as [Hchunk Hfit].
  rewrite usize_small in H by lia.
  apply IH in H; try lia.
  - destruct H as (n & Hn & HPn & Hres). exists n. split; [lia|]. auto.
  - cbn [sent observe]. rewrite Hs4, Hs3.
    apply P_emit; [exact HP2|lia|exact Hroom].
Qed.

End SendInvariant.

(** ** Retransmission count *)








(** ** The segments of [sham_send] *)

Lemma stream_end_app seq s1 s2 :
  stream_end seq (s1 ++ s2) = stream_end (stream_end seq s1) s2.
Proof.
  revert seq. induction s1 as [|[q d] s1 IH]; intros seq; [reflexivity|].
  cbn [app stream_end]. apply IH.
Qed.

Lemma contiguous_from_app seq s1 s2 :
  contiguous_from seq s1 -> contiguous_from (stream_end seq s1) s2 ->
  contiguous_from seq (s1 ++ s2).
Proof.
  revert seq. induction s1 as [|[q d] s1 IH]; intros seq H1 H2; [exact H2|].
  cbn [app contiguous_from stream_end] in *.
  destruct H1 as (Hq & Hd & Hrest). auto.
Qed.

Lemma newest_entry_record_sent conn p k now :
  window_tail_ok conn -> window_count conn < SHAM_WINDOW_SIZE ->
  newest_entry (record_sent conn p k now) = new_entry p now.
Proof.
  intros (Hws & Hcnt & Hlen & _) Hroom.
  unfold newest_entry, slot, record_sent. cbn.
  replace (window_count conn + 1 - 1) with (window_count conn) by lia.
  apply list_lookup_total_insert_eq. rewrite Hlen. unfold ix.
  pose proof (ring_index_range (window_start conn + window_count conn)
                ltac:(lia)) as Hr.
  unfold SHAM_WINDOW_SIZE in *. lia.
Qed.

Lemma process_ack_send_seq conn packet :
  send_seq (sham_process_ack conn packet) = send_seq conn.
Proof.
  unfold sham_process_ack. rewrite ack_walk_send_seq.
  destruct (_ >? _); reflexivity.
Qed.

Lemma u32_add_l x y : u32 (u32 x + y) = u32 (x + y).
Proof. unfold u32. apply Zplus_mod_idemp_l. Qed.

(** *** The entries in flight, step by step *)

Lemma in_flight_fields conn conn' :
  send_window conn' = send_window conn -> window_start conn' = window_start conn ->
  window_count conn' = window_count conn ->
  in_flight conn' = in_flight conn.
Proof.
  intros Hsw Hws Hcnt. unfold in_flight. rewrite Hcnt.
  apply in_flight_from_ext; assumption.
Qed.

Lemma ack_walk_in_flight n ack conn :
  ring_ok conn ->
  exists gone, in_flight conn = gone ++ in_flight (ack_walk n ack conn).
Proof.
  revert conn. induction n as [|n IH]; intros conn Hring; cbn [ack_walk].
  - exists []. reflexivity.
  - destruct (Z.gtb_spec (window_count conn) 0) as [Hpos|]; [|exists []; reflexivity].
    destruct (packet_end _ <=? ack); [|exists []; reflexivity].
    destruct (IH (acknowledge_head conn)) as [gone Hgone].
    { apply acknowledge_head_ring_ok; [exact Hring|lia]. }
    rewrite (in_flight_nonempty conn Hring ltac:(lia)), Hgone.
    exists (send_window conn !!! ix (window_start conn) :: gone). reflexivity.
Qed.

Lemma process_ack_in_flight conn packet :
  ring_ok conn ->
  exists gone, in_flight conn = gone ++ in_flight (sham_process_ack conn packet).
Proof.
  intros Hring. unfold sham_process_ack.
  set (conn1 := set_peer_window_size _ conn).
  set (conn2 := if _ >? last_byte_acked conn1 then _ else conn1).
  assert (H2 : in_flight conn2 = in_flight conn /\ ring_ok conn2).
  { subst conn2. destruct (_ >? _); subst conn1; split;
      try exact Hring; apply in_flight_fields; reflexivity. }
  destruct H2 as [Hin Hring2]. rewrite <- Hin.
  replace (window_count conn2) with (window_count conn)
    by (subst conn2; destruct (_ >? _); reflexivity).
  destruct (ack_walk_in_flight (ix (window_count conn))
              (ack_num (header packet)) conn2 Hring2) as [gone Hgone].
  exists gone. exact Hgone.
Qed.

Lemma same_packets_in_flight_from n i conn sw' :
  same_packets (send_window conn) sw' ->
  map we_packet (in_flight_from n i (set_send_window sw' conn))
    = map we_packet (in_flight_from n i conn).
Proof.
  intros Hsame. revert i. induction n as [|n IH]; intros i;
    cbn [in_flight_from map]; [reflexivity|].
  rewrite IH. f_equal. unfold slot. cbn [send_window window_start set_send_window].
  apply same_packets_lookup, Hsame.
Qed.

(** What [sham_handle_timeout] sends are packets of entries in flight. *)
Lemma handle_timeout_loop_in_flight w now n i conn io res conn' io' :
  handle_timeout_loop w now n i conn io = (res, conn', io') ->
  exists new,
    sent io' = sent io ++ new
    /\ Forall (fun p => In p (map we_packet (in_flight_from n i conn))) new.
Proof.
  revert i conn io. induction n as [|n IH]; intros i conn io H;
    cbn [handle_timeout_loop] in H.
  - injection H as _ _ <-. exists []. rewrite app_nil_r. split; [reflexivity|constructor].
  - assert (Hlater : forall io1 c,
              sent io1 = sent io ->
              map we_packet (in_flight_from n (i + 1) c)
              = map we_packet (in_flight_from n (i + 1) conn) ->
              handle_timeout_loop w now n (i + 1) c io1 = (res, conn', io') ->
              exists new,
                sent io' = sent io ++ new
                /\ Forall (fun p => In p (map we_packet (in_flight_from (S n) i conn)))
                     new).
    { intros io1 c Hs Hc E. destruct (IH _ _ _ E) as (new & Hnew & Hin).
      exists new. rewrite Hnew, Hs. split; [reflexivity|].
      eapply Forall_impl; [exact Hin|]. intros p Hp. rewrite Hc in Hp.
      cbn [in_flight_from map]. right. exact Hp. }
    assert (Hnone : forall io1, sent io1 = sent io ->
              exists new,
                sent io1 = sent io ++ new
                /\ Forall (fun p => In p (map we_packet (in_flight_from (S n) i conn)))
                     new).
    { intros io1 Hs. exists []. rewrite app_nil_r. split; [exact Hs|constructor]. }
    destruct (acked _); [exact (Hlater _ _ eq_refl eq_refl H)|].
    destruct (gettimeofday w io) as [t io1] eqn:Hclock.
    assert (Hs1 : sent io1 = sent io)
      by (unfold gettimeofday in Hclock; simplify_eq; reflexivity).
    destruct (sham_is_timeout _ t SHAM_RTO_MS); [|exact (Hlater _ _ Hs1 eq_refl H)].
    destruct (retries _ >=? SHAM_MAX_RETRIES).
    { injection H as _ _ <-. exact (Hnone _ Hs1). }
    destruct (sham_send_packet w io1 _) as [r io2] eqn:Hsend.
    assert (Hhere : In (we_packet (slot conn i))
                      (map we_packet (in_flight_from (S n) i conn)))
      by (cbn [in_flight_from map]; left; reflexivity).
    destruct (send_packet_sent _ _ _ _ _ Hsend) as [Hs2|Hs2].
    + destruct (r <? 0).
      * injection H as _ _ <-. apply Hnone. congruence.
      * refine (Hlater io2 _ (eq_trans Hs2 Hs1) _ H).
        apply same_packets_in_flight_from, same_packets_insert. reflexivity.
    + destruct (r <? 0).
      * injection H as _ _ <-. eexists. rewrite Hs2, Hs1.
        split; [reflexivity|]. constructor; [exact Hhere|constructor].
      * destruct (IH _ _ _ H) as (new & Hnew & Hin).
        eexists. rewrite Hnew, Hs2, Hs1, <- app_assoc. split; [reflexivity|].
        constructor; [exact Hhere|].
        eapply Forall_impl; [exact Hin|]. intros p Hp.
        rewrite same_packets_in_flight_from in Hp
          by (apply same_packets_insert; reflexivity).
        cbn [in_flight_from map]. right. exact Hp.
Qed.

Lemma handle_timeout_in_flight w io conn res conn' io' :
  sham_handle_timeout w io conn = (res, conn', io') ->
  map we_packet (in_flight conn') = map we_packet (in_flight conn)
  /\ exists new,
       sent io' = sent io ++ new
       /\ Forall (fun p => In p (map we_packet (in_flight conn))) new.
Proof.
  intros H. split.
  - destruct (handle_timeout_frame _ _ _ _ _ _ H) as (sw' & -> & Hsame).
    apply same_packets_in_flight_from, Hsame.
  - unfold sham_handle_timeout in H.
    destruct (gettimeofday w io) as [now io0] eqn:Hclock.
    assert (Hs0 : sent io0 = sent io)
      by (unfold gettimeofday in Hclock; simplify_eq; reflexivity).
    destruct (handle_timeout_loop_in_flight _ _ _ _ _ _ _ _ _ H) as (new & Hnew & Hin).
    exists new. rewrite Hnew, Hs0. split; [reflexivity|exact Hin].
Qed.

Lemma record_sent_in_flight conn p k now :
  ring_ok conn -> window_count conn < SHAM_WINDOW_SIZE ->
  in_flight (record_sent conn p k now) = in_flight conn ++ [new_entry p now].
Proof.
  intros Hring Hroom. pose proof Hring as (_ & Hcnt & _). unfold in_flight.
  change (window_count (record_sent conn p k now)) with (window_count conn + 1).
  replace (ix (window_count conn + 1)) with (S (ix (window_count conn)))
    by (unfold ix; lia).
  apply in_flight_from_push; [exact Hring|exact Hroom|lia|unfold ix; lia].
Qed.

(** *** The segments of [sham_send] on the wire *)

Lemma window_tail_ring_ok conn : window_tail_ok conn -> ring_ok conn.
Proof. intros (H1 & H2 & H3 & _). exact (conj H1 (conj H2 H3)). Qed.

Lemma wire_sent_fields bytes snt0 old seq0 conn conn' snt n :
  send_window conn' = send_window conn -> window_start conn' = window_start conn ->
  window_count conn' = window_count conn -> send_seq conn' = send_seq conn ->
  send_base conn' = send_base conn ->
  wire_sent bytes snt0 old seq0 conn snt n ->
  wire_sent bytes snt0 old seq0 conn' snt n.
Proof.
  intros Hsw Hws Hcnt Hseq Hbase. unfold wire_sent, window_tail_ok, slot.
  rewrite (in_flight_fields conn conn' Hsw Hws Hcnt), Hsw, Hws, Hcnt, Hseq, Hbase.
  auto.
Qed.

Lemma send_loop_wire w fuel io conn packet bytes len res conn' io' :
  send_loop w fuel io conn packet (Some bytes) len 0 = (res, conn', io') ->
  window_tail_ok conn -> 0 <= len < 2 ^ 64 -> len <= Z.of_nat (length bytes) ->
  exists n, 0 <= n <= len
    /\ wire_sent bytes (sent io) (map we_packet (in_flight conn)) (send_seq conn)
         conn' (sent io') n
    /\ (forall r, res = Some r -> 0 <= r -> n = len).
Proof.
  intros H Hok Hlen Hbytes.
  set (snt0 := sent io).
  set (old := map we_packet (in_flight conn)).
  set (seq0 := send_seq conn).
  assert (Hseq0 : 0 <= seq0 < 2 ^ 32) by (destruct Hok as (_ & _ & _ & ? & _); assumption).
  eapply (send_loop_invariant (wire_sent bytes snt0 old seq0) (Some bytes) len);
    cycle 4; [exact H| | lia | lia | | | | ].
  - (* at the start *)
    split; [exact Hok|]. split; [subst seq0; rewrite Z.add_0_r, u32_small; auto|].
    exists [], []. rewrite app_nil_r. change (ix 0) with 0%nat. rewrite take_0.
    split; [reflexivity|]. split; [constructor|]. split; [constructor|].
    split; [|repeat split].
    apply List.Forall_forall. intros p Hp. right. exact Hp.
  - (* peer fields *)
    intros c snt n HP.
    split; [|intros from from_len]; revert HP; apply wire_sent_fields; reflexivity.
  - (* ACKs *)
    intros c p snt n (Htail & Hs & firsts & out & Hout & Hsub & Hall & Hwin & Hrest).
    split; [apply process_ack_tail_ok, Htail|].
    rewrite process_ack_send_seq. split; [exact Hs|]. exists firsts, out.
    split; [exact Hout|]. split; [exact Hsub|]. split; [exact Hall|].
    split; [|exact Hrest].
    destruct (process_ack_in_flight c p) as [gone Hgone].
    { apply window_tail_ring_ok, Htail. }
    rewrite Hgone, map_app in Hwin. apply Forall_app in Hwin. apply Hwin.
  - (* timeouts *)
    intros w0 io0 c r c' io0' n Hto
      (Htail & Hs & firsts & out & Hout & Hsub & Hall & Hwin & Hrest).
    split; [exact (handle_timeout_tail_ok _ _ _ _ _ _ Hto Htail)|].
    destruct (handle_timeout_in_flight _ _ _ _ _ _ Hto) as (Hsame & new & Hnew & Hin).
    destruct (handle_timeout_frame _ _ _ _ _ _ Hto) as (sw' & Hc' & _).
    split; [rewrite Hc'; exact Hs|]. exists firsts, (out ++ new).
    split; [rewrite Hnew, Hout, <- app_assoc; reflexivity|].
    split; [apply sublist_inserts_r, Hsub|].
    split.
    { apply Forall_app. split; [exact Hall|].
      eapply Forall_impl; [exact Hin|]. intros p Hp.
      rewrite List.Forall_forall in Hwin. apply Hwin. exact Hp. }
    split; [rewrite Hsame; exact Hwin|].
    rewrite Hc'. exact Hrest.
  - (* a segment goes out *)
    intros c snt n now
      (Htail & Hs & firsts & out & Hout & Hsub & Hall & Hwin & Hcat & Hcont & Hend)
      Hn Hroom.
    cbn zeta.
    destruct (chunk_of_range len n ltac:(lia) ltac:(lia)) as [Hchunk Hfit].
    set (k := chunk_of len n) in *.
    set (p := sham_create_packet_with_conn c (send_seq c) (recv_seq c) 0
                (ptr_add (Some bytes) n) k).
    change (ptr_add (Some bytes) n) with (Some (drop (ix n) bytes)) in p.
    destruct (data_packet_fields c (send_seq c) (recv_seq c) 0
                (drop (ix n) bytes) k Hchunk) as (Hdl & Hsq & _).
    fold p in Hdl, Hsq.
    assert (Hcseq : 0 <= send_seq c < 2 ^ 32)
      by (destruct Htail as (_ & _ & _ & ? & _); assumption).
    assert (Hring : ring_ok c) by (apply window_tail_ring_ok, Htail).
    split; [apply record_sent_tail_ok; [exact Htail|lia|exact Hdl|exact Hsq]|].
    assert (Hnext : send_seq (record_sent c p k now) = u32 (send_seq c + k))
      by reflexivity.
    split; [rewrite Hnext, Hs, u32_add_l; f_equal; lia|].
    assert (Hdata : take (ix (data_len p)) (data p) = take (ix k) (drop (ix n) bytes)).
    { rewrite Hdl. subst p.
      destruct (create_packet_with_conn_payload c (send_seq c) (recv_seq c) 0
                  (Some (drop (ix n) bytes)) k) as [-> _].
      destruct (create_packet_payload (send_seq c) (recv_seq c) 0
                  (drop (ix n) bytes) k Hchunk) as [_ ->].
      unfold memcpy. rewrite take_app_le.
      - rewrite take_take, Nat.min_id. reflexivity.
      - rewrite length_take, length_drop. unfold ix. lia. }
    assert (Hklen : Z.of_nat (length (take (ix k) (drop (ix n) bytes))) = k).
    { rewrite length_take, length_drop. unfold ix. lia. }
    assert (Hseg : wire_segment p = (send_seq c, take (ix k) (drop (ix n) bytes))).
    { unfold wire_segment, sent_seq. rewrite Hdata, Hsq, ntohl_htonl by exact Hcseq.
      reflexivity. }
    assert (Hmore : forall q, In q firsts \/ In q old ->
                              In q (firsts ++ [p]) \/ In q old).
    { intros q [Hq|Hq]; [left; apply in_or_app; left; exact Hq|right; exact Hq]. }
    exists (firsts ++ [p]), (out ++ [p]).
    split; [rewrite Hout, <- app_assoc; reflexivity|].
    split; [apply sublist_app; [exact Hsub|reflexivity]|].
    split.
    { apply Forall_app. split.
      - eapply Forall_impl; [exact Hall|]. exact Hmore.
      - constructor; [|constructor]. left. apply in_or_app. right. left. reflexivity. }
    split.
    { rewrite record_sent_in_flight, map_app by assumption.
      apply Forall_app. split.
      - eapply Forall_impl; [exact Hwin|]. exact Hmore.
      - constructor; [|constructor]. left. apply in_or_app. right. left. reflexivity. }
    rewrite !map_app. cbn [map]. rewrite Hseg. cbn [snd].
    split.
    { rewrite concat_app, Hcat. cbn [concat]. rewrite app_nil_r.
      rewrite take_take_drop. f_equal. unfold ix. lia. }
    split.
    { apply contiguous_from_app; [exact Hcont|]. rewrite Hend.
      cbn [contiguous_from]. rewrite Hklen. auto. }
    rewrite stream_end_app, Hend. cbn [stream_end]. rewrite Hklen. reflexivity.
Qed.

(** X15: what [sham_send] puts on the wire.  On an ESTABLISHED connection
    with a well-formed window, and a buffer that holds [len] bytes, the
    packets that a call sends ([out], appended to what was sent before)
    contain, in this order, the first transmissions [firsts]; every other
    packet sent repeats one of them or a packet that was in flight when the
    call began.  The first transmissions carry a prefix of the caller's
    bytes, cut into pieces of 1 to 1024 bytes, each at the sequence number
    where the one before it ended, starting at [send_seq]; [send_seq] has
    advanced by the length of that prefix.  When the call returns without
    error the prefix is all [len] bytes. *)
Theorem send_segments_data w fuel io conn packet bytes len res conn' io' :
  state conn = SHAM_ESTABLISHED -> window_tail_ok conn ->
  0 <= len <= INT_MAX -> len <= Z.of_nat (length bytes) ->
  sham_send w fuel io conn packet (Some bytes) len = (res, conn', io') ->
  exists n firsts out,
    0 <= n <= len
    /\ sent io' = sent io ++ out
    /\ sublist firsts out
    /\ Forall (fun p => In p firsts \/ In p (map we_packet (in_flight conn))) out
    /\ concat (map snd (map wire_segment firsts)) = take (ix n) bytes
    /\ contiguous_from (send_seq conn) (map wire_segment firsts)
    /\ send_seq conn' = u32 (send_seq conn + n)
    /\ (forall r, res = Some r -> 0 <= r -> n = len /\ r = len).
Proof.
  intros Hst Hok Hlen Hbytes H. unfold sham_send in H. rewrite Hst in H.
  cbn [state_eqb] in H. unfold INT_MAX in Hlen.
  destruct (send_loop_wire _ _ _ _ _ _ _ _ _ _ H Hok ltac:(lia) Hbytes)
    as (n & Hn & (Htail & Hseq & firsts & out & Hout & Hsub & Hall & _ & Hcat
                  & Hcont & _) & Hres).
  exists n, firsts, out. split; [lia|]. split; [exact Hout|]. split; [exact Hsub|].
  split; [exact Hall|]. split; [exact Hcat|].
  split; [exact Hcont|]. split; [exact Hseq|].
  intros r Hr Hpos. split; [exact (Hres r Hr Hpos)|]. subst res.
  destruct (send_loop_spec _ _ _ _ _ _ _ _ _ _ _ H Hok ltac:(lia) ltac:(lia) Hpos)
    as (Hr & _).
  rewrite to_int_small in Hr by (unfold INT_MAX; lia). exact Hr.
Qed.

Lemma send_segments_data_witness :
  let w := quiet_world [SelectTimeout; arrival (peer_ack 101 9 32768)] 0 in
  let run := sham_send w 5 io_init (connected 5 100) zero_packet (Some [1; 2; 3]) 3 in
  exists firsts out,
    sent (snd run) = sent io_init ++ out
    /\ sublist firsts out
    /\ concat (map snd (map wire_segment firsts)) = [1; 2; 3]
    /\ contiguous_from (send_seq (connected 5 100)) (map wire_segment firsts).
Proof.
  intros w run.
  assert (Hrun : run = (Some 3, snd (fst run), snd run)) by (vm_compute; reflexivity).
  destruct (send_segments_data w 5 io_init (connected 5 100) zero_packet [1; 2; 3] 3
              (Some 3) (snd (fst run)) (snd run))
    as (n & firsts & out & _ & Hout & Hsub & _ & Hdata & Hcont & _ & Hall);
    [settle..|exact Hrun|].
  destruct (Hall 3 eq_refl ltac:(lia)) as [-> _].
  exists firsts, out. split; [exact Hout|]. split; [exact Hsub|].
  split; [exact Hdata|exact Hcont].
Defined.

(** ** What a cumulative ACK removes *)

Lemma filter_beyond_all ack (ends : list Z) :
  Forall (fun e => ack < e) ends -> filter (fun e => ack < e) ends = ends.
Proof.
  induction 1 as [|e ends He Hall IH]; [reflexivity|].
  rewrite filter_cons_True by exact He. rewrite IH. reflexivity.
Qed.

Lemma ack_walk_filter n ack conn :
  ring_ok conn ->
  ascending_from (send_base conn) (window_ends conn) ->
  window_count conn <= Z.of_nat n ->
  window_ends (ack_walk n ack conn)
    = filter (fun e => ack < e) (window_ends conn).
Proof.
  revert conn. induction n as [|n IH]; intros conn Hring Hasc Hn; cbn [ack_walk].
  - unfold window_ends. rewrite in_flight_empty by lia. reflexivity.
  - destruct (Z.gtb_spec (window_count conn) 0) as [Hpos|Hzero].
    2:{ unfold window_ends. rewrite in_flight_empty by lia. reflexivity. }
    unfold window_ends in Hasc |- *.
    rewrite (in_flight_nonempty conn Hring Hpos) in Hasc |- *.
    cbn [map ascending_from] in Hasc |- *. destruct Hasc as [Hbase Hrest].
    destruct (Z.leb_spec (packet_end (send_window conn !!! ix (window_start conn))) ack)
      as [Hcovered|Hbeyond].
    + rewrite filter_cons_False by lia.
      apply IH.
      * apply acknowledge_head_ring_ok; assumption.
      * exact Hrest.
      * cbn. lia.
    + rewrite (in_flight_nonempty conn Hring Hpos). cbn [map].
      rewrite filter_cons_True by lia. f_equal. symmetry.
      apply filter_beyond_all.
      apply (Forall_impl _ _ _ (ascending_from_all _ _ Hrest)).
      intros x Hx. cbn in Hx. lia.
Qed.

Lemma filter_covered_none ack (ends : list Z) :
  Forall (fun e => ack < e) ends -> filter (fun e => e <= ack) ends = [].
Proof.
  induction 1 as [|e ends He Hall IH]; [reflexivity|].
  rewrite filter_cons_False by lia. exact IH.
Qed.

Lemma last_cons_default (a d : Z) l : List.last (a :: l) d = List.last l a.
Proof.
  revert a d. induction l as [|b l IH]; intros a d; [reflexivity|].
  change (List.last (a :: b :: l) d) with (List.last (b :: l) d).
  rewrite !IH. reflexivity.
Qed.

Lemma ack_walk_send_base n ack conn :
  ring_ok conn ->
  ascending_from (send_base conn) (window_ends conn) ->
  window_count conn <= Z.of_nat n ->
  send_base (ack_walk n ack conn)
    = List.last (filter (fun e => e <= ack) (window_ends conn)) (send_base conn).
Proof.
  revert conn. induction n as [|n IH]; intros conn Hring Hasc Hn; cbn [ack_walk].
  - unfold window_ends. rewrite in_flight_empty by lia. reflexivity.
  - destruct (Z.gtb_spec (window_count conn) 0) as [Hpos|Hzero].
    2:{ unfold window_ends. rewrite in_flight_empty by lia. reflexivity. }
    unfold window_ends in Hasc |- *.
    rewrite (in_flight_nonempty conn Hring Hpos) in Hasc |- *.
    cbn [map ascending_from] in Hasc |- *. destruct Hasc as [Hbase Hrest].
    destruct (Z.leb_spec (packet_end (send_window conn !!! ix (window_start conn))) ack)
      as [Hcovered|Hbeyond].
    + rewrite filter_cons_True by lia. rewrite last_cons_default.
      apply IH.
      * apply acknowledge_head_ring_ok; assumption.
      * exact Hrest.
      * cbn. lia.
    + rewrite filter_cons_False by lia.
      rewrite filter_covered_none; [reflexivity|].
      apply (Forall_impl _ _ _ (ascending_from_all _ _ Hrest)).
      intros x Hx. cbn in Hx. lia.
Qed.

Lemma length_in_flight_from n i conn : length (in_flight_from n i conn) = n.
Proof.
  revert i. induction n as [|n IH]; intros i; cbn [in_flight_from length];
    [reflexivity|]. rewrite IH. reflexivity.
Qed.

(** X16: what a cumulative ACK removes.  With the window entries ending at
    increasing sequence numbers beyond [send_base] and the last byte
    acknowledged, [sham_process_ack] drops exactly the
    entries that end at or before the ACK number and keeps the others in
    order; [send_base] becomes the end of the last entry dropped (and stays
    as it was when none is), and [window_count] counts the entries
    kept. *)
Theorem process_ack_removes_covered conn packet :
  acks_ordered conn ->
  let ack := ack_num (header packet) in
  let conn' := sham_process_ack conn packet in
  window_ends conn' = filter (fun e => ack < e) (window_ends conn)
  /\ send_base conn'
     = List.last (filter (fun e => e <= ack) (window_ends conn)) (send_base conn)
  /\ window_count conn' = Z.of_nat (length (window_ends conn')).
Proof.
  intros Hord ack conn'. apply acks_ordered_unfold in Hord.
  destruct Hord as [Hring Hasc].
  subst conn'. unfold sham_process_ack. fold ack.
  set (conn1 := set_peer_window_size (window_size (header packet)) conn).
  set (conn2 := if ack >? last_byte_acked conn1
                then set_last_byte_acked ack conn1 else conn1).
  assert (Hsame : ring_ok conn2 /\ window_ends conn2 = window_ends conn
                  /\ send_base conn2 = send_base conn
                  /\ window_count conn2 = window_count conn).
  { subst conn2. destruct (ack >? last_byte_acked conn1);
      (split; [exact Hring|]; split; [apply window_ends_ext; reflexivity|];
       split; reflexivity). }
  destruct Hsame as (Hring2 & Hends2 & Hbase2 & Hcount2).
  assert (Hasc2 : ascending_from (send_base conn2) (window_ends conn2)).
  { rewrite Hends2, Hbase2. apply (ascending_from_lower _ _ _ Hasc). lia. }
  split.
  { rewrite <- Hends2. apply ack_walk_filter; [exact Hring2|exact Hasc2|].
    unfold ix. lia. }
  split.
  { rewrite <- Hends2, <- Hbase2.
    apply ack_walk_send_base; [exact Hring2|exact Hasc2|]. unfold ix. lia. }
  destruct (ack_walk_ordered (ix (window_count conn2)) ack (send_base conn2) conn2)
    as ((_ & Hcnt & _) & _).
  - exact Hring2.
  - exact Hasc2.
  - apply ascending_from_all. exact Hasc2.
  - unfold ix. lia.
  - unfold window_ends, in_flight. rewrite length_map, length_in_flight_from.
    unfold ix in *. lia.
Qed.

Lemma process_ack_removes_covered_witness :
  window_ends (sham_process_ack after_first_segment (received_ack 101 7 32768))
    = filter (fun e => 7 < e) (window_ends after_first_segment).
Proof.
  destruct (process_ack_removes_covered after_first_segment
              (received_ack 101 7 32768)) as (H & _).
  - unfold acks_ordered, ring_ok. by_evaluation.
  - exact H.
Defined.

(** ** What a retransmission sends *)

Lemma lookup_total_in_map (sw : list sham_window_entry) i :
  (i < length sw)%nat -> In (we_packet (sw !!! i)) (map we_packet sw).
Proof.
  intros Hi. apply in_map. apply list_elem_of_In.
  apply list_elem_of_lookup_total_2. exact Hi.
Qed.

Lemma map_acked_insert (sw : list sham_window_entry) i e :
  acked e = acked (sw !!! i) -> map acked (<[i := e]> sw) = map acked sw.
Proof.
  intros H.
  change (map acked (<[i:=e]> sw)) with (acked <$> <[i:=e]> sw).
  rewrite list_fmap_insert, H.
  destruct (sw !! i) as [x|] eqn:Hx.
  - apply list_insert_id. rewrite list_lookup_fmap, Hx.
    rewrite (list_lookup_total_correct _ _ _ Hx). reflexivity.
  - apply list_insert_ge. rewrite length_fmap. apply lookup_ge_None. exact Hx.
Qed.

Lemma handle_timeout_loop_stored w now n i conn io res conn' io' :
  handle_timeout_loop w now n i conn io = (res, conn', io') ->
  0 <= window_start conn -> 0 <= i ->
  length (send_window conn) = ix SHAM_WINDOW_SIZE ->
  (res = 0 \/ res = -1)
  /\ exists sw' new,
       conn' = set_send_window sw' conn
       /\ map we_packet sw' = map we_packet (send_window conn)
       /\ map acked sw' = map acked (send_window conn)
       /\ sent io' = sent io ++ new
       /\ Forall (fun p => In p (map we_packet (send_window conn))) new
       /\ n_net io' = n_net io.
Proof.
  revert i conn io. induction n as [|n IH]; intros i conn io H Hws Hi Hlen;
    cbn [handle_timeout_loop] in H.
  - injection H as <- <- <-. split; [auto|].
    exists (send_window conn), []. rewrite app_nil_r.
    split; [by destruct conn|]. repeat split. constructor.
  - assert (Hid : forall io1, sent io1 = sent io -> n_net io1 = n_net io ->
              exists sw' new,
                conn = set_send_window sw' conn
                /\ map we_packet sw' = map we_packet (send_window conn)
                /\ map acked sw' = map acked (send_window conn)
                /\ sent io1 = sent io ++ new
                /\ Forall (fun p => In p (map we_packet (send_window conn))) new
                /\ n_net io1 = n_net io).
    { intros io1 Hs Hn. exists (send_window conn), []. rewrite app_nil_r.
      split; [by destruct conn|]. repeat split; try assumption. constructor. }
    destruct (acked _) eqn:Hacked; [exact (IH _ _ _ H Hws ltac:(lia) Hlen)|].
    destruct (gettimeofday w io) as [t io1] eqn:Hclock.
    assert (Hio1 : sent io1 = sent io /\ n_net io1 = n_net io)
      by (unfold gettimeofday in Hclock; simplify_eq; split; reflexivity).
    destruct Hio1 as [Hs1 Hn1].
    destruct (sham_is_timeout _ t SHAM_RTO_MS).
    2:{ destruct (IH _ _ _ H Hws ltac:(lia) Hlen)
          as (Hres & sw' & new & Hc & Hp & Ha & Hs & Hin & Hn).
        split; [exact Hres|]. exists sw', new.
        rewrite Hs, Hs1, Hn, Hn1. auto 10. }
    destruct (retries _ >=? SHAM_MAX_RETRIES).
    { injection H as <- <- <-. split; [auto|]. apply Hid; assumption. }
    set (idx := ix (Z.rem (window_start conn + i) SHAM_WINDOW_SIZE)) in *.
    assert (Hidx : (idx < length (send_window conn))%nat).
    { rewrite Hlen. subst idx. unfold ix.
      pose proof (ring_index_range (window_start conn + i) ltac:(lia)) as Hr.
      unfold SHAM_WINDOW_SIZE in *. lia. }
    destruct (sham_send_packet w io1 _) as [r io2] eqn:Hsend.
    assert (Hn2 : n_net io2 = n_net io1).
    { unfold sham_send_packet in Hsend.
      destruct (sendto_ok w (n_send io1)); simplify_eq; reflexivity. }
    destruct (r <? 0) eqn:Hr.
    { injection H as <- <- <-. split; [auto|].
      destruct (send_packet_sent _ _ _ _ _ Hsend) as [Hs2|Hs2].
      - apply Hid; congruence.
      - exists (send_window conn), [we_packet (send_window conn !!! idx)].
        split; [by destruct conn|]. split; [reflexivity|]. split; [reflexivity|].
        split; [rewrite Hs2, Hs1; reflexivity|]. split; [|congruence].
        constructor; [apply lookup_total_in_map; exact Hidx|constructor]. }
    assert (Hs2 : sent io2 = sent io1 ++ [we_packet (send_window conn !!! idx)]).
    { unfold sham_send_packet in Hsend.
      destruct (sendto_ok w (n_send io1)); simplify_eq;
        first [reflexivity|discriminate]. }
    clear Hid.
    apply IH in H; [|exact Hws|lia|cbn; rewrite length_insert; exact Hlen].
    destruct H as (Hres & sw' & new & Hc & Hp & Ha & Hs & Hin & Hn).
    cbn [send_window set_send_window] in Hp, Ha, Hin.
    assert (Hp0 : map we_packet (<[idx := retransmitted now (send_window conn !!! idx)]>
                                   (send_window conn))
                  = map we_packet (send_window conn))
      by (apply same_packets_insert; reflexivity).
    assert (Ha0 : map acked (<[idx := retransmitted now (send_window conn !!! idx)]>
                               (send_window conn))
                  = map acked (send_window conn))
      by (apply map_acked_insert; reflexivity).
    split; [exact Hres|].
    exists sw', (we_packet (send_window conn !!! idx) :: new).
    split; [rewrite Hc; reflexivity|].
    split; [rewrite Hp; exact Hp0|]. split; [rewrite Ha; exact Ha0|].
    split; [rewrite Hs, Hs2, Hs1, <- app_assoc; reflexivity|].
    split; [|congruence].
    constructor; [apply lookup_total_in_map; exact Hidx|].
    rewrite Hp0 in Hin. exact Hin.
Qed.

(** X17: [sham_handle_timeout] returns 0 or -1, waits for nothing, and sends
    only packets that are stored in the send window; it changes the
    connection in nothing but the send times and retry counters of the
    window entries. *)
Theorem handle_timeout_retransmits_stored w io conn res conn' io' :
  sham_handle_timeout w io conn = (res, conn', io') ->
  ring_ok conn ->
  (res = 0 \/ res = -1)
  /\ exists sw' new,
       conn' = set_send_window sw' conn
       /\ map we_packet sw' = map we_packet (send_window conn)
       /\ map acked sw' = map acked (send_window conn)
       /\ sent io' = sent io ++ new
       /\ Forall (fun p => In p (map we_packet (send_window conn))) new
       /\ n_net io' = n_net io.
Proof.
  unfold sham_handle_timeout. intros H (Hws & _ & Hlen).
  destruct (gettimeofday w io) as [now io0] eqn:Hclock.
  assert (Hio : sent io0 = sent io /\ n_net io0 = n_net io)
    by (unfold gettimeofday in Hclock; simplify_eq; split; reflexivity).
  destruct Hio as [Hs0 Hn0].
  destruct (handle_timeout_loop_stored _ _ _ _ _ _ _ _ _ H ltac:(lia) ltac:(lia) Hlen)
    as (Hres & sw' & new & Hc & Hp & Ha & Hs & Hin & Hn).
  split; [exact Hres|]. exists sw', new. rewrite Hs, Hs0, Hn, Hn0. auto 10.
Qed.

Lemma handle_timeout_retransmits_stored_witness :
  let run := sham_handle_timeout silent_world io_after_first_segment
               after_first_segment in
  exists new,
    sent (snd run) = sent io_after_first_segment ++ new
    /\ Forall (fun p => In p (map we_packet (send_window after_first_segment))) new.
Proof.
  intros run.
  destruct (handle_timeout_retransmits_stored silent_world io_after_first_segment
              after_first_segment (fst (fst run)) (snd (fst run)) (snd run))
    as (_ & sw' & new & _ & _ & _ & Hsent & Hin & _).
  - apply triple_eta.
  - unfold ring_ok. by_evaluation.
  - exists new. split; [exact Hsent|exact Hin].
Defined.

(** X18: as long as every [sendto] succeeds, [sham_send] on an ESTABLISHED
    connection has no error to report: a call that returns, returns
    [len]. *)
Theorem send_fails_only_with_sendto w fuel io conn packet src len res conn' io' :
  (forall i, sendto_ok w i = true) ->
  state conn = SHAM_ESTABLISHED -> 0 <= len <= INT_MAX ->
  sham_send w fuel io conn packet src len = (Some res, conn', io') ->
  res = len.
Proof. apply send_reports_no_timeout_error. Qed.

Lemma send_fails_only_with_sendto_witness :
  let w := quiet_world [SelectTimeout; arrival (peer_ack 101 9 32768)] 0 in
  fst (fst (sham_send w 5 io_init (connected 5 100) zero_packet (Some [1; 2; 3]) 3))
    = Some 3.
Proof.
  intros w.
  set (run := sham_send w 5 io_init (connected 5 100) zero_packet (Some [1; 2; 3]) 3).
  assert (Hrun : run = (Some (default 0 (fst (fst run))), snd (fst run), snd run))
    by (vm_compute; reflexivity).
  rewrite (send_fails_only_with_sendto w 5 io_init (connected 5 100) zero_packet
             (Some [1; 2; 3]) 3 (default 0 (fst (fst run))) (snd (fst run))
             (snd run)) in Hrun; [rewrite Hrun; reflexivity|settle..|exact Hrun].
Defined.

(** ** The close handshake *)

Lemma recv_timeout_seq w io conn packet timeout_ms res conn' packet' io' :
  sham_recv_packet_timeout w io conn packet timeout_ms = (res, conn', packet', io') ->
  state conn' = state conn /\ send_seq conn' = send_seq conn
  /\ recv_seq conn' = recv_seq conn.
Proof.
  intros H.
  destruct (recv_packet_timeout_conn _ _ _ _ _ _ _ _ _ H)
    as [->|[->|(from & from_len & ->)]]; repeat split.
Qed.

Lemma close_loop_outcome w fuel io conn packet ack_received fin_received
    r conn' io' :
  close_loop w fuel io conn packet ack_received fin_received = (Some r, conn', io') ->
  (fin_received = true -> state conn = SHAM_CLOSED) ->
  r = 0 /\ state conn' = SHAM_CLOSED /\ send_seq conn' = send_seq conn
  /\ (sent io' = sent io
      \/ fin_received = false
         /\ exists ack,
              sent io' = sent io ++ [ack]
              /\ header ack
                 = {| seq_num := htonl (send_seq conn');
                      ack_num := htonl (recv_seq conn');
                      flags := htons SHAM_ACK;
                      window_size := htons SHAM_DEFAULT_ADVERTISED_WINDOW |}
              /\ data_len ack = 0).
Proof.
  revert io conn packet ack_received fin_received.
  induction fuel as [|fuel IH]; intros io conn packet ack_received fin_received H Hfin;
    cbn [close_loop] in H; [discriminate|].
  destruct ((negb ack_received || negb fin_received)
            && negb (state_eqb (state conn) SHAM_CLOSED)) eqn:Hcond.
  2:{ injection H as <- <- <-. split; [reflexivity|].
      split; [|split; [reflexivity|left; reflexivity]].
      apply andb_false_iff in Hcond. destruct Hcond as [Hc|Hc].
      - apply orb_false_iff in Hc. destruct Hc as [_ Hc].
        apply negb_false_iff in Hc. auto.
      - apply negb_false_iff in Hc. apply state_eqb_eq in Hc. exact Hc. }
  apply andb_true_iff in Hcond. destruct Hcond as [_ Hopen].
  assert (Hnotclosed : state conn <> SHAM_CLOSED).
  { intros E. rewrite E in Hopen. discriminate. }
  assert (Hnofin : fin_received = false).
  { destruct fin_received; [|reflexivity]. exfalso. auto. }
  subst fin_received.
  destruct (sham_recv_packet_timeout w io conn packet SHAM_RTO_MS)
    as [[[res conn1] packet1] io1] eqn:Hrecv.
  destruct (recv_timeout_seq _ _ _ _ _ _ _ _ _ Hrecv) as (Hst1 & Hseq1 & _).
  pose proof (recv_timeout_sent _ _ _ _ _ _ _ _ _ Hrecv) as Hs1.
  destruct (res <=? 0).
  { apply IH in H; [|discriminate].
    destruct H as (Hr & Hst & Hseq & Hsent).
    split; [exact Hr|]. split; [exact Hst|]. split; [congruence|].
    destruct Hsent as [Hsent|(_ & ack & Hsent & Hack)];
      [left; congruence|right; split; [reflexivity|]].
    exists ack. rewrite Hsent, Hs1. auto. }
  set (got_ack := has_flag (flags (header packet1)) SHAM_ACK && negb ack_received) in *.
  set (conn2 := if got_ack then set_state SHAM_FIN_WAIT_2 conn1 else conn1) in *.
  assert (Hseq2 : send_seq conn2 = send_seq conn)
    by (subst conn2; destruct got_ack; exact Hseq1).
  destruct (has_flag (flags (header packet1)) SHAM_FIN && negb false).
  - destruct (sham_send_packet w io1 _) as [r2 io2] eqn:Hsend.
    pose proof (send_packet_sent _ _ _ _ _ Hsend) as Hs2.
    destruct fuel as [|fuel]; [discriminate|].
    cbn [close_loop] in H. cbn [state set_state state_eqb negb] in H.
    rewrite andb_false_r in H. injection H as <- <- <-.
    split; [reflexivity|]. split; [reflexivity|]. split; [exact Hseq2|].
    destruct Hs2 as [Hs2|Hs2]; [left; congruence|right; split; [reflexivity|]].
    eexists. split; [rewrite Hs2, Hs1; reflexivity|].
    rewrite create_packet_header. split; reflexivity.
  - apply IH in H; [|discriminate].
    destruct H as (Hr & Hst & Hseq & Hsent).
    split; [exact Hr|]. split; [exact Hst|]. split; [congruence|].
    destruct Hsent as [Hsent|(_ & ack & Hsent & Hack)];
      [left; congruence|right; split; [reflexivity|]].
    exists ack. rewrite Hsent, Hs1. auto.
Qed.

(** X19: what [sham_close] leaves behind.  A call that returns either returns
    -1, with the connection unchanged and nothing sent, or returns 0 from
    an ESTABLISHED connection that is now CLOSED with [send_seq] advanced
    by one.  In that case it sent a FIN without payload carrying the old
    [send_seq] and [recv_seq], once, and after it at most one ACK, which
    carries the final [send_seq] and [recv_seq]. *)
Theorem close_outcome w fuel io conn packet r conn' io' :
  sham_close w fuel io conn packet = (Some r, conn', io') ->
  (r = -1 /\ conn' = conn /\ sent io' = sent io)
  \/ (r = 0 /\ state conn = SHAM_ESTABLISHED /\ state conn' = SHAM_CLOSED
      /\ send_seq conn' = u32 (send_seq conn + 1)
      /\ exists fin rest,
           sent io' = sent io ++ fin :: rest
           /\ header fin
              = {| seq_num := htonl (send_seq conn);
                   ack_num := htonl (recv_seq conn);
                   flags := htons SHAM_FIN;
                   window_size := htons SHAM_DEFAULT_ADVERTISED_WINDOW |}
           /\ data_len fin = 0
           /\ (rest = []
               \/ exists ack,
                    rest = [ack]
                    /\ header ack
                       = {| seq_num := htonl (send_seq conn');
                            ack_num := htonl (recv_seq conn');
                            flags := htons SHAM_ACK;
                            window_size := htons SHAM_DEFAULT_ADVERTISED_WINDOW |}
                    /\ data_len ack = 0)).
Proof.
  unfold sham_close. intros H.
  destruct (state_eqb (state conn) SHAM_ESTABLISHED) eqn:Hst.
  2:{ injection H as <- <- <-. left. auto. }
  apply state_eqb_eq in Hst.
  destruct (sham_send_packet w io _) as [res io1] eqn:Hsend.
  destruct (res <? 0) eqn:Hres.
  { injection H as <- <- <-. left. split; [reflexivity|]. split; [reflexivity|].
    unfold sham_send_packet in Hsend.
    destruct (sendto_ok w (n_send io)); simplify_eq;
      first [reflexivity|discriminate Hres]. }
  assert (Hs1 : sent io1
                = sent io ++ [sham_create_packet (send_seq conn) (recv_seq conn)
                                SHAM_FIN None 0]).
  { unfold sham_send_packet in Hsend.
    destruct (sendto_ok w (n_send io)); simplify_eq;
      first [reflexivity|discriminate Hres]. }
  apply close_loop_outcome in H; [|discriminate].
  destruct H as (Hr & Hclosed & Hseq & Hsent).
  right. split; [exact Hr|]. split; [exact Hst|]. split; [exact Hclosed|].
  split; [exact Hseq|].
  exists (sham_create_packet (send_seq conn) (recv_seq conn) SHAM_FIN None 0).
  destruct Hsent as [Hsent|(_ & ack & Hsent & Hack)].
  - exists []. rewrite Hsent, Hs1.
    split; [reflexivity|]. split; [apply create_packet_header|].
    split; [reflexivity|left; reflexivity].
  - exists [ack]. rewrite Hsent, Hs1, <- app_assoc.
    split; [reflexivity|]. split; [apply create_packet_header|].
    split; [reflexivity|right; exists ack; split; [reflexivity|exact Hack]].
Qed.

Lemma close_outcome_witness :
  let w := quiet_world
             [arrival (sham_create_packet 101 7 (Z.lor SHAM_FIN SHAM_ACK) None 0)]
             0 in
  let run := sham_close w 3 io_init (connected 5 100) zero_packet in
  fst (fst run) = Some 0 /\ state (snd (fst run)) = SHAM_CLOSED
  /\ send_seq (snd (fst run)) = u32 (send_seq (connected 5 100) + 1).
Proof.
  intros w run.
  assert (Hrun : run = (Some 0, snd (fst run), snd run)) by (vm_compute; reflexivity).
  destruct (close_outcome w 3 io_init (connected 5 100) zero_packet 0
              (snd (fst run)) (snd run) Hrun)
    as [(H & _)|(_ & _ & Hst & Hseq & _)]; [discriminate H|].
  split; [vm_compute; reflexivity|]. split; [exact Hst|exact Hseq].
Defined.

(** X20: on an ESTABLISHED connection whose peer never answers (every wait
    ends in a timeout or an error), [sham_close] sends its FIN once and
    then does not return, however long it runs; the connection stays in
    FIN_WAIT_1 and the FIN is not sent again. *)
Theorem close_waits_forever w fuel io conn packet :
  state conn = SHAM_ESTABLISHED -> sendto_ok w (n_send io) = true ->
  (forall i, net w i = SelectTimeout \/ net w i = SelectError) ->
  exists conn' io',
    sham_close w fuel io conn packet = (None, conn', io')
    /\ state conn' = SHAM_FIN_WAIT_1
    /\ sent io'
       = sent io ++ [sham_create_packet (send_seq conn) (recv_seq conn)
                       SHAM_FIN None 0].
Proof.
  intros Hst Hsend Hsilent. unfold sham_close. rewrite Hst. cbn [state_eqb].
  unfold sham_send_packet. rewrite Hsend.
  change (to_int (usize (SHAM_HEADER_SIZE + data_len (sham_create_packet
            (send_seq conn) (recv_seq conn) SHAM_FIN None 0))) <? 0) with false.
  cbv iota.
  set (conn1 := set_state SHAM_FIN_WAIT_1 (set_send_seq _ conn)).
  set (io1 := {| n_net := n_net io; n_send := S (n_send io); n_clock := n_clock io;
                 sent := sent io ++ [sham_create_packet (send_seq conn) (recv_seq conn)
                                       SHAM_FIN None 0];
                 trace := trace io |}).
  assert (Hloop : forall fuel io2 p,
            sent io2 = sent io1 ->
            exists io',
              close_loop w fuel io2 conn1 p false false = (None, conn1, io')
              /\ sent io' = sent io1).
  { clear fuel. intros fuel. induction fuel as [|fuel IH]; intros io2 p Hs;
      cbn [close_loop]; [eauto|].
    change (state conn1) with SHAM_FIN_WAIT_1. cbn [negb orb andb state_eqb].
    unfold sham_recv_packet_timeout.
    destruct (Hsilent (n_net io2)) as [->| ->]; cbn [Z.leb Z.compare];
      apply IH; exact Hs. }
  destruct (Hloop fuel io1 packet eq_refl) as (io' & Hrun & Hs).
  exists conn1, io'. split; [exact Hrun|]. split; [reflexivity|exact Hs].
Qed.

Lemma close_waits_forever_witness :
  exists conn' io',
    sham_close (answering SelectTimeout) 50 io_init (connected 5 100) zero_packet
      = (None, conn', io')
    /\ state conn' = SHAM_FIN_WAIT_1.
Proof.
  destruct (close_waits_forever (answering SelectTimeout) 50 io_init
              (connected 5 100) zero_packet)
    as (conn' & io' & Hrun & Hst & _).
  - by_evaluation.
  - reflexivity.
  - intros i. left. reflexivity.
  - exists conn', io'. split; [exact Hrun|exact Hst].
Defined.

(** ** Sending a file *)

Lemma send_wire w fuel io conn packet bytes len r conn' io' :
  sham_send w fuel io conn packet (Some bytes) len = (Some r, conn', io') ->
  0 <= r -> window_tail_ok conn ->
  0 <= len <= INT_MAX -> len <= Z.of_nat (length bytes) ->
  r = len /\ state conn = SHAM_ESTABLISHED
  /\ window_tail_ok conn' /\ window_count conn' = 0
  /\ send_base conn' = send_seq conn'
  /\ send_seq conn' = u32 (send_seq conn + len)
  /\ exists firsts out,
       sent io' = sent io ++ out
       /\ sublist firsts out
       /\ Forall (fun p => In p firsts \/ In p (map we_packet (in_flight conn))) out
       /\ concat (map snd (map wire_segment firsts)) = take (ix len) bytes
       /\ contiguous_from (send_seq conn) (map wire_segment firsts)
       /\ stream_end (send_seq conn) (map wire_segment firsts) = send_seq conn'.
Proof.
  unfold sham_send. intros H Hr Hok Hlen Hbytes. unfold INT_MAX in Hlen.
  destruct (state_eqb (state conn) SHAM_ESTABLISHED) eqn:Hst;
    [|simplify_eq; lia].
  apply state_eqb_eq in Hst.
  destruct (send_loop_wire _ _ _ _ _ _ _ _ _ _ H Hok ltac:(lia) Hbytes)
    as (n & Hn & (Htail & Hseq & firsts & out & Hout & Hsub & Hall & _ & Hcat
                  & Hcont & Hend) & Hres).
  pose proof (Hres r eq_refl Hr) as Hnl. subst n.
  destruct (send_loop_spec _ _ _ _ _ _ _ _ _ _ _ H Hok ltac:(lia) ltac:(lia) Hr)
    as (Hrl & Hcnt & Hbase & _).
  rewrite to_int_small in Hrl by (unfold INT_MAX; lia).
  split; [exact Hrl|]. split; [exact Hst|]. split; [exact Htail|].
  split; [exact Hcnt|]. split; [exact Hbase|]. split; [exact Hseq|].
  exists firsts, out. auto 10.
Qed.

Lemma send_file_loop_stream w fuel rounds io conn packet buffer content
    total_sent r conn' io' :
  send_file_loop w fuel rounds io conn packet buffer content
    (Z.of_nat (length content)) total_sent total_sent = (Some r, conn', io') ->
  0 <= r -> Z.of_nat (length content) <= INT_MAX ->
  0 <= total_sent <= Z.of_nat (length content) ->
  window_tail_ok conn -> window_count conn = 0 -> send_base conn = send_seq conn ->
  r = Z.of_nat (length content)
  /\ window_count conn' = 0 /\ send_base conn' = send_seq conn'
  /\ send_seq conn' = u32 (send_seq conn + (Z.of_nat (length content) - total_sent))
  /\ exists firsts out,
       sent io' = sent io ++ out
       /\ sublist firsts out
       /\ Forall (fun p => In p firsts) out
       /\ concat (map snd (map wire_segment firsts)) = drop (ix total_sent) content
       /\ contiguous_from (send_seq conn) (map wire_segment firsts)
       /\ stream_end (send_seq conn) (map wire_segment firsts) = send_seq conn'.
Proof.
  set (file_size := Z.of_nat (length content)).
  revert io conn buffer total_sent.
  induction rounds as [|rounds IH];
    intros io conn buffer total_sent H Hr Hsize Hpos Hok Hcnt Hbase;
    cbn [send_file_loop] in H; [discriminate|].
  unfold INT_MAX in Hsize.
  assert (Hseq : 0 <= send_seq conn < 2 ^ 32)
    by (destruct Hok as (_ & _ & _ & ? & _); assumption).
  rewrite (usize_small file_size) in H by lia.
  destruct (Z.ltb_spec total_sent file_size) as [Hmore|Hdone].
  2:{ injection H as <- <- <-.
      assert (total_sent = file_size) by lia. subst total_sent.
      rewrite to_int_small by (unfold INT_MAX; lia).
      split; [reflexivity|]. split; [exact Hcnt|]. split; [exact Hbase|].
      split; [rewrite Z.sub_diag, Z.add_0_r, u32_small; auto|].
      exists [], []. rewrite app_nil_r.
      split; [reflexivity|]. split; [constructor|]. split; [constructor|].
      split; [|split; [exact I|reflexivity]].
      symmetry. apply drop_ge. unfold ix, file_size. lia. }
  rewrite (usize_small (file_size - total_sent)) in H by lia.
  set (to_read := if file_size - total_sent >? SHAM_MAX_DATA_SIZE
                  then SHAM_MAX_DATA_SIZE else file_size - total_sent) in *.
  assert (Hto : 0 < to_read <= SHAM_MAX_DATA_SIZE /\ to_read <= file_size - total_sent).
  { subst to_read. unfold SHAM_MAX_DATA_SIZE.
    destruct (Z.gtb_spec (file_size - total_sent) 1024); lia. }
  destruct Hto as [Hto1 Hto2]. unfold SHAM_MAX_DATA_SIZE in Hto1.
  set (chunk := fread content total_sent to_read) in *.
  assert (Hchunk : Z.of_nat (length chunk) = to_read).
  { subst chunk. unfold fread. rewrite length_take, length_drop.
    unfold ix, file_size in *. lia. }
  rewrite Hchunk in H.
  destruct (Z.eqb_spec to_read 0) as [|_]; [lia|].
  set (buffer1 := memcpy buffer chunk to_read) in *.
  assert (Hb1 : take (ix to_read) buffer1 = chunk
                /\ to_read <= Z.of_nat (length buffer1)).
  { subst buffer1. unfold memcpy.
    replace (ix to_read) with (length chunk) by (unfold ix; lia).
    rewrite firstn_all, take_app_length, length_app. split; [reflexivity|lia]. }
  destruct Hb1 as [Hb1 Hb1len].
  destruct (sham_send w fuel io conn packet (Some buffer1) to_read)
    as [[res conn1] io1] eqn:Hsend.
  destruct res as [r1|]; [|discriminate].
  destruct (Z.ltb_spec r1 0) as [|Hr1]; [simplify_eq; lia|].
  destruct (send_wire _ _ _ _ _ _ _ _ _ _ Hsend Hr1 Hok
              ltac:(unfold INT_MAX; lia) Hb1len)
    as (_ & _ & Hok1 & Hcnt1 & Hbase1 & Hseq1 & f1 & out1 & Hout1 & Hsub1 & Hall1
        & Hcat1 & Hcont1 & Hend1).
  rewrite (in_flight_empty conn) in Hall1 by lia.
  rewrite (usize_small (total_sent + to_read)) in H by lia.
  apply IH in H; try assumption; try (unfold INT_MAX; lia).
  destruct H as (Hrr & Hcnt' & Hbase' & Hseq' & f2 & out2 & Hout2 & Hsub2 & Hall2
                 & Hcat2 & Hcont2 & Hend2).
  split; [exact Hrr|]. split; [exact Hcnt'|]. split; [exact Hbase'|].
  split.
  { rewrite Hseq', Hseq1, u32_add_l. f_equal. lia. }
  exists (f1 ++ f2), (out1 ++ out2).
  split; [rewrite Hout2, Hout1, <- app_assoc; reflexivity|].
  split; [apply sublist_app; assumption|].
  split.
  { apply Forall_app. split.
    - eapply Forall_impl; [exact Hall1|]. intros q [Hq|[]].
      apply in_or_app. left. exact Hq.
    - eapply Forall_impl; [exact Hall2|]. intros q Hq.
      apply in_or_app. right. exact Hq. }
  rewrite !map_app. split.
  { rewrite concat_app, Hcat1, Hcat2, Hb1. subst chunk. unfold fread.
    replace (ix (total_sent + to_read)) with (ix total_sent + ix to_read)%nat
      by (unfold ix; lia).
    rewrite <- drop_drop. apply take_drop. }
  split.
  { apply contiguous_from_app; [exact Hcont1|]. rewrite Hend1. exact Hcont2. }
  rewrite stream_end_app, Hend1. exact Hend2.
Qed.

(** X21: a [sham_send_file] that returns a non-negative result returns the
    size of the file (a size within the range of [int]).  The connection
    was ESTABLISHED; everything sent is acknowledged ([window_count = 0],
    [send_base = send_seq]) and [send_seq] has advanced by 4 plus the size.
    The packets that the call sent ([out], appended to what was sent
    before) contain, in this order, the first transmissions [firsts]; every
    other packet sent repeats one of them or a packet that was in flight
    when the call began.  The first transmissions carry, in order and at
    contiguous sequence numbers from [send_seq] on, the four bytes of the
    size in network byte order followed by the content of the file. *)
Theorem send_file_outcome w fuel io conn packet buffer content r conn' io' :
  sham_send_file w fuel io conn packet buffer (Some content) = (Some r, conn', io') ->
  0 <= r -> window_tail_ok conn -> Z.of_nat (length content) <= INT_MAX ->
  r = Z.of_nat (length content) /\ state conn = SHAM_ESTABLISHED
  /\ window_count conn' = 0 /\ send_base conn' = send_seq conn'
  /\ send_seq conn' = u32 (send_seq conn + 4 + Z.of_nat (length content))
  /\ exists firsts out,
       sent io' = sent io ++ out
       /\ sublist firsts out
       /\ Forall (fun p => In p firsts \/ In p (map we_packet (in_flight conn))) out
       /\ concat (map snd (map wire_segment firsts))
          = file_size_header (Z.of_nat (length content)) ++ content
       /\ contiguous_from (send_seq conn) (map wire_segment firsts).
Proof.
  unfold sham_send_file. intros H Hr Hok Hsize.
  destruct (sham_send w fuel io conn packet _ 4) as [[res conn1] io1] eqn:Hsend.
  destruct res as [r1|]; [|discriminate].
  destruct (Z.ltb_spec r1 0) as [|Hr1]; [simplify_eq; lia|].
  destruct (send_wire _ _ _ _ _ _ _ _ _ _ Hsend Hr1 Hok
              ltac:(unfold INT_MAX; lia) ltac:(cbn; lia))
    as (_ & Hst & Hok1 & Hcnt1 & Hbase1 & Hseq1 & f1 & out1 & Hout1 & Hsub1 & Hall1
        & Hcat1 & Hcont1 & Hend1).
  apply send_file_loop_stream in H; try assumption; try lia.
  destruct H as (Hrr & Hcnt' & Hbase' & Hseq' & f2 & out2 & Hout2 & Hsub2 & Hall2
                 & Hcat2 & Hcont2 & Hend2).
  split; [exact Hrr|]. split; [exact Hst|]. split; [exact Hcnt'|].
  split; [exact Hbase'|]. split.
  { rewrite Hseq', Hseq1, u32_add_l. f_equal. lia. }
  exists (f1 ++ f2), (out1 ++ out2).
  split; [rewrite Hout2, Hout1, <- app_assoc; reflexivity|].
  split; [apply sublist_app; assumption|].
  split.
  { apply Forall_app. split.
    - eapply Forall_impl; [exact Hall1|]. intros q [Hq|Hq]; [left|right; exact Hq].
      apply in_or_app. left. exact Hq.
    - eapply Forall_impl; [exact Hall2|]. intros q Hq. left.
      apply in_or_app. right. exact Hq. }
  rewrite !map_app. split.
  { rewrite concat_app, Hcat1, Hcat2. reflexivity. }
  apply contiguous_from_app; [exact Hcont1|]. rewrite Hend1. exact Hcont2.
Qed.

Lemma send_file_outcome_witness :
  let w := quiet_world [SelectTimeout; arrival (peer_ack 101 10 32768);
                        SelectTimeout; arrival (peer_ack 101 13 32768)] 0 in
  let run := sham_send_file w 6 io_init (connected 5 100) zero_packet
               (replicate 1024 0) (Some [7; 8; 9]) in
  exists firsts out,
    sent (snd run) = sent io_init ++ out
    /\ sublist firsts out
    /\ concat (map snd (map wire_segment firsts))
       = file_size_header (Z.of_nat (length [7; 8; 9])) ++ [7; 8; 9].
Proof.
  intros w run.
  assert (Hrun : run = (Some 3, snd (fst run), snd run)) by (vm_compute; reflexivity).
  destruct (send_file_outcome w 6 io_init (connected 5 100) zero_packet
              (replicate 1024 0) [7; 8; 9] 3 (snd (fst run)) (snd run) Hrun)
    as (_ & _ & _ & _ & _ & firsts & out & Hout & Hsub & _ & Hdata & _); [settle..|].
  exists firsts, out. split; [exact Hout|]. split; [exact Hsub|exact Hdata].
Defined.

(** ** Receiving a file *)

Lemma recv_exact_loop_staging w fuel rounds io conn packet out len timeout start got
    res conn' out' io' :
  recv_exact_loop w fuel rounds io conn packet out len timeout start got
    = (res, conn', out', io') ->
  packet_well_formed packet -> staging_well_formed conn ->
  0 <= got <= len -> len <= INT_MAX -> Z.of_nat (length out) = len ->
  staging_well_formed conn' /\ Z.of_nat (length out') = len.
Proof.
  revert io conn out got.
  induction rounds as [|rounds IH]; intros io conn out got H Hpk Hwf Hgot Hlen Hout;
    cbn [recv_exact_loop] in H.
  { simplify_eq. auto. }
  unfold INT_MAX in Hlen.
  destruct (Z.ltb_spec got len) as [Hmore|]; [|simplify_eq; auto].
  rewrite (usize_small (len - got)), (to_int_small (len - got)),
    (usize_small (len - got)) in H by (unfold INT_MAX; lia).
  destruct (sham_recv w fuel io conn packet (drop (ix got) out) (len - got))
    as [[[res1 conn1] rest] io1] eqn:Hrecv.
  destruct (recv_within _ _ _ _ _ _ _ _ _ _ _ Hrecv) as (Hl & _ & Hn & _ & Hwf1);
    try assumption; try (unfold INT_MAX; lia).
  { rewrite length_drop. unfold ix. lia. }
  assert (Hout1 : Z.of_nat (length (take (ix got) out ++ rest)) = len).
  { rewrite length_app, length_take, Hl, length_drop. unfold ix. lia. }
  destruct res1 as [n|]; [|simplify_eq; auto].
  specialize (Hn n eq_refl).
  destruct (Z.gtb_spec n 0) as [Hpos|].
  { rewrite (usize_small n), (usize_small (got + n)) in H by lia.
    apply IH in H; try assumption; lia. }
  destruct (timeout >=? 0).
  - destruct (sham_get_time_ms w io1) as [now_ms io2].
    destruct (now_ms - start >? timeout); [simplify_eq; auto|].
    apply IH in H; try assumption; lia.
  - apply IH in H; try assumption; lia.
Qed.

Lemma recv_file_loop_written w fuel rounds io conn packet buffer file_size
    total_received last written total conn' written' io' :
  recv_file_loop w fuel rounds io conn packet buffer file_size total_received
    last written = (Some total, conn', written', io') ->
  packet_well_formed packet -> staging_well_formed conn ->
  SHAM_MAX_DATA_SIZE <= Z.of_nat (length buffer) ->
  0 <= file_size < 2 ^ 32 ->
  0 <= total_received <= file_size ->
  Z.of_nat (length written) = total_received ->
  Z.of_nat (length written') = total /\ total <= file_size
  /\ exists more, written' = written ++ more.
Proof.
  revert io conn buffer total_received last written.
  induction rounds as [|rounds IH];
    intros io conn buffer total_received last written H Hpk Hwf Hbuf Hsize Htot Hw;
    cbn [recv_file_loop] in H; [discriminate|].
  unfold SHAM_MAX_DATA_SIZE in *.
  destruct (Z.ltb_spec total_received file_size) as [Hmore|].
  2:{ simplify_eq. split; [reflexivity|]. split; [lia|].
      exists []. rewrite app_nil_r. reflexivity. }
  rewrite (usize_small (file_size - total_received)) in H by lia.
  set (to_receive := if file_size - total_received >? 1024 then 1024
                     else file_size - total_received) in *.
  assert (Hto : 0 < to_receive <= 1024 /\ to_receive <= file_size - total_received).
  { subst to_receive. destruct (Z.gtb_spec (file_size - total_received) 1024); lia. }
  destruct Hto as [Hto1 Hto2].
  destruct (sham_recv w fuel io conn packet buffer to_receive)
    as [[[res1 conn1] buffer1] io1] eqn:Hrecv.
  destruct (recv_within _ _ _ _ _ _ _ _ _ _ _ Hrecv) as (Hl & _ & Hn & _ & Hwf1);
    try assumption; try (unfold INT_MAX; lia).
  destruct res1 as [n|]; [|discriminate].
  specialize (Hn n eq_refl).
  destruct (sham_get_time_ms w io1) as [now_ms io2] eqn:Hclock.
  destruct (Z.gtb_spec n 0) as [Hpos|].
  - rewrite (usize_small n), (usize_small (total_received + n)) in H by lia.
    apply IH in H; try assumption; try lia.
    + destruct H as (Hlen' & Hle & more & ->).
      split; [exact Hlen'|]. split; [exact Hle|].
      exists (take (ix n) buffer1 ++ more). rewrite app_assoc. reflexivity.
    + rewrite length_app, length_take, Hl. unfold ix. lia.
  - destruct (now_ms - last >? 10000).
    + simplify_eq. split; [reflexivity|]. split; [lia|].
      exists []. rewrite app_nil_r. reflexivity.
    + apply IH in H; try assumption; lia.
Qed.

(** X22: a [sham_recv_file] that returns a non-negative result created the
    file and wrote as many bytes to it as it returns; when it created no
    file (the size did not arrive, or [fopen] failed) it returns -1. *)
Theorem recv_file_outcome w fuel io conn packet size_net buffer creatable
    r conn' written io' :
  sham_recv_file w fuel io conn packet size_net buffer creatable
    = (Some r, conn', written, io') ->
  packet_well_formed packet -> staging_well_formed conn ->
  length size_net = 4%nat -> SHAM_MAX_DATA_SIZE <= Z.of_nat (length buffer) ->
  (0 <= r ->
   creatable = true
   /\ exists bytes, written = Some bytes /\ Z.of_nat (length bytes) = r)
  /\ (written = None -> r = -1).
Proof.
  unfold sham_recv_file, sham_recv_exact. intros H Hpk Hwf Hsz Hbuf.
  destruct (sham_get_time_ms w io) as [start_ms io0].
  destruct (recv_exact_loop w fuel fuel io0 conn packet size_net 4 10000 start_ms 0)
    as [[[nread conn1] size_net1] io1] eqn:Hexact.
  destruct (recv_exact_loop_staging _ _ _ _ _ _ _ _ _ _ _ _ _ _ _ Hexact)
    as [Hwf1 _]; try assumption; try (unfold INT_MAX; lia).
  destruct nread as [n|]; [|discriminate].
  destruct (negb (n =? 4)).
  { simplify_eq. split; [lia|reflexivity]. }
  destruct creatable; cbn [negb] in H.
  2:{ simplify_eq. split; [lia|reflexivity]. }
  destruct (sham_get_time_ms w io1) as [start2 io2].
  pose proof (bswap32_range (ld32 size_net1 0)) as Hsize.
  fold (ntohl (ld32 size_net1 0)) in Hsize. fold (announced_size size_net1) in Hsize.
  set (file_size := announced_size size_net1) in *.
  destruct (recv_file_loop w fuel fuel io2 conn1 packet buffer file_size 0 start2 [])
    as [[[total conn2] written2] io3] eqn:Hloop.
  destruct total as [total|]; [|discriminate].
  destruct (recv_file_loop_written _ _ _ _ _ _ _ _ _ _ _ _ _ _ _ Hloop)
    as (Hlen & Hle & _); try assumption; try lia; try reflexivity.
  destruct (Z.eqb_spec total file_size) as [Heq|]; cbn [negb] in H.
  2:{ simplify_eq. split; [lia|discriminate]. }
  injection H as <- <- <- <-.
  assert (Hint : 0 <= to_int total -> to_int total = total).
  { unfold to_int. intros Hpos.
    destruct (Z.lt_ge_cases total (2 ^ 31)).
    - rewrite Z.mod_small by lia. lia.
    - exfalso. replace (total + 2 ^ 31) with (total - 2 ^ 31 + 1 * 2 ^ 32) in Hpos by lia.
      rewrite Z_mod_plus_full, Z.mod_small in Hpos by lia. lia. }
  split; [|discriminate].
  intros Hpos. split; [reflexivity|]. exists written2.
  split; [reflexivity|]. rewrite Hint by exact Hpos. exact Hlen.
Qed.

Lemma recv_file_outcome_witness :
  let w := quiet_world [arrival (data_segment 101 6 [0; 0; 0; 3]);
                        arrival (data_segment 105 6 [7; 8; 9])] 0 in
  let run := sham_recv_file w 6 io_init (connected 5 100) zero_packet [0; 0; 0; 0]
               (replicate 1024 0) true in
  exists bytes, snd (fst run) = Some bytes /\ Z.of_nat (length bytes) = 3.
Proof.
  intros w run.
  assert (Hrun : run = (Some 3, snd (fst (fst run)), snd (fst run), snd run))
    by (vm_compute; reflexivity).
  destruct (recv_file_outcome w 6 io_init (connected 5 100) zero_packet [0; 0; 0; 0]
              (replicate 1024 0) true 3 (snd (fst (fst run))) (snd (fst run))
              (snd run) Hrun) as [H _]; [settle..|].
  destruct (H ltac:(lia)) as (_ & bytes & Hw & Hl). exists bytes. auto.
Defined.

(** ** The size header of a file transfer *)

Lemma le32_of_bytes4 c0 c1 c2 c3 :
  is_byte c0 -> is_byte c1 -> is_byte c2 -> is_byte c3 ->
  le32 (of_bytes4 c0 c1 c2 c3) = [c0; c1; c2; c3].
Proof.
  unfold le32, of_bytes4. intros H0 H1 H2 H3.
  change (2 ^ 8) with 256. change (2 ^ 16) with (256 * 256).
  change (2 ^ 24) with (256 * 256 * 256).
  rewrite <- !Z.div_div by lia.
  repeat first [rewrite byte_mod by assumption | rewrite byte_div by assumption].
  rewrite (Z.mod_small c3) by exact H3. reflexivity.
Qed.

Lemma bswap32_bytes x :
  bswap32 x
    = of_bytes4 (x / 2 ^ 24 mod 256) (x / 2 ^ 16 mod 256) (x / 2 ^ 8 mod 256)
        (x mod 256).
Proof. unfold bswap32, of_bytes4. lia. Qed.

(** X23: the size header of a file transfer.  [sham_send_file] sends the file
    size modulo 2^32 as four bytes, most significant first, and
    [sham_recv_file] reads such four bytes back as that value: a size below
    2^32 is announced as it is, a larger one is announced reduced modulo
    2^32. *)
Theorem file_size_header_round_trip file_size :
  0 <= file_size ->
  let v := file_size mod 2 ^ 32 in
  file_size_header file_size
    = [v / 2 ^ 24 mod 256; v / 2 ^ 16 mod 256; v / 2 ^ 8 mod 256; v mod 256]
  /\ announced_size (file_size_header file_size) = v
  /\ (file_size < 2 ^ 32 -> announced_size (file_size_header file_size) = file_size).
Proof.
  intros Hpos v. unfold file_size_header, announced_size.
  pose proof (u32_range file_size) as Hu. fold v in Hu.
  change (u32 file_size) with v.
  pose proof (bswap32_range v) as Hb.
  assert (Hdec : ntohl (ld32 (le32 (htonl v)) 0) = v).
  { unfold le32, ld32. cbn [lookup_total list_lookup_total Nat.add].
    unfold htonl. rewrite of_bytes4_split by exact Hb.
    unfold ntohl. apply bswap32_involutive. exact Hu. }
  split; [|split; [exact Hdec|]].
  - unfold htonl. rewrite bswap32_bytes.
    apply le32_of_bytes4; unfold is_byte; apply Z.mod_pos_bound; lia.
  - intros Hlt. rewrite Hdec. apply Z.mod_small. lia.
Qed.

Lemma file_size_header_round_trip_witness :
  file_size_header 70000 = [0; 1; 17; 112]
  /\ announced_size (file_size_header 70000) = 70000.
Proof.
  destruct (file_size_header_round_trip 70000) as (Hb & _ & Hv); [lia|].
  split; [rewrite Hb; vm_compute; reflexivity|apply Hv; lia].
Defined.

(** ** The state the handshake leaves *)

(** X24: the state an accepted connection starts from.  The connection that
    [sham_accept] returns has a well-formed, empty send window with retry
    counters in range, flow-control counters within their types, an empty
    and well-formed staging area, an empty receive buffer of the default
    size, the default peer window, and nothing in flight. *)
Theorem accept_establishes_invariants w io l packet r rnd fresh c l' closed io' :
  sham_accept w io l packet r rnd fresh = (Some c, l', closed, io') ->
  (forall isn_rnd, fresh = Some isn_rnd -> 0 <= isn_rnd) ->
  window_tail_ok c /\ acks_ordered c /\ flow_in_range c /\ retries_bounded c
  /\ staging_empty c /\ staging_well_formed c
  /\ recv_buffer_used c = 0
  /\ recv_buffer_size c = SHAM_DEFAULT_RECV_BUFFER_SIZE
  /\ peer_window_size c = SHAM_DEFAULT_ADVERTISED_WINDOW
  /\ bytes_in_flight c = 0.
Proof.
  unfold sham_accept. intros H Hfresh.
  destruct (negb (state_eqb (state l) SHAM_LISTEN)); [discriminate|].
  destruct (sockfd l <? 0); [discriminate|].
  destruct (sham_recv_packet l packet r rnd) as [[rr l1] syn] eqn:Hrecv.
  destruct (Z.leb_spec rr 0) as [|Hrr]; [discriminate|].
  destruct (negb (has_flag _ _)); [discriminate|].
  destruct fresh as [isn_rnd|]; [|discriminate].
  pose proof (generate_isn_range isn_rnd (Hfresh _ eq_refl)) as Hisn.
  destruct (sham_send_packet w io _) as [res io1] eqn:Hsend.
  destruct (Z.ltb_spec res 0) as [|Hres]; [discriminate|].
  destruct (sham_recv_packet_timeout w io1 _ packet SHAM_RTO_MS)
    as [[[rr2 new3] final_ack] io2] eqn:Hrecv2.
  destruct (Z.leb_spec rr2 0) as [|Hrr2]; [discriminate|].
  destruct (negb _ || negb _); [discriminate|].
  injection H as <- <- <- <-.
  pose proof (u32_range (sham_generate_isn isn_rnd + 1)) as Hseq.
  destruct (recv_packet_timeout_conn _ _ _ _ _ _ _ _ _ Hrecv2)
    as [->|[->|(from & from_len & ->)]].
  all: unfold window_tail_ok, acks_ordered, ring_ok, window_ends, in_flight,
         flow_in_range, retries_bounded, staging_empty, staging_well_formed,
         bytes_in_flight.
  all: cbn -[Z.pow u32 replicate Z.geb].
  all: rewrite Z.geb_leb, Z.leb_refl, Z.sub_diag.
  all: unfold SHAM_WINDOW_SIZE, SHAM_DEFAULT_ADVERTISED_WINDOW, SHAM_MAX_RETRIES, ix.
  all: rewrite ?length_replicate.
  all: repeat split; try reflexivity; try lia.
  all: try (apply Forall_replicate; repeat split; try reflexivity;
            unfold SHAM_MAX_DATA_SIZE; cbn; lia).
Qed.

Lemma accept_establishes_invariants_witness :
  let run :=
    sham_accept (answering (arrival (client_ack 7))) io_init listener zero_packet
      (RecvDgram (sham_wire client_syn) loopback 16) 0 (Some 7) in
  let c := default listener (fst (fst (fst run))) in
  window_tail_ok c /\ acks_ordered c /\ staging_empty c.
Proof.
  intros run c.
  assert (Hrun : run = (Some c, snd (fst (fst run)), snd (fst run), snd run))
    by (vm_compute; reflexivity).
  destruct (accept_establishes_invariants _ _ _ _ _ _ _ _ _ _ _ Hrun)
    as (H1 & H2 & _ & _ & H3 & _).
  - intros isn_rnd [= <-]. lia.
  - auto.
Defined.

(** X25: the state a connected client starts from.  After a successful
    [sham_connect] on a freshly created connection, the same holds as for
    an accepted connection: a well-formed, empty send window, counters in
    range, an empty and well-formed staging area, an empty receive buffer
    of the default size, the default peer window, and nothing in
    flight. *)
Theorem connect_establishes_invariants w io rnd packet sock host port
    conn' packet' io' :
  0 <= rnd ->
  sham_connect w io (sham_create_connection rnd) packet sock host port
    = (0, conn', packet', io') ->
  window_tail_ok conn' /\ acks_ordered conn' /\ flow_in_range conn'
  /\ retries_bounded conn' /\ staging_empty conn' /\ staging_well_formed conn'
  /\ recv_buffer_used conn' = 0
  /\ recv_buffer_size conn' = SHAM_DEFAULT_RECV_BUFFER_SIZE
  /\ peer_window_size conn' = SHAM_DEFAULT_ADVERTISED_WINDOW
  /\ bytes_in_flight conn' = 0.
Proof.
  intros Hrnd H.
  destruct (connect_establishes _ _ _ _ _ _ _ _ _ _ Hrnd H)
    as (_ & _ & Htail & Hord & Hflow & _ & Hused).
  split; [exact Htail|]. split; [exact Hord|]. split; [exact Hflow|].
  pose proof (generate_isn_range rnd Hrnd) as Hisn.
  unfold sham_connect in H.
  change (state (sham_create_connection rnd)) with SHAM_CLOSED in H.
  change (sockfd (sham_create_connection rnd) <? 0) with true in H.
  cbn [state_eqb negb] in H.
  change (sockfd (set_sockfd sock (sham_create_connection rnd))) with sock in H.
  destruct (sock <? 0); [discriminate|].
  destruct host as [addr|]; [|discriminate].
  destruct (sham_send_packet w io _) as [res io1].
  destruct (res <? 0); [discriminate|].
  destruct (sham_recv_packet_timeout w io1 _ packet SHAM_RTO_MS)
    as [[[rr conn3] syn_ack] io2] eqn:Hrecv.
  destruct (rr <=? 0); [discriminate|].
  destruct (negb _ || negb _); [discriminate|].
  destruct (sham_send_packet w io2 _) as [res2 io3].
  destruct (res2 <? 0); [discriminate|].
  injection H as <- _ _.
  destruct (recv_packet_timeout_conn _ _ _ _ _ _ _ _ _ Hrecv)
    as [->|[->|(from & from_len & ->)]].
  all: unfold retries_bounded, staging_empty, staging_well_formed, bytes_in_flight.
  all: cbn -[Z.pow u32 replicate Z.geb].
  all: rewrite Z.geb_leb, Z.leb_refl, Z.sub_diag.
  all: unfold SHAM_WINDOW_SIZE, SHAM_DEFAULT_ADVERTISED_WINDOW, SHAM_MAX_RETRIES, ix.
  all: rewrite ?length_replicate.
  all: repeat split; try reflexivity; try lia.
  all: try (apply Forall_replicate; repeat split; try reflexivity;
            unfold SHAM_MAX_DATA_SIZE; cbn; lia).
Qed.

Lemma connect_establishes_invariants_witness :
  let w := quiet_world [arrival (syn_ack_for 5 100)] 0 in
  let run :=
    sham_connect w io_init (sham_create_connection 5) zero_packet 3
      (Some 2130706433) 8080 in
  window_tail_ok (snd (fst (fst run))) /\ acks_ordered (snd (fst (fst run)))
  /\ staging_empty (snd (fst (fst run))).
Proof.
  intros w run.
  assert (Hrun : run = (0, snd (fst (fst run)), snd (fst run), snd run))
    by (vm_compute; reflexivity).
  destruct (connect_establishes_invariants w io_init 5 zero_packet 3
              (Some 2130706433) 8080 _ _ _ ltac:(lia) Hrun)
    as (H1 & H2 & _ & _ & H3 & _).
  auto.
Defined.

(** ** Buffer accounting when the segment fits *)

(** X26: handling one data segment in [sham_recv] leaves [recv_buffer_used]
    and [recv_buffer_size] as they were, whether the segment is in order,
    ahead or behind, provided an in-order segment fits into what is left of
    the application buffer ([recv_buffer_used] within a [recv_buffer_size]
    of at most 32768 to begin with). *)
Theorem recv_segment_balanced w io conn packet buffer bytes_received len :
  0 <= recv_buffer_used conn <= recv_buffer_size conn ->
  recv_buffer_size conn <= SHAM_DEFAULT_RECV_BUFFER_SIZE ->
  0 < data_len packet <= SHAM_MAX_DATA_SIZE ->
  (seq_num (header packet) = recv_seq conn ->
   data_len packet <= usize (len - bytes_received)) ->
  let '(conn', _, _, _) :=
    recv_segment w io conn packet buffer bytes_received len in
  recv_buffer_used conn' = recv_buffer_used conn
  /\ recv_buffer_size conn' = recv_buffer_size conn.
Proof.
  intros Hused Hsize Hlen Hfit. unfold recv_segment.
  pose proof (place_segment_balanced conn packet buffer bytes_received len
                Hused Hsize Hlen Hfit) as Hbal.
  destruct (place_segment conn packet buffer bytes_received len)
    as [[conn1 buffer1] received1] eqn:Hplace.
  destruct (sham_send_packet w io _) as [r io1].
  split; [exact Hbal|].
  unfold place_segment in Hplace.
  destruct (seq_num (header packet) =? recv_seq conn).
  - destruct (sham_deliver_ooo_packets _ _ _ _) as [[c3 b3] r3] eqn:E.
    injection Hplace as <- _ _.
    pose proof (deliver_loop_recv_buffer (S (ix SHAM_WINDOW_SIZE))
                  (sham_update_recv_buffer
                     (set_recv_seq (u32 (recv_seq conn + data_len packet)) conn)
                     (to_int (data_len packet)))
                  (mem_write buffer bytes_received (data packet)
                     (min_copy (data_len packet) (usize (len - bytes_received))))
                  (usize (bytes_received
                          + min_copy (data_len packet) (usize (len - bytes_received))))
                  len) as [_ Hs].
    unfold sham_deliver_ooo_packets in E. rewrite E in Hs. cbn [fst] in Hs.
    assert (Hupd : forall c n, recv_buffer_size (sham_update_recv_buffer c n)
                               = recv_buffer_size c).
    { intros c n. unfold sham_update_recv_buffer. repeat case_match; reflexivity. }
    rewrite Hupd, Hs, Hupd. reflexivity.
  - destruct (seq_num (header packet) >? recv_seq conn);
      injection Hplace as <- _ _; [|reflexivity].
    destruct (buffer_ooo_loop_result (ix SHAM_WINDOW_SIZE) 0 conn packet)
      as [E|[j E]]; unfold sham_buffer_ooo_packet; rewrite E; reflexivity.
Qed.

Lemma recv_segment_balanced_witness :
  let run := recv_segment (quiet_world [] 0) io_init (connected 5 100)
               (received_segment 101 6 [1; 2; 3; 4]) [0; 0; 0; 0] 0 4 in
  recv_buffer_used (fst (fst (fst run))) = recv_buffer_used (connected 5 100).
Proof.
  intros run.
  pose proof (recv_segment_balanced (quiet_world [] 0) io_init (connected 5 100)
                (received_segment 101 6 [1; 2; 3; 4]) [0; 0; 0; 0] 0 4) as H.
  fold run in H. rewrite (quadruple_eta run) in H. apply H; settle.
Defined.

(** ** One segment, end to end *)

Lemma handle_timeout_idle w io conn :
  window_count conn = 0 ->
  sham_handle_timeout w io conn = (0, conn, snd (gettimeofday w io)).
Proof.
  intros H. unfold sham_handle_timeout, gettimeofday. rewrite H. reflexivity.
Qed.

(** The first round of [sham_send] on an empty window while nothing
    arrives: the segment goes out. *)
Lemma send_loop_first w fuel io conn packet bytes :
  let len := Z.of_nat (length bytes) in
  net w (n_net io) = SelectTimeout -> sendto_ok w (n_send io) = true ->
  window_count conn = 0 -> sham_can_send_data conn len = true ->
  0 < len <= SHAM_MAX_DATA_SIZE ->
  let segment := peer_segment conn (send_seq conn) (recv_seq conn) bytes in
  let now := clock w (S (n_clock io)) in
  let conn' := record_sent conn segment len now in
  exists io',
    send_loop w (S (S fuel)) io conn packet (Some bytes) len 0
      = wait_acked w fuel io' conn' packet len
    /\ n_net io' = S (n_net io) /\ n_send io' = S (n_send io)
    /\ sent io' = sent io ++ [segment].
Proof.
  intros len Hnet Hsend Hcnt Hgate Hlen segment now conn'.
  remember (S fuel) as f1 eqn:Hf1.
  cbn [send_loop].
  replace (0 <? len) with true by (symmetry; apply Z.ltb_lt; lia).
  rewrite Hf1. cbn [drain_acks]. unfold sham_recv_packet_timeout at 1. rewrite Hnet.
  cbn [Z.gtb Z.compare negb].
  rewrite handle_timeout_idle by exact Hcnt. unfold gettimeofday at 1. cbn [snd].
  rewrite Hcnt. change (0 >=? SHAM_WINDOW_SIZE) with false. cbv iota.
  assert (Hchunk : chunk_of len 0 = len).
  { unfold chunk_of. rewrite Z.sub_0_r, usize_small by (unfold SHAM_MAX_DATA_SIZE in *; lia).
    destruct (Z.gtb_spec len SHAM_MAX_DATA_SIZE); lia. }
  rewrite Hchunk, Hgate. cbn [negb].
  change (ptr_add (Some bytes) 0) with (Some (drop 0 bytes)). rewrite drop_0.
  change (sham_create_packet_with_conn conn (send_seq conn) (recv_seq conn) 0
            (Some bytes) len) with segment.
  unfold sham_send_packet, gettimeofday.
  cbn [observe net_tick n_net n_send n_clock sent trace snd]. rewrite Hsend.
  assert (Hseglen : data_len segment = len).
  { exact (proj1 (create_packet_payload (send_seq conn) (recv_seq conn) 0 bytes
                    len Hlen)). }
  rewrite Hseglen. unfold SHAM_MAX_DATA_SIZE in Hlen.
  replace (to_int (usize (SHAM_HEADER_SIZE + len)) <? 0) with false.
  2:{ symmetry. apply Z.ltb_ge. unfold SHAM_HEADER_SIZE.
      rewrite usize_small, to_int_small by (unfold INT_MAX; lia). lia. }
  cbn [n_net n_send n_clock sent trace observe].
  fold now. fold conn'.
  rewrite Z.add_0_l, usize_small by lia.
  cbn [send_loop]. rewrite Z.ltb_irrefl.
  eexists. split; [reflexivity|]. cbn [n_net n_send sent]. auto.
Qed.

(** An in-order segment that fills the buffer of a receiver with nothing
    staged. *)
Lemma place_segment_in_order conn q buffer len :
  staging_empty conn -> seq_num (header q) = recv_seq conn ->
  data_len q = len -> 0 < len <= SHAM_MAX_DATA_SIZE ->
  0 <= recv_seq conn -> recv_seq conn + len < 2 ^ 32 ->
  0 <= recv_buffer_used conn -> recv_buffer_used conn + len < 2 ^ 16 ->
  exists conn',
    place_segment conn q buffer 0 len
      = (conn', mem_write buffer 0 (data q) len, len)
    /\ recv_seq conn' = recv_seq conn + len
    /\ send_seq conn' = send_seq conn.
Proof.
  intros Hempty Hseq Hlen Hl Hs Hend Hused Hfit.
  unfold SHAM_MAX_DATA_SIZE in Hl.
  unfold place_segment. rewrite Hseq, Z.eqb_refl, Hlen.
  rewrite Z.sub_0_r, (usize_small len) by lia.
  assert (Hcopy : min_copy len len = len)
    by (unfold min_copy; destruct (Z.gtb_spec len len); lia).
  rewrite Hcopy, Z.add_0_l, (usize_small len), (u32_small (recv_seq conn + len)),
    (to_int_small len) by (unfold INT_MAX; lia).
  rewrite deliver_nothing.
  2:{ destruct Hempty as [H1 H2].
      split; rewrite update_recv_buffer_ooo; assumption. }
  eexists. split; [reflexivity|].
  rewrite !update_recv_buffer_recv_seq. split; [reflexivity|].
  unfold sham_update_recv_buffer. repeat case_match; reflexivity.
Qed.

(** A cumulative ACK that covers the single segment in flight. *)
Lemma process_ack_single conn p :
  window_count conn = 1 ->
  packet_end (send_window conn !!! ix (window_start conn))
    <= ack_num (header p) ->
  window_count (sham_process_ack conn p) = 0
  /\ send_base (sham_process_ack conn p)
     = packet_end (send_window conn !!! ix (window_start conn))
  /\ send_seq (sham_process_ack conn p) = send_seq conn
  /\ recv_seq (sham_process_ack conn p) = recv_seq conn.
Proof.
  intros Hcnt Hcov. unfold sham_process_ack.
  set (ack := ack_num (header p)) in *.
  set (conn1 := set_peer_window_size _ conn).
  set (conn2 := if ack >? last_byte_acked conn1 then _ else conn1).
  assert (H2 : window_count conn2 = 1
               /\ send_window conn2 = send_window conn
               /\ window_start conn2 = window_start conn
               /\ send_seq conn2 = send_seq conn
               /\ recv_seq conn2 = recv_seq conn).
  { subst conn2. destruct (ack >? last_byte_acked conn1); subst conn1;
      repeat split; exact Hcnt. }
  destruct H2 as (Hc2 & Hw2 & Hs2 & Hq2 & Hr2).
  rewrite Hc2. change (ix 1) with 1%nat. cbn [ack_walk].
  rewrite Hc2, Hw2, Hs2. change (1 >? 0) with true. cbv iota.
  replace (packet_end (send_window conn !!! ix (window_start conn)) <=? ack)
    with true by (symmetry; apply Z.leb_le; exact Hcov).
  unfold acknowledge_head.
  cbn [window_count send_base send_seq recv_seq set_window_count set_window_start
       set_send_base set_send_window].
  rewrite Hc2, Hw2, Hs2, Hq2, Hr2. repeat split.
Qed.

(** The wait for the last ACK, when that ACK arrives. *)
Lemma wait_acked_single w fuel io conn packet len ackp seq ack win :
  net w (n_net io) = arrival ackp ->
  header ackp = {| seq_num := htonl seq; ack_num := htonl ack;
                   flags := htons SHAM_ACK; window_size := htons win |} ->
  data_len ackp = 0 ->
  0 <= seq < 2 ^ 32 -> 0 <= ack < 2 ^ 32 -> 0 <= win < 2 ^ 16 ->
  lossless conn -> window_count conn = 1 ->
  packet_end (send_window conn !!! ix (window_start conn)) <= ack ->
  exists conn' io',
    wait_acked w (S (S fuel)) io conn packet len = (Some (to_int len), conn', io')
    /\ window_count conn' = 0
    /\ send_base conn' = packet_end (send_window conn !!! ix (window_start conn))
    /\ send_seq conn' = send_seq conn.
Proof.
  intros Hnet Hh Hl Hseq Hack Hwin Hloss Hcnt Hcov.
  destruct (recv_header_packet conn packet seq ack SHAM_ACK win Hseq Hack
              ltac:(unfold SHAM_ACK; lia) Hwin Hloss ackp Hh Hl) as (bytes & Hrun).
  set (q := {| header := {| seq_num := seq; ack_num := ack; flags := SHAM_ACK;
                            window_size := win |};
               data := bytes; data_len := 0 |}) in *.
  set (conn1 := learn_peer conn loopback 16) in *.
  assert (H1 : window_count conn1 = 1
               /\ send_window conn1 = send_window conn
               /\ window_start conn1 = window_start conn
               /\ send_seq conn1 = send_seq conn).
  { subst conn1. unfold learn_peer. destruct (peer_len conn =? 0);
      repeat split; exact Hcnt. }
  destruct H1 as (Hc1 & Hw1 & Hs1 & Hq1).
  destruct (process_ack_single conn1 q Hc1) as (Hc2 & Hb2 & Hq2 & _).
  { rewrite Hw1, Hs1. exact Hcov. }
  assert (Hstep : forall f io0 c pk,
            wait_acked w (S f) io0 c pk len
              = if window_count c >? 0
                then let '(c', pk', io') := wait_round w io0 c pk in
                     wait_acked w f io' c' pk' len
                else (Some (to_int len), c, io0)) by reflexivity.
  rewrite Hstep, Hcnt. change (1 >? 0) with true. cbv iota.
  unfold wait_round, sham_recv_packet_timeout. rewrite Hnet. unfold arrival.
  rewrite Hrun. change (SHAM_HEADER_SIZE >? 0) with true. cbv iota.
  unfold on_ack. change (has_flag (flags (header q)) SHAM_ACK) with true.
  cbv iota. rewrite (handle_timeout_idle _ _ _ Hc2).
  rewrite Hstep. cbn [window_count]. rewrite Hc2.
  change (0 >? 0) with false. cbv iota.
  eexists _, _. split; [reflexivity|].
  rewrite Hb2, Hq2, Hw1, Hs1, Hq1. repeat split. exact Hc2.
Qed.

(** X27: one segment, end to end.  Between two ESTABLISHED connections in
    step (the receiver's [recv_seq] is the sender's [send_seq]; no loss, an
    empty send window that the peer window admits, nothing staged, sequence
    numbers not wrapping), [sham_send] of 1 to 1024 bytes and [sham_recv]
    for as many, each fed the packet the other one sends, both return the
    length: the receiver's buffer starts with the sender's bytes and is
    otherwise unchanged, the sender's window is empty again with
    [send_base = send_seq] advanced by the length, and the two connections
    are in step again. *)
Theorem exchange_delivers fuel sender receiver bytes buffer :
  let len := Z.of_nat (length bytes) in
  state sender = SHAM_ESTABLISHED -> state receiver = SHAM_ESTABLISHED ->
  lossless sender -> lossless receiver -> peer_len receiver <> 0 ->
  window_tail_ok sender -> window_count sender = 0 ->
  sham_can_send_data sender len = true ->
  0 < len <= SHAM_MAX_DATA_SIZE -> send_seq sender + len < 2 ^ 32 ->
  0 <= recv_seq sender < 2 ^ 32 -> 0 <= send_seq receiver < 2 ^ 32 ->
  recv_seq receiver = send_seq sender ->
  staging_empty receiver ->
  0 <= recv_buffer_used receiver -> recv_buffer_used receiver + len < 2 ^ 16 ->
  len <= Z.of_nat (length buffer) ->
  exists sender' receiver',
    exchange (S (S (S (S fuel)))) sender receiver bytes buffer
      = (Some len, sender', Some len, receiver',
         bytes ++ drop (length bytes) buffer)
    /\ send_seq sender' = send_seq sender + len
    /\ send_base sender' = send_seq sender'
    /\ window_count sender' = 0
    /\ recv_seq receiver' = send_seq sender'.
Proof.
  intros len Hss Hsr Hls Hlr Hpeer Htail Hcnt Hgate Hlen Hend Hrs Hsq Hsync
    Hempty Hused Hfit Hroom.
  pose proof Htail as (Hws & _ & Hswlen & Hseq & _).
  set (segment := peer_segment sender (send_seq sender) (recv_seq sender) bytes).
  (* the segment the sender transmits *)
  assert (Hfirst : first_transmission sender bytes = segment).
  { unfold first_transmission, sham_send. rewrite Hss. cbn [state_eqb].
    destruct (send_loop_first (quiet_world [] 0) 0 io_init sender zero_packet bytes)
      as (io' & Hrun & _ & _ & Hsent); try assumption; try reflexivity.
    fold len in Hrun |- *. rewrite Hrun. cbn [wait_acked snd].
    unfold nth_sent. rewrite Hsent. reflexivity. }
  unfold exchange. fold len. rewrite Hfirst.
  (* the receiver *)
  unfold sham_recv. rewrite Hsr. cbn [state_eqb].
  destruct (recv_loop_data_step (answering (arrival segment)) (S (S (S fuel)))
              io_init receiver zero_packet buffer 0 len sender (send_seq sender)
              (recv_seq sender) bytes)
    as (q & Hqseq & Hqlen & Hqdata & _ & Hstep);
    try assumption; try reflexivity; try lia.
  rewrite Hstep. clear Hstep. fold len in Hqlen.
  destruct (place_segment_in_order receiver q buffer len)
    as (receiver' & Hplace & Hr'seq & Hr'snd);
    try assumption; try lia.
  rewrite Hplace, recv_loop_full.
  set (ack := sham_create_packet_with_conn receiver' (send_seq receiver')
                (recv_seq receiver') SHAM_ACK None 0).
  change (nth_sent 0 _) with ack.
  (* the sender *)
  unfold sham_send. rewrite Hss. cbn [state_eqb].
  set (w := quiet_world [SelectTimeout; arrival ack] 0).
  destruct (send_loop_first w (S (S fuel)) io_init sender zero_packet bytes)
    as (io1 & Hrun & Hnet1 & _ & _); try assumption; try reflexivity.
  fold len in Hrun. rewrite Hrun. clear Hrun.
  fold segment.
  set (sender1 := record_sent sender segment len _).
  assert (Hentry : send_window sender1 !!! ix (window_start sender1)
                   = new_entry segment (clock w (S (n_clock io_init)))).
  { pose proof (newest_entry_record_sent sender segment len
                  (clock w (S (n_clock io_init))) Htail
                  ltac:(rewrite Hcnt; unfold SHAM_WINDOW_SIZE; lia)) as Hn.
    unfold newest_entry, slot in Hn. fold sender1 in Hn.
    change (window_count sender1) with (window_count sender + 1) in Hn.
    change (window_start sender1) with (window_start sender) in Hn |- *.
    rewrite Hcnt in Hn. change (0 + 1 - 1) with 0 in Hn.
    rewrite Z.add_0_r, Z.rem_small in Hn by exact Hws. exact Hn. }
  assert (Hseglen : data_len segment = len).
  { exact (proj1 (create_packet_payload (send_seq sender) (recv_seq sender) 0
                    bytes len Hlen)). }
  assert (Hend1 : packet_end (send_window sender1 !!! ix (window_start sender1))
                  = send_seq sender + len).
  { rewrite Hentry. unfold packet_end, new_entry. cbn [we_packet].
    rewrite Hseglen. subst segment. unfold peer_segment.
    rewrite create_packet_with_conn_header. cbn [seq_num].
    rewrite ntohl_htonl by lia. apply u32_small. lia. }
  pose proof (advertised_window_range receiver') as Hadv.
  destruct (wait_acked_single w fuel io1 sender1 zero_packet len ack
              (send_seq receiver') (recv_seq receiver')
              (sham_calculate_advertised_window receiver'))
    as (sender' & io' & Hwait & Hc' & Hb' & Hq').
  { rewrite Hnet1. reflexivity. }
  { apply create_packet_with_conn_header. }
  { reflexivity. }
  { rewrite Hr'snd. exact Hsq. }
  { rewrite Hr'seq, Hsync. lia. }
  { lia. }
  { exact Hls. }
  { change (window_count sender1) with (window_count sender + 1). lia. }
  { rewrite Hend1, Hr'seq, Hsync. lia. }
  rewrite Hwait.
  assert (Hq1 : send_seq sender1 = send_seq sender + len).
  { change (send_seq sender1) with (u32 (send_seq sender + len)).
    apply u32_small. lia. }
  exists sender', receiver'.
  unfold SHAM_MAX_DATA_SIZE in Hlen.
  rewrite !to_int_small by (unfold INT_MAX; lia).
  rewrite mem_write_start. replace (ix len) with (length bytes) by (unfold ix, len; lia).
  rewrite Hqdata.
  split; [reflexivity|]. rewrite Hb', Hq', Hend1, Hq1, Hr'seq, Hsync.
  repeat split. exact Hc'.
Qed.

Lemma exchange_delivers_witness :
  exists sender' receiver',
    exchange 4 (connected 5 100) (connected 100 5) [1; 2; 3] [0; 0; 0; 9]
      = (Some 3, sender', Some 3, receiver', [1; 2; 3; 9])
    /\ recv_seq receiver' = send_seq sender'.
Proof.
  destruct (exchange_delivers 0 (connected 5 100) (connected 100 5) [1; 2; 3]
              [0; 0; 0; 9])
    as (sender' & receiver' & Hrun & _ & _ & _ & Hsync).
  1-17: try (unfold window_tail_ok; by_evaluation).
  - split; [reflexivity|]. apply Forall_replicate. reflexivity.
  - exists sender', receiver'. split; [exact Hrun|exact Hsync].
Defined.
